(* ===== verification/_CoqProject ===== *)
-Q . S2P
Prelude.v
Monad.v
CMem.v
CString.v
Abi.v
Layout.v
PageWalk.v
PoolSlots.v
Arm64.v
RemoteCode.v
Social.v
RemoteSound.v
SocialSound.v
Services.v
Pool.v
PoolPoll.v
Kernel.v
KernelLogic.v
Session.v
Ledger.v
Device.v
Commit.v
Ready.v
Gate.v
Run.v
Lifecycle.v
Sessions.v
Demo.v
Guarantees.v
Ubsm.v
Owner.v
Connect.v
Single.v
ErpcUb.v
ErpcConfig.v
Spsc.v
Arena.v
ArenaSound.v
Machine.v
MachineSound.v
Context.v
ContextSound.v
Transport.v
TransportSound.v
TransportRun.v
TransportBounds.v
Wire.v
Delivery.v
Client.v
ClientSound.v
