(* ===== verification/Prelude.v ===== *)
(** * Verification of the UB code of ub-application

    ** The program

    Two systems of the repository communicate through memory that machines share
    over the UB interconnect, with the UBSM library to allocate and map it.

    The remote-domain LRPC package (src/eRPC-LRPC-UB): an owner on machine B
    publishes a 4 MiB region; processes on machine A import it and call the services
    in it.  A kernel module on A (kernel/ub-domain/domain.c) leases a slot of the
    region to each session, allocates the pages of its domains, sends B a contract
    with their physical addresses (struct ud_contract), checks the page tables that B
    builds from it, copies and verifies the code B publishes, and enters the domains
    at EL0 through an assembly gate.  The client library (lib/ub_domain_client.c)
    binds to the region through the module and the region library
    (lib/backend_ubsm.c); the owner (demo/ub/domain_owner.c) answers the requests
    through the pool library (lib/ub_domain_pool.c).

    The UB transport of eRPC (src/eRPC/src/transport_impl/ub): every machine has one
    shared region with a registry of endpoints; an endpoint has an inbox of
    single-producer single-consumer queues and an arena.  A sender allocates messages
    in its arena (ub_shared_allocator.cc) and puts descriptors into its queue at the
    receiver (ub_spsc_queue.h), which reads the payload in the sender's region and
    drops the reference.  A process reaches the regions through its machine context
    (ub_machine.cc), which registers endpoints itself or through the manager
    (ub_manager.cc) and shares the mappings of other machines' regions.

    ** The files

    Foundations:
    - Prelude: integers at their widths, notations, tactics, lists and functions.
    - Monad: record update, the state and error monad, weakest preconditions.
    - CMem, CString: bytes of memory, C structures over them ([CStruct]), C strings.

    The domain package, each file with the sources it models:
    - Abi (ub_lrpc_ub_domain.h): constants, offsets, structures.
    - Layout (ub_domain_layout.h): [ud_build_table] and the contract checks; PageWalk:
      the hardware's table walk and what the built tables translate.
    - PoolSlots (pool_slots.h): the table of leased and quarantined slots.
    - Arm64: the A64 instructions that domain code may use; RemoteCode
      (ub_remote_code.h, ub_remote_social.h, the two generators): the verifiers;
      RemoteSound, SocialSound: what verified code does when it runs.
    - Social (ub_social.h), Services (services.S, social_services.S,
      ub_domain_services.h): routing data and the built-in images.
    - Pool (ub_domain_pool.c): initialization and poll; PoolPoll: what a poll writes.
    - Kernel, Session, Gate, Run (domain.c, gate.S, gate_nested.S, nested_gate.h): the
      module's state [kstate], preparation and commit, the gate, calls and [ud_ioctl];
      KernelLogic, Ledger, Device, Commit, Ready, Lifecycle: its invariant, handler by
      handler; Sessions: all sessions as a step relation; Guarantees: its theorems;
      Demo: a concrete platform.
    - Ubsm (backend_ubsm.c, ubsm_pa.c): the region library.
    - Owner (domain_owner.c, provider_options.h): the owner's program; Connect,
      Single: owner and module together.
    - Client (ub_domain_client.c, ub_domain_api.c, ub_nested_path.h): bind, invoke,
      close, on top of Ubsm and Run; ClientSound: its theorem.

    The eRPC UB transport:
    - ErpcUb: the structures in a region; ErpcConfig (ub_config.h): the settings and
      the identity of a machine.
    - Spsc (ub_spsc_queue.h): the queue, as calls and access by access.
    - Arena (ub_shared_allocator.cc); ArenaSound: its invariant and theorems.
    - Machine (registry of ub_machine.cc, [handle_request] of ub_manager.cc);
      MachineSound: its invariant and theorems.
    - Context (UBMachineRegionOwner and UBMachineContext of ub_machine.cc);
      ContextSound: reference counts and mappings.
    - Transport (ub_transport.cc); TransportSound: its invariant; TransportRun: its
      theorems over every sequence of calls; TransportBounds: its accesses stay inside
      the regions; Wire: what crosses between machines; Delivery: a message from the
      sender's [tx_burst] to the receiver's [rx_burst].

    A definition has the name of the function, method or structure it models; a
    method that clashes with another has its class in front
    ([context_register_endpoint]).  A member [x_] of a class is the field with the
    prefix of its record ([t_pending_count] for pending_tx_count_).

    ** Conventions

    - Unsigned integers are [Z] values; additions that can wrap in the source are
      taken modulo 2^32 or 2^64.  Counters that an invariant keeps small (the
      transport's lists and reference counts) are not reduced.
    - Memory is a function from addresses to bytes; structures are read and written
      whole at their offsets.
    - A function that changes state or can fail is a value of the monad [MS S A]: a
      negative error code, a C++ exception and a failed assertion are error values;
      accesses through a name that is not mapped, array accesses out of range and loops
      that run out of fuel are error values of their own, which the theorems exclude.
      Waiting for an allocator lock that is taken, a loop without end in the source if
      the holder never gives it back, is the error value [SPINS]; it is not counted as
      a fault, and the theorems name it where it can occur.
    - The contents of a region are defined at every offset: an offset outside the region
      does not fail in the model.  Instead [c_touched] records the spans that the
      transport accesses at places it computes itself, and TransportBounds shows them
      inside the region.  Two kinds of places are not recorded: what a registration
      initializes, which MachineSound shows to be inside; and what the allocator finds
      through offsets in shared memory, the heads of free lists and the reference of a
      block to its arena ([release_metadata]).  A wild value there crashes the program
      and reads as ordinary bytes in the model; ArenaSound shows that the allocator's
      own operations never store one.
    - Code outside the repository is a parameter: Linux is the record [linux] of
      answers, the UBSM library [sdk_answers] (Ubsm) and [sdk] (Context), libobmm two
      functions.  They may answer anything that their documentation allows, and fail
      at any call.
    - Concurrency: sessions, processes and machines act in steps in any order; where
      the code relies on single accesses (the queue, the stores that initialize a
      region) the steps are those accesses.  The allocator's operations are atomic,
      as its class locks make them.  Memory is sequentially consistent.

    ** What the theorems show

    - Isolation: the tables translate exactly the pages of the contract with the
      intended permissions; verified code returns and writes only its result fields;
      slots are leased to one session at a time and never again once quarantined;
      [ud_mmap] shows argument pages only.
    - Resources: whatever requests arrive and fail, the module returns exactly what it
      holds, a failed prepare is undone, the SDK is never misused, and a bind holds
      everything or nothing, unless its cleanup fails: then the handle keeps what is
      left for another close.
    - Protocol: a poll answers every pending request, an accepted request commits, in
      both modes of the owner; generated code is accepted and computes the printed
      results.
    - The queue is a FIFO under every interleaving; the allocator's blocks never
      overlap and their counts are exact; registered endpoints never overlap and
      importers refuse stale handles.
    - The transport keeps the order of what it accepts, uses only live mappings and
      stays inside the regions whatever descriptors, handles and routes other processes
      write (as long as they leave the allocator's metadata alone and give its locks
      back), drains in bounded time, and gives
      everything back in its destructor; routes and shared objects arrive as they were
      sent, a delivered payload lies in the sender's region, and a message sent through an
      empty queue is received with the sender's header and bytes.

    ** Bounds and fuel

    - EL0 code runs for [fuel] instructions in Gate; an entry that still runs raises
      [EL0_RUNNING].  For verified images RemoteSound and SocialSound give the exact
      number of instructions, so any larger fuel gives the same result.
    - [drain_all_pending] has fuel 64, the number of endpoints: [draining_terminates]
      shows that the number of waiting peers is enough and that more changes nothing.
    - [rx_burst] and the search of [unregister_rx_peer] are counted loops: their fuel is
      the bound of the loop, 32 messages and the number of active sources.
    - The search of a size class has the 18 classes as fuel, and stops before
      ([class_for_is_least]); [shutdown] in a destructor tries once, as its timeout
      is 0.
    - MachineSound assumes region and arena sizes of at most 2^62 bytes and arenas
      larger than the 320 bytes of their header ([configured]);
      [storage_outside_the_region_is_assigned] and [empty_arena_is_refused_late] show
      what the code does otherwise.

    ** Not modelled

    - In the package: the VHE and trace builds of the module, its registration as a
      device, saving and restoring A's own registers in the gates, the measurement
      programs under demo/ub, scripts and tests.
    - In the transport: profiling, text for logs, the manager's socket loop and
      signals, and eRPC above the transport interface (sessions, packet loss,
      congestion control), whose calls TransportRun takes in any order.
    - The other transports, the applications, the earlier versions of the package
      (src/eRPC-LRPC, src/eRPC-LRPC-UB-el1-prev), src/tigon, src/semgrep, src/tests
      and the third-party libraries: separate programs, or code that the UB code does
      not call. *)

From Stdlib Require Export ZArith Lia Bool.
From stdpp Require Export base list list_numbers numbers option relations.

#[global] Open Scope Z_scope.

(** ** Machine integers

    Unsigned C integers are [Z] values; every operation of the source that can
    wrap is written with [u32] or [u64]. *)

Definition u32 (z : Z) : Z := z mod 2 ^ 32.
Definition u64 (z : Z) : Z := z mod 2 ^ 64.

Definition in_u32 (z : Z) : Prop := 0 <= z < 2 ^ 32.
Definition in_u64 (z : Z) : Prop := 0 <= z < 2 ^ 64.

Definition BIT (n : Z) : Z := Z.shiftl 1 n.

Declare Scope c_scope.
Delimit Scope c_scope with c.
#[global] Open Scope c_scope.

(** C comparisons and tests as booleans. *)
Notation "x !=? y" := (negb (x =? y)) (at level 70, no associativity) : c_scope.
Notation "x >? y" := (y <? x) (at level 70, no associativity, only parsing) : c_scope.
Notation "x >=? y" := (y <=? x) (at level 70, no associativity, only parsing) : c_scope.
Notation "x .| y" := (Z.lor x y) (at level 50, left associativity) : c_scope.
Notation "x .& y" := (Z.land x y) (at level 40, left associativity) : c_scope.
Notation "x .<< y" := (Z.shiftl x y) (at level 35, no associativity) : c_scope.
Notation "x .>> y" := (Z.shiftr x y) (at level 35, no associativity) : c_scope.
(** [nz x] is the C truth value of the integer [x]; [z0 x] is [!x]. *)
Definition nz (x : Z) : bool := x !=? 0.
Definition z0 (x : Z) : bool := x =? 0.

(** ** Errno values (asm-generic, Linux) *)

Definition EPERM := 1.
Definition EIO := 5.
Definition EAGAIN := 11.
Definition ENOMEM := 12.
Definition EFAULT := 14.
Definition EBUSY := 16.
Definition EXDEV := 18.
Definition EINVAL := 22.
Definition ENOTTY := 25.
Definition ENOSPC := 28.
Definition ERANGE := 34.
Definition EPROTO := 71.
Definition EBADMSG := 74.
Definition EPROTONOSUPPORT := 93.
Definition EOPNOTSUPP := 95.
Definition ENOTCONN := 107.
Definition ETIMEDOUT := 110.
Definition EALREADY := 114.
Definition ESTALE := 116.
Definition EACCES := 13.
Definition ERESTARTSYS := 512.
Definition EOVERFLOW := 75.

(** ** Arrays as lists indexed by [Z] *)

Definition nthz {A} (d : A) (l : list A) (i : Z) : A := nth (Z.to_nat i) l d.
Notation "l .[ i ]" := (nthz 0 l i) (at level 1, format "l .[ i ]") : c_scope.

Definition setz {A} (l : list A) (i : Z) (x : A) : list A := <[Z.to_nat i := x]> l.

Lemma setz_length {A} (l : list A) i x : length (setz l i x) = length l.
Proof. apply length_insert. Qed.

Lemma option_cases {A} (o : option A) : o = None \/ exists a, o = Some a.
Proof. destruct o; eauto. Qed.

Lemma nthz_take {A} (d : A) l n i : 0 <= i < n -> nthz d (take (Z.to_nat n) l) i = nthz d l i.
Proof. intros Hi. unfold nthz. rewrite nth_firstn. replace (Z.to_nat i <? Z.to_nat n)%nat with true; [done|]. symmetry. apply Nat.ltb_lt. lia. Qed.

Lemma setz_Forall (P : Z -> Prop) l i v : Forall P l -> P v -> Forall P (setz l i v).
Proof. intros Hl Hv. unfold setz. by apply Forall_insert. Qed.

Lemma nthz_setz_eq {A} (d : A) l i x :
  0 <= i < Z.of_nat (length l) -> nthz d (setz l i x) i = x.
Proof.
  intros H. unfold nthz, setz. apply nth_lookup_Some.
  apply list_lookup_insert_eq. lia.
Qed.

Lemma nthz_setz_ne {A} (d : A) l i j x :
  0 <= i -> 0 <= j -> i <> j -> nthz d (setz l i x) j = nthz d l j.
Proof.
  intros Hi Hj Hne. unfold nthz, setz. rewrite !nth_lookup.
  rewrite list_lookup_insert_ne by lia. done.
Qed.

Lemma list_eq_nthz {A} (d : A) (l k : list A) :
  length l = length k ->
  (forall i, 0 <= i < Z.of_nat (length l) -> nthz d l i = nthz d k i) -> l = k.
Proof.
  intros Hlen Hn. apply (nth_ext l k d d); [done|].
  intros n Hlt. specialize (Hn (Z.of_nat n) ltac:(lia)).
  unfold nthz in Hn. by rewrite Nat2Z.id in Hn.
Qed.

Lemma setz_same l i : 0 <= i < Z.of_nat (length l) -> setz l i l.[i] = l.
Proof.
  intros Hi. destruct (lookup_lt_is_Some_2 l (Z.to_nat i) ltac:(lia)) as [x Hx].
  unfold nthz. rewrite (nth_lookup_Some _ _ _ _ Hx). by apply list_insert_id.
Qed.

Lemma replicate_nthz n i : (replicate n 0).[i] = 0.
Proof.
  unfold nthz. rewrite nth_lookup. destruct (replicate n 0 !! Z.to_nat i) eqn:E; [|done].
  by apply lookup_replicate in E as [-> _].
Qed.
Lemma setz_setz {A} (l : list A) i x y : setz (setz l i x) i y = setz l i y.
Proof. apply list_insert_insert_eq. Qed.

(** Arrays and memories as functions of the index. *)
Definition fn_set {X} (f : Z -> X) (i : Z) (x : X) : Z -> X := fun j => if decide (j = i) then x else f j.

Lemma fn_set_eq {X} (f : Z -> X) i x : fn_set f i x i = x.
Proof. unfold fn_set. by rewrite decide_True. Qed.
Lemma fn_set_ne {X} (f : Z -> X) i j x : i <> j -> fn_set f i x j = f j.
Proof. intros H. unfold fn_set. by rewrite decide_False. Qed.

(** Occurrences in a list. *)
Definition count (b : Z) (l : list Z) : Z := Z.of_nat (length (filter (fun x => x = b) l)).
Lemma count_cons b x l : count b (x :: l) = (if decide (x = b) then 1 else 0) + count b l.
Proof. unfold count. destruct (decide (x = b)); [rewrite filter_cons_True by done|rewrite filter_cons_False by done]; simpl; lia. Qed.
Lemma count_pos b l : b ∈ l <-> 0 < count b l.
Proof.
  unfold count. split.
  - intros Hb. assert (Hf : b ∈ filter (fun x => x = b) l) by by apply list_elem_of_filter.
    destruct (filter _ l); [by apply elem_of_nil in Hf|simpl; lia].
  - intros Hl. destruct (filter (fun x => x = b) l) as [|x k] eqn:E; [simpl in Hl; lia|].
    assert (Hx : x ∈ filter (fun x => x = b) l) by (rewrite E; left). apply list_elem_of_filter in Hx as [-> Hx]. done.
Qed.
Lemma count_nonneg b l : 0 <= count b l.
Proof. unfold count. lia. Qed.
Lemma count_perm b l k : l ≡ₚ k -> count b l = count b k.
Proof. intros H. unfold count. by rewrite H. Qed.

(** ** Counted loops

    [for_all n p] is the C loop [for (i = 0; i < n; ++i) if (!p(i)) return 0;],
    [for_ n f s] the loop [for (i = 0; i < n; ++i) s = f(i, s);]. *)

Definition for_all (n : Z) (p : Z -> bool) : bool := forallb p (seqZ 0 n).
Definition for_ {S} (n : Z) (f : Z -> S -> S) (s : S) : S :=
  fold_left (fun s i => f i s) (seqZ 0 n) s.

Lemma for_all_spec n p :
  for_all n p = true <-> (forall i, 0 <= i < n -> p i = true).
Proof.
  unfold for_all. rewrite forallb_forall. split.
  - intros H i Hi. apply H. apply list_elem_of_In. apply elem_of_seqZ. lia.
  - intros H i Hi. apply H. apply list_elem_of_In in Hi. apply elem_of_seqZ in Hi. lia.
Qed.

Lemma for_all_ext n p q :
  (forall i, 0 <= i < n -> p i = q i) -> for_all n p = for_all n q.
Proof.
  intros H. apply eq_true_iff_eq. rewrite !for_all_spec.
  split; intros Hp i Hi; [rewrite <- H by done|rewrite H by done]; auto.
Qed.

(** [for (i = a; i < b; ++i) if (!p(i)) return 0;] *)
Definition for_range (a b : Z) (p : Z -> bool) : bool := forallb p (seqZ a (b - a)).

Lemma for_range_spec a b p :
  for_range a b p = true <-> (forall i, a <= i < b -> p i = true).
Proof.
  unfold for_range. rewrite forallb_forall. split.
  - intros H i Hi. apply H. apply list_elem_of_In. apply elem_of_seqZ. lia.
  - intros H i Hi. apply H. apply list_elem_of_In in Hi. apply elem_of_seqZ in Hi. lia.
Qed.

Lemma for_invariant {S} (P : Z -> S -> Prop) n f (s : S) :
  0 <= n -> P 0 s ->
  (forall i t, 0 <= i < n -> P i t -> P (i + 1) (f i t)) ->
  P n (for_ n f s).
Proof.
  intros Hn H0 Hstep. unfold for_.
  assert (Hgen : forall k m t, 0 <= k -> 0 <= m -> m + k = n -> P m t ->
            P n (fold_left (fun s i => f i s) (seqZ m k) t)).
  { intros k. induction k as [k IH] using (well_founded_induction (Z.lt_wf 0)).
    intros m t Hk Hm Hmk HP.
    destruct (decide (k = 0)) as [->|].
    - rewrite seqZ_nil by lia. simpl. by replace n with m by lia.
    - rewrite seqZ_cons by lia. simpl.
      apply IH; try lia. replace (Z.succ m) with (m + 1) by lia. apply Hstep; [lia|done]. }
  apply (Hgen n 0); auto; lia.
Qed.

Lemma for_succ {S} n (f : Z -> S -> S) s :
  0 <= n -> for_ (n + 1) f s = f n (for_ n f s).
Proof.
  intros Hn. unfold for_. rewrite seqZ_app by lia.
  rewrite fold_left_app, (seqZ_cons (0 + n)) by lia.
  by rewrite (seqZ_nil (Z.succ (0 + n))) by lia.
Qed.

Lemma for_4 {S} (f : Z -> S -> S) s : for_ 4 f s = f 3 (f 2 (f 1 (f 0 s))).
Proof. reflexivity. Qed.

(** ** Tactics *)

(** Turn boolean hypotheses of guards into propositions. *)
Ltac bprop :=
  repeat match goal with
  | H : context [nz _] |- _ => unfold nz in H
  | H : context [z0 _] |- _ => unfold z0 in H
  | H : andb _ _ = true |- _ => apply andb_true_iff in H; destruct H
  | H : orb _ _ = false |- _ => apply orb_false_iff in H; destruct H
  | H : orb _ _ = true |- _ => apply orb_true_iff in H
  | H : andb _ _ = false |- _ => apply andb_false_iff in H
  | H : negb _ = true |- _ => apply negb_true_iff in H
  | H : negb _ = false |- _ => apply negb_false_iff in H
  | H : Z.eqb _ _ = true |- _ => apply Z.eqb_eq in H
  | H : Z.eqb _ _ = false |- _ => apply Z.eqb_neq in H
  | H : Z.ltb _ _ = true |- _ => apply Z.ltb_lt in H
  | H : Z.ltb _ _ = false |- _ => apply Z.ltb_ge in H
  | H : Z.leb _ _ = true |- _ => apply Z.leb_le in H
  | H : Z.leb _ _ = false |- _ => apply Z.leb_gt in H
  end.

(** Case on the first [if] of the goal, or of a hypothesis. *)
Ltac case_if :=
  match goal with
  | |- context [if ?b then _ else _] => destruct b eqn:?
  end.
Ltac case_if_in H :=
  match type of H with
  | context [if ?b then _ else _] => destruct b eqn:?
  end.

(** Follow a guarded computation in [H] along every branch. *)
Ltac branches H :=
  repeat (case_if_in H; try discriminate H); try (simplify_eq H).

(** ** Bit facts *)

Lemma land_pow2_eqb x n : 0 <= n -> (x .& (1 .<< n) =? 0) = negb (Z.testbit x n).
Proof.
  intros Hn. destruct (Z.testbit x n) eqn:E; simpl.
  - apply Z.eqb_neq. intros H0.
    assert (Hb : Z.testbit (x .& (1 .<< n)) n = true).
    { rewrite Z.land_spec, E, Z.shiftl_spec by lia.
      replace (n - n) with 0 by lia. done. }
    rewrite H0, Z.testbit_0_l in Hb. done.
  - apply Z.eqb_eq. apply Z.bits_inj'. intros m Hm.
    rewrite Z.land_spec, Z.testbit_0_l, Z.shiftl_spec by lia.
    destruct (decide (m = n)) as [->|Hne].
    + by rewrite E.
    + destruct (decide (m < n)) as [|].
      * rewrite (Z.testbit_neg_r 1 (m - n)) by lia. apply andb_false_r.
      * rewrite (Z.bits_above_log2 1 (m - n)) by (simpl; lia). apply andb_false_r.
Qed.

Lemma testbit_bound x n : 0 <= x < 2 ^ n -> 0 <= n -> forall m, n <= m -> Z.testbit x m = false.
Proof.
  intros Hx Hn m Hm. destruct (decide (x = 0)) as [->|].
  - apply Z.testbit_0_l.
  - apply Z.bits_above_log2; [lia|]. apply Z.log2_lt_pow2; [lia|].
    apply Z.lt_le_trans with (2 ^ n); [lia|]. apply Z.pow_le_mono_r; lia.
Qed.

Lemma lor_bound n x y : 0 <= n -> 0 <= x < 2 ^ n -> 0 <= y < 2 ^ n -> 0 <= x .| y < 2 ^ n.
Proof.
  intros Hn Hx Hy. assert (H0 : 0 <= x .| y) by (apply Z.lor_nonneg; lia). split; [done|].
  destruct (decide (x .| y = 0)) as [->|Hne]; [lia|]. apply Z.log2_lt_pow2; [lia|].
  rewrite Z.log2_lor by lia. apply Z.max_lub_lt.
  - destruct (decide (x = 0)) as [->|]; [|apply Z.log2_lt_pow2; lia].
    simpl. destruct (decide (n = 0)) as [->|]; [|lia]. by replace y with 0 in Hne by lia.
  - destruct (decide (y = 0)) as [->|]; [|apply Z.log2_lt_pow2; lia].
    simpl. destruct (decide (n = 0)) as [->|]; [|lia]. by replace x with 0 in Hne by lia.
Qed.

Lemma u32_range z : in_u32 (u32 z).
Proof. apply Z.mod_pos_bound. lia. Qed.
Lemma u64_range z : in_u64 (u64 z).
Proof. apply Z.mod_pos_bound. lia. Qed.
Lemma u32_id z : in_u32 z -> u32 z = z.
Proof. apply Z.mod_small. Qed.
Lemma u64_id z : in_u64 z -> u64 z = z.
Proof. apply Z.mod_small. Qed.

Definition below (n v : Z) : bool := (0 <=? v) && (v <? n).
Lemma Forall_below n l : forallb (below n) l = true -> Forall (fun v => 0 <= v < n) l.
Proof.
  intros H. rewrite forallb_forall in H. apply List.Forall_forall. intros v Hv.
  specialize (H v Hv). unfold below in H. bprop. lia.
Qed.

Create HintDb ub.
#[export] Hint Resolve u32_range u64_range : ub.
#[export] Hint Rewrite u32_id u64_id using (assumption || lia) : ub.

(** An inductive invariant holds along every run. *)
Lemma rtc_invariant {A} (R : relation A) (I : A -> Prop) x y :
  (forall x y, I x -> R x y -> I y) -> rtc R x y -> I x -> I y.
Proof. intros Hstep. induction 1; eauto. Qed.

(** A filter that keeps everything. *)
Lemma filter_all {A} (P : A -> Prop) `{forall x, Decision (P x)} (l : list A) :
  (forall x, x ∈ l -> P x) -> filter P l = l.
Proof.
  induction l as [|x l IH]; intros HP; [done|]. rewrite filter_cons_True by (apply HP; left).
  rewrite IH; [done|]. intros y Hy. apply HP. by right.
Qed.

(** A key without duplicates determines the element. *)
Lemma nodup_key {A B} (f : A -> B) (l : list A) x y :
  NoDup (f <$> l) -> x ∈ l -> y ∈ l -> f x = f y -> x = y.
Proof.
  induction l as [|z l IH]; intros Hn Hx Hy E; [by apply elem_of_nil in Hx|]. simpl in Hn. apply NoDup_cons in Hn as [Hz Hn].
  apply elem_of_cons in Hx as [->|Hx], Hy as [->|Hy]; [done| | |by apply IH].
  - exfalso. apply Hz. rewrite E. by apply list_elem_of_fmap_2.
  - exfalso. apply Hz. rewrite <- E. by apply list_elem_of_fmap_2.
Qed.
