(* ===== verification/Monad.v ===== *)
(** * Records and effects

    Record update, the monad in which stateful code is written, and weakest
    preconditions for it (one postcondition for the normal exit, one for the error
    exit) with the tactic that walks through a function. *)

From S2P Require Import Prelude.

(** ** Record update: [r .{ f := v }] *)

Class Eta (R : Type) := eta : R -> R.
Class Field {R T : Type} (proj : R -> T) := update : (T -> T) -> R -> R.
Ltac field_update proj :=
  lazymatch type of proj with
  | ?R -> _ =>
      let e := constr:(eta : R -> R) in
      let e := eval cbv delta [eta] in e in
      let e := eval hnf in e in
      lazymatch eval pattern proj in e with
      | ?build _ => exact (fun f => build (fun r => f (proj r)))
      end
  end.
#[export] Hint Extern 1 (Field ?proj) => field_update proj : typeclass_instances.
Notation "r .{ f := v }" := (update (proj := f) (fun _ => v) r)
  (at level 2, f constr, v at level 200, left associativity, format "r .{  f  :=  v  }") : c_scope.

(** ** The monad: state and an error code *)

Definition MS (S A : Type) : Type := S -> (A + Z) * S.

Section monad.
Context {S : Type}.
Local Notation M := (MS S).

Definition ret {A} (a : A) : M A := fun k => (inl a, k).
Definition raise {A} (e : Z) : M A := fun k => (inr e, k).
Definition bind {A B} (m : M A) (f : A -> M B) : M B := fun k =>
  match m k with
  | (inl a, k') => f a k'
  | (inr e, k') => (inr e, k')
  end.
Definition get : M S := fun k => (inl k, k).
Definition put (k : S) : M unit := fun _ => (inl tt, k).

(** [goto fail]: run [cleanup] and return the error. *)
Definition on_fail {A} (m : M A) (cleanup : M unit) : M A := fun k =>
  match m k with
  | (inr e, k') => (inr e, (cleanup k').2)
  | r => r
  end.

Definition fail_if (b : bool) (e : Z) : M unit := if b then raise e else ret tt.

Fixpoint each {A} (l : list A) (f : A -> M unit) : M unit :=
  match l with
  | [] => ret tt
  | a :: l => bind (f a) (fun _ => each l f)
  end.
(** [for (i = 0; i < n; ++i) ...] *)
Definition for_m (n : Z) (f : Z -> M unit) : M unit := each (seqZ 0 n) f.
End monad.

Declare Scope kernel_scope.
Delimit Scope kernel_scope with kernel.
#[global] Open Scope kernel_scope.
Notation "x <- m ;; f" := (bind m (fun x => f)) (at level 100, m at next level, right associativity) : kernel_scope.
Notation "' x <- m ;; f" := (bind m (fun x => f)) (at level 100, x strict pattern, m at next level, right associativity) : kernel_scope.
Notation "m ;; f" := (bind m (fun _ => f)) (at level 100, right associativity) : kernel_scope.

(** ** Weakest preconditions *)

Section wp.
Context {S : Type}.
Local Notation M := (MS S).

Definition wp {A} (m : M A) (Q : A -> S -> Prop) (E : Z -> S -> Prop) (k : S) : Prop :=
  match m k with
  | (inl a, k') => Q a k'
  | (inr e, k') => E e k'
  end.

Section rules.
Context {A B : Type}.
Implicit Types (Q : A -> S -> Prop) (E : Z -> S -> Prop).

Lemma wp_ret (a : A) Q E k : Q a k -> wp (ret a) Q E k.
Proof. done. Qed.
Lemma wp_raise e Q E k : E e k -> wp (raise (A := A) e) Q E k.
Proof. done. Qed.
Lemma wp_bind (m : M B) (f : B -> M A) Q E k :
  wp m (fun b => wp (f b) Q E) E k -> wp (bind m f) Q E k.
Proof. unfold wp, bind. destruct (m k) as [[b|e] k']; done. Qed.
Lemma wp_mono (m : M A) Q Q' E E' k :
  wp m Q E k -> (forall a k', Q a k' -> Q' a k') -> (forall e k', E e k' -> E' e k') -> wp m Q' E' k.
Proof. unfold wp. destruct (m k) as [[b|e] k']; auto. Qed.
Lemma wp_on_fail (m : M A) (cleanup : M unit) Q E k :
  wp m Q (fun e k' => E e (cleanup k').2) k -> wp (on_fail m cleanup) Q E k.
Proof. unfold wp, on_fail. destruct (m k) as [[a|e] k']; done. Qed.
Lemma wp_any (m : M A) k : wp m (fun _ _ => True) (fun _ _ => True) k.
Proof. unfold wp. by destruct (m k) as [[] ?]. Qed.
Lemma wp_both (m : M A) Q Q' E E' k :
  wp m Q E k -> wp m Q' E' k -> wp m (fun x k => Q x k /\ Q' x k) (fun e k => E e k /\ E' e k) k.
Proof. unfold wp. by destruct (m k) as [[] ?]. Qed.
(** What a handler that satisfies [wp] does when it is run. *)
Lemma wp_run (m : M A) Q E k r k' :
  wp m Q E k -> m k = (r, k') -> match r with inl a => Q a k' | inr e => E e k' end.
Proof. unfold wp. intros H Hr. by rewrite Hr in H. Qed.
(** A computation that cannot fail returns. *)
Lemma wp_total (m : M A) Q k : wp m Q (fun _ _ => False) k -> exists a k', m k = (inl a, k') /\ Q a k'.
Proof. unfold wp. destruct (m k) as [[a|e] k']; [|done]. intros H. by exists a, k'. Qed.
End rules.

Section more_rules.
Implicit Types (Q : unit -> S -> Prop) (E : Z -> S -> Prop).

Lemma wp_get (Q : S -> S -> Prop) E k : Q k k -> wp get Q E k.
Proof. done. Qed.
Lemma wp_put k' Q E k : Q tt k' -> wp (put k') Q E k.
Proof. done. Qed.
Lemma wp_fail_if b e Q E k :
  (b = true -> E e k) -> (b = false -> Q tt k) -> wp (fail_if b e) Q E k.
Proof. unfold fail_if, wp. destruct b; intros HE HQ; [by apply HE|by apply HQ]. Qed.

(** Loops: an invariant indexed by the number of finished iterations. *)
Lemma wp_each (I : Z -> S -> Prop) f E i n k :
  0 <= n -> I i k ->
  (forall j k, i <= j < i + n -> I j k -> wp (f j) (fun _ => I (j + 1)) E k) ->
  wp (each (seqZ i n) f) (fun _ => I (i + n)) E k.
Proof.
  intros Hn. revert i k.
  induction n as [n IH] using (well_founded_induction (Z.lt_wf 0)). intros i k HI Hstep.
  destruct (decide (n = 0)) as [->|Hne].
  - rewrite seqZ_nil by lia. apply wp_ret. by rewrite Z.add_0_r.
  - rewrite seqZ_cons by lia. simpl. apply wp_bind.
    eapply wp_mono; [apply Hstep; [lia|done]| |done]. cbv beta. intros _ k' HI'.
    replace (i + n) with (Z.succ i + Z.pred n) by lia.
    apply IH; [lia|lia|by replace (Z.succ i) with (i + 1) by lia|]. intros j k'' Hj. apply Hstep. lia.
Qed.
Lemma wp_for (I : Z -> S -> Prop) n f Q E k :
  0 <= n -> I 0 k ->
  (forall i k, 0 <= i < n -> I i k -> wp (f i) (fun _ => I (i + 1)) E k) ->
  (forall k, I n k -> Q tt k) ->
  wp (for_m n f) Q E k.
Proof.
  intros Hn H0 Hstep Hend. unfold for_m.
  eapply wp_mono; [apply (wp_each I); [done|done|]| |done].
  - intros i k' Hi. apply Hstep. lia.
  - intros [] k'. apply Hend.
Qed.
End more_rules.
End wp.

(** One step through a handler; calls are left to the caller. *)
Ltac wp_step :=
  lazymatch goal with
  | |- wp (bind _ _) _ _ _ => apply wp_bind
  | |- wp (ret _) _ _ _ => apply wp_ret
  | |- wp (raise _) _ _ _ => apply wp_raise
  | |- wp get _ _ _ => apply wp_get
  | |- wp (put _) _ _ _ => apply wp_put
  | |- wp (fail_if _ _) _ _ _ => apply wp_fail_if; intros ?
  | |- wp (if ?b then _ else _) _ _ _ => destruct b eqn:?
  | |- wp (let _ := _ in _) _ _ _ => intros ?
  | |- wp (match ?x with _ => _ end) _ _ _ => destruct x eqn:?
  end.
