(* ===== verification/CMem.v ===== *)
(** * Byte memory and C structure layout

    The 4 MiB region that machine B publishes and machine A imports is accessed
    by both sides through C structures laid over bytes.  This file gives the
    byte memory, the little-endian loads and stores, [memset]/[memcpy]/[memcmp],
    and the interface [CStruct] by which a record of the development is a C
    structure: the widths of its scalar fields, in order and without padding
    other than explicit fields, its field values, and the inverse. *)

From S2P Require Import Prelude.

Definition mem := Z -> Z.

(** Two memories are the same when every byte is. *)
Definition mem_eq (m n : mem) : Prop := forall a, m a = n a.
Definition bytes_ok (m : mem) : Prop := forall a, 0 <= m a < 256.

#[export] Instance mem_eq_equiv : Equivalence mem_eq.
Proof.
  split; unfold mem_eq.
  - done.
  - intros m n H a. by rewrite H.
  - intros m n o H1 H2 a. by rewrite H1.
Qed.

(** ** Little-endian encoding *)

Fixpoint le_bytes (w : nat) (v : Z) : list Z :=
  match w with
  | O => []
  | S w => v mod 256 :: le_bytes w (v / 256)
  end.

Fixpoint le_value (bs : list Z) : Z :=
  match bs with
  | [] => 0
  | b :: bs => b + 256 * le_value bs
  end.

Lemma le_bytes_length w v : length (le_bytes w v) = w.
Proof. revert v. induction w; simpl; auto. Qed.

Lemma le_bytes_range w v : Forall (fun b => 0 <= b < 256) (le_bytes w v).
Proof.
  revert v. induction w; simpl; intros v; constructor; auto.
  apply Z.mod_pos_bound. lia.
Qed.

Lemma le_value_bytes w v : le_value (le_bytes w v) = v mod 256 ^ Z.of_nat w.
Proof.
  revert v. induction w as [|w IH]; intros v.
  - simpl. by rewrite Z.mod_1_r.
  - cbn [le_bytes le_value]. rewrite IH, Nat2Z.inj_succ, Z.pow_succ_r by lia.
    rewrite Z.rem_mul_r by (try lia; apply Z.pow_nonzero; lia). lia.
Qed.

Lemma le_value_range bs :
  Forall (fun b => 0 <= b < 256) bs -> 0 <= le_value bs < 256 ^ Z.of_nat (length bs).
Proof.
  induction 1 as [|b bs Hb Hbs IH]; cbn [le_value length]; [lia|].
  rewrite Nat2Z.inj_succ, Z.pow_succ_r by lia. nia.
Qed.

Lemma le_bytes_value bs :
  Forall (fun b => 0 <= b < 256) bs -> le_bytes (length bs) (le_value bs) = bs.
Proof.
  induction 1 as [|b bs Hb Hbs IH]; [done|]. cbn [length le_bytes le_value].
  rewrite (Z.mul_comm 256), Z.mod_add, Z.mod_small by lia.
  by rewrite Z.div_add, Z.div_small, Z.add_0_l, IH by lia.
Qed.

(** ** Loads and stores *)

Definition load_bytes (m : mem) (a n : Z) : list Z := (fun i => m (a + i)) <$> seqZ 0 n.

Definition store_bytes (m : mem) (a : Z) (bs : list Z) : mem :=
  fun x => if (a <=? x) && (x <? a + Z.of_nat (length bs)) then bs.[x - a] else m x.

(** [memset(p, v, n)]. *)
Definition fill (m : mem) (a n v : Z) : mem :=
  fun x => if (a <=? x) && (x <? a + n) then v else m x.

Definition ld (w : nat) (m : mem) (a : Z) : Z := le_value (load_bytes m a (Z.of_nat w)).
Definition st (w : nat) (m : mem) (a v : Z) : mem := store_bytes m a (le_bytes w v).

Notation ld32 := (ld 4).
Notation ld64 := (ld 8).
Notation st32 := (st 4).
Notation st64 := (st 8).

(** Two address ranges do not meet. *)
Definition disjoint_ranges (a n b k : Z) : Prop := a + n <= b \/ b + k <= a.

Lemma load_bytes_length m a n : length (load_bytes m a n) = Z.to_nat n.
Proof. unfold load_bytes. by rewrite length_fmap, length_seqZ. Qed.

Lemma load_bytes_nth m a n i : 0 <= i < n -> (load_bytes m a n).[i] = m (a + i).
Proof.
  intros Hi. unfold nthz. apply nth_lookup_Some. unfold load_bytes.
  rewrite list_lookup_fmap, lookup_seqZ_lt by lia. simpl. repeat f_equal. lia.
Qed.

Lemma load_bytes_ext m n a b k :
  (forall i, 0 <= i < k -> m (a + i) = n (b + i)) -> load_bytes m a k = load_bytes n b k.
Proof.
  intros H. apply list_fmap_ext. intros i x Hx.
  apply lookup_seqZ in Hx as [-> Hi]. apply H. lia.
Qed.

Lemma load_bytes_eq_inv m n a b k :
  load_bytes m a k = load_bytes n b k -> forall i, 0 <= i < k -> m (a + i) = n (b + i).
Proof.
  intros H i Hi. rewrite <- (load_bytes_nth m a k i), H by done.
  by apply load_bytes_nth.
Qed.

Lemma load_bytes_app m a n k :
  0 <= n -> 0 <= k -> load_bytes m a (n + k) = load_bytes m a n ++ load_bytes m (a + n) k.
Proof.
  intros Hn Hk. unfold load_bytes. rewrite seqZ_app, fmap_app by lia. f_equal.
  replace (0 + n) with (n + 0) by lia. rewrite <- (fmap_add_seqZ n 0 k), <- list_fmap_compose.
  apply list_fmap_ext. intros i x _. simpl. f_equal. lia.
Qed.

Lemma load_bytes_range m a n : bytes_ok m -> Forall (fun b => 0 <= b < 256) (load_bytes m a n).
Proof. intros H. apply Forall_fmap, Forall_true. intros i. apply H. Qed.

Lemma store_bytes_out m a bs x :
  x < a \/ a + Z.of_nat (length bs) <= x -> store_bytes m a bs x = m x.
Proof.
  intros H. unfold store_bytes. destruct (a <=? x) eqn:?, (x <? _) eqn:?; simpl; bprop; lia || done.
Qed.

Lemma store_bytes_in m a bs x :
  a <= x < a + Z.of_nat (length bs) -> store_bytes m a bs x = bs.[x - a].
Proof.
  intros H. unfold store_bytes. destruct (a <=? x) eqn:?, (x <? _) eqn:?; simpl; bprop; lia || done.
Qed.

Lemma fill_out m a n v x : x < a \/ a + n <= x -> fill m a n v x = m x.
Proof. intros H. unfold fill. destruct (a <=? x) eqn:?, (x <? _) eqn:?; simpl; bprop; lia || done. Qed.

Lemma fill_in m a n v x : a <= x < a + n -> fill m a n v x = v.
Proof. intros H. unfold fill. destruct (a <=? x) eqn:?, (x <? _) eqn:?; simpl; bprop; lia || done. Qed.

Lemma load_store_other m a bs b n :
  disjoint_ranges a (Z.of_nat (length bs)) b n -> load_bytes (store_bytes m a bs) b n = load_bytes m b n.
Proof.
  intros H. apply load_bytes_ext. intros i Hi. apply store_bytes_out.
  unfold disjoint_ranges in H. lia.
Qed.

Lemma load_store_same m a bs n :
  n = Z.of_nat (length bs) -> load_bytes (store_bytes m a bs) a n = bs.
Proof.
  intros ->. apply (list_eq_nthz 0); rewrite load_bytes_length; [lia|].
  intros i Hi. rewrite load_bytes_nth, store_bytes_in by lia. f_equal. lia.
Qed.

Lemma load_fill_other m a k v b n :
  disjoint_ranges a k b n -> load_bytes (fill m a k v) b n = load_bytes m b n.
Proof.
  intros H. apply load_bytes_ext. intros i Hi. apply fill_out.
  unfold disjoint_ranges in H. lia.
Qed.

Lemma ld_st_same w m a v : ld w (st w m a v) a = v mod 256 ^ Z.of_nat w.
Proof.
  unfold ld, st. rewrite load_store_same by (by rewrite le_bytes_length).
  apply le_value_bytes.
Qed.

Lemma ld_st_other w k m a b v :
  disjoint_ranges a (Z.of_nat k) b (Z.of_nat w) -> ld w (st k m a v) b = ld w m b.
Proof.
  intros H. unfold ld, st. rewrite load_store_other; [done|]. by rewrite le_bytes_length.
Qed.

Lemma st_out w m a v x : x < a \/ a + Z.of_nat w <= x -> st w m a v x = m x.
Proof. intros H. apply store_bytes_out. by rewrite le_bytes_length. Qed.

Lemma ld_range w m a : bytes_ok m -> 0 <= ld w m a < 256 ^ Z.of_nat w.
Proof.
  intros H. unfold ld. pose proof (le_value_range _ (load_bytes_range m a (Z.of_nat w) H)) as Hr.
  by rewrite load_bytes_length, Nat2Z.id in Hr.
Qed.

Lemma store_bytes_ok m a bs :
  bytes_ok m -> Forall (fun b => 0 <= b < 256) bs -> bytes_ok (store_bytes m a bs).
Proof.
  intros Hm Hb x. destruct (decide (a <= x < a + Z.of_nat (length bs))) as [Hin|Hout].
  - rewrite store_bytes_in by done. unfold nthz.
    rewrite List.Forall_forall in Hb. apply Hb. apply nth_In. lia.
  - rewrite store_bytes_out by lia. apply Hm.
Qed.

Lemma st_ok w m a v : bytes_ok m -> bytes_ok (st w m a v).
Proof. intros H. apply store_bytes_ok; [done|apply le_bytes_range]. Qed.

Lemma fill_ok m a n v : bytes_ok m -> 0 <= v < 256 -> bytes_ok (fill m a n v).
Proof. intros Hm Hv x. unfold fill. case_if; [done|apply Hm]. Qed.
Lemma load_fill_zero m a k b n :
  a <= b -> b + n <= a + k -> load_bytes (fill m a k 0) b n = replicate (Z.to_nat n) 0.
Proof.
  intros Ha Hb. apply (list_eq_nthz 0); rewrite load_bytes_length, ?length_replicate; [done|].
  intros i Hi. rewrite load_bytes_nth, fill_in by lia. by rewrite replicate_nthz.
Qed.

#[export] Instance load_bytes_proper : Proper (mem_eq ==> eq ==> eq ==> eq) load_bytes.
Proof. intros m n H a ? <- k ? <-. apply load_bytes_ext. intros i _. apply H. Qed.
#[export] Instance ld_proper w : Proper (mem_eq ==> eq ==> eq) (ld w).
Proof. intros m n H a ? <-. unfold ld. by rewrite H. Qed.
#[export] Instance store_bytes_proper : Proper (mem_eq ==> eq ==> eq ==> mem_eq) store_bytes.
Proof. intros m n H a ? <- bs ? <- x. unfold store_bytes. case_if; [done|apply H]. Qed.
#[export] Instance fill_proper : Proper (mem_eq ==> eq ==> eq ==> eq ==> mem_eq) fill.
Proof. intros m n H a ? <- k ? <- v ? <- x. unfold fill. case_if; [done|apply H]. Qed.

(** ** Structures *)

Fixpoint sumw (ws : list nat) : nat :=
  match ws with
  | [] => O
  | w :: ws => (w + sumw ws)%nat
  end.

Fixpoint enc_fields (ws : list nat) (vs : list Z) : list Z :=
  match ws, vs with
  | w :: ws, v :: vs => le_bytes w v ++ enc_fields ws vs
  | _, _ => []
  end.

Fixpoint dec_fields (ws : list nat) (bs : list Z) : list Z :=
  match ws with
  | [] => []
  | w :: ws => le_value (take w bs) :: dec_fields ws (drop w bs)
  end.

Definition field_in_range (w : nat) (v : Z) : Prop := 0 <= v < 256 ^ Z.of_nat w.

Lemma enc_fields_length ws vs :
  length ws = length vs -> length (enc_fields ws vs) = sumw ws.
Proof.
  revert vs. induction ws as [|w ws IH]; intros [|v vs] H; simpl in *; try done.
  rewrite length_app, le_bytes_length, IH by lia. done.
Qed.

Lemma enc_fields_range ws vs : Forall (fun b => 0 <= b < 256) (enc_fields ws vs).
Proof.
  revert vs. induction ws as [|w ws IH]; intros [|v vs]; simpl; auto.
  apply Forall_app. split; [apply le_bytes_range|apply IH].
Qed.

Lemma dec_enc_fields ws vs :
  Forall2 field_in_range ws vs -> dec_fields ws (enc_fields ws vs) = vs.
Proof.
  induction 1 as [|w v ws vs Hv Hvs IH]; [done|]. cbn [enc_fields dec_fields].
  rewrite take_app_length', drop_app_length' by (by rewrite le_bytes_length).
  rewrite le_value_bytes, IH. f_equal. by apply Z.mod_small.
Qed.

Lemma dec_fields_length ws bs : length (dec_fields ws bs) = length ws.
Proof. revert bs. induction ws as [|w ws IH]; intros bs; cbn; [done|]. by rewrite IH. Qed.

Lemma dec_fields_load ws m a k w :
  ws !! k = Some w ->
  dec_fields ws (load_bytes m a (Z.of_nat (sumw ws))) !! k
  = Some (ld w m (a + Z.of_nat (sumw (take k ws)))).
Proof.
  revert a k. induction ws as [|w' ws IH]; intros a k Hk; [done|].
  cbn [sumw].
  rewrite Nat2Z.inj_add, load_bytes_app by lia. cbn [dec_fields].
  rewrite take_app_length', drop_app_length' by (rewrite load_bytes_length; lia).
  destruct k as [|k]; simpl in Hk |- *.
  - injection Hk as ->. unfold ld. repeat f_equal. lia.
  - rewrite IH by done. do 2 f_equal. lia.
Qed.

Lemma dec_fields_nth ws m a i w :
  0 <= i -> ws !! Z.to_nat i = Some w ->
  (dec_fields ws (load_bytes m a (Z.of_nat (sumw ws)))).[i] = ld w m (a + Z.of_nat (sumw (take (Z.to_nat i) ws))).
Proof. intros Hi Hw. unfold nthz. by apply nth_lookup_Some, dec_fields_load. Qed.

(** The leading fields of a structure are the fields of the structure nested there. *)
Lemma dec_fields_take ws ws' m a :
  take (length ws) (dec_fields (ws ++ ws') (load_bytes m a (Z.of_nat (sumw (ws ++ ws'))))) =
  dec_fields ws (load_bytes m a (Z.of_nat (sumw ws))).
Proof.
  revert a. induction ws as [|w ws IH]; intros a; [done|]. cbn [app sumw dec_fields length take].
  rewrite !Nat2Z.inj_add, !load_bytes_app by lia.
  rewrite !take_app_length', !drop_app_length' by (rewrite load_bytes_length; lia). by rewrite IH.
Qed.

(** [CStruct A]: the C structure of the record [A]. *)
Class CStruct (A : Type) := {
  widths : list nat;
  fields : A -> list Z;
  of_fields : list Z -> A;
  struct_ok : A -> Prop;
  fields_ok : forall x, struct_ok x -> Forall2 field_in_range widths (fields x);
  of_fields_fields : forall x, struct_ok x -> of_fields (fields x) = x;
}.
Arguments widths A {_}.

Definition sizeof (A : Type) `{CStruct A} : Z := Z.of_nat (sumw (widths A)).
(** Offset of scalar field number [k]. *)
Definition offsetof (A : Type) `{CStruct A} (k : nat) : Z := Z.of_nat (sumw (take k (widths A))).

Section struct_access.
Context {A : Type} `{CStruct A}.

Definition ld_struct (m : mem) (a : Z) : A := of_fields (dec_fields (widths A) (load_bytes m a (sizeof A))).
Definition st_struct (m : mem) (a : Z) (x : A) : mem := store_bytes m a (enc_fields (widths A) (fields x)).

Lemma fields_length (x : A) : struct_ok x -> length (widths A) = length (fields x).
Proof. intros Hx. eapply Forall2_length, fields_ok, Hx. Qed.

Lemma enc_struct_length (x : A) :
  struct_ok x -> Z.of_nat (length (enc_fields (widths A) (fields x))) = sizeof A.
Proof. intros Hx. unfold sizeof. by rewrite enc_fields_length by by apply fields_length. Qed.

(** What is stored as a structure is loaded back. *)
Lemma ld_st_struct m a (x : A) : struct_ok x -> ld_struct (st_struct m a x) a = x.
Proof.
  intros Hx. unfold ld_struct, st_struct.
  rewrite load_store_same by (by rewrite enc_struct_length).
  rewrite dec_enc_fields by (by apply fields_ok). by apply of_fields_fields.
Qed.

Lemma ld_struct_ext m n a b :
  (forall i, 0 <= i < sizeof A -> m (a + i) = n (b + i)) -> ld_struct m a = ld_struct n b.
Proof. intros Hx. unfold ld_struct. by rewrite (load_bytes_ext m n a b). Qed.

Lemma st_struct_out m a (x : A) y :
  struct_ok x -> y < a \/ a + sizeof A <= y -> st_struct m a x y = m y.
Proof. intros Hx Hy. apply store_bytes_out. by rewrite enc_struct_length. Qed.

Lemma st_struct_bytes_ok m a (x : A) : bytes_ok m -> bytes_ok (st_struct m a x).
Proof. intros Hm. apply store_bytes_ok; [done|apply enc_fields_range]. Qed.
End struct_access.
Arguments ld_struct A {_} m a.

(** Arrays of equal-width integers. *)
Definition ld_array (w : nat) (m : mem) (a n : Z) : list Z := (fun i => ld w m (a + Z.of_nat w * i)) <$> seqZ 0 n.
Definition st_array (w : nat) (m : mem) (a : Z) (vs : list Z) : mem :=
  store_bytes m a (enc_fields (replicate (length vs) w) vs).

Lemma ld_array_nth w m a n i : 0 <= i < n -> (ld_array w m a n).[i] = ld w m (a + Z.of_nat w * i).
Proof.
  intros Hi. unfold nthz. apply nth_lookup_Some. unfold ld_array.
  rewrite list_lookup_fmap, lookup_seqZ_lt by lia. simpl. repeat f_equal. lia.
Qed.

Lemma ld_array_length w m a n : length (ld_array w m a n) = Z.to_nat n.
Proof. unfold ld_array. by rewrite length_fmap, length_seqZ. Qed.

Lemma ld_array_ext w m n a b k :
  (forall i, 0 <= i < Z.of_nat w * k -> m (a + i) = n (b + i)) -> ld_array w m a k = ld_array w n b k.
Proof.
  intros H. apply (list_eq_nthz 0); rewrite !ld_array_length; [done|].
  intros i Hi. rewrite !ld_array_nth by lia. unfold ld. f_equal. apply load_bytes_ext.
  intros j Hj. rewrite <- !Z.add_assoc. apply H. nia.
Qed.

Lemma sumw_replicate n w : sumw (replicate n w) = (n * w)%nat.
Proof. induction n; simpl; [done|]. by rewrite IHn. Qed.

Lemma enc_array_length w vs :
  length (enc_fields (replicate (length vs) w) vs) = (length vs * w)%nat.
Proof. by rewrite enc_fields_length, sumw_replicate by by rewrite length_replicate. Qed.

Lemma st_array_out w m a vs x :
  x < a \/ a + Z.of_nat w * Z.of_nat (length vs) <= x -> st_array w m a vs x = m x.
Proof. intros H. apply store_bytes_out. rewrite enc_array_length. lia. Qed.

Lemma take_replicate_sum n w k : (k <= n)%nat -> sumw (take k (replicate n w)) = (k * w)%nat.
Proof. intros H. by rewrite take_replicate, Nat.min_l, sumw_replicate by lia. Qed.

Lemma ld_st_array_nth w m a vs i :
  Forall (field_in_range w) vs -> 0 <= i < Z.of_nat (length vs) ->
  ld w (st_array w m a vs) (a + Z.of_nat w * i) = vs.[i].
Proof.
  intros Hvs Hi.
  set (ws := replicate (length vs) w).
  assert (Hk : ws !! Z.to_nat i = Some w) by (apply lookup_replicate; split; [done|lia]).
  pose proof (dec_fields_load ws (st_array w m a vs) a (Z.to_nat i) w Hk) as Hd.
  unfold st_array in Hd at 1. rewrite load_store_same in Hd.
  2: { unfold ws. by rewrite enc_array_length, sumw_replicate. }
  rewrite dec_enc_fields in Hd.
  2: { unfold ws. apply Forall2_same_length_lookup_2; [by rewrite length_replicate|].
       intros j x y Hx Hy. apply lookup_replicate in Hx as [-> _].
       rewrite Forall_lookup in Hvs. by eapply Hvs. }
  unfold nthz. symmetry. apply nth_lookup_Some. rewrite Hd. do 2 f_equal.
  unfold ws. rewrite take_replicate_sum by lia. lia.
Qed.

(** What is stored as an array is loaded back. *)
Lemma ld_st_array w m a vs :
  Forall (field_in_range w) vs -> ld_array w (st_array w m a vs) a (Z.of_nat (length vs)) = vs.
Proof.
  intros Hvs. apply (list_eq_nthz 0); rewrite ld_array_length; [lia|].
  intros i Hi. rewrite ld_array_nth by lia. apply ld_st_array_nth; [done|lia].
Qed.

Lemma ld_array_bytes w m a vs :
  Forall (field_in_range w) vs ->
  load_bytes m a (Z.of_nat w * Z.of_nat (length vs)) = enc_fields (replicate (length vs) w) vs ->
  ld_array w m a (Z.of_nat (length vs)) = vs.
Proof.
  intros Hvs Hl. rewrite <- (ld_st_array w m a vs Hvs) at 2. apply ld_array_ext. intros i Hi.
  rewrite <- (load_bytes_nth m a (Z.of_nat w * Z.of_nat (length vs))), Hl by done.
  unfold st_array. rewrite <- (load_bytes_nth (store_bytes _ _ _) a (Z.of_nat w * Z.of_nat (length vs))) by done.
  by rewrite load_store_same by (rewrite enc_array_length; lia).
Qed.
