(* ===== verification/CString.v ===== *)
(** * C strings

    What the sources use of [<ctype.h>] and [<stdlib.h>] on text. *)

From Stdlib Require Import String Ascii.
From S2P Require Import Prelude.

Definition ULONG_MAX := 2 ^ 64 - 1.

(** [isspace] in the C locale. *)
Definition is_space (c : ascii) : bool := let n := Z.of_N (N_of_ascii c) in (n =? 32) || ((9 <=? n) && (n <=? 13)).
Fixpoint skip_space (s : string) : string :=
  match s with String c r => if is_space c then skip_space r else s | EmptyString => s end.

(** The value of a digit or letter in a base. *)
Definition digit_in (base : Z) (c : ascii) : option Z :=
  let n := Z.of_N (N_of_ascii c) in
  let v := if (48 <=? n) && (n <=? 57) then n - 48
           else if (97 <=? n) && (n <=? 122) then n - 87
           else if (65 <=? n) && (n <=? 90) then n - 55 else base in
  if v <? base then Some v else None.
(** The value of the leading digits, what follows them, and whether there are any. *)
Fixpoint leading_digits (base : Z) (s : string) (acc : Z) (any : bool) : Z * string * bool :=
  match s with
  | String c r => match digit_in base c with Some v => leading_digits base r (base * acc + v) true | None => (acc, s, any) end
  | EmptyString => (acc, s, any)
  end.
(** The base that base 0 stands for, and the text after its prefix. *)
Definition detect_base (s : string) : Z * string :=
  match s with
  | String "0" (String x (String c r)) =>
      if (Ascii.eqb x "x" || Ascii.eqb x "X") && bool_decide (is_Some (digit_in 16 c)) then (16, String c r) else (8, s)
  | String "0" _ => (8, s)
  | _ => (10, s)
  end.

(** [strtoull(text, &end, base)]: value, the text at [end], and [errno == ERANGE]. *)
Definition strtoull (base : Z) (text : string) : Z * string * bool :=
  let s := skip_space text in
  let '(negative, s) := match s with
    | String c r => if Ascii.eqb c "-"%char then (true, r) else if Ascii.eqb c "+"%char then (false, r) else (false, s)
    | EmptyString => (false, s)
    end in
  let '(base, s) := if base =? 0 then detect_base s else (base, s) in
  let '(v, rest, any) := leading_digits base s 0 false in
  if negb any then (0, text, false)
  else if v >? ULONG_MAX then (ULONG_MAX, rest, true)
  else (if negative then u64 (- v) else v, rest, false).
