(* ===== verification/Abi.v ===== *)
(** * The user/kernel and A/B interface: include/uapi/linux/ub_lrpc_ub_domain.h

    Constants, region offsets and structures.  Arrays are lists; the two-level
    array [table_pa[UD_DOMAINS][4]] is the list of its 16 words in memory order.
    Every structure that crosses the shared region is an instance of [CStruct],
    with the field widths of the header. *)

From S2P Require Import Prelude CMem.

(** ** Constants *)

Definition UD_ABI := 2.
Definition UD_MAGIC := 0x5542444f4d303031.
Definition UD_BYTES := 0x400000.
Definition UD_PAGE := 4096.
Definition UD_DOMAINS := 4.
Definition UD_TABLE (d l : Z) := 0x10000 + d * 0x4000 + l * 0x1000.
Definition UD_HEAP := 0x30000.
Definition UD_WRITE_HEAP (c : Z) := 0x300000 + c * UD_PAGE.
Definition UD_SHARED_HEAP := 0x308000.
Definition UD_IMAGE (d : Z) := 0x40000 + d * 0x1000.
Definition UD_CONTEXT (d : Z) := 0x50000 + d * 0x1000.
Definition UD_VA := 0x100000000.
Definition UD_STACK := UD_VA + 0x2000.
Definition UD_DATA := UD_VA + 0x4000.
Definition UD_ARGS := UD_VA + 0x6000.
Definition UD_WRITE := UD_VA + 0x8000.
Definition UD_DIRECT := 0.
Definition UD_MIDDLE := 1.
Definition UD_LEAF := 2.
Definition UD_QUERY := 3.
Definition UD_NESTED_TRAP_OFFSET := 12.

Definition UD_NESTED_LEGACY := 0.
Definition UD_NESTED_FUSED := 1.

Definition UD_POOL_MAGIC := 0x5542504f4f4c3031.
Definition UD_POOL_ABI := 2.
Definition UD_CLIENTS := 8.
Definition UD_POOL_SLOT (c : Z) := 0x100000 + c * 0x1000.
Definition UD_POOL_TABLE (c d l : Z) := 0x110000 + c * 0x10000 + d * 0x4000 + l * 0x1000.
Definition UD_SOCIAL_EXTRA_DOMAINS := 4.
Definition UD_SOCIAL_EXTRA_ABI := 1.
Definition UD_SOCIAL_EXTRA_SLOT (c : Z) := UD_POOL_SLOT c + 0x400.
Definition UD_SOCIAL_EXTRA_TABLE (c d l : Z) := 0x200000 + c * 0x10000 + d * 0x4000 + l * 0x1000.

Definition UD_PROFILE_MICRO := 0.
Definition UD_PROFILE_SOCIAL := 1.
Definition UD_PROFILE_SOCIAL_WRITE := 2.
Definition UD_PROFILE_SOCIAL_SHARED := 3.
Definition UD_PROFILE_OFFSET := 64.
Definition UD_PROFILE_MAGIC := 0x554250524f463031.

Definition UD_CODE_LEGACY := 0.
Definition UD_CODE_REMOTE_VERIFIED := 1.
Definition UD_CODE_REMOTE_SOCIAL := 2.
Definition UD_SOCIAL_CODE_USER := 1.
Definition UD_SOCIAL_CODE_HOME := 2.
Definition UD_SOCIAL_CODE_KIND_MASK := 0xff.
Definition UD_SOCIAL_CODE_THREE_NGINX := 3 .<< 8.
Definition UD_REMOTE_META_OFFSET := 0x1000.
Definition UD_REMOTE_MAGIC := 0x554452454d4f5445.
Definition UD_REMOTE_ABI := 1.
Definition UD_REMOTE_MAX_WORDS := 32.

(** ** Structures *)

Record ud_contract := mk_contract {
  c_magic : Z; c_nonce : Z;
  c_abi : Z; c_wb_index : Z; c_nc_index : Z; c_reserved : Z;
  c_tables : list Z;
  c_heap_pa : Z;
  c_code_pa : list Z; c_stack_pa : list Z; c_args_pa : list Z;
  c_write_pa : Z }.

(** [c->table_pa[d][l]]. *)
Definition c_table_pa (c : ud_contract) (d l : Z) : Z := (c_tables c).[4 * d + l].

Record ud_publication := mk_publication {
  pub_contract : ud_contract;
  pub_request : Z; pub_complete : Z; pub_b_initializations : Z }.

Record ud_prepare := mk_prepare { p_import_va : Z; p_contract : ud_contract }.

Record ud_initial := mk_initial { in_args : Z; in_heap : Z; in_sp : Z; in_pc : Z }.

Record ud_call := mk_call {
  k_a : Z; k_b : Z; k_result : Z; k_elapsed_ns : Z;
  k_esr : Z; k_far : Z;
  k_procedure : Z; k_transitions : Z; k_cpu : Z; k_reserved : Z }.

Record ud_mapped := mk_mapped {
  mp_a : Z; mp_b : Z; mp_result : Z; mp_completion : Z; mp_elapsed_ns : Z; mp_esr : Z; mp_far : Z;
  mp_procedure : Z; mp_transitions : Z; mp_cpu : Z; mp_status : Z }.

Record ud_tlb_probe := mk_tlb_probe {
  t_a : Z; t_b : Z;
  t_first_ns : Z; t_second_ns : Z; t_first_result : Z; t_second_result : Z;
  t_first_esr : Z; t_first_far : Z; t_second_esr : Z; t_second_far : Z;
  t_procedure : Z; t_flush : Z; t_first_cpu : Z; t_second_cpu : Z }.

Record ud_social_extra_domain := mk_extra_domain {
  x_table_pa : list Z; x_code_pa : Z; x_stack_pa : Z }.

Record ud_social_extra := mk_extra {
  e_nonce : Z; e_abi : Z; e_domains : Z; e_domain : list ud_social_extra_domain }.

Record ud_pool_header := mk_pool_header {
  h_magic : Z; h_generation : Z; h_abi : Z; h_clients : Z; h_domains : Z; h_reserved : Z }.

Record ud_pool_publication := mk_pool_publication {
  pp_pub : ud_publication; pp_error : Z; pp_reserved : Z }.

Record ud_pool_prepare := mk_pool_prepare {
  q_domain : ud_prepare; q_generation : Z; q_abi : Z; q_slot : Z }.

Record ud_connection_info := mk_connection_info {
  i_identity : Z; i_generation : Z; i_abi : Z; i_multi : Z; i_slot : Z; i_capacity : Z }.

Record ud_profile_header := mk_profile_header { t_magic : Z; t_abi : Z; t_profile : Z }.

(** [r_pad] is the structure's trailing padding: 36 bytes of fields, size 40. *)
Record ud_remote_manifest := mk_manifest {
  r_magic : Z; r_abi : Z; r_mode : Z; r_words : list Z; r_reserved : Z; r_pad : Z }.

Record ud_remote_bundle := mk_bundle { b_manifest : ud_remote_manifest; b_image : list (list Z) }.

#[export] Instance ud_contract_eq_dec : EqDecision ud_contract. Proof. solve_decision. Defined.
#[export] Instance ud_initial_eq_dec : EqDecision ud_initial. Proof. solve_decision. Defined.
#[export] Instance ud_extra_domain_eq_dec : EqDecision ud_social_extra_domain. Proof. solve_decision. Defined.
#[export] Instance ud_extra_eq_dec : EqDecision ud_social_extra. Proof. solve_decision. Defined.
#[export] Instance ud_connection_info_eq_dec : EqDecision ud_connection_info. Proof. solve_decision. Defined.

Definition no_extra_domain : ud_social_extra_domain := mk_extra_domain [] 0 0.
(** [extra->domain[i]]. *)
Definition e_dom (e : ud_social_extra) (i : Z) : ud_social_extra_domain := nthz no_extra_domain (e_domain e) i.

(** ** Layout in memory *)

Lemma field8 v : in_u64 v -> field_in_range 8 v.
Proof. unfold field_in_range, in_u64. by replace (256 ^ Z.of_nat 8) with (2 ^ 64) by reflexivity. Qed.
Lemma field4 v : in_u32 v -> field_in_range 4 v.
Proof. unfold field_in_range, in_u32. by replace (256 ^ Z.of_nat 4) with (2 ^ 32) by reflexivity. Qed.

(** An array field: its length and the range of its elements. *)
Definition array_ok (n : nat) (P : Z -> Prop) (l : list Z) : Prop := length l = n /\ Forall P l.

Lemma array8 n l : array_ok n in_u64 l -> Forall2 field_in_range (replicate n 8%nat) l.
Proof.
  intros [<- H]. induction H; simpl; constructor; auto using field8.
Qed.
Lemma array4 n l : array_ok n in_u32 l -> Forall2 field_in_range (replicate n 4%nat) l.
Proof.
  intros [<- H]. induction H; simpl; constructor; auto using field4.
Qed.

Create HintDb layout.
#[export] Hint Resolve field8 field4 array8 array4 : layout.

(** Match the fields of a structure against their widths. *)
Ltac layout :=
  repeat first [ apply List.Forall2_nil | apply List.Forall2_cons
               | apply array8; assumption | apply array4; assumption | apply Forall2_app ];
  auto with layout.

(** Replace a list of known length by its elements. *)
Ltac explode :=
  repeat match goal with
  | H : array_ok _ _ _ |- _ => destruct H
  end;
  repeat match goal with
  | H : length ?l = S ?n |- _ =>
      is_var l; destruct l; [discriminate H|cbn [length] in H; apply Nat.succ_inj in H]
  | H : length ?l = O |- _ => is_var l; destruct l; [clear H|discriminate H]
  end.

Ltac forall_inv :=
  repeat match goal with
  | H : Forall _ (_ :: _) |- _ => apply List.Forall_cons_iff in H; destruct H
  end.

Definition contract_ok (c : ud_contract) : Prop :=
  in_u64 (c_magic c) /\ in_u64 (c_nonce c) /\ in_u32 (c_abi c) /\ in_u32 (c_wb_index c) /\
  in_u32 (c_nc_index c) /\ in_u32 (c_reserved c) /\ array_ok 16 in_u64 (c_tables c) /\
  in_u64 (c_heap_pa c) /\ array_ok 4 in_u64 (c_code_pa c) /\ array_ok 4 in_u64 (c_stack_pa c) /\
  array_ok 4 in_u64 (c_args_pa c) /\ in_u64 (c_write_pa c).

Definition contract_widths : list nat :=
  [8; 8; 4; 4; 4; 4]%nat ++ replicate 16 8%nat ++ [8%nat] ++ replicate 4 8%nat ++
  replicate 4 8%nat ++ replicate 4 8%nat ++ [8%nat].
Definition contract_fields (c : ud_contract) : list Z :=
  [c_magic c; c_nonce c; c_abi c; c_wb_index c; c_nc_index c; c_reserved c] ++ c_tables c ++
  [c_heap_pa c] ++ c_code_pa c ++ c_stack_pa c ++ c_args_pa c ++ [c_write_pa c].
Definition contract_of (l : list Z) : ud_contract :=
  mk_contract l.[0] l.[1] l.[2] l.[3] l.[4] l.[5] (take 16 (drop 6 l)) l.[22]
    (take 4 (drop 23 l)) (take 4 (drop 27 l)) (take 4 (drop 31 l)) l.[35].

Lemma contract_fields_ok c :
  contract_ok c -> Forall2 field_in_range contract_widths (contract_fields c).
Proof.
  intros (?&?&?&?&?&?&?&?&?&?&?&?). unfold contract_widths, contract_fields.
  layout.
Qed.

Lemma contract_of_fields c : contract_ok c -> contract_of (contract_fields c) = c.
Proof.
  destruct c. intros (?&?&?&?&?&?&?&?&?&?&?&?). simpl in *. explode. reflexivity.
Qed.

#[export] Instance CStruct_ud_contract : CStruct ud_contract := {|
  widths := contract_widths; fields := contract_fields; of_fields := contract_of;
  struct_ok := contract_ok; fields_ok := contract_fields_ok; of_fields_fields := contract_of_fields |}.

Definition publication_ok (p : ud_publication) : Prop :=
  contract_ok (pub_contract p) /\ in_u64 (pub_request p) /\ in_u64 (pub_complete p) /\
  in_u64 (pub_b_initializations p).
Definition publication_fields (p : ud_publication) : list Z :=
  contract_fields (pub_contract p) ++ [pub_request p; pub_complete p; pub_b_initializations p].
Definition publication_of (l : list Z) : ud_publication :=
  mk_publication (contract_of (take 36 l)) l.[36] l.[37] l.[38].

Lemma publication_fields_ok p :
  publication_ok p -> Forall2 field_in_range (contract_widths ++ [8; 8; 8]%nat) (publication_fields p).
Proof.
  intros (?&?&?&?). unfold publication_fields. apply Forall2_app; [by apply contract_fields_ok|layout].
Qed.
Lemma publication_of_fields p : publication_ok p -> publication_of (publication_fields p) = p.
Proof.
  destruct p as [[] ???]. intros [(?&?&?&?&?&?&?&?&?&?&?&?) ?]. simpl in *. explode. reflexivity.
Qed.
#[export] Instance CStruct_ud_publication : CStruct ud_publication := {|
  widths := contract_widths ++ [8; 8; 8]%nat; fields := publication_fields; of_fields := publication_of;
  struct_ok := publication_ok; fields_ok := publication_fields_ok;
  of_fields_fields := publication_of_fields |}.

Definition pool_publication_ok (p : ud_pool_publication) : Prop :=
  publication_ok (pp_pub p) /\ in_u32 (pp_error p) /\ in_u32 (pp_reserved p).
Definition pool_publication_fields (p : ud_pool_publication) : list Z :=
  publication_fields (pp_pub p) ++ [pp_error p; pp_reserved p].
Definition pool_publication_of (l : list Z) : ud_pool_publication :=
  mk_pool_publication (publication_of (take 39 l)) l.[39] l.[40].
Definition pool_publication_widths : list nat := (contract_widths ++ [8; 8; 8]%nat) ++ [4; 4]%nat.
Lemma pool_publication_fields_ok p :
  pool_publication_ok p -> Forall2 field_in_range pool_publication_widths (pool_publication_fields p).
Proof.
  intros (?&?&?). unfold pool_publication_fields, pool_publication_widths.
  apply Forall2_app; [by apply publication_fields_ok|layout].
Qed.
Lemma pool_publication_of_fields p :
  pool_publication_ok p -> pool_publication_of (pool_publication_fields p) = p.
Proof.
  destruct p as [[[] ???] ??]. intros [[(?&?&?&?&?&?&?&?&?&?&?&?) ?] ?].
  simpl in *. explode. reflexivity.
Qed.
#[export] Instance CStruct_ud_pool_publication : CStruct ud_pool_publication := {|
  widths := pool_publication_widths; fields := pool_publication_fields;
  of_fields := pool_publication_of; struct_ok := pool_publication_ok;
  fields_ok := pool_publication_fields_ok; of_fields_fields := pool_publication_of_fields |}.

#[export, program] Instance CStruct_ud_initial : CStruct ud_initial := {|
  widths := [8; 8; 8; 8]%nat;
  fields i := [in_args i; in_heap i; in_sp i; in_pc i];
  of_fields l := mk_initial l.[0] l.[1] l.[2] l.[3];
  struct_ok i := in_u64 (in_args i) /\ in_u64 (in_heap i) /\ in_u64 (in_sp i) /\ in_u64 (in_pc i) |}.
Next Obligation. intros i (?&?&?&?). layout. Qed.
Next Obligation. by intros []. Qed.

#[export, program] Instance CStruct_ud_pool_header : CStruct ud_pool_header := {|
  widths := [8; 8; 4; 4; 4; 4]%nat;
  fields h := [h_magic h; h_generation h; h_abi h; h_clients h; h_domains h; h_reserved h];
  of_fields l := mk_pool_header l.[0] l.[1] l.[2] l.[3] l.[4] l.[5];
  struct_ok h := in_u64 (h_magic h) /\ in_u64 (h_generation h) /\ in_u32 (h_abi h) /\
                 in_u32 (h_clients h) /\ in_u32 (h_domains h) /\ in_u32 (h_reserved h) |}.
Next Obligation. intros h (?&?&?&?&?&?). layout. Qed.
Next Obligation. by intros []. Qed.

#[export, program] Instance CStruct_ud_profile_header : CStruct ud_profile_header := {|
  widths := [8; 4; 4]%nat;
  fields t := [t_magic t; t_abi t; t_profile t];
  of_fields l := mk_profile_header l.[0] l.[1] l.[2];
  struct_ok t := in_u64 (t_magic t) /\ in_u32 (t_abi t) /\ in_u32 (t_profile t) |}.
Next Obligation. intros t (?&?&?). layout. Qed.
Next Obligation. by intros []. Qed.

Definition manifest_ok (r : ud_remote_manifest) : Prop :=
  in_u64 (r_magic r) /\ in_u32 (r_abi r) /\ in_u32 (r_mode r) /\
  array_ok 4 in_u32 (r_words r) /\ in_u32 (r_reserved r) /\ in_u32 (r_pad r).
#[export, program] Instance CStruct_ud_remote_manifest : CStruct ud_remote_manifest := {|
  widths := [8; 4; 4]%nat ++ replicate 4 4%nat ++ [4; 4]%nat;
  fields r := [r_magic r; r_abi r; r_mode r] ++ r_words r ++ [r_reserved r; r_pad r];
  of_fields l := mk_manifest l.[0] l.[1] l.[2] (take 4 (drop 3 l)) l.[7] l.[8];
  struct_ok := manifest_ok |}.
Next Obligation. intros r (?&?&?&?&?&?). layout. Qed.
Next Obligation. intros [] (?&?&?&?&?&?). simpl in *. explode. reflexivity. Qed.

Definition extra_domain_ok (x : ud_social_extra_domain) : Prop :=
  array_ok 4 in_u64 (x_table_pa x) /\ in_u64 (x_code_pa x) /\ in_u64 (x_stack_pa x).
Definition extra_domain_fields (x : ud_social_extra_domain) : list Z :=
  x_table_pa x ++ [x_code_pa x; x_stack_pa x].
Definition extra_domain_of (l : list Z) : ud_social_extra_domain :=
  mk_extra_domain (take 4 l) l.[4] l.[5].
Definition extra_ok (e : ud_social_extra) : Prop :=
  in_u64 (e_nonce e) /\ in_u32 (e_abi e) /\ in_u32 (e_domains e) /\
  length (e_domain e) = 4%nat /\ Forall extra_domain_ok (e_domain e).

Lemma extra_domain_fields_ok x :
  extra_domain_ok x -> Forall2 field_in_range (replicate 6 8%nat) (extra_domain_fields x).
Proof.
  intros (?&?&?). unfold extra_domain_fields. change (replicate 6 8%nat) with (replicate 4 8%nat ++ [8; 8]%nat).
  layout.
Qed.

#[export, program] Instance CStruct_ud_social_extra : CStruct ud_social_extra := {|
  widths := [8; 4; 4]%nat ++ mjoin (replicate 4 (replicate 6 8%nat));
  fields e := [e_nonce e; e_abi e; e_domains e] ++ mjoin (extra_domain_fields <$> e_domain e);
  of_fields l := mk_extra l.[0] l.[1] l.[2]
    ((fun i => extra_domain_of (take 6 (drop (3 + 6 * i)%nat l))) <$> seq 0 4);
  struct_ok := extra_ok |}.
Next Obligation.
  intros [? ? ? dom] (?&?&?&Hl&Hd). cbn [e_nonce e_abi e_domains e_domain] in *. explode. forall_inv.
  cbn [replicate mjoin list_join fmap list_fmap]. rewrite !app_nil_r.
  layout; try (by apply extra_domain_fields_ok). 
Qed.
Next Obligation.
  intros [? ? ? dom] (?&?&?&Hl&Hd). cbn [e_nonce e_abi e_domains e_domain] in *. explode. forall_inv.
  repeat match goal with x : ud_social_extra_domain, H : extra_domain_ok ?x |- _ =>
    destruct x; destruct H as [[] _] end.
  simpl in *. explode. reflexivity.
Qed.

(** The arguments of the two prepare requests. *)
Definition prepare_ok (p : ud_prepare) : Prop := in_u64 (p_import_va p) /\ contract_ok (p_contract p).
Definition prepare_fields (p : ud_prepare) : list Z := p_import_va p :: contract_fields (p_contract p).
Definition prepare_of (l : list Z) : ud_prepare := mk_prepare l.[0] (contract_of (take 36 (drop 1 l))).
Lemma prepare_fields_ok p : prepare_ok p -> Forall2 field_in_range (8%nat :: contract_widths) (prepare_fields p).
Proof. intros [? ?]. apply List.Forall2_cons; [by apply field8|by apply contract_fields_ok]. Qed.
Lemma prepare_of_fields p : prepare_ok p -> prepare_of (prepare_fields p) = p.
Proof.
  destruct p as [? []]. intros [_ (?&?&?&?&?&?&?&?&?&?&?&?)]. simpl in *. explode. reflexivity.
Qed.
#[export] Instance CStruct_ud_prepare : CStruct ud_prepare := {|
  widths := 8%nat :: contract_widths; fields := prepare_fields; of_fields := prepare_of;
  struct_ok := prepare_ok; fields_ok := prepare_fields_ok; of_fields_fields := prepare_of_fields |}.

Definition pool_prepare_ok (q : ud_pool_prepare) : Prop :=
  prepare_ok (q_domain q) /\ in_u64 (q_generation q) /\ in_u32 (q_abi q) /\ in_u32 (q_slot q).
#[export, program] Instance CStruct_ud_pool_prepare : CStruct ud_pool_prepare := {|
  widths := (8%nat :: contract_widths) ++ [8; 4; 4]%nat;
  fields q := prepare_fields (q_domain q) ++ [q_generation q; q_abi q; q_slot q];
  of_fields l := mk_pool_prepare (prepare_of (take 37 l)) l.[37] l.[38] l.[39];
  struct_ok := pool_prepare_ok |}.
Next Obligation. intros q (?&?&?&?). apply Forall2_app; [by apply prepare_fields_ok|layout]. Qed.
Next Obligation.
  intros [[? []] ???] [[_ (?&?&?&?&?&?&?&?&?&?&?&?)] _]. simpl in *. explode. reflexivity.
Qed.

(** A call and its reply, the shared A-stack page, and the TLB diagnostic. *)
Definition call_ok (c : ud_call) : Prop :=
  in_u64 (k_a c) /\ in_u64 (k_b c) /\ in_u64 (k_result c) /\ in_u64 (k_elapsed_ns c) /\
  in_u64 (k_esr c) /\ in_u64 (k_far c) /\ in_u32 (k_procedure c) /\ in_u32 (k_transitions c) /\
  in_u32 (k_cpu c) /\ in_u32 (k_reserved c).
#[export, program] Instance CStruct_ud_call : CStruct ud_call := {|
  widths := replicate 6 8%nat ++ replicate 4 4%nat;
  fields c := [k_a c; k_b c; k_result c; k_elapsed_ns c; k_esr c; k_far c; k_procedure c; k_transitions c;
    k_cpu c; k_reserved c];
  of_fields l := mk_call l.[0] l.[1] l.[2] l.[3] l.[4] l.[5] l.[6] l.[7] l.[8] l.[9];
  struct_ok := call_ok |}.
Next Obligation. intros c (?&?&?&?&?&?&?&?&?&?). cbn [replicate app]. layout. Qed.
Next Obligation. by intros []. Qed.

Definition mapped_ok (p : ud_mapped) : Prop :=
  in_u64 (mp_a p) /\ in_u64 (mp_b p) /\ in_u64 (mp_result p) /\ in_u64 (mp_completion p) /\
  in_u64 (mp_elapsed_ns p) /\ in_u64 (mp_esr p) /\ in_u64 (mp_far p) /\ in_u32 (mp_procedure p) /\
  in_u32 (mp_transitions p) /\ in_u32 (mp_cpu p) /\ in_u32 (mp_status p).
#[export, program] Instance CStruct_ud_mapped : CStruct ud_mapped := {|
  widths := replicate 7 8%nat ++ replicate 4 4%nat;
  fields p := [mp_a p; mp_b p; mp_result p; mp_completion p; mp_elapsed_ns p; mp_esr p; mp_far p;
    mp_procedure p; mp_transitions p; mp_cpu p; mp_status p];
  of_fields l := mk_mapped l.[0] l.[1] l.[2] l.[3] l.[4] l.[5] l.[6] l.[7] l.[8] l.[9] l.[10];
  struct_ok := mapped_ok |}.
Next Obligation. intros p (?&?&?&?&?&?&?&?&?&?&?). cbn [replicate app]. layout. Qed.
Next Obligation. by intros []. Qed.

Definition tlb_probe_ok (t : ud_tlb_probe) : Prop :=
  in_u64 (t_a t) /\ in_u64 (t_b t) /\ in_u64 (t_first_ns t) /\ in_u64 (t_second_ns t) /\
  in_u64 (t_first_result t) /\ in_u64 (t_second_result t) /\ in_u64 (t_first_esr t) /\
  in_u64 (t_first_far t) /\ in_u64 (t_second_esr t) /\ in_u64 (t_second_far t) /\
  in_u32 (t_procedure t) /\ in_u32 (t_flush t) /\ in_u32 (t_first_cpu t) /\ in_u32 (t_second_cpu t).
#[export, program] Instance CStruct_ud_tlb_probe : CStruct ud_tlb_probe := {|
  widths := replicate 10 8%nat ++ replicate 4 4%nat;
  fields t := [t_a t; t_b t; t_first_ns t; t_second_ns t; t_first_result t; t_second_result t;
    t_first_esr t; t_first_far t; t_second_esr t; t_second_far t; t_procedure t; t_flush t;
    t_first_cpu t; t_second_cpu t];
  of_fields l := mk_tlb_probe l.[0] l.[1] l.[2] l.[3] l.[4] l.[5] l.[6] l.[7] l.[8] l.[9] l.[10] l.[11]
    l.[12] l.[13];
  struct_ok := tlb_probe_ok |}.
Next Obligation. intros t (?&?&?&?&?&?&?&?&?&?&?&?&?&?). cbn [replicate app]. layout. Qed.
Next Obligation. by intros []. Qed.
