(* ===== verification/Layout.v ===== *)
(** * Page-table construction and validation: include/lrpc/ub_domain_layout.h

    B builds the tables of every domain from the contract A sent; A rebuilds
    them from its own copy and compares them byte for byte.  Both sides use the
    functions of this file. *)

From S2P Require Import Prelude CMem Abi.

Definition UD_PA_MASK := 0x0000fffffffff000.
Definition UD_PXN := BIT 53.
Definition UD_UXN := BIT 54.

(** [~x] on a [__u64]. *)
Definition not64 (x : Z) : Z := u64 (Z.lnot x).

Definition ud_pa_valid (pa : Z) : bool := nz pa && z0 (pa .& not64 UD_PA_MASK).

Definition ud_contract_valid (c : ud_contract) : bool :=
  if (c_magic c !=? UD_MAGIC) || (c_abi c !=? UD_ABI) || z0 (c_nonce c) ||
     nz (c_reserved c) || (c_wb_index c >? 7) || (c_nc_index c >? 7) ||
     (c_wb_index c =? c_nc_index c) || negb (ud_pa_valid (c_heap_pa c)) ||
     (nz (c_write_pa c) && (negb (ud_pa_valid (c_write_pa c)) ||
                            (c_write_pa c =? c_heap_pa c)))
  then false
  else for_all UD_DOMAINS (fun d =>
    if negb (ud_pa_valid (c_code_pa c).[d]) || negb (ud_pa_valid (c_stack_pa c).[d]) ||
       negb (ud_pa_valid (c_args_pa c).[d]) then false
    else if negb (for_all 4 (fun l =>
      negb (negb (ud_pa_valid (c_table_pa c d l)) ||
            (nz (c_write_pa c) && (c_write_pa c =? c_table_pa c d l))))) then false
    else if nz (c_write_pa c) && ((c_write_pa c =? (c_code_pa c).[d]) ||
                                  (c_write_pa c =? (c_stack_pa c).[d]) ||
                                  (c_write_pa c =? (c_args_pa c).[d])) then false
    else true).

(** Valid page, EL0 access, AF, inner shareable, non-global, privileged NX. *)
Definition page_flags : Z :=
  3 .| (BIT 6) .| (3 .<< 8) .| (BIT 10) .| (BIT 11) .| UD_PXN.

Definition ud_build_table (c : ud_contract) (d level : Z) : list Z :=
  let wb := page_flags .| (c_wb_index c .<< 2) in
  let nc := page_flags .| (c_nc_index c .<< 2) in
  let table := replicate 512 0 in
  if level <? 3 then
    setz table ((UD_VA .>> (39 - 9 * level)) .& 511) (c_table_pa c d (level + 1) .| 3)
  else
    let table := setz table 0 ((c_code_pa c).[d] .| wb .| BIT 7) in
    let table := setz table 2 ((c_stack_pa c).[d] .| wb .| UD_UXN) in
    let table := setz table 4 (c_heap_pa c .| nc .| BIT 7 .| UD_UXN) in
    let table := setz table 6 ((c_args_pa c).[d] .| wb .| UD_UXN) in
    if nz (c_write_pa c) && (d =? 1) then setz table 8 (c_write_pa c .| nc .| UD_UXN)
    else table.

(** [base], [extra] and [out] are non-null in every caller; the aliasing checks
    are those of the source, in its order. *)
Definition extra_tables_clear (base : ud_contract) (extra : ud_social_extra) (e l : Z) : bool :=
  let table := (x_table_pa (e_dom extra e)).[l] in
  if negb (ud_pa_valid table) || (table =? c_heap_pa base) then false
  else for_all UD_DOMAINS (fun d =>
         if (table =? (c_code_pa base).[d]) || (table =? (c_stack_pa base).[d]) ||
            (table =? (c_args_pa base).[d]) then false
         else for_all 4 (fun k => negb (table =? c_table_pa base d k))) &&
       for_all UD_SOCIAL_EXTRA_DOMAINS (fun j => for_all 4 (fun k =>
         negb (((j !=? e) || (k !=? l)) && (table =? (x_table_pa (e_dom extra j)).[k])))).

Definition extra_domain_clear (base : ud_contract) (extra : ud_social_extra) (e : Z) : bool :=
  let x := e_dom extra e in
  if negb (ud_pa_valid (x_code_pa x)) || negb (ud_pa_valid (x_stack_pa x)) ||
     (x_code_pa x =? x_stack_pa x) || (x_code_pa x =? c_heap_pa base) ||
     (x_stack_pa x =? c_heap_pa base) then false
  else
    for_all UD_DOMAINS (fun d =>
      if (x_code_pa x =? (c_code_pa base).[d]) || (x_code_pa x =? (c_stack_pa base).[d]) ||
         (x_code_pa x =? (c_args_pa base).[d]) || (x_stack_pa x =? (c_code_pa base).[d]) ||
         (x_stack_pa x =? (c_stack_pa base).[d]) || (x_stack_pa x =? (c_args_pa base).[d]) then false
      else for_all 4 (fun l =>
        negb ((x_code_pa x =? c_table_pa base d l) || (x_stack_pa x =? c_table_pa base d l)))) &&
    for_all UD_SOCIAL_EXTRA_DOMAINS (fun j =>
      let y := e_dom extra j in
      if (e !=? j) && ((x_code_pa x =? x_code_pa y) || (x_code_pa x =? x_stack_pa y) ||
                       (x_stack_pa x =? x_code_pa y) || (x_stack_pa x =? x_stack_pa y)) then false
      else for_all 4 (fun k =>
        negb ((x_code_pa x =? (x_table_pa y).[k]) || (x_stack_pa x =? (x_table_pa y).[k])))) &&
    for_all 4 (extra_tables_clear base extra e).

(** The domain entry an extra nginx identity specialises. *)
Definition extra_entry (index : Z) : Z := if nz (index .& 1) then UD_LEAF else UD_MIDDLE.

Definition set_tables (c : ud_contract) (d : Z) (t : list Z) : list Z :=
  for_ 4 (fun l ts => setz ts (4 * d + l) t.[l]) (c_tables c).

(** [Some out] when the source returns non-zero, with [*out]. *)
Definition ud_social_extra_contract (base : ud_contract) (extra : ud_social_extra) (index : Z)
    : option ud_contract :=
  if nz (c_write_pa base) || (index >=? UD_SOCIAL_EXTRA_DOMAINS) ||
     (e_abi extra !=? UD_SOCIAL_EXTRA_ABI) ||
     (e_domains extra !=? UD_SOCIAL_EXTRA_DOMAINS) || (e_nonce extra !=? c_nonce base) ||
     negb (ud_contract_valid base) then None
  else if negb (for_all UD_SOCIAL_EXTRA_DOMAINS (extra_domain_clear base extra)) then None
  else
    let d := extra_entry index in
    let x := e_dom extra index in
    let out := mk_contract (c_magic base) (c_nonce base) (c_abi base) (c_wb_index base)
      (c_nc_index base) (c_reserved base) (set_tables base d (x_table_pa x)) (c_heap_pa base)
      (setz (c_code_pa base) d (x_code_pa x)) (setz (c_stack_pa base) d (x_stack_pa x))
      (c_args_pa base) (c_write_pa base) in
    if ud_contract_valid out then Some out else None.

(** ** Physical addresses *)

Lemma pa_mask_testbit k : 0 <= k -> Z.testbit UD_PA_MASK k = (12 <=? k) && (k <? 48).
Proof.
  intros Hk. change UD_PA_MASK with (Z.shiftl (Z.ones 36) 12).
  rewrite Z.shiftl_spec by lia. destruct (12 <=? k) eqn:E; bprop; simpl.
  - rewrite Z.testbit_ones_nonneg by lia.
    destruct (k <? 48) eqn:E2; bprop; [apply Z.ltb_lt|apply Z.ltb_ge]; lia.
  - apply Z.testbit_neg_r. lia.
Qed.

Lemma pa_not_mask_testbit k :
  0 <= k -> Z.testbit (not64 UD_PA_MASK) k = (k <? 64) && negb ((12 <=? k) && (k <? 48)).
Proof.
  intros Hk. unfold not64, u64. destruct (k <? 64) eqn:E; bprop; simpl.
  - by rewrite Z.mod_pow2_bits_low, Z.lnot_spec, pa_mask_testbit by lia.
  - by rewrite Z.mod_pow2_bits_high by lia.
Qed.

(** A valid physical address: a non-zero page-aligned 48-bit address. *)
Lemma pa_valid_bits pa k :
  in_u64 pa -> ud_pa_valid pa = true -> 0 <= k -> k < 12 \/ 48 <= k -> Z.testbit pa k = false.
Proof.
  intros Hr Hv Hk Hout. unfold ud_pa_valid in Hv. bprop.
  destruct (decide (64 <= k)); [apply (testbit_bound pa 64); unfold in_u64 in *; lia|].
  assert (Hb : Z.testbit (pa .& not64 UD_PA_MASK) k = false).
  { rewrite H0. apply Z.testbit_0_l. }
  rewrite Z.land_spec, pa_not_mask_testbit in Hb by lia.
  replace ((k <? 64) && negb ((12 <=? k) && (k <? 48))) with true in Hb by lia.
  by rewrite andb_true_r in Hb.
Qed.

Lemma pa_valid_nonzero pa : ud_pa_valid pa = true -> pa <> 0.
Proof. unfold ud_pa_valid. intros H. bprop. done. Qed.

(** Masking a descriptor gives back the address it was built from. *)
Lemma pa_mask_lor pa f :
  in_u64 pa -> ud_pa_valid pa = true -> f .& UD_PA_MASK = 0 -> (pa .| f) .& UD_PA_MASK = pa.
Proof.
  intros Hr Hv Hf. rewrite Z.land_lor_distr_l, Hf, Z.lor_0_r.
  apply Z.bits_inj'. intros k Hk. rewrite Z.land_spec, pa_mask_testbit by lia.
  destruct ((12 <=? k) && (k <? 48)) eqn:E; [apply andb_true_r|].
  rewrite andb_false_r. symmetry. apply pa_valid_bits; auto. lia.
Qed.

Lemma pa_valid_mod pa : in_u64 pa -> ud_pa_valid pa = true -> pa mod 4096 = 0.
Proof.
  intros Hr Hv. change 4096 with (2 ^ 12). rewrite <- Z.land_ones by lia.
  apply Z.bits_inj'. intros k Hk. rewrite Z.land_spec, Z.testbit_0_l, Z.testbit_ones_nonneg by lia.
  destruct (k <? 12) eqn:E; bprop; [|apply andb_false_r].
  by rewrite (pa_valid_bits pa) by (auto; lia).
Qed.

Lemma pa_valid_lt pa : in_u64 pa -> ud_pa_valid pa = true -> 0 < pa < 2 ^ 48.
Proof.
  intros Hr Hv. pose proof (pa_valid_nonzero pa Hv). unfold in_u64 in Hr. split; [lia|].
  rewrite <- (pa_mask_lor pa 0), Z.lor_0_r by (done || lia).
  apply Z.log2_lt_cancel. eapply Z.le_lt_trans; [apply Z.log2_land; [lia|done]|].
  eapply Z.le_lt_trans; [apply Z.le_min_r|]. done.
Qed.

(** ** What a valid contract says *)

Record contract_valid_spec (c : ud_contract) : Prop := {
  cv_magic : c_magic c = UD_MAGIC;
  cv_abi : c_abi c = UD_ABI;
  cv_nonce : c_nonce c <> 0;
  cv_reserved : c_reserved c = 0;
  cv_wb : c_wb_index c <= 7;
  cv_nc : c_nc_index c <= 7;
  cv_attr : c_wb_index c <> c_nc_index c;
  cv_heap : ud_pa_valid (c_heap_pa c) = true;
  cv_code : forall d, 0 <= d < UD_DOMAINS -> ud_pa_valid (c_code_pa c).[d] = true;
  cv_stack : forall d, 0 <= d < UD_DOMAINS -> ud_pa_valid (c_stack_pa c).[d] = true;
  cv_args : forall d, 0 <= d < UD_DOMAINS -> ud_pa_valid (c_args_pa c).[d] = true;
  cv_table : forall d l, 0 <= d < UD_DOMAINS -> 0 <= l < 4 -> ud_pa_valid (c_table_pa c d l) = true;
  (** The writable B page, when there is one, is no other page of the contract. *)
  cv_write : c_write_pa c <> 0 ->
    ud_pa_valid (c_write_pa c) = true /\ c_write_pa c <> c_heap_pa c /\
    forall d, 0 <= d < UD_DOMAINS ->
      c_write_pa c <> (c_code_pa c).[d] /\ c_write_pa c <> (c_stack_pa c).[d] /\
      c_write_pa c <> (c_args_pa c).[d] /\ forall l, 0 <= l < 4 -> c_write_pa c <> c_table_pa c d l }.

Lemma domain_pages_ok c d :
  (if negb (ud_pa_valid (c_code_pa c).[d]) || negb (ud_pa_valid (c_stack_pa c).[d]) ||
       negb (ud_pa_valid (c_args_pa c).[d]) then false
    else if negb (for_all 4 (fun l =>
      negb (negb (ud_pa_valid (c_table_pa c d l)) ||
            (nz (c_write_pa c) && (c_write_pa c =? c_table_pa c d l))))) then false
    else if nz (c_write_pa c) && ((c_write_pa c =? (c_code_pa c).[d]) ||
                                  (c_write_pa c =? (c_stack_pa c).[d]) ||
                                  (c_write_pa c =? (c_args_pa c).[d])) then false
    else true) = true <->
  ud_pa_valid (c_code_pa c).[d] = true /\ ud_pa_valid (c_stack_pa c).[d] = true /\
  ud_pa_valid (c_args_pa c).[d] = true /\
  (forall l, 0 <= l < 4 -> ud_pa_valid (c_table_pa c d l) = true) /\
  (c_write_pa c <> 0 ->
     c_write_pa c <> (c_code_pa c).[d] /\ c_write_pa c <> (c_stack_pa c).[d] /\
     c_write_pa c <> (c_args_pa c).[d] /\ forall l, 0 <= l < 4 -> c_write_pa c <> c_table_pa c d l).
Proof.
  split.
  - intros H. branches H. bprop. rewrite for_all_spec in *.
    assert (Ht : forall l, 0 <= l < 4 -> ud_pa_valid (c_table_pa c d l) = true /\
                   (c_write_pa c <> 0 -> c_write_pa c <> c_table_pa c d l)).
    { intros l Hl. match goal with H : forall i, _ |- _ => specialize (H l Hl) end.
      bprop. split; [done|]. intros Hw. destruct_or!; bprop; done. }
    repeat split; try done; try (intros; apply Ht; done); destruct_or!; bprop; try done.
  - intros (H1 & H2 & H3 & H4 & H5). rewrite H1, H2, H3. simpl.
    assert (Hl : for_all 4 (fun l => negb (negb (ud_pa_valid (c_table_pa c d l)) ||
            (nz (c_write_pa c) && (c_write_pa c =? c_table_pa c d l)))) = true).
    { apply for_all_spec. intros l Hl. rewrite H4 by done. simpl. unfold nz.
      destruct (c_write_pa c =? 0) eqn:E; bprop; [done|]. simpl.
      apply negb_true_iff, Z.eqb_neq. by apply H5. }
    rewrite Hl. simpl. unfold nz. destruct (c_write_pa c =? 0) eqn:E; bprop; [done|].
    destruct (H5 E) as (Ha & Hb & Hc & _). apply Z.eqb_neq in Ha, Hb, Hc.
    by rewrite Ha, Hb, Hc.
Qed.

Lemma ud_contract_valid_spec c : ud_contract_valid c = true <-> contract_valid_spec c.
Proof.
  unfold ud_contract_valid. split.
  - intros H. case_if_in H; [done|]. rewrite for_all_spec in H.
    assert (Hd := fun d Hd => proj1 (domain_pages_ok c d) (H d Hd)). bprop.
    constructor; try done; try lia; try (intros d Hd'; apply (Hd d Hd')).
    + intros d l Hd' Hl. by apply (Hd d Hd').
    + intros Hw. destruct_or!; bprop; [done|]. repeat split; try done; by apply Hd.
  - intros [].
    match goal with |- (if ?b then _ else _) = true => assert (Hb : b = false) end.
    { rewrite cv_magic0, cv_abi0, cv_reserved0, cv_heap0. unfold nz, z0 in *. simpl.
      destruct (c_nonce c =? 0) eqn:E1; [lia|].
      destruct (c_write_pa c =? 0) eqn:E2; simpl; [lia|].
      bprop. destruct (cv_write0 E2) as (-> & ? & _). simpl. lia. }
    rewrite Hb. apply for_all_spec. intros d Hd. apply domain_pages_ok.
    repeat split; auto; by apply cv_write0.
Qed.

(** ** The table entries *)

Lemma ud_build_table_length c d l : length (ud_build_table c d l) = 512%nat.
Proof. unfold ud_build_table. repeat case_if; by rewrite ?setz_length, length_replicate. Qed.

Lemma zero_table i : (replicate 512 0).[i] = 0.
Proof. unfold nthz. rewrite nth_lookup. destruct (replicate 512 0 !! Z.to_nat i) eqn:E; [|done].
  by apply lookup_replicate in E as [-> _]. Qed.

Definition upper_index (level : Z) : Z := if level =? 1 then 4 else 0.

Lemma build_table_upper c d l i :
  0 <= l < 3 -> 0 <= i < 512 ->
  (ud_build_table c d l).[i] = if i =? upper_index l then c_table_pa c d (l + 1) .| 3 else 0.
Proof.
  intros Hl Hi. unfold ud_build_table. destruct (l <? 3) eqn:E; bprop; [|lia].
  replace ((UD_VA .>> (39 - 9 * l)) .& 511) with (upper_index l)
    by (assert (l = 0 \/ l = 1 \/ l = 2) as [-> | [-> | ->]] by lia; reflexivity).
  assert (0 <= upper_index l < 512) by (unfold upper_index; case_if; lia).
  destruct (i =? upper_index l) eqn:Ei; bprop.
  - subst i. rewrite nthz_setz_eq; [done|]. rewrite length_replicate. lia.
  - rewrite nthz_setz_ne by lia. apply zero_table.
Qed.

(** The five kinds of pages a domain can have, by leaf-table index. *)
Definition leaf_desc (c : ud_contract) (d i : Z) : Z :=
  let wb := page_flags .| (c_wb_index c .<< 2) in
  let nc := page_flags .| (c_nc_index c .<< 2) in
  if i =? 0 then (c_code_pa c).[d] .| wb .| BIT 7
  else if i =? 2 then (c_stack_pa c).[d] .| wb .| UD_UXN
  else if i =? 4 then c_heap_pa c .| nc .| BIT 7 .| UD_UXN
  else if i =? 6 then (c_args_pa c).[d] .| wb .| UD_UXN
  else if (i =? 8) && nz (c_write_pa c) && (d =? 1) then c_write_pa c .| nc .| UD_UXN
  else 0.

Lemma build_table_leaf c d i :
  0 <= i < 512 -> (ud_build_table c d 3).[i] = leaf_desc c d i.
Proof.
  intros Hi. unfold ud_build_table, leaf_desc. cbn [Z.ltb Z.compare Pos.compare Pos.compare_cont].
  assert (Hn : forall j x (t : list Z), length t = 512%nat -> 0 <= j < 512 ->
            (setz t j x).[i] = if i =? j then x else t.[i]).
  { intros j x t Ht Hj. destruct (i =? j) eqn:E; bprop.
    - subst. apply nthz_setz_eq. lia.
    - apply nthz_setz_ne; lia. }
  destruct (nz (c_write_pa c) && (d =? 1)) eqn:E.
  - rewrite !Hn by (rewrite ?setz_length, ?length_replicate; lia || done).
    rewrite zero_table. bprop. repeat case_if; bprop; try lia; done.
  - rewrite !Hn by (rewrite ?setz_length, ?length_replicate; lia || done).
    rewrite zero_table. rewrite <- andb_assoc, E, andb_false_r.
    repeat case_if; bprop; try lia; done.
Qed.
