(* ===== verification/PageWalk.v ===== *)
(** * The address space of a domain

    The Armv8 stage-1 walk the gate relies on (TTBR0, four levels, 4 KiB
    granule, 48-bit addresses, as [shadow_tcr] of [Run] selects), over physical
    memory, and the proof that the tables of [ud_build_table] map exactly the
    pages of the contract, each with the permissions the source comments give
    it, and nothing else. *)

From S2P Require Import Prelude CMem Abi Layout.

(** ** The walk *)

(** EL0 permissions and the MAIR index of a translation. *)
Record perm := mk_perm { pr_read : bool; pr_write : bool; pr_exec : bool; pr_attr : Z }.

Inductive xlat :=
| XFault (level : Z)
| XPage (pa : Z) (p : perm).

Definition va_index (va level : Z) : Z := (va .>> (39 - 9 * level)) .& 511.

(** Restrictions collected from table descriptors: APTable and UXNTable. *)
Record table_attrs := mk_table_attrs { ta_no_el0 : bool; ta_read_only : bool; ta_uxn : bool }.

Definition add_table_attrs (t : table_attrs) (e : Z) : table_attrs :=
  mk_table_attrs (ta_no_el0 t || Z.testbit e 61) (ta_read_only t || Z.testbit e 62)
    (ta_uxn t || Z.testbit e 60).

Definition leaf_perm (t : table_attrs) (e : Z) : perm :=
  let r := Z.testbit e 6 && negb (ta_no_el0 t) in
  mk_perm r (r && negb (Z.testbit e 7) && negb (ta_read_only t))
    (negb (Z.testbit e 54) && negb (ta_uxn t)) ((e .>> 2) .& 7).

(** A descriptor whose access flag is clear faults. *)
Definition leaf (level : Z) (t : table_attrs) (e size va : Z) : xlat :=
  if Z.testbit e 10 then
    XPage ((e .& UD_PA_MASK) / size * size + va mod size) (leaf_perm t e)
  else XFault level.

Fixpoint walk_level (n : nat) (pm : mem) (level table : Z) (t : table_attrs) (va : Z) : xlat :=
  match n with
  | O => XFault level
  | S n =>
      let e := ld64 pm (table + 8 * va_index va level) in
      if negb (Z.testbit e 0) then XFault level
      else if level =? 3 then
        if Z.testbit e 1 then leaf level t e 4096 va else XFault level
      else if Z.testbit e 1 then
        walk_level n pm (level + 1) (e .& UD_PA_MASK) (add_table_attrs t e) va
      else if level =? 0 then XFault level
      else leaf level t e (2 ^ (39 - 9 * level)) va
  end.

(** [ttbr] is the value written to TTBR0: the root table and the ASID. *)
Definition walk (pm : mem) (ttbr va : Z) : xlat :=
  if (0 <=? va) && (va <? 2 ^ 48) then
    walk_level 4 pm 0 (ttbr .& UD_PA_MASK) (mk_table_attrs false false false) va
  else XFault 0.

(** ** The address space the contract describes *)

Record page := mk_page { pg_va : Z; pg_pa : Z; pg_perm : perm }.

Definition domain_pages (c : ud_contract) (d : Z) : list page :=
  [ mk_page UD_VA (c_code_pa c).[d] (mk_perm true false true (c_wb_index c));
    mk_page UD_STACK (c_stack_pa c).[d] (mk_perm true true false (c_wb_index c));
    mk_page UD_DATA (c_heap_pa c) (mk_perm true false false (c_nc_index c));
    mk_page UD_ARGS (c_args_pa c).[d] (mk_perm true true false (c_wb_index c)) ] ++
  (if nz (c_write_pa c) && (d =? 1)
   then [mk_page UD_WRITE (c_write_pa c) (mk_perm true true false (c_nc_index c))] else []).

Definition in_page (va : Z) (p : page) : bool := (pg_va p <=? va) && (va <? pg_va p + UD_PAGE).

Definition domain_page (c : ud_contract) (d va : Z) : option page :=
  List.find (in_page va) (domain_pages c d).

(** The tables of domain [d] are in memory where the contract says. *)
Definition tables_at (pm : mem) (c : ud_contract) (d : Z) : Prop :=
  forall l, 0 <= l < 4 -> ld_array 8 pm (c_table_pa c d l) 512 = ud_build_table c d l.

Definition xlat_of (c : ud_contract) (d va : Z) : option (Z * perm) :=
  match domain_page c d va with
  | Some p => Some (pg_pa p + (va - pg_va p), pg_perm p)
  | None => None
  end.

Definition to_option (x : xlat) : option (Z * perm) :=
  match x with XFault _ => None | XPage pa p => Some (pa, p) end.

(** ** Proof *)

Lemma va_index_range va l : 0 <= va_index va l < 512.
Proof. unfold va_index. change 511 with (Z.ones 9). rewrite Z.land_ones by lia. apply Z.mod_pos_bound. lia. Qed.

Lemma va_index_div va l : 0 <= l <= 3 -> va_index va l = va / 2 ^ (39 - 9 * l) mod 512.
Proof.
  intros Hl. unfold va_index. change 511 with (Z.ones 9).
  by rewrite Z.land_ones, Z.shiftr_div_pow2 by lia.
Qed.

Lemma table_entry pm c d l va :
  tables_at pm c d -> 0 <= l < 4 ->
  ld64 pm (c_table_pa c d l + 8 * va_index va l) = (ud_build_table c d l).[va_index va l].
Proof.
  intros Ht Hl. rewrite <- (Ht l Hl). pose proof (va_index_range va l).
  by rewrite ld_array_nth by lia.
Qed.

Definition no_attrs : table_attrs := mk_table_attrs false false false.

Lemma array_in_u64 n l i : array_ok n in_u64 l -> 0 <= i < Z.of_nat n -> in_u64 l.[i].
Proof.
  intros [<- H] Hi. unfold nthz. rewrite List.Forall_forall in H. apply H, nth_In. lia.
Qed.

(** The permissions of a page descriptor are those of its flag bits. *)
Lemma leaf_perm_lor pa f :
  in_u64 pa -> ud_pa_valid pa = true -> leaf_perm no_attrs (pa .| f) = leaf_perm no_attrs f.
Proof.
  intros Hu Hv. unfold leaf_perm. rewrite !Z.lor_spec.
  rewrite !(pa_valid_bits pa) by (auto; lia). cbn [orb]. f_equal.
  apply Z.bits_inj'. intros k Hk.
  rewrite !Z.land_spec, !Z.shiftr_spec, Z.lor_spec by lia.
  destruct (decide (k < 3)).
  - by rewrite (pa_valid_bits pa) by (auto; lia).
  - rewrite (testbit_bound 7 3) by lia. by rewrite !andb_false_r.
Qed.

Lemma leaf_page pa f va :
  in_u64 pa -> ud_pa_valid pa = true -> f .& UD_PA_MASK = 0 -> Z.testbit f 10 = true ->
  leaf 3 no_attrs (pa .| f) 4096 va = XPage (pa + va mod 4096) (leaf_perm no_attrs f).
Proof.
  intros Hu Hv Hf Haf. unfold leaf. rewrite Z.lor_spec, Haf, orb_true_r.
  rewrite pa_mask_lor, leaf_perm_lor by done. f_equal. f_equal.
  pose proof (pa_valid_mod pa Hu Hv). pose proof (Z.div_mod pa 4096). lia.
Qed.

Section space.
Variables (c : ud_contract) (d : Z).
Hypothesis Hok : contract_ok c.
Hypothesis Hvalid : ud_contract_valid c = true.
Hypothesis Hd : 0 <= d < UD_DOMAINS.

Let V := proj1 (ud_contract_valid_spec c) Hvalid.

Lemma code_u64 : in_u64 (c_code_pa c).[d].
Proof. apply (array_in_u64 4); [apply Hok|]. unfold UD_DOMAINS in Hd. lia. Qed.
Lemma stack_u64 : in_u64 (c_stack_pa c).[d].
Proof. apply (array_in_u64 4); [apply Hok|]. unfold UD_DOMAINS in Hd. lia. Qed.
Lemma args_u64 : in_u64 (c_args_pa c).[d].
Proof. apply (array_in_u64 4); [apply Hok|]. unfold UD_DOMAINS in Hd. lia. Qed.
Lemma table_u64 l : 0 <= l < 4 -> in_u64 (c_table_pa c d l).
Proof. intros. apply (array_in_u64 16); [apply Hok|]. unfold UD_DOMAINS in Hd. lia. Qed.

(** A pointer descriptor leads to the next table and restricts nothing. *)
Lemma upper_desc l :
  0 <= l < 4 -> let e := c_table_pa c d l .| 3 in
  Z.testbit e 0 = true /\ Z.testbit e 1 = true /\ e .& UD_PA_MASK = c_table_pa c d l /\
  forall t, add_table_attrs t e = t.
Proof.
  intros Hl e. assert (Hv := cv_table c V d l Hd Hl). assert (Hu := table_u64 l Hl).
  unfold e, add_table_attrs. rewrite !Z.lor_spec.
  rewrite !(pa_valid_bits (c_table_pa c d l)) by (auto; lia).
  repeat split; [by apply pa_mask_lor|].
  intros []. simpl. by rewrite !orb_false_r.
Qed.

(** A leaf descriptor: present, and with the page and rights of its index. *)
Definition leaf_spec (i : Z) (p : page) : Prop :=
  Z.testbit (leaf_desc c d i) 0 = true /\ Z.testbit (leaf_desc c d i) 1 = true /\
  forall va, leaf 3 no_attrs (leaf_desc c d i) 4096 va = XPage (pg_pa p + va mod 4096) (pg_perm p).

Lemma leaf_spec_intro i pa f p :
  leaf_desc c d i = pa .| f -> in_u64 pa -> ud_pa_valid pa = true ->
  f .& UD_PA_MASK = 0 -> f .& 0x403 = 0x403 ->
  p = mk_page (pg_va p) pa (leaf_perm no_attrs f) -> leaf_spec i p.
Proof.
  intros Hi Hu Hv Hm Hf Hp.
  assert (Hb : forall k, 0 <= k -> Z.testbit 0x403 k = true -> Z.testbit f k = true).
  { intros k Hk Hk'. rewrite <- Hf, Z.land_spec in Hk'. by apply andb_true_iff in Hk' as [? _]. }
  unfold leaf_spec. rewrite Hi, !Z.lor_spec, !Hb, !orb_true_r by done.
  repeat split. intros va. rewrite Hp. by apply leaf_page; rewrite ?Hb.
Qed.

Lemma wb_case : c_wb_index c ∈ [0;1;2;3;4;5;6;7].
Proof.
  assert (Hw := cv_wb c V). destruct Hok as (_&_&_&(Hu&_)&_).
  change [0;1;2;3;4;5;6;7] with (seqZ 0 8). apply elem_of_seqZ. lia.
Qed.
Lemma nc_case : c_nc_index c ∈ [0;1;2;3;4;5;6;7].
Proof.
  assert (Hw := cv_nc c V). destruct Hok as (_&_&_&_&(Hu&_)&_).
  change [0;1;2;3;4;5;6;7] with (seqZ 0 8). apply elem_of_seqZ. lia.
Qed.

Let wbf := page_flags .| (c_wb_index c .<< 2).
Let ncf := page_flags .| (c_nc_index c .<< 2).

Ltac index_cases x H :=
  generalize H; generalize x; clear;
  let i := fresh "i" in let Hi := fresh "Hi" in
  intros i Hi; rewrite !elem_of_cons, elem_of_nil in Hi; destruct_or!; subst; reflexivity.
Ltac wb_cases := unfold wbf; index_cases (c_wb_index c) wb_case.
Ltac nc_cases := unfold ncf; index_cases (c_nc_index c) nc_case.

Lemma code_leaf : leaf_spec 0 (mk_page UD_VA (c_code_pa c).[d] (mk_perm true false true (c_wb_index c))).
Proof.
  apply (leaf_spec_intro 0 (c_code_pa c).[d] (wbf .| BIT 7));
    [exact (eq_sym (Z.lor_assoc _ _ _))|apply code_u64|by apply (cv_code c V)|..]; wb_cases.
Qed.
Lemma stack_leaf : leaf_spec 2 (mk_page UD_STACK (c_stack_pa c).[d] (mk_perm true true false (c_wb_index c))).
Proof.
  apply (leaf_spec_intro 2 (c_stack_pa c).[d] (wbf .| UD_UXN));
    [exact (eq_sym (Z.lor_assoc _ _ _))|apply stack_u64|by apply (cv_stack c V)|..]; wb_cases.
Qed.
Lemma heap_leaf : leaf_spec 4 (mk_page UD_DATA (c_heap_pa c) (mk_perm true false false (c_nc_index c))).
Proof.
  apply (leaf_spec_intro 4 (c_heap_pa c) (ncf .| (BIT 7 .| UD_UXN)));
    [rewrite !Z.lor_assoc; reflexivity|apply Hok|by apply (cv_heap c V)|..]; nc_cases.
Qed.
Lemma args_leaf : leaf_spec 6 (mk_page UD_ARGS (c_args_pa c).[d] (mk_perm true true false (c_wb_index c))).
Proof.
  apply (leaf_spec_intro 6 (c_args_pa c).[d] (wbf .| UD_UXN));
    [exact (eq_sym (Z.lor_assoc _ _ _))|apply args_u64|by apply (cv_args c V)|..]; wb_cases.
Qed.
Lemma write_leaf :
  nz (c_write_pa c) && (d =? 1) = true ->
  leaf_spec 8 (mk_page UD_WRITE (c_write_pa c) (mk_perm true true false (c_nc_index c))).
Proof.
  intros Hw. assert (H : c_write_pa c <> 0) by (bprop; done).
  destruct (cv_write c V H) as (Hv & _).
  apply (leaf_spec_intro 8 (c_write_pa c) (ncf .| UD_UXN)); [|apply Hok|exact Hv|..].
  { unfold leaf_desc. rewrite <- andb_assoc, Hw. exact (eq_sym (Z.lor_assoc _ _ _)). }
  all: nc_cases.
Qed.

Lemma in_page_index va k pa pr :
  in_page va (mk_page (UD_VA + k * UD_PAGE) pa pr) = ((va - UD_VA) / UD_PAGE =? k).
Proof.
  unfold in_page, UD_PAGE. cbn [pg_va]. apply eq_true_iff_eq.
  rewrite andb_true_iff, Z.leb_le, Z.ltb_lt, Z.eqb_eq.
  pose proof (Z.div_mod (va - UD_VA) 4096). pose proof (Z.mod_pos_bound (va - UD_VA) 4096). lia.
Qed.

Lemma page_offset va k :
  (va - UD_VA) / UD_PAGE = k -> va mod 4096 = va - (UD_VA + k * UD_PAGE).
Proof.
  intros <-. unfold UD_PAGE, UD_VA.
  pose proof (Z.div_mod (va - 0x100000000) 4096).
  replace (va mod 4096) with ((va - 0x100000000) mod 4096); [lia|].
  replace (va - 0x100000000) with (va + (-1048576) * 4096) by lia. by rewrite Z.mod_add.
Qed.

(** The leaf entry of index [(va - UD_VA) / 4096] agrees with [domain_page]. *)
Lemma leaf_desc_page va :
  match domain_page c d va with
  | Some p => leaf_spec ((va - UD_VA) / UD_PAGE) p /\ va mod 4096 = va - pg_va p
  | None => leaf_desc c d ((va - UD_VA) / UD_PAGE) = 0
  end.
Proof.
  unfold domain_page, domain_pages.
  change UD_STACK with (UD_VA + 2 * UD_PAGE). change UD_DATA with (UD_VA + 4 * UD_PAGE).
  change UD_ARGS with (UD_VA + 6 * UD_PAGE). change UD_WRITE with (UD_VA + 8 * UD_PAGE).
  replace (mk_page UD_VA) with (mk_page (UD_VA + 0 * UD_PAGE)) by (f_equal; lia).
  pose proof (page_offset va) as Hoff.
  destruct (nz (c_write_pa c) && (d =? 1)) eqn:Ew; cbn [app List.find]; rewrite !in_page_index.
  all: remember ((va - UD_VA) / UD_PAGE) as i eqn:Ei.
  all: destruct (i =? 0) eqn:E0; [bprop; subst i; rewrite E0; split; [exact code_leaf|by apply Hoff]|].
  all: destruct (i =? 2) eqn:E2; [bprop; subst i; rewrite E2; split; [exact stack_leaf|by apply Hoff]|].
  all: destruct (i =? 4) eqn:E4; [bprop; subst i; rewrite E4; split; [exact heap_leaf|by apply Hoff]|].
  all: destruct (i =? 6) eqn:E6; [bprop; subst i; rewrite E6; split; [exact args_leaf|by apply Hoff]|].
  - destruct (i =? 8) eqn:E8; [apply Z.eqb_eq in E8; subst i; rewrite E8; split; [exact (write_leaf Ew)|by apply Hoff]|].
    unfold leaf_desc. by rewrite E0, E2, E4, E6, E8.
  - unfold leaf_desc. by rewrite E0, E2, E4, E6, <- andb_assoc, Ew, andb_false_r.
Qed.
End space.

Lemma domain_page_span c d va p :
  domain_page c d va = Some p -> UD_VA <= va < UD_VA + 2 ^ 21.
Proof.
  intros H. apply List.find_some in H as [Hin Hp]. unfold in_page, UD_PAGE in Hp. bprop.
  assert (Hv : UD_VA <= pg_va p <= UD_WRITE).
  { unfold domain_pages, UD_STACK, UD_DATA, UD_ARGS, UD_WRITE in *. simpl in Hin.
    repeat destruct Hin as [<-|Hin]; simpl; try lia.
    case_if_in Hin; simpl in Hin; [destruct Hin as [<-|[]]; simpl; lia|done]. }
  unfold UD_WRITE in Hv. lia.
Qed.

Lemma ttbr_root c d asid :
  contract_ok c -> ud_contract_valid c = true -> 0 <= d < UD_DOMAINS -> 0 <= asid < 2 ^ 16 ->
  (c_table_pa c d 0 .| (asid .<< 48)) .& UD_PA_MASK = c_table_pa c d 0.
Proof.
  intros Hok Hv Hd Ha. apply pa_mask_lor.
  - by apply table_u64.
  - apply ud_contract_valid_spec in Hv. apply (cv_table c Hv); lia.
  - apply Z.bits_inj'. intros k Hk. rewrite Z.land_spec, pa_mask_testbit, Z.shiftl_spec, Z.testbit_0_l by lia.
    destruct (k <? 48) eqn:E; bprop.
    + by rewrite (Z.testbit_neg_r asid) by lia.
    + by rewrite !andb_false_r.
Qed.

(** One step of the walk through an upper table of the domain. *)
Lemma walk_upper pm c d l n t va :
  contract_ok c -> ud_contract_valid c = true -> 0 <= d < UD_DOMAINS -> tables_at pm c d -> 0 <= l < 3 ->
  walk_level (S n) pm l (c_table_pa c d l) t va =
  if va_index va l =? upper_index l then walk_level n pm (l + 1) (c_table_pa c d (l + 1)) t va
  else XFault l.
Proof.
  intros Hok Hv Hd Ht Hl. cbn [walk_level]. rewrite (table_entry pm c d l) by (auto; lia).
  rewrite build_table_upper by (try lia; apply va_index_range).
  destruct (va_index va l =? upper_index l); [|done].
  destruct (upper_desc c d Hok Hv Hd (l + 1) ltac:(lia)) as (-> & -> & -> & ->).
  replace (l =? 3) with false by lia. done.
Qed.

Lemma walk_leaf pm c d n va :
  contract_ok c -> ud_contract_valid c = true -> 0 <= d < UD_DOMAINS -> tables_at pm c d ->
  UD_VA <= va < UD_VA + 2 ^ 21 ->
  to_option (walk_level (S n) pm 3 (c_table_pa c d 3) no_attrs va) = xlat_of c d va.
Proof.
  intros Hok Hv Hd Ht Hva. cbn [walk_level]. rewrite (table_entry pm c d 3) by (auto; lia).
  rewrite build_table_leaf by apply va_index_range.
  assert (Hi : va_index va 3 = (va - UD_VA) / UD_PAGE).
  { rewrite va_index_div by lia. unfold UD_VA, UD_PAGE in *. change (2 ^ (39 - 9 * 3)) with 4096.
    pose proof (Z.div_mod va 4096). pose proof (Z.mod_pos_bound va 4096).
    pose proof (Z.div_mod (va - 0x100000000) 4096). pose proof (Z.mod_pos_bound (va - 0x100000000) 4096).
    symmetry. apply Z.mod_unique with (q := 2048); lia. }
  rewrite Hi. pose proof (leaf_desc_page c d Hok Hv Hd va) as Hp. unfold xlat_of.
  destruct (domain_page c d va) as [p|].
  - destruct Hp as [(-> & -> & ->) Hoff]. simpl. by rewrite Hoff.
  - rewrite Hp. done.
Qed.

(** The addresses under the one populated level-3 table. *)
Lemma block_index va :
  0 <= va < 2 ^ 48 ->
  va_index va 0 = 0 /\ va_index va 1 = 4 /\ va_index va 2 = 0 <-> UD_VA <= va < UD_VA + 2 ^ 21.
Proof.
  intros Hva. unfold UD_VA. rewrite !va_index_div by lia.
  change (39 - 9 * 0) with 39. change (39 - 9 * 1) with 30. change (39 - 9 * 2) with 21.
  assert (Hd2 : va / 2 ^ 30 = va / 2 ^ 21 / 512) by (rewrite Z.div_div by lia; done).
  assert (Hd1 : va / 2 ^ 39 = va / 2 ^ 30 / 512) by (rewrite Z.div_div by lia; done).
  pose proof (Z.div_mod va (2 ^ 21)). pose proof (Z.mod_pos_bound va (2 ^ 21)).
  split.
  - intros (E0 & E1 & E2). pose proof (Z.div_mod (va / 2 ^ 21) 512). pose proof (Z.div_mod (va / 2 ^ 30) 512).
    pose proof (Z.div_lt_upper_bound va (2 ^ 39) 512 ltac:(lia) ltac:(lia)).
    pose proof (Z.div_pos va (2 ^ 39)). rewrite Z.mod_small in E0 by lia. lia.
  - intros Hin. assert (Hq : va / 2 ^ 21 = 2048) by (symmetry; apply Z.div_unique with (r := va - 2 ^ 32); lia).
    rewrite Hd1, Hd2, Hq. done.
Qed.

Lemma walk_domain pm c d asid va :
  contract_ok c -> ud_contract_valid c = true -> 0 <= d < UD_DOMAINS -> 0 <= asid < 2 ^ 16 ->
  tables_at pm c d ->
  to_option (walk pm (c_table_pa c d 0 .| (asid .<< 48)) va) = xlat_of c d va.
Proof.
  intros Hok Hv Hd Ha Ht. unfold walk. rewrite ttbr_root by done.
  assert (Hnone : ~ (UD_VA <= va < UD_VA + 2 ^ 21) -> xlat_of c d va = None).
  { intros Hout. unfold xlat_of. destruct (domain_page c d va) eqn:E; [|done]. by apply domain_page_span in E. }
  destruct ((0 <=? va) && (va <? 2 ^ 48)) eqn:E; bprop;
    [|symmetry; apply Hnone; unfold UD_VA; destruct_or!; bprop; lia].
  pose proof (block_index va ltac:(lia)) as Hblock.
  rewrite (walk_upper pm c d 0) by (auto; lia). change (upper_index 0) with 0. change (0 + 1) with 1.
  destruct (va_index va 0 =? 0) eqn:E0; bprop; [|symmetry; apply Hnone; intros Hin; apply E0, Hblock, Hin].
  rewrite (walk_upper pm c d 1) by (auto; lia). change (upper_index 1) with 4. change (1 + 1) with 2.
  destruct (va_index va 1 =? 4) eqn:E1; bprop; [|symmetry; apply Hnone; intros Hin; apply E1, Hblock, Hin].
  rewrite (walk_upper pm c d 2) by (auto; lia). change (upper_index 2) with 0. change (2 + 1) with 3.
  destruct (va_index va 2 =? 0) eqn:E2; bprop; [|symmetry; apply Hnone; intros Hin; apply E2, Hblock, Hin].
  apply (walk_leaf pm c d 0%nat); auto. by apply Hblock.
Qed.

(** Where a translation can lead, by permission. *)
Lemma xlat_of_perm c d va pa p :
  xlat_of c d va = Some (pa, p) ->
  pr_write p && pr_exec p = false /\
  (pr_write p = true -> exists base, base <= pa < base + UD_PAGE /\
     (base = (c_stack_pa c).[d] \/ base = (c_args_pa c).[d] \/ (d = 1 /\ base = c_write_pa c /\ base <> 0))) /\
  (pr_exec p = true -> (c_code_pa c).[d] <= pa < (c_code_pa c).[d] + UD_PAGE).
Proof.
  unfold xlat_of. destruct (domain_page c d va) as [g|] eqn:E; [|done]. intros [= <- <-].
  apply List.find_some in E as [Hin Hp]. unfold in_page in Hp. bprop.
  unfold domain_pages in Hin. simpl in Hin.
  destruct Hin as [<-|[<-|[<-|[<-|Hin]]]]; cbn in *.
  - split_and!; [done..|lia].
  - split_and!; [done| |done]. intros _. exists (c_stack_pa c).[d]. split; [lia|auto].
  - split_and!; done.
  - split_and!; [done| |done]. intros _. exists (c_args_pa c).[d]. split; [lia|auto].
  - case_if_in Hin; [|done]. bprop. destruct Hin as [<-|[]]; cbn in *.
    split_and!; [done| |done]. intros _. exists (c_write_pa c). split; [lia|auto].
Qed.

(** C1. With the tables that [ud_build_table] makes for domain [d] in memory at
    the contract's addresses, the hardware walk from the domain's root (with any
    ASID) translates exactly the addresses of the domain's pages: code read and
    execute, stack and arguments read and write, the B heap read only, and in
    domain 1 of a contract with a writable page that page read and write; every
    other address faults.  So no page is both writable and executable, EL0 code
    can write only the stack, the arguments and that page, and can execute only
    the domain's own code page. *)
Theorem walk_maps_exactly_the_contract pm c d asid va :
  contract_ok c -> ud_contract_valid c = true -> 0 <= d < UD_DOMAINS -> 0 <= asid < 2 ^ 16 ->
  tables_at pm c d ->
  let t := to_option (walk pm (c_table_pa c d 0 .| (asid .<< 48)) va) in
  t = xlat_of c d va /\
  forall pa p, t = Some (pa, p) ->
    pr_write p && pr_exec p = false /\
    (pr_write p = true -> exists base, base <= pa < base + UD_PAGE /\
       (base = (c_stack_pa c).[d] \/ base = (c_args_pa c).[d] \/ (d = 1 /\ base = c_write_pa c /\ base <> 0))) /\
    (pr_exec p = true -> (c_code_pa c).[d] <= pa < (c_code_pa c).[d] + UD_PAGE).
Proof.
  intros Hok Hv Hd Ha Ht. cbn zeta. rewrite walk_domain by done. split; [done|]. apply xlat_of_perm.
Qed.

(** ** Witness: a contract and the memory B leaves for its domain 0 *)

Definition demo_contract : ud_contract :=
  mk_contract UD_MAGIC 7 UD_ABI 0 1 0 ((fun k => 0x100000 + 4096 * k) <$> seqZ 0 16) 0x200000
    [0x300000; 0x301000; 0x302000; 0x303000] [0x310000; 0x311000; 0x312000; 0x313000]
    [0x320000; 0x321000; 0x322000; 0x323000] 0.

Definition demo_tables (d : Z) (m : mem) : mem :=
  for_ 4 (fun l m => st_array 8 m (c_table_pa demo_contract d l) (ud_build_table demo_contract d l)) m.

Lemma demo_contract_ok : contract_ok demo_contract.
Proof.
  unfold contract_ok, array_ok. split_and!;
    first [ reflexivity | apply (Forall_below (2 ^ 64)); vm_compute; reflexivity
          | unfold in_u64, in_u32, demo_contract, UD_MAGIC, UD_ABI;
            cbn [c_magic c_nonce c_abi c_wb_index c_nc_index c_reserved c_heap_pa c_write_pa]; lia ].
Qed.

Lemma build_table_in_range l : 0 <= l < 4 -> Forall (field_in_range 8) (ud_build_table demo_contract 0 l).
Proof.
  intros Hl. apply (Forall_below (2 ^ 64)).
  assert (Hc : l = 0 \/ l = 1 \/ l = 2 \/ l = 3) by lia. destruct_or!; subst; vm_compute; reflexivity.
Qed.

Lemma demo_table_pa l : 0 <= l < 4 -> c_table_pa demo_contract 0 l = 0x100000 + 4096 * l.
Proof.
  intros Hl. assert (Hc : l = 0 \/ l = 1 \/ l = 2 \/ l = 3) by lia. destruct_or!; subst; reflexivity.
Qed.

Lemma demo_table_other m k l :
  0 <= k < 4 -> 0 <= l < 4 -> k <> l ->
  ld_array 8 (st_array 8 m (c_table_pa demo_contract 0 k) (ud_build_table demo_contract 0 k))
    (c_table_pa demo_contract 0 l) 512 = ld_array 8 m (c_table_pa demo_contract 0 l) 512.
Proof.
  intros Hk Hl Hne. apply ld_array_ext. intros i Hi. apply st_array_out.
  rewrite ud_build_table_length, !demo_table_pa by done. lia.
Qed.

Lemma demo_table_same m l :
  0 <= l < 4 ->
  ld_array 8 (st_array 8 m (c_table_pa demo_contract 0 l) (ud_build_table demo_contract 0 l))
    (c_table_pa demo_contract 0 l) 512 = ud_build_table demo_contract 0 l.
Proof.
  intros Hl. pose proof (build_table_in_range l Hl) as Hr. pose proof (ud_build_table_length demo_contract 0 l) as Hn.
  generalize dependent (ud_build_table demo_contract 0 l). intros t Hr Hn.
  pose proof (ld_st_array 8 m (c_table_pa demo_contract 0 l) t Hr) as H. rewrite Hn in H.
  change (Z.of_nat 512) with 512 in H. exact H.
Qed.

Lemma demo_tables_at : tables_at (demo_tables 0 (fun _ => 0)) demo_contract 0.
Proof.
  intros l Hl. unfold demo_tables. rewrite for_4.
  destruct (decide (l = 3)) as [->|]; [by apply demo_table_same|]. rewrite demo_table_other by lia.
  destruct (decide (l = 2)) as [->|]; [by apply demo_table_same|]. rewrite demo_table_other by lia.
  destruct (decide (l = 1)) as [->|]; [by apply demo_table_same|]. rewrite demo_table_other by lia.
  replace l with 0 by lia. by apply demo_table_same.
Qed.

Lemma walk_maps_exactly_the_contract_witness :
  to_option (walk (demo_tables 0 (fun _ => 0)) (c_table_pa demo_contract 0 0 .| (5 .<< 48)) (UD_ARGS + 16)) =
    Some (0x320010, mk_perm true true false 0).
Proof.
  destruct (walk_maps_exactly_the_contract (demo_tables 0 (fun _ => 0)) demo_contract 0 5 (UD_ARGS + 16)
    demo_contract_ok ltac:(vm_compute; reflexivity) ltac:(unfold UD_DOMAINS; lia) ltac:(lia) demo_tables_at) as [H _].
  rewrite H. vm_compute. reflexivity.
Defined.
