(* ===== verification/PoolSlots.v ===== *)
(** * The slot allocator of the connection pool: kernel/ub-domain/pool_slots.h

    A table of 16 banks, one per imported region (keyed by the physical address
    of its heap page), each with a bit map of the 8 connection slots in use and
    of those quarantined after an incomplete prepare.  The caller holds
    [ud_pool_lock] around each call, so operations are modelled as atomic steps
    on the table. *)

From S2P Require Import Prelude Abi Layout.

Definition UD_POOL_BANKS := 16.

Record ud_pool_bank := mk_bank { bk_heap : Z; bk_generation : Z; bk_used : Z; bk_quarantined : Z }.

Definition empty_bank : ud_pool_bank := mk_bank 0 0 0 0.
Definition bank_at (banks : list ud_pool_bank) (i : Z) : ud_pool_bank := nthz empty_bank banks i.

(** The scan for the bank of [heap]: [None] is the [-ESTALE] return; otherwise
    the final values of [i] and [empty]. *)
Fixpoint scan_banks (bs : list ud_pool_bank) (i empty heap generation : Z) : option (Z * Z) :=
  match bs with
  | [] => Some (i, empty)
  | b :: bs =>
      if z0 (bk_heap b) then
        scan_banks bs (i + 1) (if empty =? UD_POOL_BANKS then i else empty) heap generation
      else if bk_heap b =? heap then
        if bk_generation b !=? generation then None else Some (i, empty)
      else scan_banks bs (i + 1) empty heap generation
  end.

(** [for ( *slot = 0; *slot < UD_CLIENTS; ++*slot) if (!(used & (1UL << *slot))) ...]:
    the final value of [*slot]. *)
Fixpoint first_free (n : nat) (slot used : Z) : Z :=
  match n with
  | O => slot
  | S n => if z0 (used .& (1 .<< slot)) then slot else first_free n (slot + 1) used
  end.

(** Result: return code, table, [*bank], [*slot]. *)
Definition take_slot (banks : list ud_pool_bank) (i bank : Z) : Z * list ud_pool_bank * Z * Z :=
  let b := bank_at banks i in
  let slot := first_free (Z.to_nat UD_CLIENTS) 0 (bk_used b) in
  if slot <? UD_CLIENTS then
    (0, setz banks i (mk_bank (bk_heap b) (bk_generation b) (bk_used b .| (1 .<< slot)) (bk_quarantined b)), i, slot)
  else (- ENOSPC, banks, bank, slot).

Definition ud_slots_acquire (banks : list ud_pool_bank) (heap generation bank slot : Z)
    : Z * list ud_pool_bank * Z * Z :=
  if z0 heap || z0 generation then (- EINVAL, banks, bank, slot)
  else match scan_banks banks 0 UD_POOL_BANKS heap generation with
  | None => (- ESTALE, banks, bank, slot)
  | Some (i, empty) =>
      if i =? UD_POOL_BANKS then
        if empty =? UD_POOL_BANKS then (- ENOSPC, banks, bank, slot)
        else
          let b := bank_at banks empty in
          take_slot (setz banks empty (mk_bank heap generation (bk_used b) (bk_quarantined b))) empty bank
      else take_slot banks i bank
  end.

Definition ud_slots_release (banks : list ud_pool_bank) (bank slot : Z) (exposed reusable : bool)
    : list ud_pool_bank :=
  let bit := u64 (1 .<< slot) in
  let b := bank_at banks bank in
  let b := if exposed && negb reusable
           then mk_bank (bk_heap b) (bk_generation b) (bk_used b) (bk_quarantined b .| bit)
           else mk_bank (bk_heap b) (bk_generation b) (bk_used b .& not64 bit) (bk_quarantined b) in
  let b := if z0 (bk_used b) then mk_bank 0 0 (bk_used b) 0 else b in
  setz banks bank b.

(** ** Bit maps *)

Definition slot_bits (u : Z) : Prop := 0 <= u < 2 ^ UD_CLIENTS.

Lemma slot_testbit_out u k : slot_bits u -> UD_CLIENTS <= k -> Z.testbit u k = false.
Proof. intros H Hk. apply (testbit_bound u UD_CLIENTS); [done|unfold UD_CLIENTS; lia|done]. Qed.

Lemma slot_bits_intro u : 0 <= u -> (forall k, UD_CLIENTS <= k -> Z.testbit u k = false) -> slot_bits u.
Proof.
  intros Hu Hk. split; [done|]. destruct (decide (u = 0)) as [->|]; [done|].
  apply Z.log2_lt_pow2; [lia|]. destruct (decide (Z.log2 u < UD_CLIENTS)) as [|Hge]; [done|].
  exfalso. specialize (Hk (Z.log2 u) ltac:(lia)). rewrite Z.bit_log2 in Hk by lia. done.
Qed.

Lemma shiftl1_testbit s k : 0 <= s -> 0 <= k -> Z.testbit (1 .<< s) k = (k =? s).
Proof.
  intros Hs Hk. rewrite Z.shiftl_1_l. destruct (k =? s) eqn:E; bprop.
  - subst. by apply Z.pow2_bits_true.
  - by apply Z.pow2_bits_false; lia.
Qed.

Lemma set_slot_testbit u s k :
  0 <= s -> 0 <= k -> Z.testbit (u .| (1 .<< s)) k = Z.testbit u k || (k =? s).
Proof. intros Hs Hk. by rewrite Z.lor_spec, shiftl1_testbit. Qed.

Lemma clear_slot_testbit u s k :
  slot_bits u -> 0 <= s < UD_CLIENTS -> 0 <= k ->
  Z.testbit (u .& not64 (u64 (1 .<< s))) k = Z.testbit u k && negb (k =? s).
Proof.
  intros Hu Hs Hk. unfold UD_CLIENTS in *.
  rewrite Z.land_spec. unfold not64. rewrite (u64_id (1 .<< s)).
  2: { rewrite Z.shiftl_1_l. split; [lia|]. apply Z.pow_lt_mono_r; lia. }
  destruct (decide (k < 64)).
  - unfold u64. rewrite Z.mod_pow2_bits_low, Z.lnot_spec, shiftl1_testbit by lia. done.
  - by rewrite (slot_testbit_out u k) by (unfold UD_CLIENTS in *; done || lia).
Qed.

Lemma set_slot_bits u s : slot_bits u -> 0 <= s < UD_CLIENTS -> slot_bits (u .| (1 .<< s)).
Proof.
  intros Hu Hs. apply slot_bits_intro.
  - apply Z.lor_nonneg. split; [apply Hu|]. apply Z.shiftl_nonneg. lia.
  - intros k Hk. unfold UD_CLIENTS in *.
    rewrite set_slot_testbit, (slot_testbit_out u k) by (unfold UD_CLIENTS; done || lia). lia.
Qed.

Lemma clear_slot_bits u s :
  slot_bits u -> 0 <= s < UD_CLIENTS -> slot_bits (u .& not64 (u64 (1 .<< s))).
Proof.
  intros Hu Hs. apply slot_bits_intro.
  - apply Z.land_nonneg. left. apply Hu.
  - intros k Hk. unfold UD_CLIENTS in *.
    rewrite clear_slot_testbit, (slot_testbit_out u k) by (unfold UD_CLIENTS; done || lia). done.
Qed.

Lemma u64_slot s : 0 <= s < UD_CLIENTS -> u64 (1 .<< s) = 1 .<< s.
Proof.
  intros Hs. unfold UD_CLIENTS in Hs. apply u64_id. rewrite Z.shiftl_1_l.
  split; [lia|]. apply Z.pow_lt_mono_r; lia.
Qed.

(** [first_free] returns the lowest clear bit, or the bound when there is none. *)
Lemma first_free_spec n s u :
  0 <= s -> let r := first_free n s u in
  s <= r <= s + Z.of_nat n /\ (forall k, s <= k < r -> Z.testbit u k = true) /\
  (r < s + Z.of_nat n -> Z.testbit u r = false).
Proof.
  revert s. induction n as [|n IH]; intros s Hs.
  - simpl. split_and!; try lia; intros; lia.
  - cbn [first_free]. unfold z0. rewrite land_pow2_eqb by done.
    destruct (Z.testbit u s) eqn:E; cbn [negb].
    + destruct (IH (s + 1) ltac:(lia)) as (H1 & H2 & H3). split_and!; try lia.
      * intros k Hk. destruct (decide (k = s)) as [->|]; [done|]. apply H2. lia.
      * intros Hr. apply H3. lia.
    + split_and!; try lia; try done.
Qed.

(** ** The scan *)

Inductive scan_result (bs : list ud_pool_bank) (i heap generation : Z) : option (Z * Z) -> Prop :=
| scan_stale j b : bs !! j = Some b -> bk_heap b = heap -> bk_generation b <> generation ->
    scan_result bs i heap generation None
| scan_found j b e : bs !! j = Some b -> bk_heap b = heap -> bk_generation b = generation ->
    scan_result bs i heap generation (Some (i + Z.of_nat j, e))
| scan_absent e : (forall b, b ∈ bs -> bk_heap b <> heap) ->
    scan_result bs i heap generation (Some (i + Z.of_nat (length bs), e)).

Lemma scan_banks_result bs i e heap generation :
  heap <> 0 -> scan_result bs i heap generation (scan_banks bs i e heap generation).
Proof.
  intros Hh. revert i e. induction bs as [|b bs IH]; intros i e; cbn [scan_banks].
  - replace i with (i + Z.of_nat (@length ud_pool_bank [])) at 2 by (simpl; lia).
    apply scan_absent. intros b Hb. by apply elem_of_nil in Hb.
  - assert (Hnext : forall e', bk_heap b <> heap ->
              scan_result (b :: bs) i heap generation (scan_banks bs (i + 1) e' heap generation)).
    { intros e' Hne. destruct (IH (i + 1) e') as [j b' Hj ? ?|j b' e2 Hj ? ?|e2 Ha].
      - by apply (scan_stale _ _ _ _ (S j) b').
      - replace (i + 1 + Z.of_nat j) with (i + Z.of_nat (S j)) by lia.
        by apply (scan_found _ _ _ _ (S j) b').
      - replace (i + 1 + Z.of_nat (length bs)) with (i + Z.of_nat (length (b :: bs))) by (simpl; lia).
        apply scan_absent. intros b' Hb. apply elem_of_cons in Hb as [->|Hb]; auto. }
    destruct (z0 (bk_heap b)) eqn:E0; bprop; [apply Hnext; congruence|].
    destruct (bk_heap b =? heap) eqn:E1; bprop; [|by apply Hnext].
    destruct (bk_generation b =? generation) eqn:E2; bprop; cbn [negb].
    + replace i with (i + Z.of_nat 0) at 2 by lia. by apply (scan_found _ _ _ _ 0 b).
    + by apply (scan_stale _ _ _ _ 0 b).
Qed.

(** When no bank has the heap, [empty] is an unused bank, or there is none. *)
Lemma scan_banks_empty bs i e heap generation i' e' :
  0 <= i -> i + Z.of_nat (length bs) <= UD_POOL_BANKS -> heap <> 0 ->
  (forall b, b ∈ bs -> bk_heap b <> heap) ->
  scan_banks bs i e heap generation = Some (i', e') ->
  (e <> UD_POOL_BANKS -> e' = e) /\
  (e = UD_POOL_BANKS -> e' = UD_POOL_BANKS /\ (forall b, b ∈ bs -> bk_heap b <> 0) \/
     exists j b, bs !! j = Some b /\ bk_heap b = 0 /\ e' = i + Z.of_nat j).
Proof.
  intros Hi Hlen Hh. revert i e Hi Hlen. induction bs as [|b bs IH]; intros i e Hi Hlen Ha H; cbn [scan_banks] in H.
  - simplify_eq. split; [done|]. intros ->. left. split; [done|]. intros b Hb. by apply elem_of_nil in Hb.
  - assert (Ha' : forall b, b ∈ bs -> bk_heap b <> heap) by (intros b' Hb'; apply Ha; by apply elem_of_cons; right).
    cbn [length] in Hlen.
    destruct (z0 (bk_heap b)) eqn:E0; bprop.
    + destruct (e =? UD_POOL_BANKS) eqn:E; bprop.
      * destruct (IH (i + 1) i ltac:(lia) ltac:(lia) Ha' H) as [H1 _]. split; [done|].
        intros _. right. exists 0%nat, b. split_and!; try done. rewrite H1; lia.
      * destruct (IH (i + 1) e ltac:(lia) ltac:(lia) Ha' H) as [H1 _]. split; [done|]. done.
    + destruct (bk_heap b =? heap) eqn:E1; bprop; [exfalso; apply (Ha b); [by apply elem_of_cons; left|done]|].
      destruct (IH (i + 1) e ltac:(lia) ltac:(lia) Ha' H) as [H1 H2]. split; [done|].
      intros He. destruct (H2 He) as [[-> Hnz]|(j & b' & Hj & Hb & ->)].
      * left. split; [done|]. intros b' Hb'. apply elem_of_cons in Hb' as [->|]; auto.
      * right. exists (S j), b'. split_and!; try done. lia.
Qed.

(** ** Invariant *)

Record bank_ok (b : ud_pool_bank) : Prop := {
  bo_used : slot_bits (bk_used b);
  bo_quarantined : slot_bits (bk_quarantined b);
  bo_subset : forall k, Z.testbit (bk_quarantined b) k = true -> Z.testbit (bk_used b) k = true;
  bo_empty : bk_heap b = 0 <-> bk_used b = 0;
  bo_generation : bk_heap b = 0 <-> bk_generation b = 0 }.

Record banks_ok (banks : list ud_pool_bank) : Prop := {
  bs_length : length banks = Z.to_nat UD_POOL_BANKS;
  bs_banks : forall i, 0 <= i < UD_POOL_BANKS -> bank_ok (bank_at banks i);
  bs_heaps : forall i j, 0 <= i < UD_POOL_BANKS -> 0 <= j < UD_POOL_BANKS ->
    bk_heap (bank_at banks i) = bk_heap (bank_at banks j) -> bk_heap (bank_at banks i) <> 0 -> i = j }.

Definition used_at (banks : list ud_pool_bank) (b s : Z) : bool := Z.testbit (bk_used (bank_at banks b)) s.
Definition quarantined_at (banks : list ud_pool_bank) (b s : Z) : bool :=
  Z.testbit (bk_quarantined (bank_at banks b)) s.

Lemma bank_at_set banks i j b :
  length banks = Z.to_nat UD_POOL_BANKS -> 0 <= i < UD_POOL_BANKS -> 0 <= j ->
  bank_at (setz banks i b) j = if j =? i then b else bank_at banks j.
Proof.
  intros Hl Hi Hj. unfold bank_at. destruct (j =? i) eqn:E; bprop.
  - subst. apply nthz_setz_eq. rewrite Hl. unfold UD_POOL_BANKS in *. lia.
  - apply nthz_setz_ne; lia.
Qed.

Lemma banks_ok_update banks i b :
  banks_ok banks -> 0 <= i < UD_POOL_BANKS -> bank_ok b ->
  (bk_heap b = bk_heap (bank_at banks i) \/ bk_heap b = 0 \/
   forall j, 0 <= j < UD_POOL_BANKS -> bk_heap (bank_at banks j) <> bk_heap b) ->
  banks_ok (setz banks i b).
Proof.
  intros [Hl Hb Hh] Hi Hok Hheap. constructor.
  - by rewrite setz_length.
  - intros j Hj. rewrite bank_at_set by (done || lia). case_if; auto.
  - intros j k Hj Hk. rewrite !bank_at_set by (done || lia).
    destruct (j =? i) eqn:Ej, (k =? i) eqn:Ek; bprop; subst; try done.
    + intros He Hne. destruct_or!; [|done|].
      * apply Hh; congruence.
      * exfalso. apply (Hheap k Hk). done.
    + intros He Hne. destruct_or!; [| |].
      * apply Hh; congruence.
      * congruence.
      * exfalso. by apply (Hheap j Hj).
    + apply Hh; done.
Qed.

(** What a successful acquire did to the table. *)
Record acquired (banks banks' : list ud_pool_bank) (heap generation b s : Z) : Prop := {
  aq_bank : 0 <= b < UD_POOL_BANKS;
  aq_slot : 0 <= s < UD_CLIENTS;
  aq_free : used_at banks b s = false;
  aq_lowest : forall k, 0 <= k < s -> used_at banks b k = true;
  aq_heap : bk_heap (bank_at banks b) = heap /\ bk_generation (bank_at banks b) = generation \/
    bk_heap (bank_at banks b) = 0 /\
    (forall j, 0 <= j < UD_POOL_BANKS -> bk_heap (bank_at banks j) <> heap);
  aq_table : banks' = setz banks b (mk_bank heap generation
    (bk_used (bank_at banks b) .| (1 .<< s)) (bk_quarantined (bank_at banks b))) }.

Lemma take_slot_spec banks i b0 rc banks' b s :
  take_slot banks i b0 = (rc, banks', b, s) ->
  (rc = 0 /\ b = i /\ 0 <= s < UD_CLIENTS /\ used_at banks i s = false /\
   (forall k, 0 <= k < s -> used_at banks i k = true) /\
   banks' = setz banks i (mk_bank (bk_heap (bank_at banks i)) (bk_generation (bank_at banks i))
     (bk_used (bank_at banks i) .| (1 .<< s)) (bk_quarantined (bank_at banks i)))) \/
  (rc = - ENOSPC /\ banks' = banks /\ b = b0 /\ s = UD_CLIENTS /\
   forall k, 0 <= k < UD_CLIENTS -> used_at banks i k = true).
Proof.
  unfold take_slot, used_at.
  destruct (first_free_spec (Z.to_nat UD_CLIENTS) 0 (bk_used (bank_at banks i)) ltac:(lia)) as (H1 & H2 & H3).
  set (slot := first_free _ _ _) in *. unfold UD_CLIENTS in *.
  destruct (slot <? 8) eqn:E; bprop; intros H; simplify_eq.
  - left. split_and!; try done; try lia. apply H3. lia.
  - right. split_and!; try done; try lia. intros k Hk. apply H2. lia.
Qed.

Lemma bank_at_lookup banks j b : banks !! j = Some b -> bank_at banks (Z.of_nat j) = b.
Proof. intros H. unfold bank_at, nthz. rewrite Nat2Z.id. by apply nth_lookup_Some. Qed.

Lemma bank_at_elem banks i :
  length banks = Z.to_nat UD_POOL_BANKS -> 0 <= i < UD_POOL_BANKS -> bank_at banks i ∈ banks.
Proof.
  intros Hl Hi. apply list_elem_of_In. unfold bank_at, nthz. apply nth_In. lia.
Qed.

(** Taking a slot of the bank that already holds the region. *)
Lemma take_known banks i heap generation b0 rc banks' b s :
  0 <= i < UD_POOL_BANKS -> bk_heap (bank_at banks i) = heap ->
  bk_generation (bank_at banks i) = generation -> take_slot banks i b0 = (rc, banks', b, s) ->
  (rc = 0 /\ acquired banks banks' heap generation b s) \/ (rc < 0 /\ banks' = banks /\ b = b0).
Proof.
  intros Hi Hh Hg H.
  apply take_slot_spec in H as [(-> & -> & Hs1 & Hs2 & Hs3 & ->)|(-> & -> & -> & _)].
  - left. split; [done|]. constructor; try done; [by left|]. by rewrite Hh, Hg.
  - right. split_and!; done.
Qed.

(** Claiming an unused bank always yields its slot 0. *)
Lemma take_claimed banks i heap generation b0 rc banks' b s :
  banks_ok banks -> 0 <= i < UD_POOL_BANKS -> bk_heap (bank_at banks i) = 0 ->
  (forall j, 0 <= j < UD_POOL_BANKS -> bk_heap (bank_at banks j) <> heap) ->
  take_slot (setz banks i (mk_bank heap generation (bk_used (bank_at banks i))
    (bk_quarantined (bank_at banks i)))) i b0 = (rc, banks', b, s) ->
  rc = 0 /\ acquired banks banks' heap generation b s.
Proof.
  intros Hok Hi Hz Ha H. pose proof (bs_length _ Hok) as Hl.
  assert (Hu : bk_used (bank_at banks i) = 0) by by apply (bo_empty _ (bs_banks _ Hok _ Hi)).
  apply take_slot_spec in H as [(-> & -> & Hs1 & Hs2 & Hs3 & ->)|(-> & -> & -> & _ & Hfull)].
  - unfold used_at in *. rewrite !bank_at_set, Z.eqb_refl in * by (done || lia). simpl in *.
    split; [done|]. constructor; try done; [by right|]. unfold setz. by rewrite list_insert_insert_eq.
  - exfalso. specialize (Hfull 0 ltac:(unfold UD_CLIENTS; lia)). unfold used_at in Hfull.
    rewrite bank_at_set, Z.eqb_refl in Hfull by (done || lia). simpl in Hfull. by rewrite Hu in Hfull.
Qed.

(** An acquire takes a free slot of the region's bank, or changes nothing. *)
Lemma acquire_spec banks heap generation b0 s0 rc banks' b s :
  banks_ok banks -> ud_slots_acquire banks heap generation b0 s0 = (rc, banks', b, s) ->
  (rc = 0 /\ heap <> 0 /\ generation <> 0 /\ acquired banks banks' heap generation b s) \/
  (rc < 0 /\ banks' = banks /\ b = b0).
Proof.
  intros Hok H. unfold ud_slots_acquire in H. pose proof (bs_length _ Hok) as Hl.
  destruct (z0 heap || z0 generation) eqn:E0; [by simplify_eq; right|].
  bprop. pose proof (scan_banks_result banks 0 UD_POOL_BANKS heap generation H0) as Hs.
  destruct (scan_banks banks 0 UD_POOL_BANKS heap generation) as [[i e]|] eqn:Es; [|by simplify_eq; right].
  inversion Hs as [|j b' e' Hj Hh Hg|e' Ha]; subst; rewrite Z.add_0_l in *.
  - pose proof (lookup_lt_Some _ _ _ Hj). pose proof (bank_at_lookup banks j b' Hj) as Hbj.
    assert (Hjr : 0 <= Z.of_nat j < UD_POOL_BANKS) by (unfold UD_POOL_BANKS in *; lia).
    destruct (Z.of_nat j =? UD_POOL_BANKS) eqn:Ei; bprop; [lia|].
    apply take_known with (heap := bk_heap b') (generation := bk_generation b') in H; [|done|congruence..].
    destruct H as [[-> ?]|?]; [by left|by right].
  - replace (Z.of_nat (length banks) =? UD_POOL_BANKS) with true in H by (unfold UD_POOL_BANKS in *; lia).
    destruct (scan_banks_empty banks 0 UD_POOL_BANKS heap generation _ e ltac:(lia)
      ltac:(unfold UD_POOL_BANKS in *; lia) H0 Ha Es) as [_ He].
    destruct (e =? UD_POOL_BANKS) eqn:Ee; bprop; [by simplify_eq; right|].
    destruct (He eq_refl) as [[? _]|(j & b' & Hj & Hb & ->)]; [done|]. rewrite Z.add_0_l in *.
    pose proof (lookup_lt_Some _ _ _ Hj). pose proof (bank_at_lookup banks j b' Hj) as Hbj.
    assert (Hjr : 0 <= Z.of_nat j < UD_POOL_BANKS) by (unfold UD_POOL_BANKS in *; lia).
    apply take_claimed in H as [-> ?]; [by left|done..|congruence|].
    intros k Hk. apply Ha. by apply bank_at_elem.
Qed.

Lemma bits_zero u : slot_bits u -> (forall k, 0 <= k < UD_CLIENTS -> Z.testbit u k = false) -> u = 0.
Proof.
  intros Hu Hk. apply Z.bits_inj'. intros k Hk0. rewrite Z.bits_0.
  destruct (decide (k < UD_CLIENTS)); [by apply Hk|]. apply slot_testbit_out; [done|lia].
Qed.

Lemma set_slot_nonzero u s : 0 <= s -> u .| (1 .<< s) <> 0.
Proof.
  intros Hs H. assert (Ht : Z.testbit (u .| (1 .<< s)) s = true)
    by (rewrite set_slot_testbit by lia; rewrite Z.eqb_refl; apply orb_true_r).
  by rewrite H, Z.bits_0 in Ht.
Qed.

Section acquired.
Context (banks banks' : list ud_pool_bank) (heap generation b s : Z).
Context (Hok : banks_ok banks) (Hheap : heap <> 0) (Hgen : generation <> 0).
Context (Haq : acquired banks banks' heap generation b s).

Lemma acquired_used b' s' :
  0 <= b' -> 0 <= s' -> used_at banks' b' s' = used_at banks b' s' || ((b' =? b) && (s' =? s)).
Proof.
  intros Hb' Hs'. destruct Haq as [Hb Hs _ _ _ ->]. unfold used_at.
  rewrite bank_at_set by (apply bs_length || lia; done).
  destruct (b' =? b) eqn:E; bprop; cbn [bk_used andb]; [|by rewrite orb_false_r].
  subst. apply set_slot_testbit; lia.
Qed.

Lemma acquired_quarantined b' s' :
  0 <= b' -> quarantined_at banks' b' s' = quarantined_at banks b' s'.
Proof.
  intros Hb'. destruct Haq as [Hb Hs _ _ _ ->]. unfold quarantined_at.
  rewrite bank_at_set by (apply bs_length || lia; done).
  destruct (b' =? b) eqn:E; bprop; by subst.
Qed.

Lemma acquired_ok : banks_ok banks'.
Proof.
  destruct Haq as [Hb Hs _ _ Hh ->]. pose proof (bs_banks _ Hok _ Hb) as [Hu Hq Hsub He Hg].
  apply banks_ok_update; try done.
  - constructor; cbn; try done.
    + by apply set_slot_bits.
    + intros k Hk. rewrite Z.lor_spec, (Hsub k Hk). done.
    + pose proof (set_slot_nonzero (bk_used (bank_at banks b)) s ltac:(lia)). done.
  - cbn. destruct Hh as [[-> _]|[_ Hh]]; auto.
Qed.
End acquired.

Section released.
Context (banks : list ud_pool_bank) (b s : Z) (exposed reusable : bool).
Context (Hok : banks_ok banks) (Hb : 0 <= b < UD_POOL_BANKS) (Hs : 0 <= s < UD_CLIENTS).
Context (Hlive : used_at banks b s = true) (Hnq : quarantined_at banks b s = false).

Let banks' := ud_slots_release banks b s exposed reusable.
Let here b' s' := (b' =? b) && (s' =? s).

(** The bank the release leaves, by case. *)
Let left_bank :=
  let o := bank_at banks b in
  if exposed && negb reusable
  then mk_bank (bk_heap o) (bk_generation o) (bk_used o) (bk_quarantined o .| (1 .<< s))
  else let u := bk_used o .& not64 (u64 (1 .<< s)) in
       if z0 u then empty_bank else mk_bank (bk_heap o) (bk_generation o) u (bk_quarantined o).

Lemma released_table : banks' = setz banks b left_bank.
Proof.
  unfold banks', ud_slots_release, left_bank. f_equal. destruct (exposed && negb reusable); cbn.
  - rewrite u64_slot by done. destruct (z0 (bk_used (bank_at banks b))) eqn:E; bprop; [|done].
    exfalso. unfold used_at in Hlive. by rewrite E, Z.bits_0 in Hlive.
  - destruct (z0 (bk_used (bank_at banks b) .& not64 (u64 (1 .<< s)))) eqn:E; bprop; [|done]. by rewrite E.
Qed.

Lemma released_bank : bank_at banks' b = left_bank.
Proof. rewrite released_table, bank_at_set, Z.eqb_refl by (by apply bs_length || lia). done. Qed.

Lemma released_other b' : 0 <= b' -> b' <> b -> bank_at banks' b' = bank_at banks b'.
Proof.
  intros Hb' Hne. unfold banks', ud_slots_release.
  rewrite bank_at_set by (by apply bs_length || lia). by rewrite (proj2 (Z.eqb_neq b' b)).
Qed.

Lemma released_used b' s' :
  0 <= b' -> 0 <= s' ->
  used_at banks' b' s' =
    if exposed && negb reusable then used_at banks b' s' else used_at banks b' s' && negb (here b' s').
Proof.
  intros Hb' Hs'. unfold used_at, here. destruct (b' =? b) eqn:E; bprop.
  2: { rewrite released_other by done. by rewrite andb_true_r, Tauto.if_same. }
  subst b'. rewrite released_bank. unfold left_bank. cbn. destruct (exposed && negb reusable); [done|].
  pose proof (bs_banks _ Hok _ Hb) as Hbo.
  rewrite <- clear_slot_testbit by (done || apply Hbo).
  destruct (z0 (bk_used (bank_at banks b) .& not64 (u64 (1 .<< s)))) eqn:Ez; bprop; [by rewrite Ez|done].
Qed.

Lemma released_quarantined b' s' :
  0 <= b' -> 0 <= s' ->
  quarantined_at banks' b' s' =
    quarantined_at banks b' s' || (exposed && negb reusable && here b' s').
Proof.
  intros Hb' Hs'. unfold quarantined_at, here. destruct (b' =? b) eqn:E; bprop.
  2: { rewrite released_other by done. by rewrite andb_false_r, orb_false_r. }
  subst b'. rewrite released_bank. unfold left_bank. cbn. destruct (exposed && negb reusable) eqn:Ee; cbn.
  { apply set_slot_testbit; lia. }
  rewrite orb_false_r. pose proof (bs_banks _ Hok _ Hb) as Hbo.
  destruct (z0 (bk_used (bank_at banks b) .& not64 (u64 (1 .<< s)))) eqn:Ez; bprop; [|done].
  cbn. rewrite Z.bits_0. symmetry. apply not_true_is_false. intros Hq.
  assert (Hu : Z.testbit (bk_used (bank_at banks b) .& not64 (u64 (1 .<< s))) s' = true).
  { rewrite clear_slot_testbit by (done || apply Hbo). rewrite (bo_subset _ Hbo _ Hq). cbn.
    apply negb_true_iff, Z.eqb_neq. intros ->. unfold quarantined_at in Hnq. congruence. }
  by rewrite Ez, Z.bits_0 in Hu.
Qed.

Lemma released_ok : banks_ok banks'.
Proof.
  pose proof (bs_banks _ Hok _ Hb) as Hbo. pose proof Hbo as [Hu Hq Hsub He Hg].
  rewrite released_table. apply banks_ok_update; [done..| |]; unfold left_bank; cbn.
  - destruct (exposed && negb reusable).
    + constructor; cbn; try done; [by apply set_slot_bits|].
      intros k Hk. destruct (decide (0 <= k)) as [Hk0|]; [|by rewrite Z.testbit_neg_r in Hk by lia].
      rewrite set_slot_testbit in Hk by lia. apply orb_true_iff in Hk as [Hk|Hk]; [by apply Hsub|].
      bprop. by subst k.
    + case_if; bprop; [by constructor|]. constructor; cbn; try done.
      * by apply clear_slot_bits.
      * intros k Hk. destruct (decide (0 <= k)) as [Hk0|]; [|by rewrite Z.testbit_neg_r in Hk by lia].
        rewrite clear_slot_testbit, (Hsub k Hk) by done. cbn.
        apply negb_true_iff, Z.eqb_neq. intros ->. unfold quarantined_at in Hnq. congruence.
      * split; [|done]. intros Hz. exfalso. apply He in Hz. unfold used_at in Hlive.
        by rewrite Hz, Z.bits_0 in Hlive.
  - destruct (exposed && negb reusable); [by left|]. case_if; [by right; left|by left].
Qed.
End released.

(** ** The allocator as a transition system

    [pl_live] are the leases held by open sessions: (bank, slot) pairs an
    acquire returned and that were not released yet. *)

Record pool := mk_pool { pl_banks : list ud_pool_bank; pl_live : list (Z * Z) }.

Definition pool_start : pool := mk_pool (replicate (Z.to_nat UD_POOL_BANKS) empty_bank) [].

Inductive pool_step : pool -> pool -> Prop :=
| pool_acquire p heap generation b0 s0 banks b s :
    ud_slots_acquire (pl_banks p) heap generation b0 s0 = (0, banks, b, s) ->
    pool_step p (mk_pool banks ((b, s) :: pl_live p))
| pool_refused p heap generation b0 s0 rc banks b s :
    ud_slots_acquire (pl_banks p) heap generation b0 s0 = (rc, banks, b, s) -> rc <> 0 ->
    pool_step p (mk_pool banks (pl_live p))
| pool_release p b s exposed reusable :
    (b, s) ∈ pl_live p ->
    pool_step p (mk_pool (ud_slots_release (pl_banks p) b s exposed reusable)
                         (filter (fun x => x <> (b, s)) (pl_live p))).

Record pool_inv (p : pool) : Prop := {
  pi_banks : banks_ok (pl_banks p);
  pi_nodup : NoDup (pl_live p);
  pi_live : forall b s, (b, s) ∈ pl_live p -> 0 <= b < UD_POOL_BANKS /\ 0 <= s < UD_CLIENTS /\
    used_at (pl_banks p) b s = true /\ quarantined_at (pl_banks p) b s = false;
  pi_used : forall b s, 0 <= b < UD_POOL_BANKS -> 0 <= s < UD_CLIENTS ->
    used_at (pl_banks p) b s = true -> quarantined_at (pl_banks p) b s = false -> (b, s) ∈ pl_live p }.

Lemma start_bank i : bank_at (replicate (Z.to_nat UD_POOL_BANKS) empty_bank) i = empty_bank.
Proof.
  unfold bank_at, nthz. destruct (decide (Z.to_nat i < Z.to_nat UD_POOL_BANKS)%nat).
  - by apply nth_lookup_Some, lookup_replicate_2.
  - apply nth_overflow. rewrite length_replicate. lia.
Qed.

Lemma pool_inv_start : pool_inv pool_start.
Proof.
  constructor; unfold used_at, quarantined_at; cbn [pl_banks pl_live pool_start].
  - constructor; [done| |]; intros i; [|intros j]; rewrite !start_bank; [|done].
    intros _. constructor; done.
  - apply NoDup_nil_2.
  - intros b s H. by apply elem_of_nil in H.
  - intros b s _ _. rewrite start_bank. by rewrite Z.bits_0.
Qed.

Lemma pool_inv_acquire p heap generation banks b s :
  pool_inv p -> heap <> 0 -> generation <> 0 -> acquired (pl_banks p) banks heap generation b s ->
  pool_inv (mk_pool banks ((b, s) :: pl_live p)).
Proof.
  intros [Hok Hnd Hl Hu] Hh Hg Ha. pose proof (aq_bank _ _ _ _ _ _ Ha) as Hb.
  pose proof (aq_slot _ _ _ _ _ _ Ha) as Hs. pose proof (aq_free _ _ _ _ _ _ Ha) as Hf.
  assert (Hnq : quarantined_at (pl_banks p) b s = false).
  { apply not_true_is_false. intros Hq. apply (bo_subset _ (bs_banks _ Hok _ Hb)) in Hq.
    unfold used_at in Hf. congruence. }
  constructor; cbn.
  - by apply (acquired_ok (pl_banks p) banks heap generation b s).
  - apply NoDup_cons_2; [|done]. intros Hin. apply Hl in Hin. destruct_and!. congruence.
  - intros b' s' [?|Hin]%elem_of_cons; simplify_eq.
    + rewrite (acquired_used _ _ _ _ _ _ Hok Ha), (acquired_quarantined _ _ _ _ _ _ Hok Ha), !Z.eqb_refl by lia.
      rewrite orb_true_r. done.
    + destruct (Hl _ _ Hin) as (? & ? & Hx & ?).
      rewrite (acquired_used _ _ _ _ _ _ Hok Ha), (acquired_quarantined _ _ _ _ _ _ Hok Ha), Hx by lia. done.
  - intros b' s' Hb' Hs'.
    rewrite (acquired_used _ _ _ _ _ _ Hok Ha), (acquired_quarantined _ _ _ _ _ _ Hok Ha) by lia.
    intros [Hx|Hx]%orb_true_iff Hq; apply elem_of_cons; [right; auto|]. left. bprop. by subst.
Qed.

Lemma pool_inv_release p b s exposed reusable :
  pool_inv p -> (b, s) ∈ pl_live p ->
  pool_inv (mk_pool (ud_slots_release (pl_banks p) b s exposed reusable)
                    (filter (fun x => x <> (b, s)) (pl_live p))).
Proof.
  intros [Hok Hnd Hl Hu] Hin. destruct (Hl _ _ Hin) as (Hb & Hs & Hus & Hq).
  constructor; cbn.
  - by apply released_ok.
  - by apply list.NoDup_filter.
  - intros b' s' [Hne Hin']%list_elem_of_filter. destruct (Hl _ _ Hin') as (? & ? & Hx & Hy).
    rewrite released_used, released_quarantined, Hx, Hy by (done || lia).
    assert (Hh : (b' =? b) && (s' =? s) = false).
    { apply not_true_is_false. intros H'. bprop. by subst. }
    rewrite Hh. split_and!; try done; try lia; destruct exposed, reusable; done.
  - intros b' s' Hb' Hs'. rewrite released_used, released_quarantined by (done || lia).
    intros Hx Hy. apply list_elem_of_filter. apply orb_false_iff in Hy as [Hy1 Hy2].
    assert (Hne : (b' =? b) && (s' =? s) = false).
    { destruct (exposed && negb reusable); [done|].
      apply andb_true_iff in Hx as [_ Hx]. by apply negb_true_iff in Hx. }
    split.
    + intros [= -> ->]. by rewrite !Z.eqb_refl in Hne.
    + apply Hu; try done. destruct (exposed && negb reusable); [done|]. by apply andb_true_iff in Hx as [? _].
Qed.

Lemma pool_inv_step p p' : pool_inv p -> pool_step p p' -> pool_inv p'.
Proof.
  intros Hi Hst. revert Hi.
  destruct Hst as [p0 heap generation b0 s0 banks b s H|p0 heap generation b0 s0 rc banks b s H Hrc|p0 b s e r H]; intros Hi.
  - apply acquire_spec in H as [(_ & ? & ? & ?)|(? & _)]; [|lia|apply Hi].
    by apply pool_inv_acquire with heap generation.
  - apply acquire_spec in H as [(? & _)|(_ & -> & _)]; [done| |apply Hi]. by destruct p0.
  - by apply pool_inv_release.
Qed.

Lemma pool_inv_reachable p : rtc pool_step pool_start p -> pool_inv p.
Proof.
  intros H. apply (rtc_invariant pool_step pool_inv _ _ pool_inv_step H pool_inv_start).
Qed.

(** A slot quarantined after an incomplete prepare stays so. *)
Lemma quarantine_step p p' b s :
  pool_inv p -> pool_step p p' -> 0 <= b -> 0 <= s ->
  quarantined_at (pl_banks p) b s = true -> quarantined_at (pl_banks p') b s = true.
Proof.
  intros Hi Hst Hb Hs Hq. revert Hi Hq.
  destruct Hst as [p0 heap generation b0 s0 banks b' s' H|p0 heap generation b0 s0 rc banks b' s' H Hrc|p0 b' s' e r H]; cbn; intros Hi Hq.
  - apply acquire_spec in H as [(_ & ? & ? & Ha)|(? & _)]; [|lia|apply Hi].
    by rewrite (acquired_quarantined _ _ _ _ _ _ (pi_banks _ Hi) Ha) by lia.
  - apply acquire_spec in H as [(? & _)|(_ & -> & _)]; [done..|apply Hi].
  - destruct (pi_live _ Hi _ _ H) as (? & ? & ? & ?).
    rewrite released_quarantined by (done || lia || apply Hi). by rewrite Hq.
Qed.

Lemma quarantine_steps p p' b s :
  pool_inv p -> rtc pool_step p p' -> 0 <= b -> 0 <= s ->
  quarantined_at (pl_banks p) b s = true ->
  pool_inv p' /\ quarantined_at (pl_banks p') b s = true.
Proof.
  intros Hi Hst Hb Hs. revert Hi. induction Hst as [|p p1 p' H1 _ IH]; [done|].
  intros Hi Hq. apply IH; eauto using pool_inv_step, quarantine_step.
Qed.

(** C18. Whatever sequence of acquires and releases the sessions make: no two
    sessions hold the same slot of the same bank, a region is never spread over
    two banks, and the slots marked used are exactly the leases held plus the
    quarantined ones (none is lost, none is handed out twice). *)
Theorem slots_leased_exclusively p :
  rtc pool_step pool_start p ->
  NoDup (pl_live p) /\
  (forall i j, 0 <= i < UD_POOL_BANKS -> 0 <= j < UD_POOL_BANKS -> i <> j ->
     bk_heap (bank_at (pl_banks p) i) <> 0 ->
     bk_heap (bank_at (pl_banks p) i) <> bk_heap (bank_at (pl_banks p) j)) /\
  (forall b s, 0 <= b < UD_POOL_BANKS -> 0 <= s < UD_CLIENTS ->
     ((b, s) ∈ pl_live p <->
      used_at (pl_banks p) b s = true /\ quarantined_at (pl_banks p) b s = false)).
Proof.
  intros Hi%pool_inv_reachable. split_and!.
  - apply Hi.
  - intros i j Hx Hy Hne Hnz Heq. by apply Hne, (bs_heaps _ (pi_banks _ Hi)).
  - intros b s Hb Hs. split; [|intros []; by apply Hi]. intros Hin. by destruct (pi_live _ Hi _ _ Hin) as (_ & _ & ?).
Qed.

(** C19. A slot whose B-side tables were published by a prepare that did not
    finish (released exposed and not reusable) is never leased again. *)
Theorem quarantined_never_leased p p' b s :
  rtc pool_step pool_start p -> (b, s) ∈ pl_live p ->
  rtc pool_step (mk_pool (ud_slots_release (pl_banks p) b s true false)
                         (filter (fun x => x <> (b, s)) (pl_live p))) p' ->
  (b, s) ∉ pl_live p'.
Proof.
  intros Hi%pool_inv_reachable Hin Hst Hin'. destruct (pi_live _ Hi _ _ Hin) as (? & ? & ? & ?).
  apply (quarantine_steps _ _ b s) in Hst as [Hi' Hq]; [|by apply pool_inv_release|lia..|].
  - destruct (pi_live _ Hi' _ _ Hin'). destruct_and!. congruence.
  - cbn. rewrite released_quarantined by (done || lia || apply Hi). rewrite !Z.eqb_refl. apply orb_true_r.
Qed.

(** ** Witnesses: two clients of one region, the first abandoning its slot. *)

Definition demo_acquire (p : pool) (heap generation : Z) : pool :=
  let '(_, banks, b, s) := ud_slots_acquire (pl_banks p) heap generation 0 0 in
  mk_pool banks ((b, s) :: pl_live p).

Definition demo_one : pool := demo_acquire pool_start 0x40000000 7.
Definition demo_two : pool := demo_acquire demo_one 0x40000000 7.

Lemma demo_acquire_step p heap generation :
  (ud_slots_acquire (pl_banks p) heap generation 0 0).1.1.1 = 0 -> pool_step p (demo_acquire p heap generation).
Proof.
  unfold demo_acquire. destruct (ud_slots_acquire _ _ _ _ _) as [[[rc banks] b] s] eqn:E.
  cbn. intros ->. by apply (pool_acquire p heap generation 0 0).
Qed.

Lemma demo_one_reached : rtc pool_step pool_start demo_one.
Proof. apply rtc_once, demo_acquire_step. vm_compute. reflexivity. Qed.

Lemma demo_two_reached : rtc pool_step pool_start demo_two.
Proof. eapply rtc_r; [apply demo_one_reached|]. apply demo_acquire_step. vm_compute. reflexivity. Qed.

Lemma slots_leased_exclusively_witness :
  pl_live demo_two = [(0, 1); (0, 0)] /\ NoDup (pl_live demo_two).
Proof.
  split; [vm_compute; reflexivity|].
  exact (proj1 (slots_leased_exclusively demo_two demo_two_reached)).
Defined.

Definition demo_abandoned : pool :=
  mk_pool (ud_slots_release (pl_banks demo_one) 0 0 true false) (filter (fun x => x <> (0, 0)) (pl_live demo_one)).
Definition demo_after : pool := demo_acquire demo_abandoned 0x40000000 7.

Lemma quarantined_never_leased_witness : pl_live demo_after = [(0, 1)] /\ (0, 0) ∉ pl_live demo_after.
Proof.
  split; [vm_compute; reflexivity|].
  apply (quarantined_never_leased demo_one demo_after 0 0).
  - exact demo_one_reached.
  - assert (E : pl_live demo_one = [(0, 0)]) by (vm_compute; reflexivity). rewrite E. apply list_elem_of_here.
  - apply rtc_once, (demo_acquire_step demo_abandoned). vm_compute. reflexivity.
Defined.
