(* ===== verification/Arm64.v ===== *)
(** * The EL0 machine that runs domain code

    The A64 instructions that kernel/ub-domain/services.S, social_services.S and
    the remote code images use, decoded from their 32-bit words and executed over
    physical memory through a translation function.  Any other word, an unaligned
    access, an access the translation does not permit and a [brk] stop the
    machine: they are the exceptions that return to the kernel.  Instructions are
    fetched from an image that does not change while the domain runs (code pages
    are read-only to EL0 and synchronised before the commit). *)

From S2P Require Import Prelude CMem Abi Layout PageWalk.

Inductive instr :=
| LDR (w64 : bool) (rt rn off : Z)      (* ldr rt, [xn, #off] *)
| STR (w64 : bool) (rt rn off : Z)
| LDR_W_IDX (rt rn rm : Z)              (* ldr wt, [xn, xm, lsl #2] *)
| STP_PRE (rt rt2 rn off : Z)           (* stp xt, xt2, [xn, #off]! *)
| LDP_POST (rt rt2 rn off : Z)          (* ldp xt, xt2, [xn], #off *)
| ADD_IMM (rd rn imm : Z)
| SUB_IMM (rd rn imm : Z)
| SUBS_IMM (w64 : bool) (rd rn imm : Z)
| ADD_REG (rd rn rm sh : Z)             (* add xd, xn, xm, lsl #sh *)
| SUB_REG (rd rn rm sh : Z)
| EOR_REG (rd rn rm sh : Z)
| SUBS_REG (rd rn rm : Z)
| AND_LOW (rd rn n : Z)                 (* and xd, xn, #(2^n - 1) *)
| MOVZ (w64 : bool) (rd imm sh : Z)     (* movz rd, #imm, lsl #sh *)
| MOVK (rd imm sh : Z)
| UDIV (rd rn rm : Z)
| MSUB (rd rn rm ra : Z)                (* xd = xa - xn * xm *)
| NOP
| DSB
| BRK (imm : Z)
| B (off : Z)
| B_EQ (off : Z)
| B_NE (off : Z)
| STLR (rt rn : Z)
| LDAR (rt rn : Z)
| LDADDAL (rs rt rn : Z).

#[export] Instance instr_eq_dec : EqDecision instr. Proof. solve_decision. Defined.

(** ** Decoding *)

(** Bits [lo, lo + len) of a word. *)
Definition bits (w lo len : Z) : Z := (w .>> lo) .& Z.ones len.
Definition sbits (w lo len : Z) : Z :=
  let v := bits w lo len in if v <? 2 ^ (len - 1) then v else v - 2 ^ len.

Definition f_rd w := bits w 0 5.
Definition f_rn w := bits w 5 5.
Definition f_rm w := bits w 16 5.

(** An encoding: fixed bits (mask and value) and the operands. *)
Definition encoding : Type := Z * Z * (Z -> instr).

Definition encodings : list encoding := [
  (0xffffffff, 0xd503201f, fun _ => NOP);
  (0xffffffff, 0xd5033f9f, fun _ => DSB);
  (0xffe0001f, 0xd4200000, fun w => BRK (bits w 5 16));
  (0xffc00000, 0xf9400000, fun w => LDR true (f_rd w) (f_rn w) (8 * bits w 10 12));
  (0xffc00000, 0xf9000000, fun w => STR true (f_rd w) (f_rn w) (8 * bits w 10 12));
  (0xffc00000, 0xb9400000, fun w => LDR false (f_rd w) (f_rn w) (4 * bits w 10 12));
  (0xffc00000, 0xb9000000, fun w => STR false (f_rd w) (f_rn w) (4 * bits w 10 12));
  (0xffe0fc00, 0xb8607800, fun w => LDR_W_IDX (f_rd w) (f_rn w) (f_rm w));
  (0xffc00000, 0xa9800000, fun w => STP_PRE (f_rd w) (bits w 10 5) (f_rn w) (8 * sbits w 15 7));
  (0xffc00000, 0xa8c00000, fun w => LDP_POST (f_rd w) (bits w 10 5) (f_rn w) (8 * sbits w 15 7));
  (0xffc00000, 0x91000000, fun w => ADD_IMM (f_rd w) (f_rn w) (bits w 10 12));
  (0xffc00000, 0xd1000000, fun w => SUB_IMM (f_rd w) (f_rn w) (bits w 10 12));
  (0xffc00000, 0xf1000000, fun w => SUBS_IMM true (f_rd w) (f_rn w) (bits w 10 12));
  (0xffc00000, 0x71000000, fun w => SUBS_IMM false (f_rd w) (f_rn w) (bits w 10 12));
  (0xffe00000, 0x8b000000, fun w => ADD_REG (f_rd w) (f_rn w) (f_rm w) (bits w 10 6));
  (0xffe00000, 0xcb000000, fun w => SUB_REG (f_rd w) (f_rn w) (f_rm w) (bits w 10 6));
  (0xffe00000, 0xca000000, fun w => EOR_REG (f_rd w) (f_rn w) (f_rm w) (bits w 10 6));
  (0xffe0fc00, 0xeb000000, fun w => SUBS_REG (f_rd w) (f_rn w) (f_rm w));
  (0xffff0000, 0x92400000, fun w => AND_LOW (f_rd w) (f_rn w) (bits w 10 6 + 1));
  (0xff800000, 0x52800000, fun w => MOVZ false (f_rd w) (bits w 5 16) (16 * bits w 21 2));
  (0xff800000, 0xd2800000, fun w => MOVZ true (f_rd w) (bits w 5 16) (16 * bits w 21 2));
  (0xff800000, 0xf2800000, fun w => MOVK (f_rd w) (bits w 5 16) (16 * bits w 21 2));
  (0xffe0fc00, 0x9ac00800, fun w => UDIV (f_rd w) (f_rn w) (f_rm w));
  (0xffe08000, 0x9b008000, fun w => MSUB (f_rd w) (f_rn w) (f_rm w) (bits w 10 5));
  (0xfc000000, 0x14000000, fun w => B (4 * sbits w 0 26));
  (0xff00001f, 0x54000000, fun w => B_EQ (4 * sbits w 5 19));
  (0xff00001f, 0x54000001, fun w => B_NE (4 * sbits w 5 19));
  (0xfffffc00, 0xc89ffc00, fun w => STLR (f_rd w) (f_rn w));
  (0xfffffc00, 0xc8dffc00, fun w => LDAR (f_rd w) (f_rn w));
  (0xffe0fc00, 0xf8e00000, fun w => LDADDAL (f_rm w) (f_rd w) (f_rn w)) ].

Definition matches (w : Z) (e : encoding) : bool := w .& e.1.1 =? e.1.2.

Definition decode (w : Z) : option instr :=
  match List.find (matches w) encodings with
  | Some (_, build) => Some (build w)
  | None => None
  end.

(** [fixed m v e]: words with [w & m = v] all match [e]; [apart m v e]: none does. *)
Definition fixed (m v : Z) (e : encoding) : bool := (m .& e.1.1 =? e.1.1) && (v .& e.1.1 =? e.1.2).
Definition apart (m v : Z) (e : encoding) : bool := negb (v .& e.1.1 =? e.1.2 .& m).

Fixpoint decodes_as (m v : Z) (es : list encoding) : option (Z -> instr) :=
  match es with
  | [] => None
  | e :: es => if fixed m v e then Some e.2 else if apart m v e then decodes_as m v es else None
  end.

(** Decoding a word of which only the bits of [m] are known. *)
Lemma decode_masked w m v build :
  w .& m = v -> decodes_as m v encodings = Some build -> decode w = Some (build w).
Proof.
  intros Hw. unfold decode. generalize encodings as es. induction es as [|e es IH]; [done|].
  cbn [decodes_as List.find]. destruct (fixed m v e) eqn:Ef; [|destruct (apart m v e) eqn:Ea; [|done]].
  - intros [= <-]. unfold fixed in Ef. bprop. unfold matches. rewrite <- H, Z.land_assoc, Hw, H0, Z.eqb_refl.
    by destruct e.
  - intros H. unfold apart, matches in *. destruct (w .& e.1.1 =? e.1.2) eqn:Em; [|by apply IH].
    bprop. exfalso. apply Ea. rewrite <- Hw, <- Em, <- !Z.land_assoc. f_equal. apply Z.land_comm.
Qed.

Lemma bits_masked w m v lo len :
  0 <= lo -> 0 <= len -> w .& m = v -> Z.ones len .<< lo .& m = Z.ones len .<< lo ->
  bits w lo len = bits v lo len.
Proof.
  intros Hlo Hlen <- Hm. unfold bits. apply Z.bits_inj'. intros k Hk.
  rewrite !Z.land_spec, !Z.shiftr_spec, Z.land_spec by lia.
  assert (H : Z.testbit (Z.ones len .<< lo .& m) (k + lo) = Z.testbit (Z.ones len .<< lo) (k + lo)) by by rewrite Hm.
  rewrite Z.land_spec, Z.shiftl_spec in H by lia. replace (k + lo - lo) with k in H by lia.
  destruct (Z.testbit (Z.ones len) k); [|by rewrite !andb_false_r].
  cbn in H. by rewrite H, !andb_true_r.
Qed.

Lemma bits_range w lo len : 0 <= len -> 0 <= bits w lo len < 2 ^ len.
Proof. intros H. unfold bits. rewrite Z.land_ones by done. apply Z.mod_pos_bound. lia. Qed.

(** ** Execution *)

Record cpu := mk_cpu {
  x : list Z;                (* x0 .. x30 *)
  sp : Z;
  pc : Z;
  flag_z : bool;
  pm : mem }.

Inductive stop_reason :=
| SBrk (imm : Z)
| SAbort (va : Z)            (* data or instruction abort *)
| SUnaligned (va : Z)
| SUndef.                    (* a word outside the table above *)

Inductive outcome :=
| Next (st : cpu)
| Stop (why : stop_reason) (st : cpu).

(** Register 31 is the zero register, or the stack pointer as an address. *)
Definition xget (st : cpu) (r : Z) : Z := if r =? 31 then 0 else (x st).[r].
Definition bget (st : cpu) (r : Z) : Z := if r =? 31 then sp st else (x st).[r].

Definition xset (r v : Z) (st : cpu) : cpu :=
  if r =? 31 then st else mk_cpu (setz (x st) r v) (sp st) (pc st) (flag_z st) (pm st).
Definition bset (r v : Z) (st : cpu) : cpu :=
  if r =? 31 then mk_cpu (x st) v (pc st) (flag_z st) (pm st)
  else mk_cpu (setz (x st) r v) (sp st) (pc st) (flag_z st) (pm st).
Definition zset (z : bool) (st : cpu) : cpu := mk_cpu (x st) (sp st) (pc st) z (pm st).
Definition pcset (p : Z) (st : cpu) : cpu := mk_cpu (x st) (sp st) p (flag_z st) (pm st).
Definition pmset (m : mem) (st : cpu) : cpu := mk_cpu (x st) (sp st) (pc st) (flag_z st) m.

Section machine.
(** The EL0 translation in force: physical address and permissions. *)
Context (tr : Z -> option (Z * perm)).

Definition translate (va len : Z) (write : bool) : Z + stop_reason :=
  if nz (va mod len) then inr (SUnaligned va)
  else match tr va with
  | Some (pa, p) => if (if write then pr_write p else pr_read p) then inl pa else inr (SAbort va)
  | None => inr (SAbort va)
  end.

Definition load (st : cpu) (va : Z) (w64 : bool) (k : Z -> outcome) : outcome :=
  match translate va (if w64 then 8 else 4) false with
  | inl pa => k (if w64 then ld64 (pm st) pa else ld32 (pm st) pa)
  | inr why => Stop why st
  end.

Definition store (st : cpu) (va : Z) (w64 : bool) (v : Z) (k : cpu -> outcome) : outcome :=
  match translate va (if w64 then 8 else 4) true with
  | inl pa => k (pmset (if w64 then st64 (pm st) pa v else st32 (pm st) pa v) st)
  | inr why => Stop why st
  end.

(** The instruction has completed: continue with the next one. *)
Definition next (st : cpu) : outcome := Next (pcset (pc st + 4) st).

Definition exec (i : instr) (st : cpu) : outcome :=
  match i with
  | LDR w64 rt rn off => load st (u64 (bget st rn + off)) w64 (fun v => next (xset rt v st))
  | STR w64 rt rn off => store st (u64 (bget st rn + off)) w64 (xget st rt) next
  | LDR_W_IDX rt rn rm =>
      load st (u64 (bget st rn + u64 (xget st rm .<< 2))) false (fun v => next (xset rt v st))
  | STP_PRE rt rt2 rn off =>
      let va := u64 (bget st rn + off) in
      store st va true (xget st rt) (fun s1 =>
      store s1 (u64 (va + 8)) true (xget st rt2) (fun s2 => next (bset rn va s2)))
  | LDP_POST rt rt2 rn off =>
      let va := bget st rn in
      load st va true (fun v => load st (u64 (va + 8)) true (fun v2 =>
      next (bset rn (u64 (va + off)) (xset rt2 v2 (xset rt v st)))))
  | ADD_IMM rd rn imm => next (bset rd (u64 (bget st rn + imm)) st)
  | SUB_IMM rd rn imm => next (bset rd (u64 (bget st rn - imm)) st)
  | SUBS_IMM true rd rn imm =>
      let v := u64 (bget st rn - imm) in next (zset (v =? 0) (xset rd v st))
  | SUBS_IMM false rd rn imm =>
      let v := u32 (bget st rn - imm) in next (zset (v =? 0) (xset rd v st))
  | ADD_REG rd rn rm sh => next (xset rd (u64 (xget st rn + u64 (xget st rm .<< sh))) st)
  | SUB_REG rd rn rm sh => next (xset rd (u64 (xget st rn - u64 (xget st rm .<< sh))) st)
  | EOR_REG rd rn rm sh => next (xset rd (Z.lxor (xget st rn) (u64 (xget st rm .<< sh))) st)
  | SUBS_REG rd rn rm =>
      let v := u64 (xget st rn - xget st rm) in next (zset (v =? 0) (xset rd v st))
  | AND_LOW rd rn n => next (bset rd (xget st rn .& Z.ones n) st)
  | MOVZ w64 rd imm sh => next (xset rd (imm .<< sh) st)
  | MOVK rd imm sh =>
      next (xset rd ((xget st rd .& not64 (0xffff .<< sh)) .| (imm .<< sh)) st)
  | UDIV rd rn rm => next (xset rd (xget st rn / xget st rm) st)
  | MSUB rd rn rm ra => next (xset rd (u64 (xget st ra - xget st rn * xget st rm)) st)
  | NOP | DSB => next st
  | BRK imm => Stop (SBrk imm) st
  | B off => Next (pcset (u64 (pc st + off)) st)
  | B_EQ off => if flag_z st then Next (pcset (u64 (pc st + off)) st) else next st
  | B_NE off => if flag_z st then next st else Next (pcset (u64 (pc st + off)) st)
  | STLR rt rn => store st (bget st rn) true (xget st rt) next
  | LDAR rt rn => load st (bget st rn) true (fun v => next (xset rt v st))
  | LDADDAL rs rt rn =>
      load st (bget st rn) true (fun v =>
      store st (bget st rn) true (u64 (v + xget st rs)) (fun s1 => next (xset rt v s1)))
  end.

(** [image] is what the code page holds from its first byte on. *)
Context (image : list (option instr)).

Definition fetch (va : Z) : instr + stop_reason :=
  if nz (va mod 4) then inr (SUnaligned va)
  else match tr va with
  | Some (_, p) =>
      if pr_exec p then
        match image !! Z.to_nat ((va - UD_VA) / 4) with
        | Some (Some i) => inl i
        | _ => inr SUndef
        end
      else inr (SAbort va)
  | None => inr (SAbort va)
  end.

Definition step (st : cpu) : outcome :=
  match fetch (pc st) with
  | inl i => exec i st
  | inr why => Stop why st
  end.

(** [None]: still running after [n] instructions. *)
Fixpoint run (n : nat) (st : cpu) : option (stop_reason * cpu) :=
  match n with
  | O => None
  | S n => match step st with
           | Next st' => run n st'
           | Stop why st' => Some (why, st')
           end
  end.
End machine.
