(* ===== verification/RemoteCode.v ===== *)
(** * The verifiers of B-published code

    include/lrpc/ub_remote_code.h and ub_remote_social.h decide which images A
    copies into executable pages; demo/ub/remote_code_gen.c and
    remote_social_code_gen.c produce them on B. *)

From stdpp Require Import strings.
From S2P Require Import Prelude CMem CString Abi Layout.

Definition UD_R_LDR_A := 0xf9400002.
Definition UD_R_LDR_B := 0xf9400403.
Definition UD_R_LDR_HEAP := 0xf9400024.
Definition UD_R_STR_RESULT := 0xf9000802.
Definition UD_R_NOP := 0xd503201f.
Definition UD_R_BRK_RETURN := 0xd4209800.
Definition UD_R_BRK_NESTED := 0xd4209820.
Definition UD_R_ADD_B := 0x8b030042.
Definition UD_R_ADD_HEAP := 0x8b040042.
Definition UD_R_SUB_B := 0xcb030042.
Definition UD_R_SUB_HEAP := 0xcb040042.
Definition UD_R_EOR_B := 0xca030042.
Definition UD_R_EOR_HEAP := 0xca040042.

Definition ud_r_add_imm (value : Z) : Z := 0x91000042 .| u32 (value .<< 10).

Definition ud_r_arithmetic (word domain : Z) : bool :=
  if (word .& 0xffc003ff =? 0x91000042) || (word .& 0xffc003ff =? 0xd1000042) then true
  else if domain =? UD_DIRECT then
    (word =? UD_R_ADD_B) || (word =? UD_R_ADD_HEAP) || (word =? UD_R_SUB_B) ||
    (word =? UD_R_SUB_HEAP) || (word =? UD_R_EOR_B) || (word =? UD_R_EOR_HEAP)
  else false.

(** The checks after the header of an image: [body] is its first free word. *)
Definition remote_body_valid (domain : Z) (words : list Z) (count body : Z) : bool :=
  let end_ := count - 2 in
  if (end_ <=? body) || (words.[end_] !=? UD_R_STR_RESULT) ||
     (words.[end_ + 1] !=? UD_R_BRK_RETURN) then false
  else for_range body end_ (fun i => ud_r_arithmetic words.[i] domain).

Definition ud_remote_image_valid (domain : Z) (words : list Z) (count : Z) : bool :=
  if (domain >=? UD_DOMAINS) || (count >? UD_REMOTE_MAX_WORDS) then false
  else if domain =? UD_QUERY then (count =? 1) && (words.[0] =? UD_R_BRK_RETURN)
  else if domain =? UD_DIRECT then
    if (count <? 6) || (words.[0] !=? UD_R_LDR_A) || (words.[1] !=? UD_R_LDR_B) ||
       (words.[2] !=? UD_R_LDR_HEAP) then false
    else remote_body_valid domain words count 3
  else if domain =? UD_MIDDLE then
    if (count <? 7) || (words.[0] !=? UD_R_LDR_A) || (words.[1] !=? UD_R_NOP) ||
       (words.[2] !=? UD_R_NOP) || (words.[3] !=? UD_R_BRK_NESTED) then false
    else remote_body_valid domain words count 4
  else
    if (count <? 4) || (words.[0] !=? UD_R_LDR_A) then false
    else remote_body_valid domain words count 1.

Definition UD_RS_LDR_NGINX := 0xb9401022.
Definition UD_RS_LDR_USER := 0xb9402422.
Definition UD_RS_LDR_HOME := 0xb9402822.
Definition UD_RS_LDR_RETURN := 0xb9402c22.
Definition UD_RS_STR_TARGET := 0xb9004802.
Definition UD_RS_STR_ACTION := 0xb9004402.
Definition UD_RS_MOV_0 := 0x52800002.
Definition UD_RS_MOV_RPC := 0x52800022.
Definition UD_RS_MOV_DOMAIN := 0x52800042.
Definition UD_RS_MOV_CLIENT := 0x52800062.
Definition UD_RS_NOP := 0xd503201f.
Definition UD_RS_RETURN := 0xd4209800.

Definition UD_RS_LB3_WORDS := 12.
Definition ud_remote_social_lb3_word (index : Z) : Z :=
  match index with
  | 0 => 0xb9400822
  | 1 => 0xb9400c23
  | 2 => 0xf9400404
  | 3 => 0x9ac20885
  | 4 => 0x9b0290a4
  | 5 => 0x9ac30885
  | 6 => 0x9b0390a4
  | 7 => 0x91004025
  | 8 => 0xb86478a4
  | 9 => 0xb9004804
  | 10 => 0x52800044
  | 11 => 0xb9004404
  | _ => 0
  end.

Definition ud_remote_social_count (tag : Z) : Z :=
  let kind := tag .& UD_SOCIAL_CODE_KIND_MASK in
  let topology := tag .& u32 (Z.lnot UD_SOCIAL_CODE_KIND_MASK) in
  if (kind !=? UD_SOCIAL_CODE_USER) && (kind !=? UD_SOCIAL_CODE_HOME) then 0
  else if z0 topology then 1
  else if topology =? UD_SOCIAL_CODE_THREE_NGINX then 3 else 0.

Definition social_nops (words : list Z) (from count : Z) : bool :=
  for_range from (count - 1) (fun i => words.[i] =? UD_RS_NOP).

(** [switch (domain)]: the instruction that loads the target and the action. *)
Definition social_route (domain : Z) (words : list Z) : option (Z * Z) :=
  if domain =? UD_DIRECT then Some (UD_RS_LDR_NGINX, UD_RS_MOV_DOMAIN)
  else if domain =? UD_MIDDLE then
    if (words.[0] !=? UD_RS_LDR_USER) && (words.[0] !=? UD_RS_LDR_HOME) then None
    else Some (words.[0], UD_RS_MOV_RPC)
  else if domain =? UD_LEAF then Some (UD_RS_LDR_RETURN, UD_RS_MOV_DOMAIN)
  else Some (UD_RS_MOV_0, UD_RS_MOV_CLIENT).

Definition ud_remote_social_image_valid (domain : Z) (words : list Z) (count : Z) : bool :=
  if (domain >=? UD_DOMAINS) || (count <? 5) || (count >? UD_REMOTE_MAX_WORDS) ||
     (words.[count - 1] !=? UD_RS_RETURN) then false
  else if (domain =? UD_DIRECT) && (words.[0] =? ud_remote_social_lb3_word 0) then
    if count <? UD_RS_LB3_WORDS + 1 then false
    else for_all UD_RS_LB3_WORDS (fun i => words.[i] =? ud_remote_social_lb3_word i) &&
         social_nops words UD_RS_LB3_WORDS count
  else match social_route domain words with
  | None => false
  | Some (first, action) =>
      if (words.[0] !=? first) || (words.[1] !=? UD_RS_STR_TARGET) ||
         (words.[2] !=? action) || (words.[3] !=? UD_RS_STR_ACTION) then false
      else social_nops words 4 count
  end.

(** [bundle->image[d]]. *)
Definition b_img (b : ud_remote_bundle) (d : Z) : list Z := nthz [] (b_image b) d.

Definition ud_remote_bundle_valid (b : ud_remote_bundle) : bool :=
  let m := b_manifest b in
  let social := r_mode m =? UD_CODE_REMOTE_SOCIAL in
  if (r_magic m !=? UD_REMOTE_MAGIC) || (r_abi m !=? UD_REMOTE_ABI) ||
     ((r_mode m !=? UD_CODE_REMOTE_VERIFIED) && (r_mode m !=? UD_CODE_REMOTE_SOCIAL)) ||
     (if social then z0 (ud_remote_social_count (r_reserved m)) else nz (r_reserved m)) then false
  else if social &&
     ((b_img b UD_MIDDLE).[0] !=?
      (if r_reserved m .& UD_SOCIAL_CODE_KIND_MASK =? UD_SOCIAL_CODE_HOME
       then UD_RS_LDR_HOME else UD_RS_LDR_USER)) then false
  else if social &&
     xorb ((b_img b UD_DIRECT).[0] =? ud_remote_social_lb3_word 0)
          (ud_remote_social_count (r_reserved m) =? 3) then false
  else for_all UD_DOMAINS (fun d =>
    if negb (if social then ud_remote_social_image_valid d (b_img b d) (r_words m).[d]
             else ud_remote_image_valid d (b_img b d) (r_words m).[d]) then false
    else for_range (r_words m).[d] UD_REMOTE_MAX_WORDS (fun i => z0 (b_img b d).[i])).

(** ** The producers *)

(** [strtoul(text, &end, 10)] on a text of decimal digits; [None] is [ERANGE]. *)
Definition digit (c : Ascii.ascii) : option Z :=
  let v := Z.of_N (Ascii.N_of_ascii c) - 48 in
  if (0 <=? v) && (v <=? 9) then Some v else None.
Fixpoint decimal (text : string) (acc : Z) : option Z :=
  match text with
  | EmptyString => Some acc
  | String c text => match digit c with Some v => decimal text (10 * acc + v) | None => None end
  end.
(** All-digit, non-empty text without range error: its value. *)
Definition strtoul_digits (text : string) : option Z :=
  match text with
  | EmptyString => None
  | _ => match decimal text 0 with
         | Some n => if n >? ULONG_MAX then None else Some n
         | None => None
         end
  end.

Definition parse_imm (text : string) : option Z :=
  match strtoul_digits text with
  | Some parsed => if parsed >? 4095 then None else Some parsed
  | None => None
  end.

(** A page image: the words written, the rest of [struct ud_remote_bundle b = {0}]. *)
Definition image_of (words : list Z) : list Z :=
  words ++ replicate (Z.to_nat UD_REMOTE_MAX_WORDS - length words) 0.

Record gen_options := mk_gen { g_direct_bias : Z; g_middle_add : Z; g_leaf_add : Z }.

(** [None]: [goto usage]. *)
Fixpoint gen_parse (args : list string) (o : gen_options) : option gen_options :=
  match args with
  | [] => Some o
  | [_] => None
  | name :: text :: args =>
      if decide (name = "--direct-bias") then
        match parse_imm text with Some v => gen_parse args (mk_gen v (g_middle_add o) (g_leaf_add o)) | None => None end
      else if decide (name = "--middle-add") then
        match parse_imm text with Some v => gen_parse args (mk_gen (g_direct_bias o) v (g_leaf_add o)) | None => None end
      else if decide (name = "--leaf-add") then
        match parse_imm text with Some v => gen_parse args (mk_gen (g_direct_bias o) (g_middle_add o) v) | None => None end
      else None
  end.

Definition gen_direct (o : gen_options) : list Z :=
  [UD_R_LDR_A; UD_R_LDR_B; UD_R_LDR_HEAP; UD_R_ADD_B; UD_R_ADD_HEAP; ud_r_add_imm (g_direct_bias o);
   UD_R_STR_RESULT; UD_R_BRK_RETURN].
Definition gen_middle (o : gen_options) : list Z :=
  [UD_R_LDR_A; UD_R_NOP; UD_R_NOP; UD_R_BRK_NESTED; ud_r_add_imm (g_middle_add o); UD_R_STR_RESULT;
   UD_R_BRK_RETURN].
Definition gen_leaf (o : gen_options) : list Z :=
  [UD_R_LDR_A; ud_r_add_imm (g_leaf_add o); UD_R_STR_RESULT; UD_R_BRK_RETURN].
Definition gen_query : list Z := [UD_R_BRK_RETURN].

Definition gen_bundle (o : gen_options) : ud_remote_bundle :=
  mk_bundle (mk_manifest UD_REMOTE_MAGIC UD_REMOTE_ABI UD_CODE_REMOTE_VERIFIED [8; 7; 4; 1] 0 0)
    [image_of (gen_direct o); image_of (gen_middle o); image_of (gen_leaf o); image_of gen_query].

(** What [main] of remote_code_gen.c does: exit status, the bundle written and
    the two expected results it prints.  [opened] and [written] are the outcomes
    of the file operations. *)
Definition remote_code_gen_main (argv : list string) (opened written : bool)
    : Z * option (ud_remote_bundle * Z * Z) :=
  match argv with
  | _ :: _ :: args =>
      match gen_parse args (mk_gen 0 1 1) with
      | None => (2, None)
      | Some o =>
          let bundle := gen_bundle o in
          if negb (ud_remote_bundle_valid bundle) then (1, None)
          else if negb opened then (1, None)
          else if negb written then (1, None)
          else (0, Some (bundle, 142 + g_direct_bias o, 41 + g_middle_add o + g_leaf_add o))
      end
  | _ => (2, None)
  end.

Record social_options := mk_social_gen {
  sg_padding : Z; sg_nginx_count : Z; sg_padding_seen : bool; sg_count_seen : bool }.

(** Each guard evaluates its [seen++] only when the option name matches. *)
Fixpoint social_parse (args : list string) (o : social_options) : option social_options :=
  match args with
  | [] => Some o
  | [_] => None
  | name :: text :: args =>
      match strtoul_digits text with
      | None => None
      | Some n =>
          if decide (name = "--nop-padding") then
            if negb (sg_padding_seen o) && (n <=? 4)
            then social_parse args (mk_social_gen n (sg_nginx_count o) true (sg_count_seen o)) else None
          else if decide (name = "--nginx-count") then
            if negb (sg_count_seen o) && ((n =? 1) || (n =? 3))
            then social_parse args (mk_social_gen (sg_padding o) n (sg_padding_seen o) true) else None
          else None
      end
  end.

Definition social_first (read_home : bool) (d : Z) : Z * Z :=
  if d =? UD_DIRECT then (UD_RS_LDR_NGINX, UD_RS_MOV_DOMAIN)
  else if d =? UD_MIDDLE then (if read_home then UD_RS_LDR_HOME else UD_RS_LDR_USER, UD_RS_MOV_RPC)
  else if d =? UD_LEAF then (UD_RS_LDR_RETURN, UD_RS_MOV_DOMAIN)
  else (UD_RS_MOV_0, UD_RS_MOV_CLIENT).

Definition social_words (read_home : bool) (o : social_options) (d : Z) : list Z :=
  let nops := replicate (Z.to_nat (sg_padding o)) UD_RS_NOP in
  if (d =? UD_DIRECT) && (sg_nginx_count o =? 3) then
    (ud_remote_social_lb3_word <$> seqZ 0 UD_RS_LB3_WORDS) ++ nops ++ [UD_RS_RETURN]
  else
    let '(first, action) := social_first read_home d in
    [first; UD_RS_STR_TARGET; action; UD_RS_STR_ACTION] ++ nops ++ [UD_RS_RETURN].

Definition social_count (o : social_options) (d : Z) : Z :=
  if (d =? UD_DIRECT) && (sg_nginx_count o =? 3) then UD_RS_LB3_WORDS + sg_padding o + 1
  else 5 + sg_padding o.

Definition social_bundle (read_home : bool) (o : social_options) : ud_remote_bundle :=
  mk_bundle (mk_manifest UD_REMOTE_MAGIC UD_REMOTE_ABI UD_CODE_REMOTE_SOCIAL
      (social_count o <$> seqZ 0 UD_DOMAINS)
      ((if read_home then UD_SOCIAL_CODE_HOME else UD_SOCIAL_CODE_USER) .|
       (if sg_nginx_count o =? 3 then UD_SOCIAL_CODE_THREE_NGINX else 0)) 0)
    ((fun d => image_of (social_words read_home o d)) <$> seqZ 0 UD_DOMAINS).

Definition remote_social_code_gen_main (argv : list string) (opened written : bool)
    : Z * option ud_remote_bundle :=
  match argv with
  | _ :: _ :: service :: kind :: args =>
      if decide (service <> "--service") then (2, None)
      else if decide (kind <> "user" /\ kind <> "home") then (2, None)
      else match social_parse args (mk_social_gen 0 1 false false) with
      | None => (2, None)
      | Some o =>
          let bundle := social_bundle (bool_decide (kind = "home")) o in
          if negb (ud_remote_bundle_valid bundle) then (1, None)
          else if negb opened then (1, None)
          else if negb written then (1, None)
          else (0, Some bundle)
      end
  | _ => (2, None)
  end.

(** ** The producers' images pass the verifiers *)

Definition gen_options_ok (o : gen_options) : Prop :=
  0 <= g_direct_bias o <= 4095 /\ 0 <= g_middle_add o <= 4095 /\ 0 <= g_leaf_add o <= 4095.

Lemma decimal_nonneg text acc n : 0 <= acc -> decimal text acc = Some n -> 0 <= n.
Proof.
  revert acc. induction text as [|c text IH]; intros acc Ha; cbn; [by intros [= <-]|].
  unfold digit. destruct ((0 <=? _) && _) eqn:E; [|done]. bprop. apply IH. lia.
Qed.

Lemma strtoul_range text n : strtoul_digits text = Some n -> 0 <= n <= ULONG_MAX.
Proof.
  unfold strtoul_digits. destruct text; [done|]. destruct (decimal _ 0) as [v|] eqn:E; [|done].
  case_if; [done|]. intros [= <-]. bprop. apply decimal_nonneg in E; lia.
Qed.

Lemma parse_imm_range text n : parse_imm text = Some n -> 0 <= n <= 4095.
Proof.
  unfold parse_imm. destruct (strtoul_digits text) as [v|] eqn:E; [|done].
  case_if; [done|]. intros [= <-]. bprop. apply strtoul_range in E. lia.
Qed.

Lemma gen_parse_ok args o o' : gen_options_ok o -> gen_parse args o = Some o' -> gen_options_ok o'.
Proof.
  revert o. induction args as [args IH] using (induction_ltof1 _ length). intros o Ho.
  destruct args as [|name [|text args]]; cbn; [by intros [= <-]|done|].
  assert (Hlt : ltof _ length args (name :: text :: args)) by (unfold ltof; cbn; lia).
  destruct Ho as (? & ? & ?).
  repeat case_decide; try done; destruct (parse_imm text) as [v|] eqn:E; try done;
    apply parse_imm_range in E; apply IH; done.
Qed.

Lemma ud_r_add_imm_mask v : 0 <= v <= 4095 -> ud_r_add_imm v .& 0xffc003ff = 0x91000042.
Proof.
  intros Hv. unfold ud_r_add_imm. rewrite Z.land_lor_distr_l.
  assert (Hz : u32 (v .<< 10) .& 0xffc003ff = 0); [|by rewrite Hz].
  rewrite u32_id by (rewrite Z.shiftl_mul_pow2 by lia; unfold in_u32; lia).
  apply Z.bits_inj'. intros k Hk. rewrite Z.land_spec, Z.shiftl_spec, Z.bits_0 by lia.
  destruct (decide (k < 10)); [by rewrite Z.testbit_neg_r by lia|].
  destruct (decide (22 <= k)).
  - by rewrite (testbit_bound v 12) by lia.
  - assert (Hm : Z.testbit 0xffc003ff k = false); [|by rewrite Hm, andb_false_r].
    assert (Hc : k = 10 \/ k = 11 \/ k = 12 \/ k = 13 \/ k = 14 \/ k = 15 \/ k = 16 \/ k = 17 \/
                 k = 18 \/ k = 19 \/ k = 20 \/ k = 21) by lia.
    destruct_or!; subst; reflexivity.
Qed.

Lemma add_imm_arithmetic v d : 0 <= v <= 4095 -> ud_r_arithmetic (ud_r_add_imm v) d = true.
Proof. intros H. unfold ud_r_arithmetic. by rewrite ud_r_add_imm_mask. Qed.

Lemma gen_bundle_valid o : gen_options_ok o -> ud_remote_bundle_valid (gen_bundle o) = true.
Proof.
  intros (Hd & Hm & Hl). destruct o as [db ma la]. cbn in Hd, Hm, Hl.
  unfold gen_bundle, gen_direct, gen_middle, gen_leaf. cbn [g_direct_bias g_middle_add g_leaf_add].
  pose proof (add_imm_arithmetic db 0 Hd) as H0. pose proof (add_imm_arithmetic ma 1 Hm) as H1.
  pose proof (add_imm_arithmetic la 2 Hl) as H2.
  generalize dependent (ud_r_add_imm db). generalize dependent (ud_r_add_imm ma).
  generalize dependent (ud_r_add_imm la). intros w2 H2 w1 H1 w0 H0.
  unfold ud_remote_bundle_valid. apply for_all_spec. intros d Hd'. unfold UD_DOMAINS in Hd'.
  assert (Hc : d = 0 \/ d = 1 \/ d = 2 \/ d = 3) by lia. destruct_or!; subst d; cbv - [ud_r_arithmetic].
  all: by rewrite ?H0, ?H1, ?H2.
Qed.

Lemma social_parse_ok args o o' :
  0 <= sg_padding o <= 4 /\ (sg_nginx_count o = 1 \/ sg_nginx_count o = 3) ->
  social_parse args o = Some o' ->
  0 <= sg_padding o' <= 4 /\ (sg_nginx_count o' = 1 \/ sg_nginx_count o' = 3).
Proof.
  revert o. induction args as [args IH] using (induction_ltof1 _ length). intros o Ho.
  destruct args as [|name [|text args]]; cbn; [by intros [= <-]|done|].
  assert (Hlt : ltof _ length args (name :: text :: args)) by (unfold ltof; cbn; lia).
  destruct (strtoul_digits text) as [n|] eqn:E; [|done]. apply strtoul_range in E.
  repeat case_decide; try done; (case_if; [|done]); bprop; apply IH; try done; cbn; lia.
Qed.

Lemma social_bundle_valid read_home o :
  0 <= sg_padding o <= 4 -> sg_nginx_count o = 1 \/ sg_nginx_count o = 3 ->
  ud_remote_bundle_valid (social_bundle read_home o) = true.
Proof.
  destruct o as [p n ps cs]. cbn. intros Hp Hn.
  assert (Hc : p = 0 \/ p = 1 \/ p = 2 \/ p = 3 \/ p = 4) by lia.
  destruct read_home; destruct_or!; subst; vm_compute; reflexivity.
Qed.

(** C31. remote_code_gen never writes a bundle A would reject: once its options
    parse, the image passes the verifier, whatever the immediates, so the only
    failures left are those of the output file. *)
Theorem generated_code_verifies argv opened written :
  match remote_code_gen_main argv opened written with
  | (0, Some (bundle, _, _)) => ud_remote_bundle_valid bundle = true /\ opened = true /\ written = true
  | (1, None) => opened = false \/ written = false
  | (2, None) => True
  | _ => False
  end.
Proof.
  unfold remote_code_gen_main. destruct argv as [|? [|? args]]; try done.
  destruct (gen_parse args _) as [o|] eqn:E; [|done].
  apply gen_parse_ok in E; [|unfold gen_options_ok; cbn; lia].
  pose proof (gen_bundle_valid o E) as Hv. rewrite Hv. destruct opened, written; cbn [negb]; auto.
Qed.

(** C32. The same for remote_social_code_gen, over both services, every padding
    it accepts and both topologies. *)
Theorem generated_social_code_verifies argv opened written :
  match remote_social_code_gen_main argv opened written with
  | (0, Some bundle) => ud_remote_bundle_valid bundle = true /\ opened = true /\ written = true
  | (1, None) => opened = false \/ written = false
  | (2, None) => True
  | _ => False
  end.
Proof.
  unfold remote_social_code_gen_main. destruct argv as [|? [|? [|? [|kind args]]]]; try done.
  do 2 (case_decide; [done|]). destruct (social_parse args _) as [o|] eqn:E; [|done].
  apply social_parse_ok in E as [? ?]; [|cbn; lia].
  pose proof (fun h => social_bundle_valid h o ltac:(done) ltac:(done)) as Hv.
  rewrite Hv. destruct opened, written; cbn [negb]; auto.
Qed.
