(* ===== verification/Social.v ===== *)
(** * The UserTimeline routing ABI: include/lrpc/ub_social.h *)

From S2P Require Import Prelude CMem Abi.

Definition US_MAGIC := 0x5542534f43494131.
Definition US_ABI := 1.
Definition US_SLOTS := 15360.
Definition US_MAX_NGINX := 3.
Definition US_NGINX_FIRST := 2.
Definition US_FORWARD := 0.
Definition US_REVERSE := 1.
Definition US_USER_REQ := 9.
Definition US_USER_RESP := 10.
Definition US_HOME_REQ := 11.
Definition US_HOME_RESP := 12.
Definition US_WRITE_REQ := 13.
Definition US_SHARED_WRITE_REQ := 14.
Definition US_SHARED_READ_REQ := 15.
Definition US_SHARED_FETCH_ADD_REQ := 16.
Definition US_SHARED_VALUE_INDEX := 1.
Definition US_SHARED_COUNTER_INDEX := 2.
Definition US_ACTION_RPC := 1.
Definition US_ACTION_DOMAIN := 2.
Definition US_ACTION_CLIENT := 3.
Definition US_MAPPED_OFFSET := 128.

Definition us_select_nginx (key count : Z) : Z :=
  if z0 count || (count >? US_MAX_NGINX) then 0
  else US_NGINX_FIRST + (key mod US_SLOTS) mod count.

Record us_config := mk_us_config {
  uc_abi : Z; uc_kind : Z; uc_slot_modulus : Z; uc_target_count : Z;
  uc_nginx : list Z;
  uc_compose_endpoint : Z; uc_user_endpoint : Z; uc_home_endpoint : Z; uc_return_domain : Z;
  uc_allowed_grants : Z }.

Record us_heap := mk_us_heap { uh_magic : Z; uh_config : list us_config }.

Record us_message := mk_us_message {
  um_source : Z; um_request : Z; um_machine : Z; um_block : Z; um_payload_offset : Z;
  um_payload_bytes : Z; um_value : Z; um_ticket : Z;
  um_type : Z; um_action : Z; um_target : Z; um_status : Z }.

Record us_call := mk_us_call {
  ul_message : us_message;
  ul_abi : Z; ul_direction : Z; ul_entries : Z; ul_domain : list Z; ul_fault_vector : Z;
  ul_transitions : Z; ul_cpu : Z }.

#[export] Instance us_config_eq_dec : EqDecision us_config. Proof. solve_decision. Defined.
#[export] Instance us_heap_eq_dec : EqDecision us_heap. Proof. solve_decision. Defined.
#[export] Instance us_message_eq_dec : EqDecision us_message. Proof. solve_decision. Defined.

Definition us_config_ok (c : us_config) : Prop :=
  in_u32 (uc_abi c) /\ in_u32 (uc_kind c) /\ in_u32 (uc_slot_modulus c) /\ in_u32 (uc_target_count c) /\
  array_ok 4 in_u32 (uc_nginx c) /\ in_u32 (uc_compose_endpoint c) /\ in_u32 (uc_user_endpoint c) /\
  in_u32 (uc_home_endpoint c) /\ in_u32 (uc_return_domain c) /\ in_u32 (uc_allowed_grants c).
Definition us_config_fields (c : us_config) : list Z :=
  [uc_abi c; uc_kind c; uc_slot_modulus c; uc_target_count c] ++ uc_nginx c ++
  [uc_compose_endpoint c; uc_user_endpoint c; uc_home_endpoint c; uc_return_domain c; uc_allowed_grants c].
Definition us_config_of (l : list Z) : us_config :=
  mk_us_config l.[0] l.[1] l.[2] l.[3] (take 4 (drop 4 l)) l.[8] l.[9] l.[10] l.[11] l.[12].

Lemma us_config_fields_ok c :
  us_config_ok c -> Forall2 field_in_range (replicate 13 4%nat) (us_config_fields c).
Proof.
  intros (?&?&?&?&?&?&?&?&?&?). unfold us_config_fields.
  change (replicate 13 4%nat) with ([4; 4; 4; 4]%nat ++ replicate 4 4%nat ++ [4; 4; 4; 4; 4]%nat). layout.
Qed.
Lemma us_config_of_fields c : us_config_ok c -> us_config_of (us_config_fields c) = c.
Proof. destruct c. intros (?&?&?&?&?&?&?&?&?&?). simpl in *. explode. reflexivity. Qed.
#[export] Instance CStruct_us_config : CStruct us_config := {|
  widths := replicate 13 4%nat; fields := us_config_fields; of_fields := us_config_of;
  struct_ok := us_config_ok; fields_ok := us_config_fields_ok; of_fields_fields := us_config_of_fields |}.

Definition us_heap_ok (h : us_heap) : Prop :=
  in_u64 (uh_magic h) /\ length (uh_config h) = 2%nat /\ Forall us_config_ok (uh_config h).
#[export, program] Instance CStruct_us_heap : CStruct us_heap := {|
  widths := [8%nat] ++ replicate 13 4%nat ++ replicate 13 4%nat;
  fields h := [uh_magic h] ++ mjoin (us_config_fields <$> uh_config h);
  of_fields l := mk_us_heap l.[0] [us_config_of (take 13 (drop 1 l)); us_config_of (take 13 (drop 14 l))];
  struct_ok := us_heap_ok |}.
Next Obligation.
  intros [? cs] (?&Hl&Hd). cbn [uh_magic uh_config] in *. explode. forall_inv.
  cbn [mjoin list_join fmap list_fmap]. rewrite app_nil_r.
  apply List.Forall2_cons; [by apply field8|]. apply Forall2_app; by apply us_config_fields_ok.
Qed.
Next Obligation.
  intros [? cs] (?&Hl&Hd). cbn [uh_magic uh_config] in *. explode. forall_inv.
  repeat match goal with c : us_config, H : us_config_ok ?c |- _ =>
    destruct c; destruct H as (?&?&?&?&[]&?) end.
  simpl in *. explode. reflexivity.
Qed.

Definition us_message_ok (m : us_message) : Prop :=
  in_u64 (um_source m) /\ in_u64 (um_request m) /\ in_u64 (um_machine m) /\ in_u64 (um_block m) /\
  in_u64 (um_payload_offset m) /\ in_u64 (um_payload_bytes m) /\ in_u64 (um_value m) /\
  in_u64 (um_ticket m) /\ in_u32 (um_type m) /\ in_u32 (um_action m) /\ in_u32 (um_target m) /\
  in_u32 (um_status m).
#[export, program] Instance CStruct_us_message : CStruct us_message := {|
  widths := replicate 8 8%nat ++ replicate 4 4%nat;
  fields m := [um_source m; um_request m; um_machine m; um_block m; um_payload_offset m;
    um_payload_bytes m; um_value m; um_ticket m; um_type m; um_action m; um_target m; um_status m];
  of_fields l := mk_us_message l.[0] l.[1] l.[2] l.[3] l.[4] l.[5] l.[6] l.[7] l.[8] l.[9] l.[10] l.[11];
  struct_ok := us_message_ok |}.
Next Obligation.
  intros m (?&?&?&?&?&?&?&?&?&?&?&?). cbn [replicate app]. layout.
Qed.
Next Obligation. by intros []. Qed.

Definition us_call_ok (c : us_call) : Prop :=
  us_message_ok (ul_message c) /\ in_u32 (ul_abi c) /\ in_u32 (ul_direction c) /\ in_u32 (ul_entries c) /\
  array_ok 2 in_u32 (ul_domain c) /\ in_u32 (ul_fault_vector c) /\ in_u32 (ul_transitions c) /\ in_u32 (ul_cpu c).
#[export, program] Instance CStruct_us_call : CStruct us_call := {|
  widths := widths us_message ++ [4; 4; 4]%nat ++ replicate 2 4%nat ++ [4; 4; 4]%nat;
  fields c := fields (ul_message c) ++ [ul_abi c; ul_direction c; ul_entries c] ++ ul_domain c ++
    [ul_fault_vector c; ul_transitions c; ul_cpu c];
  of_fields l := mk_us_call (of_fields (take 12 l)) l.[12] l.[13] l.[14] (take 2 (drop 15 l)) l.[17] l.[18] l.[19];
  struct_ok := us_call_ok |}.
Next Obligation.
  intros c (?&?&?&?&?&?&?&?). apply Forall2_app; [by apply fields_ok|]. layout.
Qed.
Next Obligation.
  intros [[] ? ? ? dom ? ? ?] (?&?&?&?&Hd&?). simpl in *. explode. reflexivity.
Qed.

Definition us_config_init (i count : Z) : us_config :=
  mk_us_config US_ABI (i + 1) US_SLOTS count
    ((fun j => if j <? count then US_NGINX_FIRST + j else 0) <$> seqZ 0 4)
    101 102 103 1 0.

Definition us_heap_init_count (count : Z) : us_heap :=
  mk_us_heap US_MAGIC ((fun i => us_config_init i count) <$> seqZ 0 2).

Definition us_heap_init : us_heap := us_heap_init_count 1.

Definition us_config_offset (d : Z) : Z :=
  8 + (if (d =? 1) || (d =? 2) then sizeof us_config else 0).

(** The structure has no padding: [memcmp] is equality of the loaded values. *)
Definition us_heap_valid (h : us_heap) : bool := bool_decide (h = us_heap_init).
Definition us_heap_valid_count (h : us_heap) (count : Z) : bool :=
  if (count !=? 1) && (count !=? 3) then false else bool_decide (h = us_heap_init_count count).

(** ** The static assertions of the header *)

Lemma us_sizes :
  sizeof us_config = 52 /\ sizeof us_heap = 112 /\ sizeof us_message = 80 /\
  offsetof us_message 9 = 68 /\ offsetof us_message 10 = 72.
Proof. vm_compute. done. Qed.

(** C38. [us_select_nginx] picks one of the configured nginx identities 2, 3, ..,
    1 + count, the one B's table holds at that index, and refuses any count the
    region cannot hold; every identity is picked by some key. *)
Theorem select_nginx_in_table key count :
  in_u32 key ->
  (1 <= count <= US_MAX_NGINX ->
     let j := (key mod US_SLOTS) mod count in
     us_select_nginx key count = (uc_nginx (us_config_init 0 count)).[j] /\
     US_NGINX_FIRST <= us_select_nginx key count < US_NGINX_FIRST + count /\
     forall i, 0 <= i < count -> us_select_nginx i count = US_NGINX_FIRST + i) /\
  (count <= 0 \/ US_MAX_NGINX < count -> in_u32 count -> us_select_nginx key count = 0).
Proof.
  intros Hk. unfold US_MAX_NGINX, US_NGINX_FIRST in *. split.
  - intros Hc. pose proof (Z.mod_pos_bound (key mod US_SLOTS) count ltac:(lia)) as Hj.
    assert (Hsel : forall k, us_select_nginx k count = 2 + (k mod US_SLOTS) mod count).
    { intros k. unfold us_select_nginx, US_MAX_NGINX, z0. case_if; [bprop; lia|done]. }
    cbn zeta. rewrite Hsel. generalize dependent ((key mod US_SLOTS) mod count). intros j Hj.
    split_and!; try lia.
    + assert (Hc3 : count = 1 \/ count = 2 \/ count = 3) by lia.
      assert (Hj3 : j = 0 \/ j = 1 \/ j = 2) by lia.
      destruct_or!; subst; try lia; reflexivity.
    + intros i Hi. rewrite Hsel. unfold US_SLOTS. rewrite (Z.mod_small i 15360), Z.mod_small by lia. lia.
  - intros Hc Hu. unfold us_select_nginx, US_MAX_NGINX, z0, in_u32 in *. case_if; [done|]. bprop. lia.
Qed.

Lemma select_nginx_in_table_witness :
  us_select_nginx 15364 3 = (uc_nginx (us_config_init 0 3)).[1] /\ us_select_nginx 15364 7 = 0.
Proof.
  assert (Hk : in_u32 15364) by (unfold in_u32; lia). split.
  - exact (proj1 (proj1 (select_nginx_in_table 15364 3 Hk) ltac:(unfold US_MAX_NGINX; lia))).
  - apply (proj2 (select_nginx_in_table 15364 7 Hk)); unfold US_MAX_NGINX, in_u32; lia.
Defined.

Lemma us_heap_init_ok n : 0 <= n < 2 ^ 31 -> us_heap_ok (us_heap_init_count n).
Proof.
  intros Hn. unfold us_heap_ok, us_heap_init_count. cbn [uh_magic uh_config]. split_and!; [done|done|].
  change (seqZ 0 2) with [0; 1]. cbn [fmap list_fmap].
  assert (Hc : forall i, 0 <= i < 2 -> us_config_ok (us_config_init i n)).
  { intros i Hi. unfold us_config_ok, us_config_init, array_ok, US_ABI, US_SLOTS, US_NGINX_FIRST, in_u32.
    change (seqZ 0 4) with [0; 1; 2; 3]. cbn - [Z.pow Z.ltb Z.add].
    split_and!; try lia. repeat (apply List.Forall_cons; [case_if; lia|]). apply List.Forall_nil. }
  apply List.Forall_cons; [apply Hc; lia|]. apply List.Forall_cons; [apply Hc; lia|]. apply List.Forall_nil.
Qed.

(** ** Reading the configuration *)

(** Which of the two configurations domain [d] is given. *)
Definition us_config_index (d : Z) : Z := if (d =? 1) || (d =? 2) then 1 else 0.

Lemma us_config_offset_index d : us_config_offset d = 8 + 52 * us_config_index d.
Proof. unfold us_config_offset, us_config_index. by case_if. Qed.

Lemma us_config_fields_of l : length l = 13%nat -> us_config_fields (us_config_of l) = l.
Proof. intros H. explode. reflexivity. Qed.

(** Word [j] of configuration [i], as a 32-bit load of the heap page. *)
Lemma us_heap_word m pa h i j :
  ld_struct us_heap m pa = h -> 0 <= i < 2 -> 0 <= j < 13 ->
  ld32 m (pa + (8 + 52 * i) + 4 * j) =
    (us_config_fields (nthz (us_config_init 0 0) (uh_config h) i)).[j].
Proof.
  intros <- Hi Hj. unfold ld_struct. set (l := dec_fields _ _).
  assert (Hl : length l = 27%nat).
  { unfold l. rewrite dec_fields_length. reflexivity. }
  assert (Hw : forall k, (1 <= k < 27)%nat -> nth k l 0 = ld32 m (pa + (8 + 4 * (Z.of_nat k - 1)))).
  { intros k Hk. apply nth_lookup_Some. unfold l.
    assert (Hw4 : widths us_heap !! k = Some 4%nat).
    { change (widths us_heap) with (8%nat :: replicate 26 4%nat). destruct k as [|k]; [lia|].
      cbn [lookup list_lookup]. apply lookup_replicate. lia. }
    unfold sizeof. rewrite (dec_fields_load (widths us_heap) m pa k 4%nat Hw4). do 3 f_equal.
    change (widths us_heap) with (8%nat :: replicate 26 4%nat). destruct k as [|k]; [lia|].
    cbn [take sumw]. rewrite take_replicate_sum by lia. lia. }
  replace (pa + (8 + 52 * i) + 4 * j) with (pa + (8 + 4 * (Z.of_nat (Z.to_nat (1 + 13 * i + j)) - 1))) by lia.
  rewrite <- Hw by lia.
  assert (Hc : nthz (us_config_init 0 0) (uh_config (of_fields l)) i =
               us_config_of (take 13 (drop (Z.to_nat (1 + 13 * i)) l))).
  { assert (Hi2 : i = 0 \/ i = 1) by lia. by destruct Hi2 as [->| ->]. }
  rewrite Hc, us_config_fields_of by (rewrite length_take, length_drop; lia).
  unfold nthz. rewrite !nth_lookup, lookup_take_lt, lookup_drop by lia. do 2 f_equal. lia.
Qed.

(** A heap the commit accepted holds the configuration of [us_heap_init_count]. *)
Lemma us_valid_word m pa n d j :
  us_heap_valid_count (ld_struct us_heap m pa) n = true -> 0 <= j < 13 ->
  ld32 m (pa + us_config_offset d + 4 * j) =
    (us_config_fields (us_config_init (us_config_index d) n)).[j].
Proof.
  unfold us_heap_valid_count. case_if; [done|]. intros Hv%bool_decide_eq_true Hj.
  rewrite us_config_offset_index. rewrite (us_heap_word m pa _ (us_config_index d) j Hv) by (unfold us_config_index; (case_if; lia) || lia).
  unfold us_config_index. by case_if.
Qed.
