(* ===== verification/RemoteSound.v ===== *)
(** * What accepted code does

    Every image that passes the verifiers of [RemoteCode], run by the machine of
    [Arm64] in the address space of [PageWalk], returns to the kernel by its
    final [brk] after as many instructions as it has words, and changes nothing
    but the result fields of its own A-stack page. *)

From stdpp Require Import strings.
From S2P Require Import Prelude CMem Abi Layout PageWalk Arm64 RemoteCode Social.

(** ** Runs *)

Section runs.
Context (tr : Z -> option (Z * perm)) (image : list (option instr)).

(** [n] instructions, none of which stops the machine. *)
Fixpoint steps (n : nat) (st st' : cpu) : Prop :=
  match n with
  | O => st = st'
  | S n => exists s, step tr image st = Next s /\ steps n s st'
  end.

Lemma steps_app n m st s st' : steps n st s -> steps m s st' -> steps (n + m) st st'.
Proof.
  revert st. induction n as [|n IH]; cbn; intros st; [by intros ->|].
  intros (s1 & ? & ?) ?. eauto.
Qed.

Lemma run_steps n k st s : steps n st s -> run tr image (n + k) st = run tr image k s.
Proof.
  revert st. induction n as [|n IH]; cbn; intros st; [by intros ->|].
  intros (s1 & -> & ?). auto.
Qed.

Lemma steps_run n k st s why st' :
  steps n st s -> step tr image s = Stop why st' -> run tr image (n + S k) st = Some (why, st').
Proof.
  revert st. induction n as [|n IH]; cbn; intros st; [by intros -> ->|].
  intros (s1 & -> & ?). auto.
Qed.
End runs.

(** ** The pages of a domain *)

Section space.
Context (c : ud_contract) (d : Z).

Lemma xlat_code k : 0 <= k < UD_PAGE ->
  xlat_of c d (UD_VA + k) = Some ((c_code_pa c).[d] + k, mk_perm true false true (c_wb_index c)).
Proof.
  intros Hk. unfold xlat_of, domain_page, domain_pages, in_page. cbn [List.find app pg_va].
  unfold UD_VA, UD_PAGE in *. replace ((_ <=? _) && (_ <? _)) with true by lia. cbn. repeat f_equal. lia.
Qed.

Lemma xlat_stack k : 0 <= k < UD_PAGE ->
  xlat_of c d (UD_STACK + k) = Some ((c_stack_pa c).[d] + k, mk_perm true true false (c_wb_index c)).
Proof.
  intros Hk. unfold xlat_of, domain_page, domain_pages, in_page. cbn [List.find app pg_va].
  unfold UD_STACK, UD_VA, UD_PAGE in *.
  replace ((0x100000000 <=? _) && (_ <? 0x100000000 + _)) with false by lia.
  replace ((_ <=? _) && (_ <? _)) with true by lia. cbn - [Z.add]. repeat f_equal. unfold UD_STACK, UD_VA. lia.
Qed.

Lemma xlat_heap k : 0 <= k < UD_PAGE ->
  xlat_of c d (UD_DATA + k) = Some (c_heap_pa c + k, mk_perm true false false (c_nc_index c)).
Proof.
  intros Hk. unfold xlat_of, domain_page, domain_pages, in_page. cbn [List.find app pg_va].
  unfold UD_STACK, UD_DATA, UD_VA, UD_PAGE in *.
  replace ((0x100000000 <=? _) && (_ <? 0x100000000 + 4096)) with false by lia.
  replace ((0x100000000 + 0x2000 <=? _) && (_ <? _)) with false by lia.
  replace ((_ <=? _) && (_ <? _)) with true by lia. cbn - [Z.add]. repeat f_equal. unfold UD_DATA, UD_VA. lia.
Qed.

Lemma xlat_args k : 0 <= k < UD_PAGE ->
  xlat_of c d (UD_ARGS + k) = Some ((c_args_pa c).[d] + k, mk_perm true true false (c_wb_index c)).
Proof.
  intros Hk. unfold xlat_of, domain_page, domain_pages, in_page. cbn [List.find app pg_va].
  unfold UD_STACK, UD_DATA, UD_ARGS, UD_VA, UD_PAGE in *.
  replace ((0x100000000 <=? _) && (_ <? 0x100000000 + 4096)) with false by lia.
  replace ((0x100000000 + 0x2000 <=? _) && (_ <? _)) with false by lia.
  replace ((0x100000000 + 0x4000 <=? _) && (_ <? _)) with false by lia.
  replace ((_ <=? _) && (_ <? _)) with true by lia. cbn - [Z.add]. repeat f_equal. unfold UD_ARGS, UD_VA. lia.
Qed.

Context (image : list (option instr)).
Let tr := xlat_of c d.

Lemma step_at st i ins :
  pc st = UD_VA + 4 * i -> 0 <= i < 1024 -> image !! Z.to_nat i = Some (Some ins) ->
  step tr image st = exec tr ins st.
Proof.
  intros Hpc Hi Him. unfold step, fetch, tr. rewrite Hpc.
  replace (nz ((UD_VA + 4 * i) mod 4)) with false.
  2: { unfold nz, UD_VA. symmetry. apply negb_false_iff, Z.eqb_eq.
       rewrite Z.mul_comm, Z.mod_add by lia. reflexivity. }
  rewrite xlat_code by (unfold UD_PAGE; lia). cbn [pr_exec].
  replace ((UD_VA + 4 * i - UD_VA) / 4) with i; [by rewrite Him|].
  replace (UD_VA + 4 * i - UD_VA) with (i * 4) by lia. by rewrite Z.div_mul.
Qed.

(** An aligned access of the A-stack or heap page. *)
Lemma translate_in (base pa off len : Z) (p : perm) (write : bool) :
  (forall k, 0 <= k < UD_PAGE -> tr (base + k) = Some (pa + k, p)) ->
  (if write then pr_write p else pr_read p) = true ->
  0 <= base -> base + UD_PAGE < 2 ^ 64 -> base mod len = 0 -> 0 < len -> off mod len = 0 ->
  0 <= off < UD_PAGE -> translate tr (u64 (base + off)) len write = inl (pa + off).
Proof.
  intros Htr Hp Hb Hb2 Hbm Hl Ho Hr. unfold translate. rewrite u64_id by (unfold in_u64; lia).
  rewrite Z.add_mod, Hbm, Ho by lia. rewrite Z.mod_0_l by lia. cbn [nz Z.eqb negb].
  rewrite Htr by done. destruct write; by rewrite Hp.
Qed.

Lemma translate_args off len (write : bool) :
  0 <= off < UD_PAGE -> len = 8 \/ len = 4 -> off mod len = 0 ->
  translate tr (u64 (UD_ARGS + off)) len write = inl ((c_args_pa c).[d] + off).
Proof.
  intros Hr Hl Ho. apply (translate_in UD_ARGS _ _ _ _ _ xlat_args); try done; try lia; try (destruct Hl; subst; done).
  by destruct write.
Qed.

Lemma translate_heap off len :
  0 <= off < UD_PAGE -> len = 8 \/ len = 4 -> off mod len = 0 ->
  translate tr (u64 (UD_DATA + off)) len false = inl (c_heap_pa c + off).
Proof.
  intros Hr Hl Ho. apply (translate_in UD_DATA _ _ _ _ _ xlat_heap); try done; try lia; try (destruct Hl; subst; done).
Qed.
End space.

(** ** Entering a domain *)

(** [ud_initial_regs] of the kernel: everything but x0, x1, sp and pc is zero. *)
Definition entry_cpu (i : ud_initial) (m : mem) : cpu :=
  mk_cpu (in_args i :: in_heap i :: replicate 29 0) (in_sp i) (in_pc i) false m.

Definition micro_initial : ud_initial := mk_initial UD_ARGS UD_DATA (UD_STACK + UD_PAGE) UD_VA.

(** ** Micro images *)

(** The value a word of the arithmetic body leaves in x2; [b] and [h] are x3 and x4. *)
Definition alu (b h acc w : Z) : Z :=
  if w .& 0xffc003ff =? 0x91000042 then u64 (acc + bits w 10 12)
  else if w .& 0xffc003ff =? 0xd1000042 then u64 (acc - bits w 10 12)
  else if w =? UD_R_ADD_B then u64 (acc + b)
  else if w =? UD_R_ADD_HEAP then u64 (acc + h)
  else if w =? UD_R_SUB_B then u64 (acc - b)
  else if w =? UD_R_SUB_HEAP then u64 (acc - h)
  else if w =? UD_R_EOR_B then Z.lxor acc b
  else Z.lxor acc h.

(** The body of an image: words [from, count - 2). *)
Definition micro_body (words : list Z) (from count : Z) : list Z :=
  take (Z.to_nat (count - 2 - from)) (drop (Z.to_nat from) words).
Definition micro_result (words : list Z) (from count a b h : Z) : Z :=
  fold_left (alu b h) (micro_body words from count) a.

(** The machine at word [i] with [acc] in x2. *)
Definition micro_at (i acc b h sp : Z) (z : bool) (m : mem) : cpu :=
  mk_cpu (UD_ARGS :: UD_DATA :: acc :: b :: h :: replicate 26 0) sp (UD_VA + 4 * i) z m.

(** Execute an instruction on a state whose registers are listed. *)
Ltac exec_simpl :=
  cbv [exec load store next pcset pmset zset xget bget xset bset x sp pc flag_z pm micro_at entry_cpu
       in_args in_heap in_sp in_pc micro_initial nthz setz insert list_insert nth replicate
       Z.to_nat Pos.to_nat Pos.iter_op Nat.add Z.eqb Pos.eqb].

Section micro.
Context (c : ud_contract) (d : Z) (words : list Z) (count : Z).
Let tr := xlat_of c d.
Let image := decode <$> words.

Lemma step_word st i w ins :
  pc st = UD_VA + 4 * i -> 0 <= i < 1024 -> words.[i] = w -> i < Z.of_nat (length words) ->
  decode w = Some ins -> step tr image st = exec tr ins st.
Proof.
  intros Hpc Hi Hw Hl Hd. apply step_at with i; [done..|]. unfold image. rewrite list_lookup_fmap.
  destruct (words !! Z.to_nat i) as [w'|] eqn:E; [|apply lookup_ge_None in E; lia].
  unfold nthz in Hw. rewrite (nth_lookup_Some _ _ _ _ E) in Hw. subst w'. cbn. by rewrite Hd.
Qed.

Lemma imm_operands w v :
  w .& 0xffc003ff = v -> f_rd v = 2 -> f_rn v = 2 -> f_rd w = 2 /\ f_rn w = 2.
Proof.
  intros H H1 H2. unfold f_rd, f_rn in *.
  by rewrite !(bits_masked w 0xffc003ff v) by (lia || done || reflexivity).
Qed.

Lemma u64_shift0 v : in_u64 v -> u64 (v .<< 0) = v.
Proof. intros H. rewrite Z.shiftl_0_r. by apply u64_id. Qed.

(** One word of the body: x2 becomes [alu], everything else stays. *)
Lemma arith_step i acc b h sp z m :
  0 <= i < 1024 -> i < Z.of_nat (length words) -> in_u64 b -> in_u64 h ->
  ud_r_arithmetic words.[i] d = true ->
  step tr image (micro_at i acc b h sp z m) = Next (micro_at (i + 1) (alu b h acc words.[i]) b h sp z m).
Proof.
  intros Hi Hl Hb Hh Ha.
  assert (Hnext : UD_VA + 4 * i + 4 = UD_VA + 4 * (i + 1)) by lia.
  pose proof (u64_shift0 b Hb) as Hb0. pose proof (u64_shift0 h Hh) as Hh0.
  set (w := words.[i]) in *. unfold ud_r_arithmetic in Ha. unfold alu.
  destruct (w .& 0xffc003ff =? 0x91000042) eqn:E1; [|destruct (w .& 0xffc003ff =? 0xd1000042) eqn:E2].
  - bprop. destruct (imm_operands w _ E1 eq_refl eq_refl) as [Hrd Hrn].
    rewrite (step_word _ i w (ADD_IMM (f_rd w) (f_rn w) (bits w 10 12))); try done.
    + rewrite Hrd, Hrn. exec_simpl. by rewrite Hnext.
    + by apply (decode_masked w 0xffc003ff 0x91000042 (fun w => ADD_IMM (f_rd w) (f_rn w) (bits w 10 12)) E1).
  - bprop. destruct (imm_operands w _ E2 eq_refl eq_refl) as [Hrd Hrn].
    rewrite (step_word _ i w (SUB_IMM (f_rd w) (f_rn w) (bits w 10 12))); try done.
    + rewrite Hrd, Hrn. exec_simpl. by rewrite Hnext.
    + by apply (decode_masked w 0xffc003ff 0xd1000042 (fun w => SUB_IMM (f_rd w) (f_rn w) (bits w 10 12)) E2).
  - cbn [orb] in Ha. destruct (d =? UD_DIRECT); [|done]. clear E1 E2.
    assert (Hgo : forall op ins, w = op -> decode op = Some ins ->
      step tr image (micro_at i acc b h sp z m) = exec tr ins (micro_at i acc b h sp z m)).
    { intros op ins Hw Hop. apply (step_word _ i op); done. }
    rewrite !orb_true_iff, !Z.eqb_eq in Ha. destruct_or! Ha; rewrite Ha; clear Hl;
    [ rewrite (Hgo _ (ADD_REG 2 2 3 0) Ha eq_refl) | rewrite (Hgo _ (ADD_REG 2 2 4 0) Ha eq_refl)
    | rewrite (Hgo _ (SUB_REG 2 2 3 0) Ha eq_refl) | rewrite (Hgo _ (SUB_REG 2 2 4 0) Ha eq_refl)
    | rewrite (Hgo _ (EOR_REG 2 2 3 0) Ha eq_refl) | rewrite (Hgo _ (EOR_REG 2 2 4 0) Ha eq_refl) ];
    exec_simpl; by rewrite ?Hb0, ?Hh0, Hnext.
Qed.

(** The whole body. *)
Lemma body_steps n i acc b h sp z m :
  0 <= i -> i + Z.of_nat n <= 1024 -> i + Z.of_nat n <= Z.of_nat (length words) -> in_u64 b -> in_u64 h ->
  (forall j, i <= j < i + Z.of_nat n -> ud_r_arithmetic words.[j] d = true) ->
  steps tr image n (micro_at i acc b h sp z m)
    (micro_at (i + Z.of_nat n) (fold_left (alu b h) (take n (drop (Z.to_nat i) words)) acc) b h sp z m).
Proof.
  revert i acc. induction n as [|n IH]; intros i acc Hi H1 H2 Hb Hh Ha.
  { cbn [steps take fold_left]. by rewrite Z.add_0_r. }
  exists (micro_at (i + 1) (alu b h acc words.[i]) b h sp z m).
  split; [apply arith_step; try done; try lia; apply Ha; lia|].
  specialize (IH (i + 1) (alu b h acc words.[i]) ltac:(lia) ltac:(lia) ltac:(lia) Hb Hh
    ltac:(intros; apply Ha; lia)).
  replace (i + Z.of_nat (S n)) with (i + 1 + Z.of_nat n) by lia.
  replace (Z.to_nat (i + 1)) with (S (Z.to_nat i)) in IH by lia.
  destruct (words !! Z.to_nat i) as [w|] eqn:E; [|apply lookup_ge_None in E; lia].
  rewrite (drop_S _ _ _ E). cbn [take fold_left]. unfold nthz in *.
  by rewrite (nth_lookup_Some _ _ _ _ E) in *.
Qed.

Lemma store_result i acc b h sp z m :
  0 <= i < 1024 -> i < Z.of_nat (length words) -> words.[i] = UD_R_STR_RESULT ->
  step tr image (micro_at i acc b h sp z m) =
    Next (micro_at (i + 1) acc b h sp z (st64 m ((c_args_pa c).[d] + 16) acc)).
Proof.
  intros Hi Hl Hw. rewrite (step_word _ i UD_R_STR_RESULT (STR true 2 0 16)) by done.
  exec_simpl. unfold tr. rewrite translate_args by (unfold UD_PAGE; lia || auto || done).
  by replace (UD_VA + 4 * i + 4) with (UD_VA + 4 * (i + 1)) by lia.
Qed.

Lemma brk_step st i w imm :
  pc st = UD_VA + 4 * i -> 0 <= i < 1024 -> words.[i] = w -> i < Z.of_nat (length words) ->
  decode w = Some (BRK imm) -> step tr image st = Stop (SBrk imm) st.
Proof. intros. by rewrite (step_word st i w (BRK imm)). Qed.

(** From the first word of the body to the return. *)
Lemma body_runs body acc b h sp z m k :
  0 <= body -> count <= UD_REMOTE_MAX_WORDS -> count <= Z.of_nat (length words) ->
  in_u64 b -> in_u64 h -> remote_body_valid d words count body = true ->
  run tr image (Z.to_nat (count - body) + k) (micro_at body acc b h sp z m) =
    let r := micro_result words body count acc b h in
    Some (SBrk 0x4c0, micro_at (count - 1) r b h sp z (st64 m ((c_args_pa c).[d] + 16) r)).
Proof.
  intros Hbody Hc Hl Hb Hh Hv. unfold remote_body_valid, UD_REMOTE_MAX_WORDS in *.
  case_if_in Hv; [done|]. bprop. rewrite for_range_spec in Hv.
  replace (Z.to_nat (count - body) + k)%nat with ((Z.to_nat (count - 2 - body) + 1) + S k)%nat by lia.
  apply steps_run with (micro_at (count - 1) (micro_result words body count acc b h) b h sp z
    (st64 m ((c_args_pa c).[d] + 16) (micro_result words body count acc b h))).
  - eapply steps_app; [apply body_steps; try done; try lia; intros; apply Hv; lia|].
    eexists. split; [|cbn; reflexivity].
    replace (body + Z.of_nat (Z.to_nat (count - 2 - body))) with (count - 2) by lia.
    replace (count - 1) with (count - 2 + 1) by lia. apply store_result; [lia..|done].
  - apply (brk_step _ (count - 1) UD_R_BRK_RETURN); try done; try lia.
    by replace (count - 1) with (count - 2 + 1) by lia.
Qed.

Lemma load_args i ins rt off st st' :
  pc st = UD_VA + 4 * i -> 0 <= i < 1024 -> i < Z.of_nat (length words) ->
  decode words.[i] = Some ins -> ins = LDR true rt 0 off -> bget st 0 = UD_ARGS ->
  off = 0 \/ off = 8 ->
  st' = pcset (UD_VA + 4 * (i + 1)) (xset rt (ld64 (pm st) ((c_args_pa c).[d] + off)) st) ->
  step tr image st = Next st'.
Proof.
  intros Hpc Hi Hl Hd -> Hx Hoff ->. rewrite (step_word st i words.[i] (LDR true rt 0 off)) by done.
  cbn [exec]. unfold load. rewrite Hx. unfold tr.
  rewrite translate_args by (destruct Hoff; subst; unfold UD_PAGE; lia || auto || done).
  unfold next. f_equal. replace (UD_VA + 4 * (i + 1)) with (pc st + 4) by lia.
  unfold xset. by case_if.
Qed.

Lemma load_heap_word i st st' :
  pc st = UD_VA + 4 * i -> 0 <= i < 1024 -> i < Z.of_nat (length words) ->
  words.[i] = UD_R_LDR_HEAP -> bget st 1 = UD_DATA ->
  st' = pcset (UD_VA + 4 * (i + 1)) (xset 4 (ld64 (pm st) (c_heap_pa c)) st) ->
  step tr image st = Next st'.
Proof.
  intros Hpc Hi Hl Hd Hx ->. rewrite (step_word st i UD_R_LDR_HEAP (LDR true 4 1 0)) by done.
  cbn [exec]. unfold load. rewrite Hx. unfold tr.
  rewrite translate_heap by (unfold UD_PAGE; lia || auto || done). rewrite Z.add_0_r.
  unfold next. f_equal. replace (UD_VA + 4 * (i + 1)) with (pc st + 4) by lia. done.
Qed.

Lemma nop_step i acc b h sp z m :
  0 <= i < 1024 -> i < Z.of_nat (length words) -> words.[i] = UD_R_NOP ->
  step tr image (micro_at i acc b h sp z m) = Next (micro_at (i + 1) acc b h sp z m).
Proof.
  intros Hi Hl Hw. rewrite (step_word _ i UD_R_NOP NOP) by done. exec_simpl.
  by replace (UD_VA + 4 * i + 4) with (UD_VA + 4 * (i + 1)) by lia.
Qed.

(** The side conditions of a step lemma. *)
Ltac word_side :=
  first [ done | lia | by left | by right
        | match goal with H : nthz 0 ?l ?i = _ |- decode (nthz 0 ?l ?i) = _ => rewrite H; reflexivity end ].

(** The checks of the verifier for the domain [Hd] names. *)
Ltac image_cases Hd Hv :=
  unfold ud_remote_image_valid in Hv; branches Hv; bprop;
  unfold UD_DIRECT, UD_MIDDLE, UD_LEAF, UD_QUERY, UD_DOMAINS in *; try (exfalso; lia).

Context (m : mem) (Hm : bytes_ok m) (Hlen : count <= Z.of_nat (length words)).
Let args := (c_args_pa c).[d].
Let a := ld64 m args.
Let top := UD_STACK + UD_PAGE.

Lemma word_u64 q : in_u64 (ld64 m q).
Proof. apply (ld_range 8 m q Hm). Qed.

Lemma load_a z b h sp : 1 <= count -> words.[0] = UD_R_LDR_A ->
  step tr image (micro_at 0 0 b h sp z m) = Next (micro_at 1 a b h sp z m).
Proof.
  intros Hc Hw. apply (load_args 0 (LDR true 2 0 0) 2 0);
    [done|lia|lia|by rewrite Hw|done|done|by left|].
  unfold a, args. by rewrite Z.add_0_r.
Qed.

Lemma direct_runs k :
  d = UD_DIRECT -> ud_remote_image_valid d words count = true ->
  let b := ld64 m (args + 8) in let h := ld64 m (c_heap_pa c) in
  let r := micro_result words 3 count a b h in
  run tr image (Z.to_nat count + k) (entry_cpu micro_initial m) =
    Some (SBrk 0x4c0, micro_at (count - 1) r b h top false (st64 m (args + 16) r)).
Proof.
  intros Hd Hv b h. image_cases Hd Hv.
  replace (Z.to_nat count + k)%nat with (3 + (Z.to_nat (count - 3) + k))%nat by lia.
  change (entry_cpu micro_initial m) with (micro_at 0 0 0 0 top false m).
  cbn [run Nat.add]. rewrite load_a by (done || lia).
  rewrite (load_args 1 (LDR true 3 0 8) 3 8 _ (micro_at 2 a b 0 top false m)) by word_side.
  rewrite (load_heap_word 2 _ (micro_at 3 a b h top false m)) by (done || lia).
  apply body_runs; try done; try lia; apply word_u64.
Qed.

Lemma leaf_runs k :
  d = UD_LEAF -> ud_remote_image_valid d words count = true ->
  let r := micro_result words 1 count a 0 0 in
  run tr image (Z.to_nat count + k) (entry_cpu micro_initial m) =
    Some (SBrk 0x4c0, micro_at (count - 1) r 0 0 top false (st64 m (args + 16) r)).
Proof.
  intros Hd Hv. image_cases Hd Hv.
  replace (Z.to_nat count + k)%nat with (1 + (Z.to_nat (count - 1) + k))%nat by lia.
  change (entry_cpu micro_initial m) with (micro_at 0 0 0 0 top false m).
  cbn [run Nat.add]. rewrite load_a by (done || lia). apply body_runs; done || lia.
Qed.

Lemma middle_call_runs k :
  d = UD_MIDDLE -> ud_remote_image_valid d words count = true ->
  run tr image (4 + k) (entry_cpu micro_initial m) = Some (SBrk 0x4c1, micro_at 3 a 0 0 top false m).
Proof.
  intros Hd Hv. image_cases Hd Hv.
  change (entry_cpu micro_initial m) with (micro_at 0 0 0 0 top false m).
  cbn [run Nat.add]. rewrite load_a, !nop_step by (done || lia).
  by rewrite (brk_step _ 3 UD_R_BRK_NESTED 0x4c1) by (done || lia).
Qed.

Lemma middle_return_runs k v m' :
  d = UD_MIDDLE -> ud_remote_image_valid d words count = true ->
  let r := micro_result words 4 count v 0 0 in
  run tr image (Z.to_nat (count - 4) + k) (micro_at 4 v 0 0 top false m') =
    Some (SBrk 0x4c0, micro_at (count - 1) r 0 0 top false (st64 m' (args + 16) r)).
Proof.
  intros Hd Hv. image_cases Hd Hv.
  apply body_runs; done || lia.
Qed.

Lemma query_runs k :
  d = UD_QUERY -> ud_remote_image_valid d words count = true ->
  run tr image (S k) (entry_cpu micro_initial m) = Some (SBrk 0x4c0, entry_cpu micro_initial m).
Proof.
  intros Hd Hv. image_cases Hd Hv.
  cbn [run]. by rewrite (brk_step _ 0 UD_R_BRK_RETURN 0x4c0) by (done || lia).
Qed.
End micro.

(** C2. An image the micro verifier accepts, entered by the kernel in its own
    domain, comes back after exactly its number of instructions, by the [brk] the
    kernel expects and at the address it expects.  The direct and leaf images
    change only the result field of their A-stack page, to the value of their
    arithmetic on a, b and heap[0]; the middle image suspends without a store,
    with its argument in x2, and when resumed past the trap with the leaf's
    result completes in the same way; the query image does nothing. *)
Theorem verified_micro_code_is_confined c d words count m :
  bytes_ok m -> count <= Z.of_nat (length words) -> ud_remote_image_valid d words count = true ->
  let args := (c_args_pa c).[d] in
  let a := ld64 m args in let b := ld64 m (args + 8) in let h := ld64 m (c_heap_pa c) in
  let top := UD_STACK + UD_PAGE in
  let go := run (xlat_of c d) (decode <$> words) in
  (d = UD_DIRECT -> forall k,
     go (Z.to_nat count + k)%nat (entry_cpu micro_initial m) =
       let r := micro_result words 3 count a b h in
       Some (SBrk 0x4c0, micro_at (count - 1) r b h top false (st64 m (args + 16) r))) /\
  (d = UD_MIDDLE -> forall k,
     go (4 + k)%nat (entry_cpu micro_initial m) = Some (SBrk 0x4c1, micro_at 3 a 0 0 top false m) /\
     forall v m', go (Z.to_nat (count - 4) + k)%nat (micro_at 4 v 0 0 top false m') =
       let r := micro_result words 4 count v 0 0 in
       Some (SBrk 0x4c0, micro_at (count - 1) r 0 0 top false (st64 m' (args + 16) r))) /\
  (d = UD_LEAF -> forall k,
     go (Z.to_nat count + k)%nat (entry_cpu micro_initial m) =
       let r := micro_result words 1 count a 0 0 in
       Some (SBrk 0x4c0, micro_at (count - 1) r 0 0 top false (st64 m (args + 16) r))) /\
  (d = UD_QUERY -> forall k,
     go (S k) (entry_cpu micro_initial m) = Some (SBrk 0x4c0, entry_cpu micro_initial m)).
Proof.
  intros Hm Hl Hv. cbn zeta. split_and!; intros Hd k.
  - by apply direct_runs.
  - split; [by apply (middle_call_runs c d words count m Hl)|].
    intros v m'. by apply middle_return_runs.
  - by apply (leaf_runs c d words count m Hl).
  - by apply (query_runs c d words count m Hl).
Qed.

(** ** The results the producer prints *)

Lemma add_imm_bits v : 0 <= v <= 4095 -> bits (ud_r_add_imm v) 10 12 = v.
Proof.
  intros Hv. unfold ud_r_add_imm, bits.
  rewrite u32_id by (rewrite Z.shiftl_mul_pow2 by lia; unfold in_u32; lia).
  rewrite Z.shiftr_lor, Z.shiftr_shiftl_l by lia. rewrite Z.shiftl_0_r, Z.land_lor_distr_l.
  change (0x91000042 .>> 10 .& Z.ones 12) with 0. rewrite Z.lor_0_l, Z.land_ones by lia.
  apply Z.mod_small. lia.
Qed.

Lemma alu_add_imm b h acc v : 0 <= v <= 4095 -> alu b h acc (ud_r_add_imm v) = u64 (acc + v).
Proof. intros Hv. unfold alu. by rewrite ud_r_add_imm_mask, Z.eqb_refl, add_imm_bits. Qed.

Lemma gen_direct_result o a b h :
  gen_options_ok o ->
  micro_result (b_img (gen_bundle o) UD_DIRECT) 3 8 a b h = u64 (u64 (u64 (a + b) + h) + g_direct_bias o).
Proof.
  intros (H & _). unfold micro_result.
  change (micro_body (b_img (gen_bundle o) UD_DIRECT) 3 8) with
    [UD_R_ADD_B; UD_R_ADD_HEAP; ud_r_add_imm (g_direct_bias o)].
  cbn [fold_left]. rewrite alu_add_imm by done. done.
Qed.

Lemma gen_middle_result o v :
  gen_options_ok o ->
  micro_result (b_img (gen_bundle o) UD_MIDDLE) 4 7 v 0 0 = u64 (v + g_middle_add o).
Proof.
  intros (_ & H & _). unfold micro_result.
  change (micro_body (b_img (gen_bundle o) UD_MIDDLE) 4 7) with [ud_r_add_imm (g_middle_add o)].
  cbn [fold_left]. by rewrite alu_add_imm.
Qed.

Lemma gen_leaf_result o v :
  gen_options_ok o ->
  micro_result (b_img (gen_bundle o) UD_LEAF) 1 4 v 0 0 = u64 (v + g_leaf_add o).
Proof.
  intros (_ & _ & H). unfold micro_result.
  change (micro_body (b_img (gen_bundle o) UD_LEAF) 1 4) with [ud_r_add_imm (g_leaf_add o)].
  cbn [fold_left]. by rewrite alu_add_imm.
Qed.

(** C36. The results remote_code_gen announces are the ones its images compute:
    direct on arguments that sum to 42 and the owner's heap value 100, nested
    (middle over leaf) on the argument 41. *)
Theorem printed_results_are_computed argv bundle direct nested a b :
  remote_code_gen_main argv true true = (0, Some (bundle, direct, nested)) -> a + b = 42 ->
  micro_result (b_img bundle UD_DIRECT) 3 (r_words (b_manifest bundle)).[UD_DIRECT] a b 100 = direct /\
  micro_result (b_img bundle UD_MIDDLE) 4 (r_words (b_manifest bundle)).[UD_MIDDLE]
    (micro_result (b_img bundle UD_LEAF) 1 (r_words (b_manifest bundle)).[UD_LEAF] 41 0 0) 0 0 = nested.
Proof.
  unfold remote_code_gen_main. destruct argv as [|? [|? args]]; try done.
  destruct (gen_parse args _) as [o|] eqn:E; [|done].
  apply gen_parse_ok in E; [|unfold gen_options_ok; cbn; lia].
  destruct (ud_remote_bundle_valid (gen_bundle o)); [|done]. cbn [negb]. intros [= <- <- <-] Hab.
  change (r_words (b_manifest (gen_bundle o))) with [8; 7; 4; 1].
  change ([8; 7; 4; 1].[UD_DIRECT]) with 8. change ([8; 7; 4; 1].[UD_MIDDLE]) with 7.
  change ([8; 7; 4; 1].[UD_LEAF]) with 4.
  rewrite gen_direct_result, gen_middle_result, gen_leaf_result, Hab by done.
  destruct E as (? & ? & ?). unfold u64.
  rewrite (Z.mod_small 42), (Z.mod_small (42 + 100)), (Z.mod_small (41 + g_leaf_add o)), !Z.mod_small by lia. lia.
Qed.

Definition demo_args : list string := ["gen"; "out.bin"; "--direct-bias"; "7"]%string.
Lemma printed_results_are_computed_witness :
  exists bundle, remote_code_gen_main demo_args true true = (0, Some (bundle, 149, 43)) /\
    micro_result (b_img bundle UD_DIRECT) 3 (r_words (b_manifest bundle)).[UD_DIRECT] 40 2 100 = 149.
Proof.
  exists (gen_bundle (mk_gen 7 1 1)). assert (H : remote_code_gen_main demo_args true true =
    (0, Some (gen_bundle (mk_gen 7 1 1), 149, 43))) by (vm_compute; reflexivity).
  split; [exact H|]. apply (printed_results_are_computed demo_args _ 149 43 40 2 H). reflexivity.
Defined.

Definition blank : mem := fun _ => 0.
Lemma blank_ok : bytes_ok blank.
Proof. intros a. unfold blank. lia. Qed.

Definition demo_leaf : list Z := gen_leaf (mk_gen 0 1 5).

Lemma verified_micro_code_is_confined_witness :
  run (xlat_of demo_contract UD_LEAF) (decode <$> demo_leaf) 4 (entry_cpu micro_initial blank) =
    Some (SBrk 0x4c0, micro_at 3 5 0 0 (UD_STACK + UD_PAGE) false (st64 blank 0x322010 5)).
Proof.
  destruct (verified_micro_code_is_confined demo_contract UD_LEAF demo_leaf 4 blank blank_ok
    ltac:(vm_compute; discriminate) ltac:(vm_compute; reflexivity)) as (_ & _ & H & _).
  exact (H eq_refl O).
Defined.
