(* ===== verification/SocialSound.v ===== *)
(** * What accepted routing code does

    The social verifier's images, run by [Arm64] on a heap page that passed
    [us_heap_valid_count]: each writes the action and target fields of the
    message and nothing else. *)

From S2P Require Import Prelude CMem Abi Layout PageWalk Arm64 RemoteCode Social RemoteSound.

(** The kernel adds the message offset to x0 and the configuration offset to x1. *)
Definition social_initial (d : Z) : ud_initial :=
  mk_initial (UD_ARGS + US_MAPPED_OFFSET) (UD_DATA + us_config_offset d) (UD_STACK + UD_PAGE) UD_VA.

(** The machine at word [i], with x2 .. x5. *)
Definition social_at (d i r2 r3 r4 r5 : Z) (m : mem) : cpu :=
  mk_cpu (UD_ARGS + US_MAPPED_OFFSET :: UD_DATA + us_config_offset d :: r2 :: r3 :: r4 :: r5 :: replicate 25 0)
    (UD_STACK + UD_PAGE) (UD_VA + 4 * i) false m.

Ltac social_simpl :=
  cbv [exec load store next pcset pmset zset xget bget xset bset x sp pc flag_z pm social_at
       nthz setz insert list_insert nth replicate Z.to_nat Pos.to_nat Pos.iter_op Nat.add Z.eqb Pos.eqb].

(** The fields a routing decision writes, in the message at offset 128. *)
Definition routed (m : mem) (args target action : Z) : mem :=
  st32 (st32 m (args + (US_MAPPED_OFFSET + 72)) target) (args + (US_MAPPED_OFFSET + 68)) action.

Section social.
Context (c : ud_contract) (d : Z) (image : list (option instr)).
Let tr := xlat_of c d.
Let args := (c_args_pa c).[d].

Lemma config_offset_range : 0 <= us_config_offset d <= 60 /\ us_config_offset d mod 4 = 0.
Proof. rewrite us_config_offset_index. unfold us_config_index. case_if; done. Qed.

Lemma translate_message off len (write : bool) :
  0 <= off <= 72 -> len = 8 \/ len = 4 -> off mod len = 0 ->
  translate tr (u64 (UD_ARGS + US_MAPPED_OFFSET + off)) len write = inl (args + (US_MAPPED_OFFSET + off)).
Proof.
  intros Hr Hl Ho. unfold US_MAPPED_OFFSET. rewrite <- Z.add_assoc. unfold tr.
  apply translate_args; [unfold UD_PAGE; lia|done|].
  destruct Hl as [->| ->]; [change 128 with (16 * 8)|change 128 with (32 * 4)]; by rewrite Z.add_comm, Z.mod_add.
Qed.

Lemma translate_config off :
  0 <= off <= 1024 -> off mod 4 = 0 ->
  translate tr (u64 (UD_DATA + us_config_offset d + off)) 4 false = inl (c_heap_pa c + (us_config_offset d + off)).
Proof.
  intros Hr Ho. destruct config_offset_range as [H1 H2]. rewrite <- Z.add_assoc. unfold tr.
  apply translate_heap; [unfold UD_PAGE; lia|by right|]. by rewrite Z.add_mod, H2, Ho by lia.
Qed.

Lemma social_step r2 r3 r4 r5 m i ins :
  0 <= i < 1024 -> image !! Z.to_nat i = Some (Some ins) ->
  step tr image (social_at d i r2 r3 r4 r5 m) = exec tr ins (social_at d i r2 r3 r4 r5 m).
Proof. intros. by apply step_at with i. Qed.

(** Padding. *)
Lemma nops_step n i r2 r3 r4 r5 m :
  0 <= i -> i + Z.of_nat n <= 1024 ->
  (forall j, i <= j < i + Z.of_nat n -> image !! Z.to_nat j = Some (Some NOP)) ->
  steps tr image n (social_at d i r2 r3 r4 r5 m) (social_at d (i + Z.of_nat n) r2 r3 r4 r5 m).
Proof.
  revert i. induction n as [|n IH]; intros i Hi Hn Hw; [cbn; by rewrite Z.add_0_r|].
  exists (social_at d (i + 1) r2 r3 r4 r5 m). split.
  - rewrite (social_step _ _ _ _ _ i NOP) by (lia || apply Hw; lia). social_simpl.
    by replace (UD_VA + 4 * i + 4) with (UD_VA + 4 * (i + 1)) by lia.
  - replace (i + Z.of_nat (S n)) with (i + 1 + Z.of_nat n) by lia. apply IH; [lia..|]. intros; apply Hw; lia.
Qed.

(** Padding up to the final [brk]. *)
Lemma social_return count i r2 r3 r4 r5 m k :
  0 <= i < count -> count <= 1024 ->
  (forall j, i <= j < count - 1 -> image !! Z.to_nat j = Some (Some NOP)) ->
  image !! Z.to_nat (count - 1) = Some (Some (BRK 0x4c0)) ->
  run tr image (Z.to_nat (count - i) + k) (social_at d i r2 r3 r4 r5 m) =
    Some (SBrk 0x4c0, social_at d (count - 1) r2 r3 r4 r5 m).
Proof.
  intros Hi Hc Hn Hb. replace (Z.to_nat (count - i) + k)%nat with (Z.to_nat (count - 1 - i) + S k)%nat by lia.
  eapply steps_run; [apply nops_step; [lia..|intros; apply Hn; lia]|].
  replace (i + Z.of_nat (Z.to_nat (count - 1 - i))) with (count - 1) by lia.
  by rewrite (social_step _ _ _ _ _ (count - 1) (BRK 0x4c0)) by (done || lia).
Qed.

(** The four words every routing image but the three-way one starts with. *)
Lemma store_route i r2 r3 r4 r5 m a :
  0 <= i < 1000 ->
  image !! Z.to_nat i = Some (Some (STR false 2 0 72)) ->
  image !! Z.to_nat (i + 1) = Some (Some (MOVZ false 2 a 0)) ->
  image !! Z.to_nat (i + 2) = Some (Some (STR false 2 0 68)) ->
  steps tr image 3 (social_at d i r2 r3 r4 r5 m) (social_at d (i + 3) a r3 r4 r5 (routed m args r2 a)).
Proof.
  intros Hi H1 H2 H3.
  exists (social_at d (i + 1) r2 r3 r4 r5 (st32 m (args + (US_MAPPED_OFFSET + 72)) r2)). split.
  { rewrite (social_step _ _ _ _ _ i (STR false 2 0 72)) by (done || lia). social_simpl.
    rewrite translate_message by (done || lia || auto).
    by replace (UD_VA + 4 * i + 4) with (UD_VA + 4 * (i + 1)) by lia. }
  exists (social_at d (i + 2) a r3 r4 r5 (st32 m (args + (US_MAPPED_OFFSET + 72)) r2)). split.
  { rewrite (social_step _ _ _ _ _ (i + 1) (MOVZ false 2 a 0)) by (done || lia). social_simpl.
    rewrite Z.shiftl_0_r. by replace (UD_VA + 4 * (i + 1) + 4) with (UD_VA + 4 * (i + 2)) by lia. }
  eexists. split; [|reflexivity].
  rewrite (social_step _ _ _ _ _ (i + 2) (STR false 2 0 68)) by (done || lia). social_simpl.
  rewrite translate_message by (done || lia || auto).
  by replace (UD_VA + 4 * (i + 2) + 4) with (UD_VA + 4 * (i + 3)) by lia.
Qed.

Lemma load_config_step i j r2 r3 r4 r5 m n :
  0 <= i < 1000 -> 0 <= j < 13 -> us_heap_valid_count (ld_struct us_heap m (c_heap_pa c)) n = true ->
  image !! Z.to_nat i = Some (Some (LDR false 2 1 (4 * j))) ->
  step tr image (social_at d i r2 r3 r4 r5 m) =
    Next (social_at d (i + 1) (us_config_fields (us_config_init (us_config_index d) n)).[j] r3 r4 r5 m).
Proof.
  intros Hi Hj Hv H. rewrite (social_step _ _ _ _ _ i (LDR false 2 1 (4 * j))) by (done || lia). social_simpl.
  rewrite translate_config by (lia || rewrite Z.mul_comm; apply Z_mod_mult).
  rewrite Z.add_assoc, (us_valid_word m (c_heap_pa c) n d j Hv Hj).
  by replace (UD_VA + 4 * i + 4) with (UD_VA + 4 * (i + 1)) by lia.
Qed.

(** The three-way load balancer: [(key % slots) % count] indexes the targets. *)
Definition lb3_instrs : list instr :=
  [LDR false 2 1 8; LDR false 3 1 12; LDR true 4 0 8; UDIV 5 4 2; MSUB 4 5 2 4; UDIV 5 4 3;
   MSUB 4 5 3 4; ADD_IMM 5 1 16; LDR_W_IDX 4 5 4; STR false 4 0 72; MOVZ false 4 2 0; STR false 4 0 68].

Ltac lb_step i ins :=
  rewrite (social_step _ _ _ _ _ i ins) by (lia || assumption); social_simpl;
  rewrite ?translate_config, ?translate_message by (done || lia || auto).

Lemma msub_mod a n : in_u64 a -> 0 < n -> u64 (a - a / n * n) = a mod n.
Proof.
  intros Ha Hn. replace (a - a / n * n) with (a mod n) by (rewrite Z.mod_eq; lia).
  pose proof (Z.mod_pos_bound a n Hn). pose proof (Z.mod_le a n ltac:(destruct Ha; lia) Hn).
  apply u64_id. unfold in_u64 in *. lia.
Qed.

Lemma lb3_word i ins :
  image = (Some <$> lb3_instrs) ++ drop 12 image -> lb3_instrs !! Z.to_nat i = Some ins -> image !! Z.to_nat i = Some (Some ins).
Proof. intros Him Hi. rewrite Him. apply lookup_app_l_Some. by rewrite list_lookup_fmap, Hi. Qed.

(** The configuration word at an offset, in a heap page that was checked. *)
Lemma config_word m n off j :
  us_heap_valid_count (ld_struct us_heap m (c_heap_pa c)) n = true -> off = 4 * j -> 0 <= j < 13 ->
  ld32 m (c_heap_pa c + (us_config_offset d + off)) = (us_config_fields (us_config_init (us_config_index d) n)).[j].
Proof. intros Hv -> Hj. rewrite Z.add_assoc. by apply us_valid_word. Qed.

Lemma valid_count_cases h n : us_heap_valid_count h n = true -> n = 1 \/ n = 3.
Proof. unfold us_heap_valid_count. case_if; [done|]. bprop. destruct_or!; bprop; auto. Qed.

(** The first seven words leave the index of the target in x4. *)
Lemma lb3_select m key n :
  image = (Some <$> lb3_instrs) ++ drop 12 image ->
  us_heap_valid_count (ld_struct us_heap m (c_heap_pa c)) n = true ->
  ld64 m (args + (US_MAPPED_OFFSET + 8)) = key -> in_u64 key ->
  steps tr image 7 (social_at d 0 0 0 0 0 m)
    (social_at d 7 US_SLOTS n ((key mod US_SLOTS) mod n) (key mod US_SLOTS / n) m).
Proof.
  intros Him Hv Hkey Hk. pose proof config_offset_range as [Ho _]. pose proof (valid_count_cases _ _ Hv) as Hn.
  assert (Hks : in_u64 (key mod US_SLOTS)) by (unfold in_u64, US_SLOTS; pose proof (Z.mod_pos_bound key 15360); lia).
  pose proof (fun i ins => lb3_word i ins Him) as Hget.
  pose proof (Hget 0 _ eq_refl). pose proof (Hget 1 _ eq_refl). pose proof (Hget 2 _ eq_refl).
  pose proof (Hget 3 _ eq_refl). pose proof (Hget 4 _ eq_refl). pose proof (Hget 5 _ eq_refl).
  pose proof (Hget 6 _ eq_refl). clear Hget.
  exists (social_at d 1 US_SLOTS 0 0 0 m). split.
  { lb_step 0 (LDR false 2 1 8). by rewrite (config_word m n 8 2) by (done || lia). }
  exists (social_at d 2 US_SLOTS n 0 0 m). split.
  { lb_step 1 (LDR false 3 1 12). by rewrite (config_word m n 12 3) by (done || lia). }
  exists (social_at d 3 US_SLOTS n key 0 m). split.
  { lb_step 2 (LDR true 4 0 8). by rewrite Hkey. }
  exists (social_at d 4 US_SLOTS n key (key / US_SLOTS) m). split.
  { by lb_step 3 (UDIV 5 4 2). }
  exists (social_at d 5 US_SLOTS n (key mod US_SLOTS) (key / US_SLOTS) m). split.
  { lb_step 4 (MSUB 4 5 2 4). by rewrite msub_mod by (done || unfold US_SLOTS; lia). }
  exists (social_at d 6 US_SLOTS n (key mod US_SLOTS) (key mod US_SLOTS / n) m). split.
  { by lb_step 5 (UDIV 5 4 3). }
  eexists. split; [|reflexivity]. lb_step 6 (MSUB 4 5 3 4). by rewrite msub_mod by (done || lia).
Qed.

(** The other five load the target with that index and store the decision. *)
Lemma lb3_store m n j q :
  image = (Some <$> lb3_instrs) ++ drop 12 image ->
  us_heap_valid_count (ld_struct us_heap m (c_heap_pa c)) n = true -> 0 <= j < 4 ->
  steps tr image 5 (social_at d 7 US_SLOTS n j q m)
    (social_at d 12 US_SLOTS n 2 (UD_DATA + us_config_offset d + 16)
       (routed m args (us_config_fields (us_config_init (us_config_index d) n)).[4 + j] 2)).
Proof.
  intros Him Hv Hj. pose proof config_offset_range as [Ho _]. set (C := UD_DATA + us_config_offset d).
  pose proof (fun i ins => lb3_word i ins Him) as Hget.
  pose proof (Hget 7 _ eq_refl). pose proof (Hget 8 _ eq_refl). pose proof (Hget 9 _ eq_refl).
  pose proof (Hget 10 _ eq_refl). pose proof (Hget 11 _ eq_refl). clear Hget.
  exists (social_at d 8 US_SLOTS n j (C + 16) m). split.
  { lb_step 7 (ADD_IMM 5 1 16). rewrite u64_id by (unfold in_u64, UD_DATA, UD_VA; lia). done. }
  set (t := (us_config_fields (us_config_init (us_config_index d) n)).[4 + j]).
  exists (social_at d 9 US_SLOTS n t (C + 16) m). split.
  { lb_step 8 (LDR_W_IDX 4 5 4). rewrite (u64_id (j .<< 2)).
    2: { rewrite Z.shiftl_mul_pow2 by lia. unfold in_u64. lia. }
    rewrite Z.shiftl_mul_pow2 by lia. unfold C. rewrite <- Z.add_assoc.
    rewrite translate_config by (lia || (replace (16 + j * 2 ^ 2) with ((4 + j) * 4) by lia; apply Z_mod_mult)).
    by rewrite (config_word m n (16 + j * 2 ^ 2) (4 + j)) by (done || lia). }
  exists (social_at d 10 US_SLOTS n t (C + 16) (st32 m (args + (US_MAPPED_OFFSET + 72)) t)). split.
  { by lb_step 9 (STR false 4 0 72). }
  exists (social_at d 11 US_SLOTS n 2 (C + 16) (st32 m (args + (US_MAPPED_OFFSET + 72)) t)). split.
  { by lb_step 10 (MOVZ false 4 2 0). }
  eexists. split; [|reflexivity]. by lb_step 11 (STR false 4 0 68).
Qed.

Lemma lb3_steps m key n :
  image = (Some <$> lb3_instrs) ++ drop 12 image ->
  us_heap_valid_count (ld_struct us_heap m (c_heap_pa c)) n = true ->
  ld64 m (args + (US_MAPPED_OFFSET + 8)) = key -> in_u64 key ->
  steps tr image 12 (social_at d 0 0 0 0 0 m)
    (social_at d 12 US_SLOTS n 2 (UD_DATA + us_config_offset d + 16)
       (routed m args (us_config_fields (us_config_init (us_config_index d) n)).[4 + (key mod US_SLOTS) mod n] 2)).
Proof.
  intros Him Hv Hkey Hk. apply (steps_app _ _ 7 5 _ _ _ (lb3_select m key n Him Hv Hkey Hk)). apply lb3_store; [done|done|].
  destruct (valid_count_cases _ _ Hv) as [-> | ->]; [pose proof (Z.mod_pos_bound (key mod US_SLOTS) 1)|pose proof (Z.mod_pos_bound (key mod US_SLOTS) 3)]; lia.
Qed.
End social.

Lemma image_word words i w ins :
  0 <= i < Z.of_nat (length words) -> words.[i] = w -> decode w = Some ins ->
  (decode <$> words) !! Z.to_nat i = Some (Some ins).
Proof.
  intros Hi Hw Hd. rewrite list_lookup_fmap.
  destruct (words !! Z.to_nat i) as [w'|] eqn:E; [|apply lookup_ge_None in E; lia].
  unfold nthz in Hw. rewrite (nth_lookup_Some _ _ _ _ E) in Hw. subst. cbn. by rewrite Hd.
Qed.

(** The decision of the routing entry [d] for a configuration of [n] nginx. *)
Definition route (d n key : Z) (home : bool) : Z * Z :=
  if d =? UD_DIRECT then (US_NGINX_FIRST + (key mod US_SLOTS) mod n, US_ACTION_DOMAIN)
  else if d =? UD_MIDDLE then (if home then 103 else 102, US_ACTION_RPC)
  else if d =? UD_LEAF then (1, US_ACTION_DOMAIN)
  else (0, US_ACTION_CLIENT).

Section accepted.
Context (c : ud_contract) (d n : Z) (words : list Z) (count : Z) (m : mem).
Context (Hm : bytes_ok m) (Hd : 0 <= d < UD_DOMAINS) (Hlen : count <= Z.of_nat (length words)).
Context (Hheap : us_heap_valid_count (ld_struct us_heap m (c_heap_pa c)) n = true).
Context (Hcount : 5 <= count <= UD_REMOTE_MAX_WORDS) (Hret : words.[count - 1] = UD_RS_RETURN).
Let args := (c_args_pa c).[d].
Let key := ld64 m (args + (US_MAPPED_OFFSET + 8)).
Let home := words.[0] =? UD_RS_LDR_HOME.

Lemma entry_social_at : entry_cpu (social_initial d) m = social_at d 0 0 0 0 0 m.
Proof. reflexivity. Qed.

Lemma padded_return from r2 r3 r4 r5 m' k :
  0 <= from < count -> social_nops words from count = true ->
  run (xlat_of c d) (decode <$> words) (Z.to_nat (count - from) + k) (social_at d from r2 r3 r4 r5 m') =
    Some (SBrk 0x4c0, social_at d (count - 1) r2 r3 r4 r5 m').
Proof.
  intros Hf Hn. unfold UD_REMOTE_MAX_WORDS in *. apply social_return; [done|lia| |].
  - intros j Hj. unfold social_nops in Hn. rewrite for_range_spec in Hn. specialize (Hn j Hj). bprop.
    apply (image_word words j UD_RS_NOP); [lia|done|reflexivity].
  - apply (image_word words _ UD_RS_RETURN); [lia|done|reflexivity].
Qed.

(** The first word of a four-word image leaves the target in w2. *)
Lemma first_word first action :
  social_route d words = Some (first, action) -> words.[0] = first ->
  (d = UD_DIRECT -> n = 1) ->
  step (xlat_of c d) (decode <$> words) (social_at d 0 0 0 0 0 m) =
    Next (social_at d 1 (route d n key home).1 0 0 0 m).
Proof.
  unfold social_route, route, UD_DOMAINS, UD_DIRECT, UD_MIDDLE, UD_LEAF, UD_REMOTE_MAX_WORDS in *. intros Hs H0 Hn1.
  assert (Hcase : d = 0 \/ d = 1 \/ d = 2 \/ d = 3) by lia.
  destruct Hcase as [E|[E|[E|E]]]; rewrite E in Hs; cbn [Z.eqb Pos.eqb] in Hs.
  - injection Hs as <- <-. rewrite (load_config_step c d _ 0 4 _ _ _ _ _ n) by
      (lia || done || (apply (image_word words 0 UD_RS_LDR_NGINX); [lia|done|reflexivity])).
    rewrite E, Hn1 by done. rewrite Z.mod_1_r. reflexivity.
  - unfold home. destruct (words.[0] =? UD_RS_LDR_USER) eqn:Eu; bprop.
    + rewrite (load_config_step c d _ 0 9 _ _ _ _ _ n) by
        (lia || done || (apply (image_word words 0 UD_RS_LDR_USER); [lia|done|reflexivity])). rewrite E, Eu. reflexivity.
    + destruct (words.[0] =? UD_RS_LDR_HOME) eqn:Eh; [|done]. bprop.
      rewrite (load_config_step c d _ 0 10 _ _ _ _ _ n) by
        (lia || done || (apply (image_word words 0 UD_RS_LDR_HOME); [lia|done|reflexivity])). rewrite E. reflexivity.
  - injection Hs as <- <-. rewrite (load_config_step c d _ 0 11 _ _ _ _ _ n) by
      (lia || done || (apply (image_word words 0 UD_RS_LDR_RETURN); [lia|done|reflexivity])). rewrite E. reflexivity.
  - injection Hs as <- <-. rewrite (social_step c d _ _ _ _ _ _ 0 (MOVZ false 2 0 0)) by
      (lia || (apply (image_word words 0 UD_RS_MOV_0); [lia|done|reflexivity])). rewrite E. reflexivity.
Qed.

Lemma action_word first action :
  social_route d words = Some (first, action) ->
  decode action = Some (MOVZ false 2 (route d n key home).2 0).
Proof.
  unfold social_route, route. intros Hs. repeat case_if_in Hs; try done; injection Hs as <- <-; done.
Qed.

Lemma four_word_image first action k :
  social_route d words = Some (first, action) -> words.[0] = first -> words.[1] = UD_RS_STR_TARGET ->
  words.[2] = action -> words.[3] = UD_RS_STR_ACTION -> social_nops words 4 count = true ->
  (d = UD_DIRECT -> n = 1) ->
  let '(target, act) := route d n key home in
  run (xlat_of c d) (decode <$> words) (Z.to_nat count + k) (entry_cpu (social_initial d) m) =
    Some (SBrk 0x4c0, social_at d (count - 1) act 0 0 0 (routed m args target act)).
Proof.
  intros Hs H0 H1 H2 H3 Hn Hn1. pose proof (action_word _ _ Hs) as Ha.
  pose proof (first_word _ _ Hs H0 Hn1) as Hf. destruct (route d n key home) as [target act]. cbn in Ha, Hf.
  rewrite entry_social_at. replace (Z.to_nat count + k)%nat with (1 + 3 + (Z.to_nat (count - 4) + k))%nat by lia.
  erewrite run_steps; [apply (padded_return 4); done || lia|].
  eapply steps_app; [exists (social_at d 1 target 0 0 0 m); split; [exact Hf|reflexivity]|].
  change 4 with (1 + 3). unfold UD_REMOTE_MAX_WORDS in *. apply store_route; [lia|..].
  - apply (image_word words 1 UD_RS_STR_TARGET); done || lia.
  - apply (image_word words 2 action); done || lia.
  - apply (image_word words 3 UD_RS_STR_ACTION); done || lia.
Qed.

Lemma three_way_image k :
  d = UD_DIRECT -> n = 3 -> UD_RS_LB3_WORDS < count ->
  for_all UD_RS_LB3_WORDS (fun i => words.[i] =? ud_remote_social_lb3_word i) = true ->
  social_nops words UD_RS_LB3_WORDS count = true ->
  let '(target, act) := route d n key home in
  run (xlat_of c d) (decode <$> words) (Z.to_nat count + k) (entry_cpu (social_initial d) m) =
    Some (SBrk 0x4c0, social_at d (count - 1) US_SLOTS n 2 (UD_DATA + us_config_offset d + 16)
      (routed m args target act)).
Proof.
  intros Ed En Hc Hw Hn. unfold UD_RS_LB3_WORDS, UD_REMOTE_MAX_WORDS in *. rewrite for_all_spec in Hw.
  rewrite entry_social_at. replace (Z.to_nat count + k)%nat with (12 + (Z.to_nat (count - 12) + k))%nat by lia.
  assert (Hr : route d n key home = ((us_config_fields (us_config_init (us_config_index d) n)).[4 + (key mod US_SLOTS) mod n], 2)).
  { unfold route. rewrite Ed, En. cbn [Z.eqb UD_DIRECT]. f_equal.
    pose proof (Z.mod_pos_bound (key mod US_SLOTS) 3 ltac:(lia)) as Hj.
    generalize dependent ((key mod US_SLOTS) mod 3). intros j Hj.
    assert (Hj3 : j = 0 \/ j = 1 \/ j = 2) by lia. destruct_or! Hj3; subst; reflexivity. }
  rewrite Hr. erewrite run_steps; [apply (padded_return 12); done || lia|].
  apply lb3_steps; [|done|done|apply (ld_range 8 m _ Hm)].
  rewrite <- (take_drop 12 (decode <$> words)) at 1. f_equal.
  apply list_eq_same_length with 12%nat; [done|rewrite length_take, length_fmap; lia|].
  intros i a b Hi Ha Hb. rewrite lookup_take_lt in Ha by done.
  specialize (Hw (Z.of_nat i) ltac:(lia)). bprop.
  assert (Hdec : exists ins, lb3_instrs !! i = Some ins /\ decode (ud_remote_social_lb3_word (Z.of_nat i)) = Some ins).
  { do 12 (destruct i as [|i]; [eexists; split; reflexivity|]). lia. }
  destruct Hdec as (ins & H1 & H2).
  pose proof (image_word words (Z.of_nat i) _ ins ltac:(lia) Hw H2) as Hx. rewrite Nat2Z.id in Hx.
  rewrite list_lookup_fmap, H1 in Hb. cbn in Hb. congruence.
Qed.
End accepted.

(** C3. A routing image the social verifier accepts, over a heap page the commit
    accepted, returns by its last word's [brk] after exactly [count]
    instructions.  It writes only the action and target of the message: load
    balancer entry: the nginx identity of [us_select_nginx]; nginx entry: the
    user or home endpoint its first word selects; return entries: the load
    balancer, the client. *)
Theorem verified_social_code_routes c d n words count m k :
  bytes_ok m -> 0 <= d < UD_DOMAINS -> count <= Z.of_nat (length words) ->
  ud_remote_social_image_valid d words count = true ->
  us_heap_valid_count (ld_struct us_heap m (c_heap_pa c)) n = true ->
  (d = UD_DIRECT -> (words.[0] = ud_remote_social_lb3_word 0 <-> n = 3)) ->
  let args := (c_args_pa c).[d] in
  let key := ld64 m (args + (US_MAPPED_OFFSET + 8)) in
  let '(target, action) := route d n key (words.[0] =? UD_RS_LDR_HOME) in
  exists st, run (xlat_of c d) (decode <$> words) (Z.to_nat count + k) (entry_cpu (social_initial d) m) =
               Some (SBrk 0x4c0, st) /\
             pc st = UD_VA + 4 * (count - 1) /\ pm st = routed m args target action.
Proof.
  intros Hm Hd Hl Hv Hh Hlb. cbn zeta. unfold ud_remote_social_image_valid in Hv.
  assert (Hn : n = 1 \/ n = 3).
  { unfold us_heap_valid_count in Hh. case_if_in Hh; [done|]. bprop. destruct_or!; bprop; auto. }
  case_if_in Hv; [done|]. bprop.
  destruct ((d =? UD_DIRECT) && (words.[0] =? ud_remote_social_lb3_word 0)) eqn:Elb.
  - bprop. case_if_in Hv; [done|]. apply andb_true_iff in Hv as [Hv1 Hv2]. bprop.
    pose proof (three_way_image c d n words count m Hm Hd Hl Hh ltac:(lia) ltac:(done) k ltac:(done)
      ltac:(apply Hlb; done) ltac:(lia) Hv1 Hv2) as Hrun.
    destruct (route _ _ _ _) as [target action]. eexists. split_and!; [exact Hrun|done..].
  - destruct (social_route d words) as [[first action]|] eqn:Es; [|done]. case_if_in Hv; [done|]. bprop.
    pose proof (four_word_image c d n words count m Hd Hl Hh ltac:(lia) ltac:(done) first action k
      Es ltac:(done) ltac:(done) ltac:(done) ltac:(done) Hv) as Hrun.
    destruct (route _ _ _ _) as [target act]. eexists. split_and!; [apply Hrun|done..].
    intros Ed. destruct Hn as [->| ->]; [done|]. exfalso.
    destruct Elb as [He|He]; bprop; [done|]. apply He. by apply Hlb.
Qed.

(** ** Witness: request 8 with three nginx goes to identity 4 *)

Definition demo_heap : mem := st_struct blank (c_heap_pa demo_contract) (us_heap_init_count 3).
Definition demo_social : mem := st64 demo_heap ((c_args_pa demo_contract).[0] + (US_MAPPED_OFFSET + 8)) 8.

Lemma demo_social_heap : ld_struct us_heap demo_social (c_heap_pa demo_contract) = us_heap_init_count 3.
Proof.
  rewrite <- (ld_st_struct blank (c_heap_pa demo_contract) (us_heap_init_count 3)) by (apply us_heap_init_ok; lia).
  apply ld_struct_ext. intros i Hi. apply store_bytes_out. rewrite le_bytes_length.
  change (sizeof us_heap) with 112 in Hi. change (c_heap_pa demo_contract) with 0x200000.
  change ((c_args_pa demo_contract).[0]) with 0x320000. unfold US_MAPPED_OFFSET. lia.
Qed.

Definition demo_lb3 : list Z := social_words false (mk_social_gen 1 3 true true) UD_DIRECT.

Lemma verified_social_code_routes_witness :
  exists st, run (xlat_of demo_contract 0) (decode <$> demo_lb3) 14 (entry_cpu (social_initial 0) demo_social) =
               Some (SBrk 0x4c0, st) /\
             pm st = routed demo_social (c_args_pa demo_contract).[0] 4 US_ACTION_DOMAIN.
Proof.
  assert (Hkey : ld64 demo_social ((c_args_pa demo_contract).[0] + (US_MAPPED_OFFSET + 8)) = 8).
  { unfold demo_social. rewrite ld_st_same. reflexivity. }
  pose proof (verified_social_code_routes demo_contract 0 3 demo_lb3 14 demo_social 0) as H. cbn zeta in H.
  rewrite Hkey in H. destruct H as (st & H1 & _ & H2).
  - apply st_ok, st_struct_bytes_ok, blank_ok.
  - unfold UD_DOMAINS. lia.
  - vm_compute. discriminate.
  - vm_compute. reflexivity.
  - unfold us_heap_valid_count. rewrite demo_social_heap. vm_compute. reflexivity.
  - done.
  - exists st. split; [exact H1|exact H2].
Defined.
