(* ===== verification/Services.v ===== *)
(** * The fixed service payloads

    kernel/ub-domain/services.S and social_services.S, instruction by
    instruction, with branches as byte offsets computed from the positions of
    their labels, their assembled words, and the choice of payload in
    include/lrpc/ub_domain_services.h. *)

From S2P Require Import Prelude CMem Abi Arm64 RemoteCode SocialSound.

(** Offset of a branch from instruction [from] to instruction [to]. *)
Notation "from '~>' to" := (4 * (to - from)) (at level 60, no associativity) : c_scope.

Definition ud_direct : list instr := [
  STP_PRE 29 30 31 (-16); ADD_IMM 29 31 0; LDR true 2 0 0; LDR true 3 0 8; ADD_REG 2 2 3 0;
  LDR true 3 1 0; ADD_REG 2 2 3 0; STR true 2 0 16; LDP_POST 29 30 31 16; BRK 0x4c0 ].

Definition ud_middle : list instr := [
  STP_PRE 29 30 31 (-16); ADD_IMM 29 31 0; LDR true 2 0 0; BRK 0x4c1; ADD_IMM 2 2 1;
  STR true 2 0 16; LDP_POST 29 30 31 16; BRK 0x4c0 ].

Definition ud_leaf : list instr := [
  STP_PRE 29 30 31 (-16); ADD_IMM 29 31 0; LDR true 2 0 0; ADD_IMM 2 2 1; STR true 2 0 16;
  LDP_POST 29 30 31 16; BRK 0x4c0 ].

Definition ud_query : list instr := [
  STP_PRE 29 30 31 (-16); ADD_IMM 29 31 0; LDR true 2 0 0; LDR true 3 0 8;
  MOVZ true 4 0 0; MOVZ true 5 0 0;
  (* 1: 6 *) ADD_IMM 6 1 64; ADD_REG 6 6 4 6; LDR true 7 6 0; LDR true 4 6 8; AND_LOW 4 4 5;
  SUBS_REG 31 7 3; B_EQ (12 ~> 16); SUBS_IMM true 2 2 1; B_NE (14 ~> 6); B (15 ~> 17);
  (* 2: 16 *) LDR true 5 6 16;
  (* 3: 17 *) STR true 5 0 16; LDP_POST 29 30 31 16; BRK 0x4c0 ].

(** Identical to the three-way image of ub_remote_social.h. *)
Definition us_lb_forward : list instr := lb3_instrs ++ [BRK 0x4c0].

Definition us_nginx_forward_write : list instr := [
  LDR false 2 0 64; SUBS_IMM false 31 2 13; B_NE (2 ~> 15);
  LDR true 2 0 8; AND_LOW 2 2 9; MOVZ true 3 0x8000 0; MOVK 3 1 32; ADD_REG 3 3 2 3;
  LDR true 4 0 48; STR true 4 3 0; DSB; LDR true 4 3 0; STR true 4 0 56; MOVZ false 2 104 0; B (14 ~> 20);
  (* 3: 15 *) SUBS_IMM false 31 2 11; B_EQ (16 ~> 19); LDR false 2 1 36; B (18 ~> 20);
  (* 4: 19 *) LDR false 2 1 40;
  (* 5: 20 *) STR false 2 0 72; MOVZ false 2 1 0; STR false 2 0 68; BRK 0x4c0 ].

Definition us_nginx_forward_shared : list instr := [
  LDR false 2 0 64; SUBS_IMM false 31 2 14; B_EQ (2 ~> 13); SUBS_IMM false 31 2 15; B_EQ (4 ~> 22);
  SUBS_IMM false 31 2 16; B_EQ (6 ~> 30); SUBS_IMM false 31 2 11; B_EQ (8 ~> 11);
  LDR false 2 1 36; B (10 ~> 38);
  (* 11: 11 *) LDR false 2 1 40; B (12 ~> 38);
  (* 6: 13 *) MOVZ true 3 0x8000 0; MOVK 3 1 32; ADD_IMM 3 3 8; LDR true 4 0 48; STLR 4 3; DSB; LDAR 4 3;
  STR true 4 0 56; B (21 ~> 37);
  (* 7: 22 *) MOVZ true 3 0x8000 0; MOVK 3 1 32; LDR true 4 0 8; ADD_REG 3 3 4 3; LDAR 4 3; DSB;
  STR true 4 0 56; B (29 ~> 37);
  (* 8: 30 *) MOVZ true 3 0x8000 0; MOVK 3 1 32; ADD_IMM 3 3 16; MOVZ true 4 1 0; LDADDAL 4 5 3; DSB;
  STR true 5 0 56;
  (* 10: 37 *) MOVZ false 2 105 0;
  (* 12: 38 *) STR false 2 0 72; MOVZ false 2 1 0; STR false 2 0 68; BRK 0x4c0 ].

Definition us_nginx_return : list instr := [
  LDR false 2 1 44; STR false 2 0 72; MOVZ false 2 2 0; STR false 2 0 68; BRK 0x4c0 ].

Definition us_lb_return : list instr := [
  MOVZ false 2 0 0; STR false 2 0 72; MOVZ false 2 3 0; STR false 2 0 68; BRK 0x4c0 ].

(** ** Assembly *)

Definition op3 (base rd rn rm : Z) : Z := base .| rd .| (rn .<< 5) .| (rm .<< 16).
Definition opi (base rd rn imm : Z) : Z := base .| rd .| (rn .<< 5) .| (imm .<< 10).
Definition simm (v len : Z) : Z := v mod 2 ^ len.

Definition encode (i : instr) : Z :=
  match i with
  | LDR true rt rn off => opi 0xf9400000 rt rn (off / 8)
  | LDR false rt rn off => opi 0xb9400000 rt rn (off / 4)
  | STR true rt rn off => opi 0xf9000000 rt rn (off / 8)
  | STR false rt rn off => opi 0xb9000000 rt rn (off / 4)
  | LDR_W_IDX rt rn rm => op3 0xb8607800 rt rn rm
  | STP_PRE rt rt2 rn off => opi 0xa9800000 rt rn rt2 .| (simm (off / 8) 7 .<< 15)
  | LDP_POST rt rt2 rn off => opi 0xa8c00000 rt rn rt2 .| (simm (off / 8) 7 .<< 15)
  | ADD_IMM rd rn imm => opi 0x91000000 rd rn imm
  | SUB_IMM rd rn imm => opi 0xd1000000 rd rn imm
  | SUBS_IMM true rd rn imm => opi 0xf1000000 rd rn imm
  | SUBS_IMM false rd rn imm => opi 0x71000000 rd rn imm
  | ADD_REG rd rn rm sh => op3 0x8b000000 rd rn rm .| (sh .<< 10)
  | SUB_REG rd rn rm sh => op3 0xcb000000 rd rn rm .| (sh .<< 10)
  | EOR_REG rd rn rm sh => op3 0xca000000 rd rn rm .| (sh .<< 10)
  | SUBS_REG rd rn rm => op3 0xeb000000 rd rn rm
  | AND_LOW rd rn n => opi 0x92400000 rd rn (n - 1)
  | MOVZ false rd imm sh => 0x52800000 .| rd .| (imm .<< 5) .| ((sh / 16) .<< 21)
  | MOVZ true rd imm sh => 0xd2800000 .| rd .| (imm .<< 5) .| ((sh / 16) .<< 21)
  | MOVK rd imm sh => 0xf2800000 .| rd .| (imm .<< 5) .| ((sh / 16) .<< 21)
  | UDIV rd rn rm => op3 0x9ac00800 rd rn rm
  | MSUB rd rn rm ra => op3 0x9b008000 rd rn rm .| (ra .<< 10)
  | NOP => 0xd503201f
  | DSB => 0xd5033f9f
  | BRK imm => 0xd4200000 .| (imm .<< 5)
  | B off => 0x14000000 .| simm (off / 4) 26
  | B_EQ off => 0x54000000 .| (simm (off / 4) 19 .<< 5)
  | B_NE off => 0x54000001 .| (simm (off / 4) 19 .<< 5)
  | STLR rt rn => opi 0xc89ffc00 rt rn 0
  | LDAR rt rn => opi 0xc8dffc00 rt rn 0
  | LDADDAL rs rt rn => op3 0xf8e00000 rt rn rs
  end.

Definition assemble (p : list instr) : list Z := encode <$> p.

(** ** The choice of payload: the words, [None] for a null pointer *)

Definition ud_service (d : Z) : list instr :=
  match d with
  | 0 => ud_direct
  | 1 => ud_middle
  | 2 => ud_leaf
  | _ => ud_query
  end.

Definition ud_profile_service (profile d : Z) : option (list instr) :=
  if profile =? UD_PROFILE_MICRO then Some (ud_service d)
  else if profile =? UD_PROFILE_SOCIAL then None
  else if (profile =? UD_PROFILE_SOCIAL_WRITE) && (d =? 1) then Some us_nginx_forward_write
  else if (profile =? UD_PROFILE_SOCIAL_SHARED) && (d =? 1) then Some us_nginx_forward_shared
  else match d with
  | 0 => Some us_lb_forward
  | 1 => None
  | 2 => Some us_nginx_return
  | _ => Some us_lb_return
  end.

(** [*size]: zero with a null pointer. *)
Definition service_size (p : option (list instr)) : Z :=
  match p with Some p => 4 * Z.of_nat (length p) | None => 0 end.

Definition all_services : list (list instr) :=
  [ud_direct; ud_middle; ud_leaf; ud_query; us_lb_forward; us_nginx_forward_write;
   us_nginx_forward_shared; us_nginx_return; us_lb_return].

Lemma service_in_all profile d p : ud_profile_service profile d = Some p -> p ∈ all_services.
Proof.
  unfold ud_profile_service, ud_service. intros H. apply list_elem_of_In.
  repeat case_if_in H; try done; destruct d as [|[?|[?|?|]|]|?]; try done; injection H as <-; simpl; tauto.
Qed.

Lemma services_check (P : list instr -> bool) profile d p :
  forallb P all_services = true -> ud_profile_service profile d = Some p -> P p = true.
Proof.
  intros HP Hp%service_in_all%list_elem_of_In. rewrite forallb_forall in HP. auto.
Qed.

(** Assembling and decoding a payload gives the payload back. *)
Lemma services_decode profile d p :
  ud_profile_service profile d = Some p -> decode <$> assemble p = Some <$> p.
Proof.
  intros H. apply (services_check (fun p => bool_decide (decode <$> assemble p = Some <$> p))) in H.
  - by apply bool_decide_eq_true in H.
  - vm_compute. reflexivity.
Qed.

(** Every payload is non-empty and fits in a code page. *)
Lemma services_fit profile d p :
  ud_profile_service profile d = Some p -> 0 < service_size (Some p) <= UD_PAGE.
Proof.
  intros H. apply (services_check (fun p => (0 <? service_size (Some p)) && (service_size (Some p) <=? UD_PAGE))) in H.
  - bprop. lia.
  - vm_compute. reflexivity.
Qed.

Lemma services_words profile d p :
  ud_profile_service profile d = Some p -> Forall (fun w => 0 <= w < 2 ^ 32) (assemble p).
Proof.
  intros H. apply Forall_below.
  apply (services_check (fun p => forallb (below (2 ^ 32)) (assemble p))) in H; [done|]. vm_compute. reflexivity.
Qed.
