(* ===== verification/Pool.v ===== *)
(** * The B side of the pool: lib/ub_domain_pool.c

    The owner initializes the shared region once and then answers preparation
    requests: [ud_pool_poll] builds the page tables a client asked for.  The
    region is a byte memory addressed by offset from its base. *)

From S2P Require Import Prelude CMem Abi Layout RemoteCode Social Services.

Definition ud_pool_header_valid (h : ud_pool_header) : bool :=
  (h_magic h =? UD_POOL_MAGIC) && nz (h_generation h) && (h_abi h =? UD_POOL_ABI) &&
  (h_clients h =? UD_CLIENTS) && (h_domains h =? UD_DOMAINS) && z0 (h_reserved h).

(** Offsets in [struct ud_pool_publication]. *)
Definition PUB_REQUEST := offsetof ud_pool_publication 36.
Definition PUB_COMPLETE := offsetof ud_pool_publication 37.
Definition PUB_B_INITIALIZATIONS := offsetof ud_pool_publication 38.
Definition PUB_ERROR := offsetof ud_pool_publication 39.
Definition PUB_RESERVED := offsetof ud_pool_publication 40.

(** ** Initialization

    The stores in program order: the region is not a valid pool before the last
    one, the release store of the magic. *)

Definition write : Type := Z * list Z.
Definition w64 (a v : Z) : write := (a, le_bytes 8 v).
Definition w32 (a v : Z) : write := (a, le_bytes 4 v).
Definition wstruct {A} `{CStruct A} (a : Z) (x : A) : write := (a, enc_fields (widths A) (fields x)).
Definition wwords (a : Z) (ws : list Z) : write := (a, enc_fields (replicate (length ws) 4%nat) ws).

Definition apply_writes (ws : list write) (m : mem) : mem :=
  fold_left (fun m w => store_bytes m w.1 w.2) ws m.

Definition domain_initial (profile d : Z) : ud_initial :=
  mk_initial UD_ARGS (if profile !=? UD_PROFILE_MICRO then UD_DATA + us_config_offset d else UD_DATA)
    (UD_STACK + UD_PAGE) UD_VA.

(** One pass of the loop over domains; [None] is [return -EINVAL]. *)
Definition init_domain (profile d : Z) : option (list write) :=
  let context := wstruct (UD_CONTEXT d) (domain_initial profile d) in
  if profile !=? UD_PROFILE_SOCIAL then
    match ud_profile_service profile d with
    | None => None
    | Some p =>
        let size := service_size (Some p) in
        if z0 size || (size >? UD_PAGE) then None
        else Some [wwords (UD_IMAGE d) (assemble p); context]
    end
  else Some [context].

Fixpoint init_domains (profile : Z) (ds : list Z) : bool * list write :=
  match ds with
  | [] => (true, [])
  | d :: ds =>
      match init_domain profile d with
      | None => (false, [])
      | Some ws => let '(ok, rest) := init_domains profile ds in (ok, ws ++ rest)
      end
  end.

Definition heap_word (i v : Z) : write := w64 (UD_HEAP + 8 * i) v.
Definition init_heap (profile : Z) : list write :=
  heap_word 0 100 ::
  mjoin ((fun d => [heap_word (8 + d * 8) d; heap_word (9 + d * 8) ((d + 1) .& 31);
                    heap_word (10 + d * 8) (1000 + d)]) <$> seqZ 0 32) ++
  (if profile !=? UD_PROFILE_MICRO then [wstruct UD_HEAP us_heap_init] else []).

Definition init_header (generation profile : Z) : list write :=
  [ wstruct UD_PROFILE_OFFSET (mk_profile_header UD_PROFILE_MAGIC UD_POOL_ABI profile);
    w64 8 generation; w32 16 UD_POOL_ABI; w32 20 UD_CLIENTS; w32 24 UD_DOMAINS; w64 0 UD_POOL_MAGIC ].

(** The writes after [memset(base, 0, UD_BYTES)] and whether it returns 0. *)
Definition init_writes (generation profile : Z) : bool * list write :=
  match init_domains profile (seqZ 0 UD_DOMAINS) with
  | (true, ws) => (true, ws ++ init_heap profile ++ init_header generation profile)
  | (false, ws) => (false, ws)
  end.

Definition ud_pool_initialize_profile (m : mem) (generation profile : Z) : Z * mem :=
  if z0 generation || (profile >? UD_PROFILE_SOCIAL_SHARED) then (- EINVAL, m)
  else
    let m := fill m 0 UD_BYTES 0 in
    match init_writes generation profile with
    | (true, ws) => (0, apply_writes ws m)
    | (false, ws) => (- EINVAL, apply_writes ws m)
    end.

Definition ud_pool_initialize (m : mem) (generation : Z) : Z * mem :=
  ud_pool_initialize_profile m generation UD_PROFILE_MICRO.

(** ** Polling *)

Definition write_profile (profile : Z) : bool :=
  (profile =? UD_PROFILE_SOCIAL_WRITE) || (profile =? UD_PROFILE_SOCIAL_SHARED).

(** The request is refused: the value of [p->error] before the social checks. *)
Definition request_error (profile : Z) (c : ud_contract) (request reserved : Z) : bool :=
  negb (ud_contract_valid c) || (c_nonce c !=? request) || nz reserved ||
  xorb (nz (c_write_pa c)) (write_profile profile).

(** The checks of a social region: [None] for an error, else [extra_count]. *)
Definition social_checks (m : mem) (c : ud_contract) (extra : ud_social_extra) : option Z :=
  let manifest := ld_struct ud_remote_manifest m UD_REMOTE_META_OFFSET in
  let nginx_count := ud_remote_social_count (r_reserved manifest) in
  if (r_magic manifest !=? UD_REMOTE_MAGIC) || (r_abi manifest !=? UD_REMOTE_ABI) ||
     (r_mode manifest !=? UD_CODE_REMOTE_SOCIAL) || z0 nginx_count ||
     negb (us_heap_valid_count (ld_struct us_heap m UD_HEAP) nginx_count) then None
  else if nginx_count =? 3 then
    if for_all UD_SOCIAL_EXTRA_DOMAINS (fun d =>
         match ud_social_extra_contract c extra d with Some _ => true | None => false end)
    then Some UD_SOCIAL_EXTRA_DOMAINS else None
  else Some 0.

Definition build_tables (slot : Z) (c : ud_contract) (m : mem) : mem :=
  for_ UD_DOMAINS (fun d m => for_ 4 (fun l m =>
    st_array 8 m (UD_POOL_TABLE slot d l) (ud_build_table c d l)) m) m.

Definition build_extra_tables (slot : Z) (c : ud_contract) (extra : ud_social_extra) (count : Z) (m : mem) : mem :=
  for_ count (fun d m =>
    match ud_social_extra_contract c extra d with
    | Some adapted => for_ 4 (fun l m =>
        st_array 8 m (UD_SOCIAL_EXTRA_TABLE slot d l) (ud_build_table adapted (extra_entry d) l)) m
    | None => m
    end) m.

(** [p->error] is set; the count of extra domains to build. *)
Definition poll_check (profile slot request : Z) (c : ud_contract) (m : mem) : mem * Z :=
  let p := UD_POOL_SLOT slot in
  let m := st32 m (p + PUB_ERROR)
    (if request_error profile c request (ld32 m (p + PUB_RESERVED)) then EINVAL else 0) in
  if z0 (ld32 m (p + PUB_ERROR)) && (profile =? UD_PROFILE_SOCIAL) then
    match social_checks m c (ld_struct ud_social_extra m (UD_SOCIAL_EXTRA_SLOT slot)) with
    | None => (st32 m (p + PUB_ERROR) EINVAL, 0)
    | Some count => (m, count)
    end
  else (m, 0).

(** Build what an accepted request asked for. *)
Definition poll_build (profile slot extra_count : Z) (c : ud_contract) (extra : ud_social_extra) (m : mem) : mem :=
  let p := UD_POOL_SLOT slot in
  let m := if profile =? UD_PROFILE_SOCIAL_WRITE then fill m (UD_WRITE_HEAP slot) UD_PAGE 0 else m in
  let m := build_tables slot c m in
  let m := build_extra_tables slot c extra extra_count m in
  st64 m (p + PUB_B_INITIALIZATIONS) (u64 (ld64 m (p + PUB_B_INITIALIZATIONS) + 1)).

Definition poll_slot (profile slot : Z) (m : mem) : mem * bool :=
  let p := UD_POOL_SLOT slot in
  let request := ld64 m (p + PUB_REQUEST) in
  if z0 request || (request =? ld64 m (p + PUB_COMPLETE)) then (m, false)
  else
    let c := ld_struct ud_contract m p in
    let extra := ld_struct ud_social_extra m (UD_SOCIAL_EXTRA_SLOT slot) in
    let '(m, extra_count) := poll_check profile slot request c m in
    let m := if z0 (ld32 m (p + PUB_ERROR)) then poll_build profile slot extra_count c extra m else m in
    (st64 m (p + PUB_COMPLETE) request, true).

Definition poll_slots (profile : Z) (m : mem) : mem * Z :=
  for_ UD_CLIENTS (fun slot '(m, published) =>
    let '(m, answered) := poll_slot profile slot m in
    (m, if answered : bool then published + 1 else published)) (m, 0).

(** The return value (a count, or [-EINVAL]) and the region. *)
Definition ud_pool_poll (m : mem) : Z * mem :=
  let tag := ld_struct ud_profile_header m UD_PROFILE_OFFSET in
  if negb (ud_pool_header_valid (ld_struct ud_pool_header m 0)) then (- EINVAL, m)
  else if (t_magic tag !=? UD_PROFILE_MAGIC) || (t_abi tag !=? UD_POOL_ABI) ||
          (t_profile tag >? UD_PROFILE_SOCIAL_SHARED) then (- EINVAL, m)
  else let '(m, published) := poll_slots (t_profile tag) m in (published, m).

(** ** Reading after a list of writes *)

Definition clear_of (a n : Z) (w : write) : bool :=
  (a + n <=? w.1) || (w.1 + Z.of_nat (length w.2) <=? a).

(** What a load of [a, a + n) gives after [ws]: the bytes of the last write that
    touches it when that write is exactly there; [None] when it is not. *)
Fixpoint last_write (a n : Z) (ws : list write) (old : option (list Z)) : option (list Z) :=
  match ws with
  | [] => old
  | w :: ws =>
      last_write a n ws
        (if clear_of a n w then old
         else if (w.1 =? a) && (Z.of_nat (length w.2) =? n) then Some w.2 else None)
  end.

Lemma last_write_load a n ws m old bs :
  0 <= n -> (forall b, old = Some b -> load_bytes m a n = b) ->
  last_write a n ws old = Some bs -> load_bytes (apply_writes ws m) a n = bs.
Proof.
  intros Hn. revert m old. induction ws as [|[b cs] ws IH]; intros m old Hold; cbn; [apply Hold|].
  apply IH. intros b' Hb. unfold clear_of in Hb. cbn in Hb.
  destruct ((a + n <=? b) || (b + Z.of_nat (length cs) <=? a)) eqn:E.
  - rewrite load_store_other; [by apply Hold|]. unfold disjoint_ranges. bprop. destruct E; bprop; lia.
  - case_if_in Hb; [|done]. bprop. injection Hb as <-. subst. by apply load_store_same.
Qed.

Lemma last_write_app a n ws1 ws2 old :
  last_write a n (ws1 ++ ws2) old = last_write a n ws2 (last_write a n ws1 old).
Proof. revert old. induction ws1 as [|w ws1 IH]; intros old; cbn; [done|]. apply IH. Qed.

Lemma last_write_word w a v ws m :
  last_write a (Z.of_nat w) ws None = Some (le_bytes w v) -> 0 <= v < 256 ^ Z.of_nat w ->
  ld w (apply_writes ws m) a = v.
Proof.
  intros H Hv. unfold ld. rewrite (last_write_load a (Z.of_nat w) ws m None _ ltac:(lia) ltac:(done) H).
  rewrite le_value_bytes. by apply Z.mod_small.
Qed.

Lemma last_write_struct {A} `{CStruct A} a (v : A) ws m :
  last_write a (sizeof A) ws None = Some (enc_fields (widths A) (fields v)) -> struct_ok v ->
  ld_struct A (apply_writes ws m) a = v.
Proof.
  intros Hw Hv. unfold ld_struct.
  rewrite (last_write_load a (sizeof A) ws m None _ ltac:(unfold sizeof; lia) ltac:(done) Hw).
  rewrite dec_enc_fields by by apply fields_ok. by apply of_fields_fields.
Qed.

Lemma le_bytes_zero w i : 0 <= i < Z.of_nat w -> (le_bytes w 0).[i] = 0.
Proof.
  revert i. induction w as [|w IH]; intros i Hi; [lia|]. cbn [le_bytes]. unfold nthz.
  destruct (decide (i = 0)) as [->|]; [done|].
  replace (Z.to_nat i) with (S (Z.to_nat (i - 1))) by lia. apply (IH (i - 1)). lia.
Qed.

Lemma fill_load_zero w m a :
  0 <= a -> a + Z.of_nat w <= UD_BYTES -> load_bytes (fill m 0 UD_BYTES 0) a (Z.of_nat w) = le_bytes w 0.
Proof.
  intros Ha Hb. apply (list_eq_nthz 0); rewrite load_bytes_length, ?le_bytes_length; [lia|].
  intros i Hi. rewrite load_bytes_nth, fill_in, le_bytes_zero by lia. done.
Qed.

(** Bytes no write touches keep the value of the [memset]. *)
Lemma last_write_zero w a ws m :
  last_write a (Z.of_nat w) ws (Some (le_bytes w 0)) = Some (le_bytes w 0) ->
  0 <= a -> a + Z.of_nat w <= UD_BYTES ->
  ld w (apply_writes ws (fill m 0 UD_BYTES 0)) a = 0.
Proof.
  intros H Ha Hb. unfold ld.
  pose proof (fill_load_zero w m a Ha Hb) as Hz.
  rewrite (last_write_load a (Z.of_nat w) ws _ (Some (le_bytes w 0)) _ ltac:(lia) ltac:(intros b [= <-]; exact Hz) H).
  rewrite le_value_bytes. by rewrite Z.mod_0_l by lia.
Qed.

Lemma ld_pool_header m a :
  ld_struct ud_pool_header m a =
  mk_pool_header (ld64 m a) (ld64 m (a + 8)) (ld32 m (a + 16)) (ld32 m (a + 20)) (ld32 m (a + 24)) (ld32 m (a + 28)).
Proof.
  unfold ld_struct. set (l := dec_fields _ _).
  assert (Hw : forall k w, widths ud_pool_header !! k = Some w ->
    nth k l 0 = ld w m (a + Z.of_nat (sumw (take k (widths ud_pool_header))))).
  { intros k w Hk. apply nth_lookup_Some, dec_fields_load, Hk. }
  change (of_fields l) with (mk_pool_header (nth 0 l 0) (nth 1 l 0) (nth 2 l 0) (nth 3 l 0) (nth 4 l 0) (nth 5 l 0)).
  rewrite (Hw 0%nat 8%nat), (Hw 1%nat 8%nat), (Hw 2%nat 4%nat), (Hw 3%nat 4%nat), (Hw 4%nat 4%nat), (Hw 5%nat 4%nat) by reflexivity.
  f_equal. f_equal. cbn. lia.
Qed.

Lemma clear_writes_load a n ws m :
  forallb (clear_of a n) ws = true -> load_bytes (apply_writes ws m) a n = load_bytes m a n.
Proof.
  revert m. induction ws as [|[b cs] ws IH]; intros m; cbn; [done|]. intros [Hc Hr]%andb_true_iff.
  rewrite (IH _ Hr), load_store_other; [done|]. unfold clear_of, disjoint_ranges in *. cbn in Hc. lia.
Qed.

(** ** The initialized region *)

(** The commit's check of the micro heap (kernel/ub-domain/domain.c). *)
Definition micro_heap_valid (m : mem) (heap : Z) : bool :=
  (ld64 m heap =? 100) &&
  for_all 32 (fun d => (ld64 m (heap + 8 * (8 + d * 8)) =? d) &&
                       (ld64 m (heap + 8 * (9 + d * 8)) =? (d + 1) .& 31) &&
                       (ld64 m (heap + 8 * (10 + d * 8)) =? 1000 + d)).

Lemma init_ok generation profile :
  0 <= profile <= UD_PROFILE_SOCIAL_SHARED -> (init_writes generation profile).1 = true.
Proof.
  unfold UD_PROFILE_SOCIAL_SHARED. intros Hp.
  assert (Hc : profile = 0 \/ profile = 1 \/ profile = 2 \/ profile = 3) by lia.
  destruct_or! Hc; subst; vm_compute; reflexivity.
Qed.

Section initialized.
Context (generation profile : Z) (m : mem).
Context (Hg : 0 < generation < 2 ^ 64) (Hp : 0 <= profile <= UD_PROFILE_SOCIAL_SHARED).
Let ws := (init_writes generation profile).2.
Let m' := apply_writes ws (fill m 0 UD_BYTES 0).

Lemma profile_cases : profile = 0 \/ profile = 1 \/ profile = 2 \/ profile = 3.
Proof. unfold UD_PROFILE_SOCIAL_SHARED in Hp. lia. Qed.

(** Evaluate a question about the writes for each profile. *)
Ltac each_profile :=
  let H := fresh in pose proof profile_cases as H; destruct H as [H|[H|[H|H]]]; subst profile.
Ltac on_profiles := unfold ws; each_profile; vm_compute; reflexivity.

Lemma init_header_load :
  ld_struct ud_pool_header m' 0 = mk_pool_header UD_POOL_MAGIC generation UD_POOL_ABI UD_CLIENTS UD_DOMAINS 0.
Proof.
  rewrite ld_pool_header. unfold m'. rewrite !Z.add_0_l. f_equal.
  - apply last_write_word; [on_profiles|vm_compute; done].
  - apply last_write_word; [|change (256 ^ Z.of_nat 8) with (2 ^ 64); lia].
    unfold ws, init_writes. pose proof (init_ok generation profile Hp) as Hi. unfold init_writes in Hi.
    destruct (init_domains _ _) as [[] ds]; [|done]. cbn [snd]. rewrite app_assoc, last_write_app.
    generalize (last_write 8 (Z.of_nat 8) (ds ++ init_heap profile) None). intros old. reflexivity.
  - apply last_write_word; [on_profiles|vm_compute; done].
  - apply last_write_word; [on_profiles|vm_compute; done].
  - apply last_write_word; [on_profiles|vm_compute; done].
  - apply last_write_zero; [on_profiles|done|vm_compute; done].
Qed.

Lemma init_tag_load :
  ld_struct ud_profile_header m' UD_PROFILE_OFFSET = mk_profile_header UD_PROFILE_MAGIC UD_POOL_ABI profile.
Proof.
  apply last_write_struct; [on_profiles|]. unfold UD_PROFILE_SOCIAL_SHARED in Hp.
  unfold UD_PROFILE_MAGIC, UD_POOL_ABI. cbn. unfold in_u64, in_u32. lia.
Qed.

Lemma init_context_load d :
  0 <= d < UD_DOMAINS -> ld_struct ud_initial m' (UD_CONTEXT d) = domain_initial profile d.
Proof.
  intros Hd. unfold UD_DOMAINS in Hd. assert (Hc : d = 0 \/ d = 1 \/ d = 2 \/ d = 3) by lia.
  apply last_write_struct; [destruct_or! Hc; subst d; on_profiles|].
  destruct_or! Hc; subst d; unfold domain_initial; case_if; vm_compute; done.
Qed.

Lemma init_image_load d p :
  0 <= d < UD_DOMAINS -> ud_profile_service profile d = Some p ->
  load_bytes m' (UD_IMAGE d) (service_size (Some p)) = (wwords (UD_IMAGE d) (assemble p)).2.
Proof.
  intros Hd. unfold UD_DOMAINS in Hd. assert (Hc : d = 0 \/ d = 1 \/ d = 2 \/ d = 3) by lia.
  unfold m', ws. destruct_or! Hc; subst d; each_profile; cbn; intros [= <-];
    (apply last_write_load with (old := None); [vm_compute; done|done|vm_compute; reflexivity]).
Qed.

Lemma init_social_heap : profile <> UD_PROFILE_MICRO -> us_heap_valid (ld_struct us_heap m' UD_HEAP) = true.
Proof.
  intros Hm. apply bool_decide_eq_true. apply last_write_struct.
  - unfold ws. each_profile; [done|vm_compute; reflexivity..].
  - unfold us_heap_init. by apply us_heap_init_ok.
Qed.

Lemma init_micro_heap : profile = UD_PROFILE_MICRO -> micro_heap_valid m' UD_HEAP = true.
Proof.
  intros ->. unfold micro_heap_valid. apply andb_true_iff. split.
  { apply Z.eqb_eq. apply last_write_word; [vm_compute; reflexivity|vm_compute; done]. }
  apply for_all_spec. intros d Hd.
  assert (Hcheck : for_all 32 (fun d =>
    bool_decide (last_write (UD_HEAP + 8 * (8 + d * 8)) 8 ws None = Some (le_bytes 8 d)) &&
    bool_decide (last_write (UD_HEAP + 8 * (9 + d * 8)) 8 ws None = Some (le_bytes 8 ((d + 1) .& 31))) &&
    bool_decide (last_write (UD_HEAP + 8 * (10 + d * 8)) 8 ws None = Some (le_bytes 8 (1000 + d)))) = true)
    by (vm_compute; reflexivity).
  rewrite for_all_spec in Hcheck. specialize (Hcheck d Hd).
  rewrite !andb_true_iff, !bool_decide_eq_true in Hcheck. destruct Hcheck as [[H1 H2] H3].
  assert (Hr : 0 <= (d + 1) .& 31 < 32)
    by (change 31 with (Z.ones 5); rewrite Z.land_ones by lia; apply Z.mod_pos_bound; lia).
  change (256 ^ Z.of_nat 8) with (2 ^ 64) in *.
  rewrite !andb_true_iff, !Z.eqb_eq. split_and!; apply last_write_word; (done || (cbn; lia)).
Qed.

Lemma init_slots_idle s :
  0 <= s < UD_CLIENTS -> ld64 m' (UD_POOL_SLOT s + PUB_REQUEST) = 0.
Proof.
  intros Hs. apply last_write_zero.
  - assert (Hcheck : for_all UD_CLIENTS (fun s => bool_decide
      (last_write (UD_POOL_SLOT s + PUB_REQUEST) 8 ws (Some (le_bytes 8 0)) = Some (le_bytes 8 0))) = true) by on_profiles.
    rewrite for_all_spec in Hcheck. specialize (Hcheck s Hs). by apply bool_decide_eq_true in Hcheck.
  - unfold UD_CLIENTS, UD_POOL_SLOT, PUB_REQUEST in *. change (offsetof ud_pool_publication 36) with 272. lia.
  - unfold UD_CLIENTS, UD_POOL_SLOT, PUB_REQUEST, UD_BYTES in *. change (offsetof ud_pool_publication 36) with 272. lia.
Qed.

Lemma init_no_manifest : r_magic (ld_struct ud_remote_manifest m' UD_REMOTE_META_OFFSET) = 0.
Proof.
  transitivity (ld64 m' UD_REMOTE_META_OFFSET); [reflexivity|]. apply last_write_zero.
  - assert (Hcheck : bool_decide (last_write UD_REMOTE_META_OFFSET 8 ws (Some (le_bytes 8 0)) = Some (le_bytes 8 0)) = true) by on_profiles.
    by apply bool_decide_eq_true in Hcheck.
  - unfold UD_REMOTE_META_OFFSET. lia.
  - unfold UD_REMOTE_META_OFFSET, UD_BYTES. lia.
Qed.

Lemma init_prefix_invalid k :
  (k < length ws)%nat ->
  ud_pool_header_valid (ld_struct ud_pool_header (apply_writes (take k ws) (fill m 0 UD_BYTES 0)) 0) = false.
Proof.
  intros Hk. rewrite ld_pool_header. unfold ud_pool_header_valid. cbn [h_magic].
  assert (Hz : ld64 (apply_writes (take k ws) (fill m 0 UD_BYTES 0)) 0 = 0); [|by rewrite Hz].
  assert (Hinit : forallb (clear_of 0 8) (removelast ws) = true) by on_profiles.
  unfold ld. rewrite clear_writes_load.
  - by rewrite (fill_load_zero 8) by (unfold UD_BYTES; lia).
  - rewrite forallb_forall in *. intros w Hw. apply Hinit.
    rewrite removelast_firstn_len. apply list_elem_of_In in Hw. apply list_elem_of_In.
    apply elem_of_take in Hw as (i & Hi & Hik). apply elem_of_take. exists i. split; [done|lia].
Qed.
End initialized.

(** C29. The owner's initialization succeeds for every non-zero generation and
    known profile.  It leaves a header that [ud_pool_header_valid] accepts with the
    generation, the profile tag, the initial context of each domain, the image of
    each service the profile compiles in, a heap that passes the micro check or
    [us_heap_valid], which is for one nginx, and no pending request.  No manifest
    is there: the images of UD_PROFILE_SOCIAL, which has none compiled in, and a
    heap for three nginx are published by the owner later.  No earlier state of the
    region passes for a pool: after any proper prefix of the stores the header is
    still invalid. *)
Theorem initialized_region_is_ready m generation profile :
  0 < generation < 2 ^ 64 -> 0 <= profile <= UD_PROFILE_SOCIAL_SHARED ->
  exists m', ud_pool_initialize_profile m generation profile = (0, m') /\
    ld_struct ud_pool_header m' 0 = mk_pool_header UD_POOL_MAGIC generation UD_POOL_ABI UD_CLIENTS UD_DOMAINS 0 /\
    ud_pool_header_valid (ld_struct ud_pool_header m' 0) = true /\
    ld_struct ud_profile_header m' UD_PROFILE_OFFSET = mk_profile_header UD_PROFILE_MAGIC UD_POOL_ABI profile /\
    (forall d, 0 <= d < UD_DOMAINS ->
       ld_struct ud_initial m' (UD_CONTEXT d) = domain_initial profile d /\
       forall p, ud_profile_service profile d = Some p ->
         load_bytes m' (UD_IMAGE d) (service_size (Some p)) = (wwords (UD_IMAGE d) (assemble p)).2) /\
    (if profile =? UD_PROFILE_MICRO then micro_heap_valid m' UD_HEAP = true
     else us_heap_valid (ld_struct us_heap m' UD_HEAP) = true) /\
    (forall s, 0 <= s < UD_CLIENTS -> ld64 m' (UD_POOL_SLOT s + PUB_REQUEST) = 0) /\
    r_magic (ld_struct ud_remote_manifest m' UD_REMOTE_META_OFFSET) = 0 /\
    forall k, (k < length (init_writes generation profile).2)%nat ->
      ud_pool_header_valid (ld_struct ud_pool_header
        (apply_writes (take k (init_writes generation profile).2) (fill m 0 UD_BYTES 0)) 0) = false.
Proof.
  intros Hg Hp. exists (apply_writes (init_writes generation profile).2 (fill m 0 UD_BYTES 0)).
  split_and!.
  - unfold ud_pool_initialize_profile. case_if; [bprop; lia|].
    pose proof (init_ok generation profile Hp). destruct (init_writes generation profile) as [[] ws]; done.
  - by apply init_header_load.
  - rewrite init_header_load by done. unfold ud_pool_header_valid, nz. cbn. lia.
  - by apply init_tag_load.
  - intros d Hd. split; [by apply init_context_load|]. intros p. by apply init_image_load.
  - case_if; bprop; [by apply init_micro_heap|by apply init_social_heap].
  - intros s. by apply init_slots_idle.
  - by apply init_no_manifest.
  - intros k. by apply init_prefix_invalid.
Qed.

Lemma initialized_region_is_ready_witness :
  exists m', ud_pool_initialize_profile (fun _ => 255) 9 UD_PROFILE_SOCIAL_WRITE = (0, m') /\
    ud_pool_header_valid (ld_struct ud_pool_header m' 0) = true /\ us_heap_valid (ld_struct us_heap m' UD_HEAP) = true.
Proof.
  destruct (initialized_region_is_ready (fun _ => 255) 9 UD_PROFILE_SOCIAL_WRITE) as (m' & H1 & _ & H2 & _ & _ & H3 & _).
  - lia.
  - unfold UD_PROFILE_SOCIAL_WRITE, UD_PROFILE_SOCIAL_SHARED. lia.
  - exists m'. split; [exact H1|]. split; [exact H2|exact H3].
Defined.

Lemma apply_writes_ok ws m :
  bytes_ok m -> forallb (fun w => forallb (below 256) w.2) ws = true -> bytes_ok (apply_writes ws m).
Proof.
  revert m. induction ws as [|w ws IH]; intros m Hm; cbn; [done|]. intros [Hw Hr]%andb_true_iff.
  apply IH; [|done]. apply store_bytes_ok; [done|]. by apply (Forall_below 256).
Qed.
