(* ===== verification/PoolPoll.v ===== *)
(** * The answers of the pool owner

    What [ud_pool_poll] writes for each pending request, and that it touches
    nothing else. *)

From S2P Require Import Prelude CMem Abi Layout PageWalk RemoteCode Social RemoteSound Services Pool.

Lemma pub_offsets :
  PUB_REQUEST = 272 /\ PUB_COMPLETE = 280 /\ PUB_B_INITIALIZATIONS = 288 /\ PUB_ERROR = 296 /\ PUB_RESERVED = 300.
Proof. vm_compute. done. Qed.

(** ** Areas of the region *)

Definition within (x a n : Z) : bool := (a <=? x) && (x <? a + n).

(** The bytes answering slot [s] can change. *)
Definition slot_area (profile s x : Z) : bool :=
  within x (UD_POOL_SLOT s + 280) 20 || within x (UD_POOL_TABLE s 0 0) 0x10000 ||
  within x (UD_SOCIAL_EXTRA_TABLE s 0 0) 0x10000 ||
  ((profile =? UD_PROFILE_SOCIAL_WRITE) && within x (UD_WRITE_HEAP s) UD_PAGE).

(** The bytes answering slot [s] reads. *)
Definition read_area (s x : Z) : bool :=
  within x (UD_POOL_SLOT s) UD_PAGE || within x UD_REMOTE_META_OFFSET 40 || within x UD_HEAP 112.

Ltac areas :=
  unfold slot_area, read_area, within, UD_SOCIAL_EXTRA_SLOT, UD_POOL_SLOT, UD_POOL_TABLE, UD_SOCIAL_EXTRA_TABLE,
    UD_WRITE_HEAP, UD_PAGE, UD_REMOTE_META_OFFSET, UD_HEAP, UD_CLIENTS, UD_DOMAINS, UD_SOCIAL_EXTRA_DOMAINS in *.

Lemma slot_areas_disjoint profile s t x :
  0 <= s < UD_CLIENTS -> 0 <= t < UD_CLIENTS -> s <> t -> slot_area profile s x = true -> slot_area profile t x = false.
Proof. areas. lia. Qed.

Lemma slot_area_unread profile s t x :
  0 <= s < UD_CLIENTS -> 0 <= t < UD_CLIENTS -> s <> t -> slot_area profile s x = true -> read_area t x = false.
Proof. areas. lia. Qed.

(** ** Building the tables *)

Lemma lor_u64 a b : in_u64 a -> in_u64 b -> in_u64 (a .| b).
Proof. intros. by apply lor_bound. Qed.

Lemma index_flags i : 0 <= i <= 7 -> in_u64 (page_flags .| (i .<< 2)).
Proof.
  intros Hi. apply lor_u64; [vm_compute; done|]. rewrite Z.shiftl_mul_pow2 by lia. unfold in_u64. lia.
Qed.

(** The entries of a table are 64-bit words. *)
Lemma ud_build_table_range c d l :
  contract_ok c -> ud_contract_valid c = true -> 0 <= d < UD_DOMAINS -> 0 <= l < 4 ->
  Forall in_u64 (ud_build_table c d l).
Proof.
  intros Hok Hv%ud_contract_valid_spec Hd Hl. unfold UD_DOMAINS in Hd.
  assert (Ha : forall n a i, array_ok n in_u64 a -> 0 <= i < Z.of_nat n -> in_u64 a.[i]).
  { intros n a i [Hn Hf] Hi. rewrite List.Forall_forall in Hf. apply Hf. unfold nthz. apply nth_In. lia. }
  assert (Hz : Forall in_u64 (replicate 512 0)) by (apply Forall_replicate; unfold in_u64; lia).
  destruct Hok as (?&?&?&?&?&?&Ht&Hh&Hc&Hs&Hg&Hw). destruct Hv.
  unfold ud_build_table. case_if; bprop.
  - apply setz_Forall; [done|]. apply lor_u64; [apply (Ha 16%nat); [done|lia]|vm_compute; done].
  - pose proof (index_flags (c_wb_index c) ltac:(unfold in_u32 in *; lia)) as Hwb.
    pose proof (index_flags (c_nc_index c) ltac:(unfold in_u32 in *; lia)) as Hnc.
    assert (H7 : in_u64 (BIT 7)) by (vm_compute; done). assert (Hx : in_u64 UD_UXN) by (vm_compute; done).
    case_if; repeat apply setz_Forall; repeat first [ done | (apply (Ha 4%nat); [done|lia]) | apply lor_u64 ].
Qed.

Lemma in_u64_field v : in_u64 v -> field_in_range 8 v.
Proof. apply field8. Qed.

Lemma store_table_load c d l m a :
  contract_ok c -> ud_contract_valid c = true -> 0 <= d < UD_DOMAINS -> 0 <= l < 4 ->
  ld_array 8 (st_array 8 m a (ud_build_table c d l)) a 512 = ud_build_table c d l.
Proof.
  intros Hok Hv Hd Hl. pose proof (ud_build_table_range c d l Hok Hv Hd Hl) as Hr.
  pose proof (ud_build_table_length c d l) as Hn. generalize dependent (ud_build_table c d l). intros t Hr Hn.
  pose proof (ld_st_array 8 m a t (Forall_impl _ _ _ Hr in_u64_field)) as H. by rewrite Hn in H.
Qed.

Lemma store_table_out c d l m a x :
  x < a \/ a + 4096 <= x -> st_array 8 m a (ud_build_table c d l) x = m x.
Proof. intros H. apply st_array_out. rewrite ud_build_table_length. lia. Qed.

(** A loop over the levels of one domain, at [base]. *)
Definition store_levels (c : ud_contract) (d base : Z) (m : mem) : mem :=
  for_ 4 (fun l m => st_array 8 m (base + l * 0x1000) (ud_build_table c d l)) m.

Lemma store_levels_out c d base m x :
  x < base \/ base + 0x4000 <= x -> store_levels c d base m x = m x.
Proof. intros H. unfold store_levels. rewrite for_4. rewrite !store_table_out by lia. done. Qed.

Lemma store_levels_load c d base m l :
  contract_ok c -> ud_contract_valid c = true -> 0 <= d < UD_DOMAINS -> 0 <= l < 4 ->
  ld_array 8 (store_levels c d base m) (base + l * 0x1000) 512 = ud_build_table c d l.
Proof.
  intros Hok Hv Hd Hl. unfold store_levels. rewrite for_4.
  assert (Hother : forall m k, 0 <= k < 4 -> k <> l ->
    ld_array 8 (st_array 8 m (base + k * 0x1000) (ud_build_table c d k)) (base + l * 0x1000) 512 =
    ld_array 8 m (base + l * 0x1000) 512).
  { intros n k Hk Hne. apply ld_array_ext. intros i Hi. apply store_table_out. lia. }
  destruct (decide (l = 3)) as [->|]; [by apply store_table_load|]. rewrite Hother by lia.
  destruct (decide (l = 2)) as [->|]; [by apply store_table_load|]. rewrite Hother by lia.
  destruct (decide (l = 1)) as [->|]; [by apply store_table_load|]. rewrite Hother by lia.
  replace l with 0 by lia. by apply store_table_load.
Qed.

Lemma for_ext {S} n (f g : Z -> S -> S) s : (forall i t, f i t = g i t) -> for_ n f s = for_ n g s.
Proof.
  intros H. unfold for_. generalize (seqZ 0 n). intros l. revert s. induction l as [|i l IH]; intros s; cbn; [done|].
  by rewrite H.
Qed.

Lemma build_tables_levels slot c m :
  build_tables slot c m =
  for_ UD_DOMAINS (fun d m => store_levels c d (UD_POOL_TABLE slot d 0) m) m.
Proof.
  apply for_ext. intros d n. unfold store_levels. apply for_ext. intros l k.
  f_equal. unfold UD_POOL_TABLE. lia.
Qed.

Lemma build_tables_out slot c m x :
  within x (UD_POOL_TABLE slot 0 0) 0x10000 = false -> build_tables slot c m x = m x.
Proof.
  intros Hx. rewrite build_tables_levels.
  apply (for_invariant (fun _ k => k x = m x)); [done..|]. intros d n Hd <-. apply store_levels_out. areas. lia.
Qed.

Lemma build_tables_load slot c m d l :
  contract_ok c -> ud_contract_valid c = true -> 0 <= d < UD_DOMAINS -> 0 <= l < 4 ->
  ld_array 8 (build_tables slot c m) (UD_POOL_TABLE slot d l) 512 = ud_build_table c d l.
Proof.
  intros Hok Hv Hd Hl. rewrite build_tables_levels.
  replace (UD_POOL_TABLE slot d l) with (UD_POOL_TABLE slot d 0 + l * 0x1000) by (unfold UD_POOL_TABLE; lia).
  apply (for_invariant (fun k m => d < k ->
    ld_array 8 m (UD_POOL_TABLE slot d 0 + l * 0x1000) 512 = ud_build_table c d l)); [done|lia| |lia].
  intros k n Hk IH Hlt. destruct (decide (k = d)) as [->|]; [by apply store_levels_load|].
  rewrite <- IH by lia. apply ld_array_ext. intros i Hi. apply store_levels_out. unfold UD_POOL_TABLE. lia.
Qed.

Lemma build_extra_out slot c e count m x :
  0 <= count <= UD_SOCIAL_EXTRA_DOMAINS ->
  within x (UD_SOCIAL_EXTRA_TABLE slot 0 0) 0x10000 = false -> build_extra_tables slot c e count m x = m x.
Proof.
  intros Hc Hx. apply (for_invariant (fun _ k => k x = m x)); [lia|done|]. intros d n Hd <-.
  destruct (ud_social_extra_contract c e d) as [a|]; [|done].
  replace (for_ 4 _ n) with (store_levels a (extra_entry d) (UD_SOCIAL_EXTRA_TABLE slot d 0) n).
  - apply store_levels_out. areas. lia.
  - apply for_ext. intros l k. f_equal. unfold UD_SOCIAL_EXTRA_TABLE. lia.
Qed.

Lemma extra_contract_valid c e d a : ud_social_extra_contract c e d = Some a -> ud_contract_valid a = true.
Proof.
  unfold ud_social_extra_contract. cbn zeta. do 2 (case_if; [done|]).
  set (out := mk_contract _ _ _ _ _ _ _ _ _ _ _ _). destruct (ud_contract_valid out) eqn:E; [|done].
  by intros [= <-].
Qed.

Lemma build_extra_load slot c e count m d l a :
  0 <= count <= UD_SOCIAL_EXTRA_DOMAINS -> 0 <= d < count -> 0 <= l < 4 ->
  ud_social_extra_contract c e d = Some a -> contract_ok a ->
  ld_array 8 (build_extra_tables slot c e count m) (UD_SOCIAL_EXTRA_TABLE slot d l) 512 =
    ud_build_table a (extra_entry d) l.
Proof.
  intros Hc Hd Hl Ha Hok. pose proof (extra_contract_valid _ _ _ _ Ha) as Hv.
  replace (UD_SOCIAL_EXTRA_TABLE slot d l) with (UD_SOCIAL_EXTRA_TABLE slot d 0 + l * 0x1000)
    by (unfold UD_SOCIAL_EXTRA_TABLE; lia).
  assert (Hlev : forall a d n, for_ 4 (fun l m => st_array 8 m (UD_SOCIAL_EXTRA_TABLE slot d l)
      (ud_build_table a (extra_entry d) l)) n = store_levels a (extra_entry d) (UD_SOCIAL_EXTRA_TABLE slot d 0) n).
  { intros. apply for_ext. intros. f_equal. unfold UD_SOCIAL_EXTRA_TABLE. lia. }
  apply (for_invariant (fun k m => d < k ->
    ld_array 8 m (UD_SOCIAL_EXTRA_TABLE slot d 0 + l * 0x1000) 512 = ud_build_table a (extra_entry d) l)); [lia|lia| |lia].
  intros k n Hk IH Hlt. destruct (decide (k = d)) as [->|].
  - rewrite Ha, Hlev. apply store_levels_load; try done. unfold extra_entry. case_if; done.
  - rewrite <- IH by lia. destruct (ud_social_extra_contract c e k) as [a'|]; [|done].
    rewrite Hlev. apply ld_array_ext. intros i Hi. apply store_levels_out. unfold UD_SOCIAL_EXTRA_TABLE. lia.
Qed.

(** ** Structures loaded from bytes *)

Lemma load_fields_ok ws m a :
  bytes_ok m -> Forall2 field_in_range ws (dec_fields ws (load_bytes m a (Z.of_nat (sumw ws)))).
Proof.
  intros Hm. apply Forall2_same_length_lookup_2; [by rewrite dec_fields_length|].
  intros k w v Hw Hv. rewrite (dec_fields_load ws m a k w Hw) in Hv. injection Hv as <-. by apply ld_range.
Qed.

Ltac fields_inv :=
  repeat match goal with
  | H : Forall2 _ [] _ |- _ => apply Forall2_nil_inv_l in H; subst
  | H : Forall2 _ (_ :: _) _ |- _ => apply Forall2_cons_inv_l in H as (? & ? & ? & H & ->)
  end.

Lemma range8 v : field_in_range 8 v -> in_u64 v.
Proof. done. Qed.
Lemma range4 v : field_in_range 4 v -> in_u32 v.
Proof. done. Qed.

Lemma contract_of_ok l : Forall2 field_in_range contract_widths l -> contract_ok (contract_of l).
Proof.
  unfold contract_widths. cbn [replicate app]. intros H. fields_inv.
  unfold contract_ok, contract_of, array_ok, nthz. cbn.
  repeat match goal with |- _ /\ _ => split end;
    repeat (apply List.Forall_cons; [by apply range8|]); try apply List.Forall_nil;
    first [ reflexivity | by apply range8 | by apply range4 ].
Qed.

Lemma ld_contract_ok m a : bytes_ok m -> contract_ok (ld_struct ud_contract m a).
Proof. intros Hm. apply contract_of_ok, load_fields_ok, Hm. Qed.

Lemma ld_extra_ok m a : bytes_ok m -> extra_ok (ld_struct ud_social_extra m a).
Proof.
  intros Hm. pose proof (load_fields_ok (widths ud_social_extra) m a Hm) as H.
  unfold ld_struct, sizeof. generalize dependent (dec_fields (widths ud_social_extra)
    (load_bytes m a (Z.of_nat (sumw (widths ud_social_extra))))). intros l H.
  cbn [widths CStruct_ud_social_extra mjoin list_join replicate app] in H. fields_inv.
  unfold extra_ok, extra_domain_ok, array_ok, nthz. cbn.
  repeat first [ match goal with |- _ /\ _ => split end | apply List.Forall_cons | apply List.Forall_nil ];
    first [ reflexivity | by apply range8 | by apply range4 ].
Qed.

Lemma setz_array_ok n l i v : array_ok n in_u64 l -> in_u64 v -> array_ok n in_u64 (setz l i v).
Proof. intros [Hl Hf] Hv. split; [by rewrite setz_length|by apply setz_Forall]. Qed.

Lemma array_nth_u64 n l i : array_ok n in_u64 l -> in_u64 l.[i].
Proof.
  intros [Hl Hf]. unfold nthz. destruct (decide (Z.to_nat i < length l)%nat).
  - rewrite List.Forall_forall in Hf. apply Hf, nth_In. done.
  - rewrite nth_overflow by lia. unfold in_u64. lia.
Qed.


Lemma extra_contract_ok c e d a :
  contract_ok c -> extra_ok e -> 0 <= d -> ud_social_extra_contract c e d = Some a -> contract_ok a.
Proof.
  intros Hc He Hd. unfold ud_social_extra_contract. cbn zeta.
  destruct (nz (c_write_pa c) || (d >=? UD_SOCIAL_EXTRA_DOMAINS) || _ || _ || _ || _) eqn:E0; [done|].
  assert (Hx : extra_domain_ok (e_dom e d)).
  { destruct He as (_ & _ & _ & Hl & Hf). rewrite List.Forall_forall in Hf. apply Hf, nth_In.
    bprop. unfold UD_SOCIAL_EXTRA_DOMAINS in *. lia. }
  clear E0. case_if; [done|]. case_if; [|done]. intros [= <-].
  destruct Hc as (?&?&?&?&?&?&Ht&?&?&?&?&?). destruct Hx as (Hxt & ? & ?).
  unfold contract_ok. cbn [c_magic c_nonce c_abi c_wb_index c_nc_index c_reserved c_tables c_heap_pa
    c_code_pa c_stack_pa c_args_pa c_write_pa].
  repeat match goal with |- _ /\ _ => split end; try done; try by apply setz_array_ok.
  unfold set_tables. rewrite for_4. repeat apply setz_array_ok; try done; by apply (array_nth_u64 4).
Qed.

(** ** Answering one slot *)

Definition pending (s : Z) (m : mem) : bool :=
  let request := ld64 m (UD_POOL_SLOT s + PUB_REQUEST) in
  negb (z0 request || (request =? ld64 m (UD_POOL_SLOT s + PUB_COMPLETE))).

(** The verdict on the request in slot [s]: [Some n] accepts it, with [n] extra
    domains. *)
Definition accepted (profile s : Z) (m : mem) : option Z :=
  let c := ld_struct ud_contract m (UD_POOL_SLOT s) in
  if request_error profile c (ld64 m (UD_POOL_SLOT s + PUB_REQUEST)) (ld32 m (UD_POOL_SLOT s + PUB_RESERVED))
  then None
  else if profile =? UD_PROFILE_SOCIAL
       then social_checks m c (ld_struct ud_social_extra m (UD_SOCIAL_EXTRA_SLOT s)) else Some 0.

(** Memories that agree on what a verdict reads. *)
Definition agree (area : Z -> bool) (m n : mem) : Prop := forall x, area x = true -> m x = n x.

Lemma agree_ld w area m n a :
  agree area m n -> (forall i, 0 <= i < Z.of_nat w -> area (a + i) = true) -> ld w m a = ld w n a.
Proof. intros H Ha. unfold ld. f_equal. apply load_bytes_ext. intros i Hi. by apply H, Ha. Qed.

Lemma agree_struct {A} `{CStruct A} area m n a :
  agree area m n -> (forall i, 0 <= i < sizeof A -> area (a + i) = true) -> ld_struct A m a = ld_struct A n a.
Proof. intros Hg Ha. apply ld_struct_ext. intros i Hi. by apply Hg, Ha. Qed.

(** The parts of slot [s] a verdict reads: not the fields an answer writes. *)
Definition verdict_area (s x : Z) : bool :=
  read_area s x && negb (within x (UD_POOL_SLOT s + 280) 20).

Lemma struct_sizes :
  sizeof ud_contract = 272 /\ sizeof ud_social_extra = 208 /\ sizeof us_heap = 112 /\
  sizeof ud_remote_manifest = 40 /\ sizeof ud_pool_header = 32 /\ sizeof ud_profile_header = 16.
Proof. vm_compute. done. Qed.

Lemma social_checks_agree s m n c e :
  agree (verdict_area s) m n -> 0 <= s < UD_CLIENTS -> social_checks m c e = social_checks n c e.
Proof.
  intros Hg Hs. unfold social_checks. destruct struct_sizes as (_ & _ & Hh & Hr & _).
  rewrite (agree_struct (A := ud_remote_manifest) (verdict_area s) m n) by
    (done || rewrite Hr; intros; unfold verdict_area; areas; lia).
  rewrite (agree_struct (A := us_heap) (verdict_area s) m n) by
    (done || rewrite Hh; intros; unfold verdict_area; areas; lia).
  done.
Qed.

Lemma accepted_agree profile s m n :
  agree (verdict_area s) m n -> 0 <= s < UD_CLIENTS -> accepted profile s m = accepted profile s n.
Proof.
  intros Hg Hs. unfold accepted. destruct struct_sizes as (Hc & He & _). destruct pub_offsets as (-> & _ & _ & _ & ->).
  rewrite (agree_struct (A := ud_contract) (verdict_area s) m n) by
    (done || rewrite Hc; intros; unfold verdict_area; areas; lia).
  rewrite (agree_struct (A := ud_social_extra) (verdict_area s) m n) by
    (done || rewrite He; intros; unfold verdict_area; areas; lia).
  rewrite !(agree_ld _ (verdict_area s) m n) by (done || intros; unfold verdict_area; areas; lia).
  by rewrite (social_checks_agree s m n).
Qed.

Lemma social_checks_count m c e n : social_checks m c e = Some n -> 0 <= n <= UD_SOCIAL_EXTRA_DOMAINS.
Proof.
  unfold social_checks. case_if; [done|]. case_if; [case_if; [|done]|]; intros [= <-]; unfold UD_SOCIAL_EXTRA_DOMAINS; lia.
Qed.

Lemma accepted_count profile s m n : accepted profile s m = Some n -> 0 <= n <= UD_SOCIAL_EXTRA_DOMAINS.
Proof.
  unfold accepted. case_if; [done|]. case_if; [apply social_checks_count|].
  intros [= <-]. unfold UD_SOCIAL_EXTRA_DOMAINS. lia.
Qed.

Lemma poll_check_spec profile s m m1 n :
  0 <= s < UD_CLIENTS ->
  poll_check profile s (ld64 m (UD_POOL_SLOT s + PUB_REQUEST)) (ld_struct ud_contract m (UD_POOL_SLOT s)) m = (m1, n) ->
  (forall x, within x (UD_POOL_SLOT s + 296) 4 = false -> m1 x = m x) /\
  ld32 m1 (UD_POOL_SLOT s + PUB_ERROR) = (match accepted profile s m with Some _ => 0 | None => EINVAL end) /\
  n = default 0 (accepted profile s m).
Proof.
  intros Hs H. unfold poll_check in H. cbn zeta in H. unfold accepted.
  set (err := request_error _ _ _ _) in *. set (v := if err then EINVAL else 0) in *.
  set (p := UD_POOL_SLOT s) in *. set (m2 := st32 m (p + PUB_ERROR) v) in *.
  assert (Hout : forall k u x, within x (p + 296) 4 = false -> st32 k (p + PUB_ERROR) u x = k x).
  { intros k u x Hx. apply st_out. destruct pub_offsets as (_ & _ & _ & -> & _). unfold within in Hx. lia. }
  assert (Hv : ld32 m2 (p + PUB_ERROR) = v) by (unfold m2; rewrite ld_st_same; unfold v; by destruct err).
  assert (Hg : agree (verdict_area s) m2 m).
  { intros x Hx. apply Hout. unfold verdict_area in Hx. fold p in Hx. unfold within in *. lia. }
  rewrite Hv in H. rewrite (social_checks_agree s m2 m _ _ Hg Hs) in H.
  destruct struct_sizes as (_ & He & _).
  rewrite (agree_struct (A := ud_social_extra) (verdict_area s) m2 m _ Hg) in H by
    (rewrite He; intros; unfold verdict_area; areas; lia).
  unfold v in H, Hv. destruct err; cbn [z0 Z.eqb EINVAL andb] in H; [injection H as <- <-; split_and!; try done; apply Hout|].
  destruct (profile =? UD_PROFILE_SOCIAL); cbn [andb] in H; [|injection H as <- <-; split_and!; try done; apply Hout].
  destruct (social_checks m _ _) as [k|] eqn:Ek; injection H as <- <-; split_and!; try done.
  - apply Hout.
  - intros x Hx. rewrite Hout by done. by apply Hout.
  - by rewrite ld_st_same.
Qed.

(** What an accepted request gets. *)
Record built (s n : Z) (c : ud_contract) (e : ud_social_extra) (m m' : mem) : Prop := {
  bt_tables : forall d l, 0 <= d < UD_DOMAINS -> 0 <= l < 4 ->
    ld_array 8 m' (UD_POOL_TABLE s d l) 512 = ud_build_table c d l;
  bt_extra : forall d l a, 0 <= d < n -> 0 <= l < 4 -> ud_social_extra_contract c e d = Some a ->
    ld_array 8 m' (UD_SOCIAL_EXTRA_TABLE s d l) 512 = ud_build_table a (extra_entry d) l;
  bt_count : ld64 m' (UD_POOL_SLOT s + PUB_B_INITIALIZATIONS) =
    u64 (ld64 m (UD_POOL_SLOT s + PUB_B_INITIALIZATIONS) + 1) }.

Lemma ld_array_agree area m n a k :
  agree area m n -> (forall i, 0 <= i < 8 * k -> area (a + i) = true) -> ld_array 8 m a k = ld_array 8 n a k.
Proof. intros H Ha. apply ld_array_ext. intros i Hi. apply H, Ha. lia. Qed.

Lemma poll_build_spec profile s n c e m :
  0 <= s < UD_CLIENTS -> 0 <= n <= UD_SOCIAL_EXTRA_DOMAINS -> contract_ok c -> extra_ok e ->
  ud_contract_valid c = true ->
  let m' := poll_build profile s n c e m in
  (forall x, slot_area profile s x = false \/ within x (UD_POOL_SLOT s + 280) 8 = true \/
             within x (UD_POOL_SLOT s + 296) 4 = true -> m' x = m x) /\
  built s n c e m m'.
Proof.
  intros Hs Hn Hc He Hv. unfold poll_build. destruct pub_offsets as (_ & _ & Hb & _). rewrite Hb. cbn zeta.
  set (m1 := if profile =? UD_PROFILE_SOCIAL_WRITE then _ else m).
  set (m2 := build_tables s c m1). set (m3 := build_extra_tables s c e n m2). set (v := u64 _).
  assert (H1 : forall x, profile =? UD_PROFILE_SOCIAL_WRITE = false \/ within x (UD_WRITE_HEAP s) UD_PAGE = false -> m1 x = m x).
  { intros x Hx. unfold m1. case_if; [|done]. apply fill_out. unfold within in Hx. lia. }
  assert (H2 : forall x, within x (UD_POOL_TABLE s 0 0) 0x10000 = false -> m2 x = m1 x) by (intros; by apply build_tables_out).
  assert (H3 : forall x, within x (UD_SOCIAL_EXTRA_TABLE s 0 0) 0x10000 = false -> m3 x = m2 x) by (intros; by apply build_extra_out).
  assert (H4 : forall x, within x (UD_POOL_SLOT s + 288) 8 = false -> st64 m3 (UD_POOL_SLOT s + 288) v x = m3 x).
  { intros x Hx. apply st_out. unfold within in Hx. lia. }
  assert (Hframe : forall x, slot_area profile s x = false \/ within x (UD_POOL_SLOT s + 280) 8 = true \/
    within x (UD_POOL_SLOT s + 296) 4 = true -> st64 m3 (UD_POOL_SLOT s + 288) v x = m x).
  { intros x Hx. rewrite H4, H3, H2, H1; [done|..]; clear H1 H2 H3 H4; areas; lia. }
  split; [done|]. constructor.
  - intros d l Hd Hl. rewrite <- (build_tables_load s c m1 d l Hc Hv Hd Hl). apply ld_array_ext. intros i Hi.
    rewrite H4, H3; [done|..]; clear H1 H2 H3 H4 Hframe; areas; lia.
  - intros d l a Hd Hl Ha. rewrite <- (build_extra_load s c e n m2 d l a Hn Hd Hl Ha (extra_contract_ok c e d a Hc He ltac:(lia) Ha)).
    apply ld_array_ext. intros i Hi. apply H4. clear H1 H2 H3 H4 Hframe. areas. lia.
  - rewrite Hb, ld_st_same. change (256 ^ Z.of_nat 8) with (2 ^ 64). fold (u64 v). rewrite u64_id by apply u64_range.
    unfold v. do 2 f_equal. unfold ld. f_equal. apply load_bytes_ext. intros i Hi.
    rewrite H3, H2, H1; [done|..]; clear H1 H2 H3 H4 Hframe; areas; lia.
Qed.

Record answered (profile s : Z) (m m' : mem) : Prop := {
  an_complete : ld64 m' (UD_POOL_SLOT s + PUB_COMPLETE) = ld64 m (UD_POOL_SLOT s + PUB_REQUEST);
  an_error : ld32 m' (UD_POOL_SLOT s + PUB_ERROR) =
    (match accepted profile s m with Some _ => 0 | None => EINVAL end);
  an_built : forall n, accepted profile s m = Some n ->
    built s n (ld_struct ud_contract m (UD_POOL_SLOT s)) (ld_struct ud_social_extra m (UD_SOCIAL_EXTRA_SLOT s)) m m';
  an_refused : accepted profile s m = None ->
    forall x, slot_area profile s x = true -> within x (UD_POOL_SLOT s + 280) 20 = false -> m' x = m x }.

Lemma accepted_valid profile s m n :
  accepted profile s m = Some n -> ud_contract_valid (ld_struct ud_contract m (UD_POOL_SLOT s)) = true.
Proof.
  unfold accepted, request_error. destruct (ud_contract_valid _); [done|]. by cbn.
Qed.

Lemma poll_slot_spec profile s m :
  bytes_ok m -> 0 <= s < UD_CLIENTS -> pending s m = true ->
  exists m', poll_slot profile s m = (m', true) /\ answered profile s m m' /\
    forall x, slot_area profile s x = false -> m' x = m x.
Proof.
  intros Hm Hs Hp. unfold poll_slot, pending in *. cbn zeta in *. apply negb_true_iff in Hp. rewrite Hp.
  set (p := UD_POOL_SLOT s) in *. set (request := ld64 m (p + PUB_REQUEST)).
  destruct (poll_check _ _ _ _ _) as [m1 n] eqn:Ec. apply poll_check_spec in Ec as (Hf1 & He1 & ->); [|done].
  fold p in Hf1, He1. rewrite He1. set (acc := accepted profile s m) in *.
  set (m2 := if z0 _ then _ else m1).
  assert (H2 : (forall x, slot_area profile s x = false \/ within x (p + 280) 8 = true \/
                  within x (p + 296) 4 = true -> m2 x = m1 x) /\
               (forall n, acc = Some n -> built s n (ld_struct ud_contract m p)
                  (ld_struct ud_social_extra m (UD_SOCIAL_EXTRA_SLOT s)) m1 m2) /\ (acc = None -> m2 = m1)).
  { unfold m2. destruct acc as [n|] eqn:Ea; cbn [z0 Z.eqb default EINVAL]; [|by split_and!].
    pose proof (poll_build_spec profile s n (ld_struct ud_contract m p) (ld_struct ud_social_extra m (UD_SOCIAL_EXTRA_SLOT s))
      m1 Hs (accepted_count _ _ _ _ Ea) (ld_contract_ok m p Hm) (ld_extra_ok _ _ Hm) (accepted_valid _ _ _ _ Ea)) as [Hx Hy].
    split_and!; [exact Hx|by intros ? [= <-]|done]. }
  destruct H2 as (Hf2 & Hb2 & Hr2). destruct pub_offsets as (Oreq & Ocmp & Obin & Oerr & _).
  assert (Hf3 : forall x, within x (p + 280) 8 = false -> st64 m2 (p + PUB_COMPLETE) request x = m2 x).
  { intros x Hx. apply st_out. rewrite Ocmp. unfold within in Hx. lia. }
  exists (st64 m2 (p + PUB_COMPLETE) request). split; [done|]. split.
  2: { intros x Hx. rewrite Hf3, Hf2, Hf1; [done|..]; unfold p; clear - Hs Hx; areas; lia. }
  constructor; fold p acc.
  - rewrite ld_st_same. apply Z.mod_small. apply (ld_range 8 m _ Hm).
  - rewrite <- He1. unfold ld. f_equal. apply load_bytes_ext. intros i Hi. rewrite Oerr.
    rewrite Hf3, Hf2; [done|..]; unfold p; clear - Hs Hi; areas; lia.
  - intros k Hk. destruct (Hb2 k Hk) as [Bt Be Bc]. constructor.
    + intros d l Hd Hl. rewrite <- (Bt d l Hd Hl). apply ld_array_ext. intros i Hi.
      apply Hf3. unfold p. clear - Hs Hi Hd Hl. areas. lia.
    + intros d l a Hd Hl Ha. rewrite <- (Be d l a Hd Hl Ha). apply ld_array_ext. intros i Hi.
      apply Hf3. pose proof (accepted_count _ _ _ _ Hk). unfold p. clear - Hs Hi Hd Hl H. areas. lia.
    + fold p in Bc |- *. transitivity (ld64 m2 (p + PUB_B_INITIALIZATIONS)).
      * unfold ld. f_equal. apply load_bytes_ext. intros i Hi. apply Hf3. rewrite Obin. unfold p. clear - Hs Hi. areas. lia.
      * rewrite Bc. do 2 f_equal. unfold ld. f_equal. apply load_bytes_ext. intros i Hi. apply Hf1.
        rewrite Obin. unfold p. clear - Hs Hi. areas. lia.
  - intros Hk x _ Hx. rewrite Hf3, (Hr2 Hk), Hf1; [done|..]; unfold p in *; clear - Hs Hx; areas; lia.
Qed.

(** ** The whole poll *)

Lemma agree_sym area m n : agree area m n -> agree area n m.
Proof. intros H x Hx. symmetry. by apply H. Qed.

(** Later answers to other slots keep an answer. *)
Lemma answered_frame profile s m m1 m2 :
  0 <= s < UD_CLIENTS -> agree (slot_area profile s) m2 m1 -> answered profile s m m1 -> answered profile s m m2.
Proof.
  intros Hs Hg [Hc He Hb Hr]. destruct pub_offsets as (Oreq & Ocmp & Obin & Oerr & _). constructor.
  - rewrite <- Hc. apply (agree_ld 8 _ _ _ _ Hg). intros i Hi. rewrite Ocmp. clear - Hs Hi. areas. lia.
  - rewrite <- He. apply (agree_ld 4 _ _ _ _ Hg). intros i Hi. rewrite Oerr. clear - Hs Hi. areas. lia.
  - intros n Hn. pose proof (accepted_count _ _ _ _ Hn) as Hcount. destruct (Hb n Hn) as [Bt Be Bc]. constructor.
    + intros d l Hd Hl. rewrite <- (Bt d l Hd Hl). apply (ld_array_agree _ _ _ _ _ Hg). clear - Hs Hd Hl. intros. areas. lia.
    + intros d l a Hd Hl Ha. rewrite <- (Be d l a Hd Hl Ha). apply (ld_array_agree _ _ _ _ _ Hg).
      clear - Hs Hd Hl Hcount. intros. areas. lia.
    + rewrite <- Bc. apply (agree_ld 8 _ _ _ _ Hg). intros i Hi. rewrite Obin. clear - Hs Hi. areas. lia.
  - intros Hn x Hx Hy. rewrite Hg by done. by apply Hr.
Qed.

(** An answer depends only on the slot's own bytes and the shared read-only ones. *)
Lemma answered_reads profile s m m1 m' :
  0 <= s < UD_CLIENTS -> agree (fun x => read_area s x || slot_area profile s x) m1 m ->
  answered profile s m1 m' -> answered profile s m m'.
Proof.
  intros Hs Hg [Hc He Hb Hr]. destruct pub_offsets as (Oreq & Ocmp & Obin & Oerr & _).
  destruct struct_sizes as (Sc & Se & _).
  assert (Hread : agree (read_area s) m1 m) by (intros x Hx; apply Hg; by rewrite Hx).
  assert (Hverdict : agree (verdict_area s) m1 m).
  { intros x Hx. apply Hread. by apply andb_true_iff in Hx as [? _]. }
  rewrite (accepted_agree profile s m1 m Hverdict Hs) in *. constructor.
  - rewrite Hc. apply (agree_ld 8 _ _ _ _ Hread). intros i Hi. rewrite Oreq. clear - Hs Hi. areas. lia.
  - done.
  - intros n Hn. destruct (Hb n Hn) as [Bt Be Bc].
    rewrite (agree_struct (A := ud_contract) _ _ _ _ Hread) in Bt, Be by (rewrite Sc; clear - Hs; intros; areas; lia).
    rewrite (agree_struct (A := ud_social_extra) _ _ _ _ Hread) in Be by (rewrite Se; clear - Hs; intros; areas; lia).
    rewrite (agree_ld 8 _ _ _ _ Hread) in Bc by (rewrite Obin; clear - Hs; intros; areas; lia).
    by constructor.
  - intros Hn x Hx Hy. rewrite Hr by done. apply Hg. rewrite Hx. apply orb_true_r.
Qed.

Lemma pending_agree s m n : 0 <= s < UD_CLIENTS -> agree (read_area s) m n -> pending s m = pending s n.
Proof.
  intros Hs Hg. unfold pending. destruct pub_offsets as (-> & -> & _).
  rewrite !(agree_ld 8 (read_area s) m n) by (done || clear - Hs; intros; areas; lia). done.
Qed.

Lemma st_array_ok w m a vs : bytes_ok m -> bytes_ok (st_array w m a vs).
Proof. intros Hm. apply store_bytes_ok; [done|apply enc_fields_range]. Qed.

Lemma for_bytes_ok n (f : Z -> mem -> mem) m :
  0 <= n -> bytes_ok m -> (forall i k, bytes_ok k -> bytes_ok (f i k)) -> bytes_ok (for_ n f m).
Proof. intros Hn Hm Hf. apply (for_invariant (fun _ => bytes_ok)); auto. Qed.

Lemma build_tables_ok s c m : bytes_ok m -> bytes_ok (build_tables s c m).
Proof.
  intros Hm. apply for_bytes_ok; [done..|]. intros d k Hk. apply for_bytes_ok; [done..|]. intros. by apply st_array_ok.
Qed.

Lemma build_extra_ok s c e n m : 0 <= n -> bytes_ok m -> bytes_ok (build_extra_tables s c e n m).
Proof.
  intros Hn Hm. apply for_bytes_ok; [done..|]. intros d k Hk.
  destruct (ud_social_extra_contract c e d); [|done]. apply for_bytes_ok; [done..|]. intros. by apply st_array_ok.
Qed.

Lemma poll_slot_ok profile s m : bytes_ok m -> 0 <= s < UD_CLIENTS -> bytes_ok (poll_slot profile s m).1.
Proof.
  intros Hm Hs. unfold poll_slot. cbn zeta. case_if; [done|].
  destruct (poll_check _ _ _ _ _) as [m1 n] eqn:Ec.
  assert (H1 : bytes_ok m1).
  { unfold poll_check in Ec. cbn zeta in Ec.
    assert (H2 : forall k v, bytes_ok k -> bytes_ok (st32 k (UD_POOL_SLOT s + PUB_ERROR) v)) by (intros; by apply st_ok).
    set (k := st32 m _ _) in Ec. assert (Hk : bytes_ok k) by by apply H2. clearbody k.
    destruct (z0 _ && _); [destruct (social_checks _ _ _)|]; injection Ec as <- _; [done|by apply H2|done]. }
  apply poll_check_spec in Ec as (_ & _ & ->); [|done]. cbn [fst]. apply st_ok.
  match goal with |- bytes_ok (if ?b then _ else _) => destruct b end; [|done].
  unfold poll_build. cbn zeta. apply st_ok, build_extra_ok.
  - destruct (accepted profile s m) as [n|] eqn:Ea; cbn; [|done]. apply accepted_count in Ea. lia.
  - apply build_tables_ok. case_if; [by apply fill_ok|done].
Qed.

Definition pending_count (m : mem) (k : Z) : Z :=
  Z.of_nat (length (List.filter (fun s => pending s m) (seqZ 0 k))).

Lemma pending_count_S m k :
  0 <= k -> pending_count m (k + 1) = if pending k m then pending_count m k + 1 else pending_count m k.
Proof.
  intros Hk. unfold pending_count. rewrite seqZ_app by lia. rewrite List.filter_app, length_app.
  replace (seqZ (0 + k) 1) with [k] by (rewrite seqZ_cons, seqZ_nil by lia; f_equal; lia).
  cbn. destruct (pending k m); cbn; lia.
Qed.

Lemma poll_slots_spec profile m :
  bytes_ok m ->
  let '(m', published) := poll_slots profile m in
  bytes_ok m' /\ published = pending_count m UD_CLIENTS /\
  (forall x, (forall s, 0 <= s < UD_CLIENTS -> pending s m = true -> slot_area profile s x = false) -> m' x = m x) /\
  (forall s, 0 <= s < UD_CLIENTS -> pending s m = true -> answered profile s m m').
Proof.
  intros Hm. unfold poll_slots.
  pose (P k (st : mem * Z) := bytes_ok st.1 /\ st.2 = pending_count m k /\
    (forall x, (forall s, 0 <= s < k -> pending s m = true -> slot_area profile s x = false) -> st.1 x = m x) /\
    (forall s, 0 <= s < k -> pending s m = true -> answered profile s m st.1)).
  match goal with |- context [for_ UD_CLIENTS ?f ?s] => set (step := f);
    assert (HP : P UD_CLIENTS (for_ UD_CLIENTS step s)) end.
  2: { destruct (for_ UD_CLIENTS step (m, 0)) as [m' n]. exact HP. }
  apply for_invariant; [done| |].
  { unfold P. split_and!; try done. intros; lia. }
  intros k [mk n] Hk (Hok & Hn & Hf & Ha). cbn [fst snd] in *. unfold step.
  assert (Hsame : agree (fun x => read_area k x || slot_area profile k x) mk m).
  { intros x Hx. apply Hf. intros s Hs _. apply not_true_is_false. intros Hsx. apply orb_true_iff in Hx as [Hx|Hx].
    - by rewrite (slot_area_unread profile s k x) in Hx by (done || lia).
    - by rewrite (slot_areas_disjoint profile s k x) in Hx by (done || lia). }
  assert (Hread : agree (read_area k) mk m) by (intros x Hx; apply Hsame; by rewrite Hx).
  pose proof (poll_slot_ok profile k mk Hok Hk) as Hok'.
  pose proof (pending_agree k mk m Hk Hread) as Hpend. destruct (pending k m) eqn:Ep.
  - destruct (poll_slot_spec profile k mk Hok Hk Hpend) as (m' & Hpoll & Hans & Hframe). rewrite Hpoll in *. cbn in Hok'.
    unfold P. cbn [fst snd]. rewrite pending_count_S, Ep by lia. split_and!; [done|lia| |].
    + intros x Hx. rewrite Hframe by (apply Hx; lia || done). apply Hf. intros s Hs. apply Hx. lia.
    + intros s Hs Hps. destruct (decide (s = k)) as [->|]; [by apply (answered_reads profile k m mk)|].
      apply (answered_frame profile s m mk m'); [lia| |apply Ha; [lia|done]].
      intros x Hx. apply Hframe. apply (slot_areas_disjoint profile s k x); done || lia.
  - assert (Hnone : poll_slot profile k mk = (mk, false)).
    { unfold poll_slot. unfold pending in Hpend. apply negb_false_iff in Hpend. cbn zeta in *. by rewrite Hpend. }
    rewrite Hnone. unfold P. cbn [fst snd]. rewrite pending_count_S, Ep by lia. split_and!; [done..| |].
    + intros x Hx. apply Hf. intros s Hs. apply Hx. lia.
    + intros s Hs Hps. destruct (decide (s = k)) as [->|]; [congruence|]. apply Ha; [lia|done].
Qed.

Lemma poll_slots_idle profile m :
  (forall s, 0 <= s < UD_CLIENTS -> pending s m = false) -> poll_slots profile m = (m, 0).
Proof.
  intros Hp. unfold poll_slots. apply (for_invariant (fun _ st => st = (m, 0))); [done..|].
  intros s t Hs ->. specialize (Hp s Hs). unfold pending in Hp. apply negb_false_iff in Hp.
  unfold poll_slot. cbn zeta in *. by rewrite Hp.
Qed.

(** Nothing is pending after a poll. *)
Lemma answered_not_pending profile m m' s :
  0 <= s < UD_CLIENTS ->
  (forall x, (forall s, 0 <= s < UD_CLIENTS -> pending s m = true -> slot_area profile s x = false) -> m' x = m x) ->
  (forall s, 0 <= s < UD_CLIENTS -> pending s m = true -> answered profile s m m') ->
  pending s m' = false.
Proof.
  intros Hs Hf Ha. destruct pub_offsets as (Oreq & Ocmp & _).
  assert (Hreq : ld64 m' (UD_POOL_SLOT s + PUB_REQUEST) = ld64 m (UD_POOL_SLOT s + PUB_REQUEST)).
  { unfold ld. f_equal. apply load_bytes_ext. intros i Hi. apply Hf. intros t Ht _. rewrite Oreq. clear - Hs Ht Hi. areas. lia. }
  destruct (pending s m) eqn:E.
  - unfold pending. rewrite Hreq, (an_complete _ _ _ _ (Ha s Hs E)), Z.eqb_refl. by rewrite orb_true_r.
  - rewrite <- E. apply pending_agree; [done|]. intros x Hx. apply Hf. intros t Ht Hp.
    apply not_true_is_false. intros Ht'. destruct (decide (t = s)) as [->|]; [congruence|].
    by rewrite (slot_area_unread profile t s x) in Hx by (done || lia).
Qed.

(** A poll of a valid region is the loop over its slots. *)
Lemma ud_pool_poll_valid m :
  let tag := ld_struct ud_profile_header m UD_PROFILE_OFFSET in
  ud_pool_header_valid (ld_struct ud_pool_header m 0) = true ->
  t_magic tag = UD_PROFILE_MAGIC -> t_abi tag = UD_POOL_ABI -> t_profile tag <= UD_PROFILE_SOCIAL_SHARED ->
  ud_pool_poll m = ((poll_slots (t_profile tag) m).2, (poll_slots (t_profile tag) m).1).
Proof.
  intros tag Hh H1 H2 H3. unfold ud_pool_poll. fold tag. rewrite Hh. cbn [negb].
  rewrite H1, H2, !Z.eqb_refl. cbn [negb orb]. rewrite (proj2 (Z.ltb_ge _ _) H3).
  by destruct (poll_slots (t_profile tag) m) as [m' n].
Qed.

(** C10. One poll of a valid region answers every pending request and touches
    nothing else.  Each pending slot gets complete = request; its error field is 0
    exactly when the contract and, for a social region, the manifest, the heap and
    the extra contract pass the checks, and then its page tables (and those of the
    extra domains) are the ones [ud_build_table] makes; a refused request leaves
    its tables alone.  Bytes outside the answer areas of pending slots (headers,
    images, heap, contracts, every slot already complete) are not written, and the
    return value counts the answers. *)
Theorem poll_answers_every_request m :
  bytes_ok m ->
  let tag := ld_struct ud_profile_header m UD_PROFILE_OFFSET in
  ud_pool_header_valid (ld_struct ud_pool_header m 0) = true ->
  t_magic tag = UD_PROFILE_MAGIC -> t_abi tag = UD_POOL_ABI -> t_profile tag <= UD_PROFILE_SOCIAL_SHARED ->
  let '(rc, m') := ud_pool_poll m in
  rc = pending_count m UD_CLIENTS /\
  (forall x, (forall s, 0 <= s < UD_CLIENTS -> pending s m = true -> slot_area (t_profile tag) s x = false) -> m' x = m x) /\
  (forall s, 0 <= s < UD_CLIENTS -> pending s m = true -> answered (t_profile tag) s m m') /\
  ud_pool_poll m' = (0, m').
Proof.
  intros Hm tag Hh H1 H2 H3. rewrite (ud_pool_poll_valid m Hh H1 H2 H3). fold tag.
  pose proof (poll_slots_spec (t_profile tag) m Hm) as Hs. destruct (poll_slots (t_profile tag) m) as [m' n].
  destruct Hs as (Hok & Hn & Hf & Ha).
  assert (Hsame : agree (fun x => within x 0 80) m' m).
  { intros x Hx. apply Hf. intros s Hs _. clear - Hs Hx. areas. lia. }
  assert (Htag : ld_struct ud_profile_header m' UD_PROFILE_OFFSET = tag).
  { apply (agree_struct (A := ud_profile_header) _ _ _ _ Hsame). intros i Hi. unfold within.
    destruct struct_sizes as (_ & _ & _ & _ & Hx & Hy). unfold UD_PROFILE_OFFSET. lia. }
  assert (Hhead : ld_struct ud_pool_header m' 0 = ld_struct ud_pool_header m 0).
  { apply (agree_struct (A := ud_pool_header) _ _ _ _ Hsame). intros i Hi. unfold within.
    destruct struct_sizes as (_ & _ & _ & _ & Hx & Hy). lia. }
  cbn [fst snd]. split_and!; try done. rewrite (ud_pool_poll_valid m') by (rewrite ?Hhead, ?Htag; done). rewrite Htag, poll_slots_idle; [done|].
  intros s Hs. by apply (answered_not_pending (t_profile tag) m m').
Qed.

(** ** Witness: a micro region with one request, in slot 2 *)

Definition demo_ready : mem := apply_writes (init_writes 9 UD_PROFILE_MICRO).2 (fill blank 0 UD_BYTES 0).
Definition demo_request : mem :=
  st64 (st_struct demo_ready (UD_POOL_SLOT 2) demo_contract) (UD_POOL_SLOT 2 + PUB_REQUEST) 7.

Lemma demo_request_ok : bytes_ok demo_request.
Proof.
  apply st_ok, st_struct_bytes_ok, apply_writes_ok; [apply fill_ok; [apply blank_ok|lia]|]. vm_compute. reflexivity.
Qed.

Lemma demo_request_out : agree (fun x => x <? UD_POOL_SLOT 2) demo_request demo_ready.
Proof.
  intros x Hx. destruct pub_offsets as (Oreq & _). destruct struct_sizes as (Sc & _). unfold demo_request.
  rewrite st_out by (rewrite Oreq; lia). apply st_struct_out; [apply demo_contract_ok|lia].
Qed.

Lemma demo_request_pending : pending 2 demo_request = true /\ ud_contract_valid (ld_struct ud_contract demo_request (UD_POOL_SLOT 2)) = true.
Proof.
  destruct pub_offsets as (Oreq & Ocmp & _). destruct struct_sizes as (Sc & _). split.
  - unfold pending, demo_request. rewrite ld_st_same. rewrite ld_st_other by (unfold disjoint_ranges; rewrite Oreq, Ocmp; lia).
    replace (ld64 _ (UD_POOL_SLOT 2 + PUB_COMPLETE)) with 0; [reflexivity|]. symmetry.
    rewrite (agree_ld 8 (fun x => UD_POOL_SLOT 2 + 272 <=? x) _ demo_ready); [vm_compute; reflexivity| |].
    + intros x Hx. apply st_struct_out; [apply demo_contract_ok|lia].
    + intros i Hi. rewrite Ocmp. lia.
  - unfold demo_request. rewrite (agree_struct (A := ud_contract) (fun x => x <? UD_POOL_SLOT 2 + 272) _
      (st_struct demo_ready (UD_POOL_SLOT 2) demo_contract)).
    + rewrite ld_st_struct by apply demo_contract_ok. vm_compute. reflexivity.
    + intros x Hx. apply st_out. rewrite Oreq. lia.
    + intros i Hi. lia.
Qed.

Lemma poll_answers_every_request_witness :
  let m' := (ud_pool_poll demo_request).2 in answered UD_PROFILE_MICRO 2 demo_request m' /\ ud_pool_poll m' = (0, m').
Proof.
  assert (Htag : ld_struct ud_profile_header demo_request UD_PROFILE_OFFSET =
                 mk_profile_header UD_PROFILE_MAGIC UD_POOL_ABI UD_PROFILE_MICRO).
  { rewrite (agree_struct (A := ud_profile_header) _ _ _ _ demo_request_out).
    - apply (init_tag_load 9 UD_PROFILE_MICRO blank); unfold UD_PROFILE_MICRO, UD_PROFILE_SOCIAL_SHARED; lia.
    - intros i Hi. destruct struct_sizes as (_ & _ & _ & _ & _ & Hx). unfold UD_PROFILE_OFFSET, UD_POOL_SLOT. lia. }
  assert (Hhead : ud_pool_header_valid (ld_struct ud_pool_header demo_request 0) = true).
  { rewrite (agree_struct (A := ud_pool_header) _ _ _ _ demo_request_out).
    - unfold demo_ready. rewrite init_header_load by (unfold UD_PROFILE_MICRO, UD_PROFILE_SOCIAL_SHARED; lia). reflexivity.
    - intros i Hi. destruct struct_sizes as (_ & _ & _ & _ & Hx & _). unfold UD_POOL_SLOT. lia. }
  pose proof (poll_answers_every_request demo_request demo_request_ok Hhead) as H. cbn zeta in H.
  rewrite Htag in H. specialize (H eq_refl eq_refl ltac:(vm_compute; discriminate)).
  destruct (ud_pool_poll demo_request) as [rc m']. destruct H as (_ & _ & Ha & Hi). cbn [snd].
  split; [|exact Hi]. apply Ha; [unfold UD_CLIENTS; lia|apply demo_request_pending].
Defined.
