(* ===== verification/Kernel.v ===== *)
(** * The kernel module's world: kernel/ub-domain/domain.c

    The session record, the state a handler works on, the Linux facilities the
    module calls and the monad its functions are written in.

    Linux is not part of the repository: a [linux] record holds what it answers
    during one handler call (identity and capability of the caller, system
    registers, VMAs and page-table entries of the process, readable user memory),
    and [answers] the results its allocators will give, in call order.  The
    module's own accounting is explicit: [k_pages], [k_tokens], [k_pinned],
    [k_files] are the pages, ASID tokens, pinned contexts and file references it
    holds, [k_stale] the ASIDs that may have TLB entries; returning something it
    does not hold, or an ASID that still has TLB entries, sets [k_fault].

    Kernel pointers to pages are the physical addresses [virt_to_phys] gives;
    NULL is 0. *)

From Stdlib Require Import String.
From S2P Require Import Prelude Monad CMem Abi PoolSlots.

(** ** Sessions *)

Record ud_session := mk_session {
  s_owner : Z; s_mm : Z;
  s_asid_token : list Z; s_asid : list Z; s_empty_root : Z;
  s_completion : Z;
  s_nested_path : Z; s_profile : Z; s_code_mode : Z; s_remote_service : Z; s_social_nginx_count : Z;
  s_remote_words : list Z;
  s_pool_generation : Z; s_pool_bank : Z; s_pool_slot : Z;
  s_multi : bool; s_pool_reserved : bool; s_pool_exposed : bool; s_pool_reusable : bool;
  s_p : ud_prepare;
  s_code : list Z; s_stack : list Z; s_args : list Z;
  s_social_extra : ud_social_extra;
  s_social_token : list Z; s_social_asid : list Z; s_social_code : list Z; s_social_stack : list Z;
  s_initial : list ud_initial;
  s_import_file : list Z;
  s_prepared : bool; s_committed : bool }.

#[export] Instance eta_session : Eta ud_session := fun r =>
  mk_session (s_owner r) (s_mm r) (s_asid_token r) (s_asid r) (s_empty_root r) (s_completion r)
    (s_nested_path r) (s_profile r) (s_code_mode r) (s_remote_service r) (s_social_nginx_count r)
    (s_remote_words r) (s_pool_generation r) (s_pool_bank r) (s_pool_slot r) (s_multi r)
    (s_pool_reserved r) (s_pool_exposed r) (s_pool_reusable r) (s_p r) (s_code r) (s_stack r)
    (s_args r) (s_social_extra r) (s_social_token r) (s_social_asid r) (s_social_code r)
    (s_social_stack r) (s_initial r) (s_import_file r) (s_prepared r) (s_committed r).

#[export] Instance eta_prepare : Eta ud_prepare := fun r => mk_prepare (p_import_va r) (p_contract r).
#[export] Instance eta_contract : Eta ud_contract := fun r =>
  mk_contract (c_magic r) (c_nonce r) (c_abi r) (c_wb_index r) (c_nc_index r) (c_reserved r) (c_tables r)
    (c_heap_pa r) (c_code_pa r) (c_stack_pa r) (c_args_pa r) (c_write_pa r).
#[export] Instance eta_extra : Eta ud_social_extra := fun r =>
  mk_extra (e_nonce r) (e_abi r) (e_domains r) (e_domain r).
#[export] Instance eta_extra_domain : Eta ud_social_extra_domain := fun r =>
  mk_extra_domain (x_table_pa r) (x_code_pa r) (x_stack_pa r).

(** [memset(&s->p, 0, sizeof(s->p))] and the zeroed arrays of [kzalloc]. *)
Definition zero_contract : ud_contract :=
  mk_contract 0 0 0 0 0 0 (replicate 16 0) 0 (replicate 4 0) (replicate 4 0) (replicate 4 0) 0.
Definition zero_extra : ud_social_extra :=
  mk_extra 0 0 0 (replicate 4 (mk_extra_domain (replicate 4 0) 0 0)).
Definition IMPORT_FILES : nat := 34. (* UD_DOMAINS * 4 + 2 + UD_SOCIAL_EXTRA_DOMAINS * 4 *)

Definition new_session (owner mm : Z) : ud_session :=
  mk_session owner mm (replicate 4 0) (replicate 4 0) 0 0 0 0 0 0 0 (replicate 4 0) 0 0 0
    false false false false (mk_prepare 0 zero_contract)
    (replicate 4 0) (replicate 4 0) (replicate 4 0) zero_extra
    (replicate 4 0) (replicate 4 0) (replicate 4 0) (replicate 4 0)
    (replicate 4 (mk_initial 0 0 0 0)) (replicate IMPORT_FILES 0) false false.

(** ** Linux *)

Record vm_file := mk_file { f_id : Z; f_name : string }.
Record vm_area := mk_vma {
  vm_start : Z; vm_end : Z; vm_io_pfnmap : bool; vm_shared : bool; vm_read : bool; vm_write : bool;
  vm_file_of : option vm_file }.

(** The upper levels of a walk: none, bad, a block mapping, or a table. *)
Inductive upper := UNone | UBad | USect | UTable.

Record linux := mk_linux {
  l_current : Z; l_current_mm : Z; l_capable : bool; l_interrupted : bool;
  l_tcr : Z; l_mair : Z; l_current_el : Z; l_mmfr0 : Z;
  l_experimental : bool; l_allow_remote_code : bool;
  l_irq_prio_masking : bool; l_kasan : bool; l_kcsan : bool;
  l_mt_normal : Z; l_mt_normal_nc : Z; l_task_size : Z; l_page_shift : Z;
  l_find_vma : Z -> option vm_area;
  l_pgd : Z -> upper; l_p4d : Z -> upper; l_pud : Z -> upper; l_pmd : Z -> upper;
  l_follow_pte : Z -> Z + Z;         (* the pte, or an error *)
  l_pte_pfn : Z -> Z; l_pte_attr : Z -> Z; l_pte_valid_user : Z -> bool; l_pte_write : Z -> bool;
  l_user : Z -> option Z;            (* user address to the byte behind it *)
  l_copy_out : bool;                 (* copy_to_user succeeds *)
  l_kmalloc : bool;                  (* the scratch buffers of a commit can be allocated *)
  l_cpu : Z; l_elapsed : Z }.

Record answers := mk_answers { a_pages : list Z; a_tokens : list Z; a_asids : list Z; a_random : list Z }.

Record kstate := mk_k {
  k_s : ud_session;
  k_banks : list ud_pool_bank;
  k_pages : list Z; k_tokens : list Z; k_pinned : list Z; k_files : list Z; k_stale : list Z;
  k_fault : bool;
  k_mem : mem;
  k_answers : answers }.

#[export] Instance eta_kstate : Eta kstate := fun r =>
  mk_k (k_s r) (k_banks r) (k_pages r) (k_tokens r) (k_pinned r) (k_files r) (k_stale r) (k_fault r)
    (k_mem r) (k_answers r).
#[export] Instance eta_answers : Eta answers := fun r =>
  mk_answers (a_pages r) (a_tokens r) (a_asids r) (a_random r).

(** ** Handlers work on the state of one session *)

Definition M : Type -> Type := MS kstate.

Definition session : M ud_session := k <- get ;; ret (k_s k).
Definition set_session (f : ud_session -> ud_session) : M unit := k <- get ;; put k.{ k_s := f (k_s k) }.

(** ** Resources *)

Fixpoint remove1 (x : Z) (l : list Z) : option (list Z) :=
  match l with
  | [] => None
  | y :: l => if x =? y then Some l else option_map (cons y) (remove1 x l)
  end.

Definition violation : M unit := k <- get ;; put k.{ k_fault := true }.

(** The page comes zeroed. *)
Definition get_zeroed_page : M Z :=
  k <- get ;;
  match a_pages (k_answers k) with
  | [] => ret 0
  | pa :: rest =>
      let k := k.{ k_answers := (k_answers k).{ a_pages := rest } } in
      if z0 pa then put k ;; ret 0
      else put (k.{ k_pages := pa :: k_pages k }.{ k_mem := fill (k_mem k) pa UD_PAGE 0 }) ;; ret pa
  end.

Definition free_page (pa : Z) : M unit :=
  k <- get ;;
  match remove1 pa (k_pages k) with
  | Some l => put k.{ k_pages := l }
  | None => violation
  end.

Definition free_if (pa : Z) : M unit := if nz pa then free_page pa else ret tt.

(** [kzalloc(sizeof(struct mm_struct))] followed by [init_new_context]. *)
Definition alloc_token : M Z :=
  k <- get ;;
  match a_tokens (k_answers k) with
  | [] => ret 0
  | t :: rest =>
      let k := k.{ k_answers := (k_answers k).{ a_tokens := rest } } in
      if z0 t then put k ;; ret 0 else put k.{ k_tokens := t :: k_tokens k } ;; ret t
  end.

Definition kfree_token (t : Z) : M unit :=
  if z0 t then ret tt
  else k <- get ;;
    match remove1 t (k_tokens k) with
    | Some l => if bool_decide (t ∈ k_pinned k) then violation else put k.{ k_tokens := l }
    | None => violation
    end.

(** A 16-bit ASID; 0 when none can be pinned. *)
Definition arm64_mm_context_get (t : Z) : M Z :=
  k <- get ;;
  match a_asids (k_answers k) with
  | [] => ret 0
  | a :: rest =>
      let a := a mod 2 ^ 16 in
      let k := k.{ k_answers := (k_answers k).{ a_asids := rest } } in
      if z0 a then put k ;; ret 0 else put k.{ k_pinned := t :: k_pinned k } ;; ret a
  end.

(** [asid] is the one [t] pins. *)
Definition arm64_mm_context_put (t asid : Z) : M unit :=
  k <- get ;;
  match remove1 t (k_pinned k) with
  | Some l => if bool_decide (asid ∈ k_stale k) then violation else put k.{ k_pinned := l }
  | None => violation
  end.

(** [dsb ishst; tlbi aside1is, asid; dsb ish; isb] *)
Definition tlbi_asid (asid : Z) : M unit :=
  k <- get ;; put k.{ k_stale := filter (fun a => a <> asid) (k_stale k) }.

Definition get_file (f : Z) : M unit := k <- get ;; put k.{ k_files := f :: k_files k }.
Definition fput (f : Z) : M unit :=
  k <- get ;;
  match remove1 f (k_files k) with
  | Some l => put k.{ k_files := l }
  | None => violation
  end.

Definition get_random_u64 : M Z :=
  k <- get ;;
  match a_random (k_answers k) with
  | [] => ret 0
  | r :: rest => put k.{ k_answers := (k_answers k).{ a_random := rest } } ;; ret (u64 r)
  end.

(** ** User memory *)

Section user.
Context (L : linux).

Definition readable (va n : Z) : bool :=
  for_all n (fun i => match l_user L (va + i) with Some _ => true | None => false end).

(** The user's view of memory. *)
Definition user_view (m : mem) : mem :=
  fun va => match l_user L va with Some pa => m pa | None => 0 end.

Definition copy_bytes (va n : Z) : M (list Z) :=
  k <- get ;; if readable va n then ret (load_bytes (user_view (k_mem k)) va n) else raise (- EFAULT).
Definition copy_struct (A : Type) `{CStruct A} (va : Z) : M A :=
  k <- get ;; if readable va (sizeof A) then ret (ld_struct A (user_view (k_mem k)) va) else raise (- EFAULT).
Definition copy_u64 (va : Z) : M Z :=
  k <- get ;; if readable va 8 then ret (ld64 (user_view (k_mem k)) va) else raise (- EFAULT).
End user.
