(* ===== verification/KernelLogic.v ===== *)
(** * Reasoning about handlers

    The tactic [wp_go] that walks through a handler, and the specifications of the
    resource operations against the arrays in which the session records what it
    holds. *)

From S2P Require Import Prelude Monad CMem Abi Kernel.

(** ** Handlers *)

Section session_rules.
Implicit Types (Q : unit -> kstate -> Prop) (E : Z -> kstate -> Prop).

Lemma wp_session (Q : ud_session -> kstate -> Prop) E k : Q (k_s k) k -> wp session Q E k.
Proof. done. Qed.
Lemma wp_set_session f Q E k : Q tt k.{ k_s := f (k_s k) } -> wp (set_session f) Q E k.
Proof. done. Qed.
End session_rules.

(** One step through a handler; calls are left to the caller. *)
Ltac handler_step :=
  lazymatch goal with
  | |- wp session _ _ _ => apply wp_session
  | |- wp (set_session _) _ _ _ => apply wp_set_session
  | |- _ => wp_step
  end.
Ltac wp_go := repeat (handler_step; cbv beta).

(** ** What an array of handles claims

    A session records its resources in arrays in which 0 means none. *)

Section claims.
Context {A : Type} (d : A) (f : A -> list Z).

Definition claims (l : list A) : list Z := concat (f <$> l).

Lemma claims_app l l' : claims (l ++ l') = claims l ++ claims l'.
Proof. unfold claims. by rewrite fmap_app, concat_app. Qed.

(** Replacing entry [i] gives back what it claimed and adds what [x] claims. *)
Lemma claims_set l i x :
  0 <= i < Z.of_nat (length l) -> f (nthz d l i) ++ claims (setz l i x) ≡ₚ f x ++ claims l.
Proof.
  intros Hi. destruct (lookup_lt_is_Some_2 l (Z.to_nat i) ltac:(lia)) as [y Hy].
  replace (nthz d l i) with y by (symmetry; apply nth_lookup_Some, Hy).
  unfold setz. rewrite insert_take_drop by lia.
  rewrite <- (take_drop_middle l (Z.to_nat i) y Hy) at 3.
  rewrite !claims_app. unfold claims. simpl. solve_Permutation.
Qed.
End claims.

Definition one (x : Z) : list Z := if z0 x then [] else [x].
Definition pin (at_ : Z * Z) : list Z := if z0 at_.1 then [] else [at_.2].

Lemma elem_of_one x y : x ∈ one y <-> x = y /\ y <> 0.
Proof. unfold one, z0. destruct (Z.eqb_spec y 0); set_solver. Qed.

Lemma elem_of_claims_one x l : x ∈ claims one l <-> x ∈ l /\ x <> 0.
Proof.
  unfold claims. induction l as [|y l IH]; simpl; [set_solver|].
  rewrite elem_of_app, IH, elem_of_one. set_solver.
Qed.

Lemma claims_zero n : claims one (replicate n 0) = [].
Proof. induction n; simpl; done. Qed.
Lemma claims_pin_zero n l : claims pin (zip (replicate n 0) l) = [].
Proof. revert l. induction n; intros [|x l]; simpl; try done. apply IHn. Qed.

Lemma claims_one_set l i x :
  0 <= i < Z.of_nat (length l) -> one l.[i] ++ claims one (setz l i x) ≡ₚ one x ++ claims one l.
Proof. apply claims_set. Qed.

Lemma nthz_zip (l l' : list Z) i :
  0 <= i < Z.of_nat (length l) -> length l = length l' -> nthz (0, 0) (zip l l') i = (l.[i], l'.[i]).
Proof.
  intros Hi Hlen.
  destruct (lookup_lt_is_Some_2 l (Z.to_nat i) ltac:(lia)) as [x Hx].
  destruct (lookup_lt_is_Some_2 l' (Z.to_nat i) ltac:(lia)) as [y Hy].
  unfold nthz. rewrite (nth_lookup_Some _ _ _ _ Hx), (nth_lookup_Some _ _ _ _ Hy).
  apply nth_lookup_Some. by rewrite lookup_zip_with, Hx; simpl; rewrite Hy.
Qed.
Lemma zip_set (l l' : list Z) i x y :
  zip (setz l i x) (setz l' i y) = setz (zip l l') i (x, y).
Proof. unfold setz. symmetry. apply insert_zip_with. Qed.
Lemma claims_pin_set (l l' : list Z) i x y :
  0 <= i < Z.of_nat (length l) -> length l = length l' ->
  pin (l.[i], l'.[i]) ++ claims pin (zip (setz l i x) (setz l' i y)) ≡ₚ pin (x, y) ++ claims pin (zip l l').
Proof.
  intros Hi Hlen. rewrite zip_set, <- nthz_zip by done. apply claims_set.
  rewrite length_zip_with. lia.
Qed.

Lemma remove1_perm x l l' : l ≡ₚ x :: l' -> exists r, remove1 x l = Some r /\ r ≡ₚ l'.
Proof.
  revert l'. induction l as [|y l IH]; intros l' Hp.
  { by apply Permutation_nil_cons in Hp. }
  simpl. destruct (Z.eqb_spec x y) as [->|Hne].
  - exists l. split; [done|]. by apply Permutation_cons_inv in Hp.
  - assert (Hin : x ∈ l).
    { assert (x ∈ y :: l) as [?|?]%elem_of_cons by (rewrite Hp; left); done. }
    apply elem_of_Permutation in Hin as [l2 Hl2].
    destruct (IH l2 Hl2) as (r & -> & Hr). exists (y :: r). split; [done|].
    rewrite Hl2 in Hp. rewrite Hr. apply (Permutation_cons_inv (a := x)). by rewrite <- Hp, perm_swap.
Qed.

(** ** The books

    [accounts k pg ak tk fl]: what the module holds in [k] is what the arrays of
    pages [pg], ASIDs [ak], ASID tokens [tk] and files [fl] claim; only claimed
    ASIDs can have TLB entries; the pages and tokens Linux has in store are distinct
    from each other and from those held; nothing has been misused. *)

Definition page_address (p : Z) : Prop := in_u64 p /\ p mod UD_PAGE = 0.

Record accounts (k : kstate) (pg ak tk fl : list Z) : Prop := {
  ac_pages : k_pages k ≡ₚ claims one pg;
  ac_tokens : k_tokens k ≡ₚ claims one tk;
  ac_pinned : k_pinned k ≡ₚ claims pin (zip ak tk);
  ac_files : k_files k ≡ₚ claims one fl;
  ac_stale : forall a, a ∈ k_stale k -> a ∈ claims one ak;
  ac_fresh : NoDup (claims one (a_tokens (k_answers k)) ++ k_tokens k);
  ac_store : NoDup (claims one (a_pages (k_answers k)) ++ k_pages k);
  ac_aligned : Forall page_address (a_pages (k_answers k) ++ k_pages k);
  ac_len : length ak = length tk;
  ac_range : Forall (fun a => 0 <= a < 2 ^ 16) ak;
  ac_fault : k_fault k = false }.

(** Only resources have changed. *)
Definition same_session (k k' : kstate) : Prop :=
  k_s k' = k_s k /\ k_banks k' = k_banks k.

Ltac books := match goal with
  | H : accounts _ _ _ _ _ |- accounts _ _ _ _ _ => destruct H; constructor; simpl in *; try done
  end.

(** Handler steps that touch no resource keep the books. *)
Lemma accounts_frame k k' pg ak tk fl :
  accounts k pg ak tk fl ->
  k_pages k' = k_pages k -> k_tokens k' = k_tokens k -> k_pinned k' = k_pinned k -> k_files k' = k_files k ->
  k_stale k' = k_stale k -> k_fault k' = k_fault k -> a_tokens (k_answers k') = a_tokens (k_answers k) ->
  a_pages (k_answers k') = a_pages (k_answers k) -> accounts k' pg ak tk fl.
Proof. intros [] Hp Ht Hn Hf Hs Hx Ha Hg. constructor; rewrite ?Hp, ?Ht, ?Hn, ?Hf, ?Hs, ?Hx, ?Ha, ?Hg; done. Qed.

Section operations.
Context (E : Z -> kstate -> Prop) (k : kstate) (pg ak tk fl : list Z).
Hypothesis Hac : accounts k pg ak tk fl.

Lemma setz_zero l i : 0 <= i < Z.of_nat (length l) -> l.[i] = 0 -> setz l i 0 = l.
Proof. intros Hi H0. pose proof (setz_same l i Hi) as H. by rewrite H0 in H. Qed.

Lemma claims_one_take l i x :
  0 <= i < Z.of_nat (length l) -> l.[i] = 0 -> x <> 0 -> claims one (setz l i x) ≡ₚ x :: claims one l.
Proof.
  intros Hi H0 Hx. pose proof (claims_one_set l i x Hi) as H. rewrite H0 in H.
  unfold one at 1 3, z0 in H. by destruct (Z.eqb_spec x 0).
Qed.
Lemma claims_one_drop l i :
  0 <= i < Z.of_nat (length l) -> l.[i] <> 0 -> claims one l ≡ₚ l.[i] :: claims one (setz l i 0).
Proof.
  intros Hi Hx. pose proof (claims_one_set l i 0 Hi) as H.
  unfold one at 1 3, z0 in H. by destruct (Z.eqb_spec l.[i] 0).
Qed.

Lemma wp_get_zeroed_page i (Q : Z -> kstate -> Prop) :
  0 <= i < Z.of_nat (length pg) -> pg.[i] = 0 ->
  (forall p k', same_session k k' -> accounts k' (setz pg i p) ak tk fl -> Q p k') ->
  wp get_zeroed_page Q E k.
Proof using Hac.
  intros Hi Hfree HQ. unfold get_zeroed_page. pose proof (ac_store _ _ _ _ _ Hac) as Hst.
  pose proof (ac_aligned _ _ _ _ _ Hac) as Hal.
  wp_go; apply HQ; try done; bprop; try rewrite Heql in Hst, Hal.
  - by rewrite setz_zero.
  - rewrite setz_zero by done. simpl in Hal. apply List.Forall_cons_iff in Hal as [_ Hal]. subst z. books.
  - assert (Hone : one z = [z]) by (unfold one, z0; by destruct (Z.eqb_spec z 0)).
    unfold claims in Hst. simpl in Hst. rewrite Hone in Hst. simpl in Hst. books.
    + by rewrite claims_one_take, ac_pages0.
    + by rewrite <- Permutation_middle.
    + by rewrite <- Permutation_middle.
Qed.

Lemma wp_free_if i pa (Q : unit -> kstate -> Prop) :
  0 <= i < Z.of_nat (length pg) -> pg.[i] = pa ->
  (forall k', same_session k k' -> accounts k' (setz pg i 0) ak tk fl -> Q tt k') ->
  wp (free_if pa) Q E k.
Proof using Hac.
  intros Hi <- HQ. unfold free_if, free_page. wp_step; bprop.
  - destruct (remove1_perm pg.[i] (k_pages k) (claims one (setz pg i 0))) as (r & Hr & Hp).
    { by rewrite (ac_pages _ _ _ _ _ Hac), claims_one_drop. }
    assert (Hperm : k_pages k ≡ₚ pg.[i] :: r) by by rewrite (ac_pages _ _ _ _ _ Hac), Hp, claims_one_drop.
    wp_go; simplify_eq. apply HQ; [done|]. books.
    + rewrite Hperm, <- Permutation_middle in ac_store0. by apply NoDup_cons in ac_store0 as [_ ?].
    + rewrite Hperm, <- Permutation_middle in ac_aligned0. by apply List.Forall_cons_iff in ac_aligned0 as [_ ?].
  - apply HQ; [done|]. by rewrite setz_zero.
Qed.

Lemma wp_get_file i f (Q : unit -> kstate -> Prop) :
  0 <= i < Z.of_nat (length fl) -> fl.[i] = 0 -> f <> 0 ->
  (forall k', same_session k k' -> accounts k' pg ak tk (setz fl i f) -> Q tt k') ->
  wp (get_file f) Q E k.
Proof using Hac.
  intros Hi Hfree Hf HQ. unfold get_file. wp_go. apply HQ; [done|].
  books. by rewrite claims_one_take, ac_files0.
Qed.

Lemma wp_fput i (Q : unit -> kstate -> Prop) :
  0 <= i < Z.of_nat (length fl) -> fl.[i] <> 0 ->
  (forall k', same_session k k' -> accounts k' pg ak tk (setz fl i 0) -> Q tt k') ->
  wp (fput fl.[i]) Q E k.
Proof using Hac.
  intros Hi Hf HQ. unfold fput.
  destruct (remove1_perm fl.[i] (k_files k) (claims one (setz fl i 0))) as (r & Hr & Hp).
  { by rewrite (ac_files _ _ _ _ _ Hac), claims_one_drop. }
  wp_go; simplify_eq. apply HQ; [done|]. books.
Qed.

(** Pins are those of the entries with an ASID: replacing the token of an entry
    without one changes nothing. *)
Lemma pins_set_token i x :
  0 <= i < Z.of_nat (length ak) -> ak.[i] = 0 -> claims pin (zip ak (setz tk i x)) ≡ₚ claims pin (zip ak tk).
Proof using Hac.
  intros Hi H0. pose proof (claims_pin_set ak tk i 0 x Hi (ac_len _ _ _ _ _ Hac)) as H.
  by rewrite setz_zero, H0 in H.
Qed.
Lemma pins_set_asid i x :
  0 <= i < Z.of_nat (length ak) ->
  pin (ak.[i], tk.[i]) ++ claims pin (zip (setz ak i x) tk) ≡ₚ pin (x, tk.[i]) ++ claims pin (zip ak tk).
Proof using Hac.
  intros Hi. pose proof (ac_len _ _ _ _ _ Hac) as Hl.
  pose proof (claims_pin_set ak tk i x tk.[i] Hi Hl) as H.
  rewrite setz_same in H by lia. done.
Qed.
Lemma claims_pin_sub x (l l' : list Z) : x ∈ claims pin (zip l l') -> x ∈ l'.
Proof.
  unfold claims. revert l'. induction l as [|a l IH]; intros [|t l']; simpl; try (by intros ?%elem_of_nil).
  rewrite elem_of_app. intros [Hx|Hx]; [|right; by apply IH].
  unfold pin in Hx. simpl in Hx. destruct (z0 a); set_solver.
Qed.

Lemma wp_alloc_token i (Q : Z -> kstate -> Prop) :
  0 <= i < Z.of_nat (length tk) -> tk.[i] = 0 -> ak.[i] = 0 ->
  (forall t k', same_session k k' -> accounts k' pg ak (setz tk i t) fl -> Q t k') ->
  wp alloc_token Q E k.
Proof using Hac.
  intros Hi Ht Ha HQ. unfold alloc_token. pose proof (ac_fresh _ _ _ _ _ Hac) as Hf.
  wp_go; apply HQ; try done; bprop; try rewrite Heql in Hf.
  - by rewrite setz_zero.
  - subst z. by rewrite setz_zero; [books|..].
  - assert (Hone : one z = [z]) by (unfold one, z0; by destruct (Z.eqb_spec z 0)).
    pose proof (pins_set_token i z) as Hp. pose proof (ac_len _ _ _ _ _ Hac).
    books.
    + by rewrite claims_one_take, ac_tokens0.
    + rewrite ac_pinned0, Hp; [done|lia|done].
    + unfold claims in Hf. simpl in Hf. rewrite Hone in Hf. simpl in Hf.
      by rewrite <- Permutation_middle.
    + by rewrite setz_length.
Qed.

Lemma wp_context_get i (Q : Z -> kstate -> Prop) :
  0 <= i < Z.of_nat (length ak) -> ak.[i] = 0 ->
  (forall a k', same_session k k' -> accounts k' pg (setz ak i a) tk fl -> Q a k') ->
  wp (arm64_mm_context_get tk.[i]) Q E k.
Proof using Hac.
  intros Hi Ha HQ. unfold arm64_mm_context_get. apply wp_bind, wp_get.
  destruct (a_asids (k_answers k)) as [|z rest]; [apply wp_ret, HQ; [done|by rewrite setz_zero]|]. cbv zeta.
  pose proof (Z.mod_pos_bound z (2 ^ 16) ltac:(lia)) as Hr. revert Hr. generalize (z mod 2 ^ 16) as a. intros a Hr.
  destruct (z0 a) eqn:Hz; unfold z0 in Hz; apply wp_bind, wp_put, wp_ret, HQ; try done.
  - apply Z.eqb_eq in Hz as ->. rewrite setz_zero by done. books.
  - pose proof (pins_set_asid i a Hi) as Hp. rewrite Ha in Hp. unfold pin at 1 3 in Hp.
    unfold z0 in Hp. simpl in Hp. rewrite Hz in Hp. apply Z.eqb_neq in Hz. simpl in Hp.
    books.
    + by rewrite Hp, ac_pinned0.
    + intros x Hx. rewrite claims_one_take by done. right. by apply ac_stale0.
    + by rewrite setz_length.
    + by apply setz_Forall.
Qed.

Lemma wp_tlbi a (Q : unit -> kstate -> Prop) :
  (forall k', same_session k k' -> a ∉ k_stale k' -> accounts k' pg ak tk fl -> Q tt k') ->
  wp (tlbi_asid a) Q E k.
Proof using Hac.
  intros HQ. unfold tlbi_asid. wp_go. apply HQ; [done| |].
  - simpl. rewrite list_elem_of_filter. naive_solver.
  - books. intros x. rewrite list_elem_of_filter. naive_solver.
Qed.

Lemma wp_context_put i (Q : unit -> kstate -> Prop) :
  0 <= i < Z.of_nat (length ak) -> ak.[i] <> 0 -> ak.[i] ∉ k_stale k ->
  (forall k', same_session k k' -> accounts k' pg (setz ak i 0) tk fl -> Q tt k') ->
  wp (arm64_mm_context_put tk.[i] ak.[i]) Q E k.
Proof using Hac.
  intros Hi Ha Hs HQ. unfold arm64_mm_context_put.
  pose proof (pins_set_asid i 0 Hi) as Hp. unfold pin at 1 3 in Hp.
  unfold z0 in Hp. simpl in Hp. destruct (Z.eqb_spec ak.[i] 0); [done|]. simpl in Hp.
  destruct (remove1_perm tk.[i] (k_pinned k) (claims pin (zip (setz ak i 0) tk))) as (r & Hr & Hpr).
  { by rewrite (ac_pinned _ _ _ _ _ Hac), Hp. }
  apply wp_bind, wp_get. rewrite Hr. rewrite bool_decide_eq_false_2 by done.
  apply wp_put, HQ; [done|]. books.
  - intros x Hx. specialize (ac_stale0 x Hx). rewrite (claims_one_drop ak i) in ac_stale0 by done.
    apply elem_of_cons in ac_stale0 as [->|?]; done.
  - by rewrite setz_length.
  - by apply setz_Forall.
Qed.

Lemma wp_kfree_token i (Q : unit -> kstate -> Prop) :
  0 <= i < Z.of_nat (length tk) -> ak.[i] = 0 ->
  (forall k', same_session k k' -> accounts k' pg ak (setz tk i 0) fl -> Q tt k') ->
  wp (kfree_token tk.[i]) Q E k.
Proof using Hac.
  intros Hi Ha HQ. pose proof (ac_len _ _ _ _ _ Hac) as Hl. unfold kfree_token.
  destruct (z0 tk.[i]) eqn:Hz; bprop.
  { apply wp_ret, HQ; [done|]. by rewrite setz_zero. }
  pose proof (claims_one_drop tk i Hi Hz) as Hd.
  destruct (remove1_perm tk.[i] (k_tokens k) (claims one (setz tk i 0))) as (r & Hr & Hp).
  { by rewrite (ac_tokens _ _ _ _ _ Hac). }
  pose proof (pins_set_token i 0 ltac:(lia) Ha) as Hpin.
  apply wp_bind, wp_get. rewrite Hr. 
  assert (Hnd : NoDup (claims one (a_tokens (k_answers k)) ++ tk.[i] :: r)).
  { pose proof (ac_fresh _ _ _ _ _ Hac) as Hf. by rewrite (ac_tokens _ _ _ _ _ Hac), Hd, <- Hp in Hf. }
  rewrite bool_decide_eq_false_2.
  - apply wp_put, HQ; [done|]. books.
    + by rewrite ac_pinned0, Hpin.
    + rewrite <- Permutation_middle in Hnd. by apply NoDup_cons in Hnd as [_ ?].
    + by rewrite setz_length.
  - rewrite (ac_pinned _ _ _ _ _ Hac), <- Hpin. intros Hin%claims_pin_sub.
    apply NoDup_app in Hnd as (_ & _ & [Hni _]%NoDup_cons). apply Hni. rewrite Hp.
    by apply elem_of_claims_one.
Qed.

Lemma wp_get_random (Q : Z -> kstate -> Prop) :
  (forall r k', in_u64 r -> same_session k k' -> accounts k' pg ak tk fl -> Q r k') -> wp get_random_u64 Q E k.
Proof using Hac. intros HQ. unfold get_random_u64. wp_go; apply HQ; try done; [apply u64_range|books]. Qed.
End operations.
