(* ===== verification/Session.v ===== *)
(** * Sessions: preparing and committing a connection

    kernel/ub-domain/domain.c from [ud_mair_index] to [ud_commit] (EL1 build).
    The handlers are written in the monad of [Kernel]; [L] is what Linux answers
    during the call. *)

From Stdlib Require Import String.
From S2P Require Import Prelude Monad CMem Abi Layout PoolSlots RemoteCode Social Services Pool Kernel.

(** ** Platform checks *)

Definition mair_field (mair i : Z) : Z := (mair .>> (8 * i)) .& 255.

Fixpoint mair_scan (mair encoding : Z) (slots : list Z) : Z :=
  match slots with
  | [] => - EOPNOTSUPP
  | i :: slots => if mair_field mair i =? encoding then i else mair_scan mair encoding slots
  end.

Definition ud_mair_index (mair encoding preferred : Z) : Z :=
  if mair_field mair preferred =? encoding then preferred
  else mair_scan mair encoding (seqZ 0 8).

Definition ud_supported (L : linux) : Z :=
  if l_current_el L !=? 4 then - EOPNOTSUPP
  else if negb (l_experimental L) then - EOPNOTSUPP
  else if l_irq_prio_masking L then - EOPNOTSUPP
  else if l_kasan L || l_kcsan L then - EOPNOTSUPP
  else if ((l_mmfr0 L .>> 28) .& 15) >? 1 then - EOPNOTSUPP
  else if (((l_tcr L .>> 32) .& 7) >? 5) || nz (l_tcr L .& (1 .<< 59)) then - EOPNOTSUPP
  else if (ud_mair_index (l_mair L) 0xff (l_mt_normal L) <? 0) ||
          (ud_mair_index (l_mair L) 0x44 (l_mt_normal_nc L) <? 0) then - EOPNOTSUPP
  else 0.

(** ** Importing the region *)

Definition write_offset (s : ud_session) : Z :=
  if s_profile s =? UD_PROFILE_SOCIAL_SHARED then UD_SHARED_HEAP else UD_WRITE_HEAP (s_pool_slot s).

Definition none_or_bad (u : upper) : bool := match u with UNone | UBad => true | _ => false end.
Definition none_bad_or_sect (u : upper) : bool := match u with UTable => false | _ => true end.

(** The physical address behind an offset of the imported region. *)
Definition ud_import_pa (L : linux) (offset slot : Z) (initialize : bool) : M Z :=
  s <- session ;;
  let va := u64 (p_import_va (s_p s) + offset) in
  match l_find_vma L va with
  | None => raise (- EINVAL)
  | Some vma =>
      match vm_file_of vma with
      | None => raise (- EINVAL)
      | Some f =>
          fail_if ((va <? vm_start vma) || (u64 (vm_end vma - va) <? UD_PAGE) || negb (vm_io_pfnmap vma) ||
                   negb (vm_shared vma) || negb (vm_read vma)) (- EINVAL) ;;
          fail_if (negb (String.prefix "obmm_shmdev" (f_name f))) (- EXDEV) ;;
          fail_if (negb initialize && (f_id f !=? (s_import_file s).[slot])) (- ESTALE) ;;
          fail_if (none_or_bad (l_pgd L va)) (- EINVAL) ;;
          fail_if (none_or_bad (l_p4d L va)) (- EINVAL) ;;
          fail_if (none_bad_or_sect (l_pud L va)) (- EOPNOTSUPP) ;;
          fail_if (none_bad_or_sect (l_pmd L va)) (- EOPNOTSUPP) ;;
          match l_follow_pte L va with
          | inr rc => raise rc
          | inl pte =>
              let pa := u64 ((l_pte_pfn L pte .<< l_page_shift L) + va mod 2 ^ l_page_shift L) in
              fail_if (negb ((mair_field (l_mair L) (l_pte_attr L pte) =? 0x44) && l_pte_valid_user L pte)) (- EOPNOTSUPP) ;;
              fail_if (write_profile (s_profile s) && (offset =? write_offset s) &&
                       (negb (vm_write vma) || negb (l_pte_write L pte))) (- EACCES) ;;
              fail_if (negb (ud_pa_valid pa)) (- ERANGE) ;;
              (if initialize then
                 get_file (f_id f) ;;
                 set_session (fun s => s.{ s_import_file := setz (s_import_file s) slot (f_id f) })
               else ret tt) ;;
              ret pa
          end
      end
  end.

Definition set_contract (f : ud_contract -> ud_contract) : M unit :=
  set_session (fun s => s.{ s_p := (s_p s).{ p_contract := f (p_contract (s_p s)) } }).
Definition set_extra_domain (d : Z) (f : ud_social_extra_domain -> ud_social_extra_domain) : M unit :=
  set_session (fun s => s.{ s_social_extra :=
    (s_social_extra s).{ e_domain := setz (e_domain (s_social_extra s)) d (f (e_dom (s_social_extra s) d)) } }).

(** Record the address the first time, compare it afterwards. *)
Definition import (L : linux) (offset slot : Z) (initialize : bool) (recorded : ud_session -> Z)
    (record : Z -> M unit) : M unit :=
  pa <- ud_import_pa L offset slot initialize ;;
  if initialize then record pa
  else s <- session ;; fail_if (recorded s !=? pa) (- ESTALE).

Definition table_offset (s : ud_session) (d l : Z) : Z :=
  if s_multi s then UD_POOL_TABLE (s_pool_slot s) d l else UD_TABLE d l.

Definition three_nginx (s : ud_session) : bool :=
  (s_profile s =? UD_PROFILE_SOCIAL) && (s_social_nginx_count s =? 3).

Definition ud_mapping (L : linux) (initialize : bool) : M unit :=
  s <- session ;;
  for_m UD_DOMAINS (fun d => for_m 4 (fun l =>
    import L (table_offset s d l) (d * 4 + l) initialize
      (fun s => c_table_pa (p_contract (s_p s)) d l)
      (fun pa => set_contract (fun c => c.{ c_tables := setz (c_tables c) (4 * d + l) pa })))) ;;
  import L UD_HEAP (UD_DOMAINS * 4) initialize (fun s => c_heap_pa (p_contract (s_p s)))
    (fun pa => set_contract (fun c => c.{ c_heap_pa := pa })) ;;
  (if write_profile (s_profile s) then
     import L (write_offset s) (UD_DOMAINS * 4 + 1) initialize (fun s => c_write_pa (p_contract (s_p s)))
       (fun pa => set_contract (fun c => c.{ c_write_pa := pa }))
   else ret tt) ;;
  (if three_nginx s then
     for_m UD_SOCIAL_EXTRA_DOMAINS (fun d => for_m 4 (fun l =>
       import L (UD_SOCIAL_EXTRA_TABLE (s_pool_slot s) d l) (UD_DOMAINS * 4 + 2 + d * 4 + l) initialize
         (fun s => (x_table_pa (e_dom (s_social_extra s) d)).[l])
         (fun pa => set_extra_domain d (fun x => x.{ x_table_pa := setz (x_table_pa x) l pa }))))
   else ret tt).

(** ** Releasing everything *)

(** Invalidate, unpin and free the ASID of one domain. *)
Definition free_asid (asids tokens : ud_session -> list Z) (clear_asid clear_token : Z -> M unit) (d : Z) : M unit :=
  s <- session ;;
  (if nz (asids s).[d] then
     tlbi_asid (asids s).[d] ;; arm64_mm_context_put (tokens s).[d] (asids s).[d] ;; clear_asid d
   else ret tt) ;;
  kfree_token (tokens s).[d] ;;
  clear_token d.

Definition free_main_asid : Z -> M unit :=
  free_asid s_asid s_asid_token
    (fun d => set_session (fun s => s.{ s_asid := setz (s_asid s) d 0 }))
    (fun d => set_session (fun s => s.{ s_asid_token := setz (s_asid_token s) d 0 })).

Definition free_social (d : Z) : M unit :=
  free_asid s_social_asid s_social_token
    (fun d => set_session (fun s => s.{ s_social_asid := setz (s_social_asid s) d 0 }))
    (fun d => set_session (fun s => s.{ s_social_token := setz (s_social_token s) d 0 })) d ;;
  s <- session ;;
  free_if (s_social_code s).[d] ;;
  free_if (s_social_stack s).[d] ;;
  set_session (fun s => s.{ s_social_code := setz (s_social_code s) d 0 }.{ s_social_stack := setz (s_social_stack s) d 0 }).

Definition free_main_pages (d : Z) : M unit :=
  s <- session ;;
  free_if (s_code s).[d] ;;
  free_if (s_stack s).[d] ;;
  free_if (s_args s).[d] ;;
  set_session (fun s => s.{ s_code := setz (s_code s) d 0 }.{ s_stack := setz (s_stack s) d 0 }.{ s_args := setz (s_args s) d 0 }).

Definition free_import (d : Z) : M unit :=
  s <- session ;;
  (if nz (s_import_file s).[d] then fput (s_import_file s).[d] else ret tt) ;;
  set_session (fun s => s.{ s_import_file := setz (s_import_file s) d 0 }).

Definition release_slot : M unit :=
  k <- get ;;
  let s := k_s k in
  if s_pool_reserved s then
    put (k.{ k_banks := ud_slots_release (k_banks k) (s_pool_bank s) (s_pool_slot s) (s_pool_exposed s) (s_pool_reusable s) }) ;;
    set_session (fun s => s.{ s_pool_reserved := false })
  else ret tt.

Definition ud_free_pages : M unit :=
  for_m UD_DOMAINS free_main_asid ;;
  for_m UD_SOCIAL_EXTRA_DOMAINS free_social ;;
  (s <- session ;; free_if (s_empty_root s) ;; set_session (fun s => s.{ s_empty_root := 0 })) ;;
  for_m UD_DOMAINS free_main_pages ;;
  for_m (Z.of_nat IMPORT_FILES) free_import ;;
  release_slot.

(** ** Preparing *)

(** Find the region's slot from the A-view address of its heap. *)
Definition discover_slot (L : linux) : M unit :=
  heap <- ud_import_pa L UD_HEAP (UD_DOMAINS * 4) true ;;
  k <- get ;;
  let s := k_s k in
  let '(rc, banks, bank, slot) :=
    ud_slots_acquire (k_banks k) heap (s_pool_generation s) (s_pool_bank s) (s_pool_slot s) in
  put (k.{ k_banks := banks }.{ k_s := s.{ s_pool_bank := bank }.{ s_pool_slot := slot } }) ;;
  fail_if (nz rc) rc ;;
  set_session (fun s => s.{ s_pool_reserved := true }) ;;
  s <- session ;;
  if nz (s_import_file s).[UD_DOMAINS * 4] then
    fput (s_import_file s).[UD_DOMAINS * 4] ;;
    set_session (fun s => s.{ s_import_file := setz (s_import_file s) (UD_DOMAINS * 4) 0 })
  else ret tt.

(** The ASID and the local pages of domain [d]. *)
Definition prepare_domain (d : Z) : M unit :=
  token <- alloc_token ;;
  set_session (fun s => s.{ s_asid_token := setz (s_asid_token s) d token }) ;;
  fail_if (z0 token) (- ENOMEM) ;;
  asid <- arm64_mm_context_get token ;;
  set_session (fun s => s.{ s_asid := setz (s_asid s) d asid }) ;;
  fail_if (z0 asid) (- ENOSPC) ;;
  tlbi_asid asid ;;
  code <- get_zeroed_page ;;
  set_session (fun s => s.{ s_code := setz (s_code s) d code }) ;;
  stack <- get_zeroed_page ;;
  set_session (fun s => s.{ s_stack := setz (s_stack s) d stack }) ;;
  args <- get_zeroed_page ;;
  set_session (fun s => s.{ s_args := setz (s_args s) d args }) ;;
  fail_if (z0 code || z0 stack || z0 args) (- ENOMEM) ;;
  s <- session ;;
  set_contract (fun c => c.{ c_code_pa := setz (c_code_pa c) d code }.{ c_stack_pa := setz (c_stack_pa c) d stack }
    .{ c_args_pa := setz (c_args_pa c) d
         (s_args s).[if s_profile s !=? UD_PROFILE_MICRO then 0 else d] }).

Definition prepare_extra_domain (d : Z) : M unit :=
  token <- alloc_token ;;
  set_session (fun s => s.{ s_social_token := setz (s_social_token s) d token }) ;;
  fail_if (z0 token) (- ENOMEM) ;;
  asid <- arm64_mm_context_get token ;;
  set_session (fun s => s.{ s_social_asid := setz (s_social_asid s) d asid }) ;;
  fail_if (z0 asid) (- ENOSPC) ;;
  tlbi_asid asid ;;
  code <- get_zeroed_page ;;
  set_session (fun s => s.{ s_social_code := setz (s_social_code s) d code }) ;;
  stack <- get_zeroed_page ;;
  set_session (fun s => s.{ s_social_stack := setz (s_social_stack s) d stack }) ;;
  fail_if (z0 code || z0 stack) (- ENOMEM) ;;
  set_extra_domain d (fun x => x.{ x_code_pa := code }.{ x_stack_pa := stack }).

(** After the import: local pages and ASIDs, and the check of the contract. *)
Definition prepare_local : M unit :=
  root <- get_zeroed_page ;;
  set_session (fun s => s.{ s_empty_root := root }) ;;
  fail_if (z0 root) (- ENOMEM) ;;
  for_m UD_DOMAINS prepare_domain ;;
  s <- session ;;
  (if three_nginx s then
     set_session (fun s => s.{ s_social_extra := (s_social_extra s)
       .{ e_nonce := c_nonce (p_contract (s_p s)) }.{ e_abi := UD_SOCIAL_EXTRA_ABI }
       .{ e_domains := UD_SOCIAL_EXTRA_DOMAINS } }) ;;
     for_m UD_SOCIAL_EXTRA_DOMAINS prepare_extra_domain
   else ret tt) ;;
  s <- session ;;
  fail_if (negb (ud_contract_valid (p_contract (s_p s)))) (- ERANGE).

(** Everything between the platform check and [fail:]. *)
Definition prepare_body (L : linux) : M unit :=
  s <- session ;;
  (if s_multi s then discover_slot L else ret tt) ;;
  ud_mapping L true ;;
  prepare_local.

Definition ud_prepare_pages (L : linux) (input : ud_prepare) : M unit :=
  let va := p_import_va input in
  s <- session ;;
  fail_if (s_prepared s) (- EALREADY) ;;
  fail_if (z0 va || nz (va .& (UD_PAGE - 1)) || (va >? l_task_size L - UD_BYTES)) (- EINVAL) ;;
  nonce <- get_random_u64 ;;
  set_session (fun s => s.{ s_p := mk_prepare va
    (zero_contract.{ c_magic := UD_MAGIC }.{ c_abi := UD_ABI }.{ c_nonce := nonce .| 1 }) }) ;;
  fail_if (nz (ud_supported L)) (ud_supported L) ;;
  set_contract (fun c => c.{ c_wb_index := ud_mair_index (l_mair L) 0xff (l_mt_normal L) }
    .{ c_nc_index := ud_mair_index (l_mair L) 0x44 (l_mt_normal_nc L) }) ;;
  on_fail (prepare_body L) ud_free_pages.

(** [if (copy_to_user(...)) { ud_free_pages(s); return -EFAULT; }] *)
Definition copy_out_or_free (L : linux) : M unit :=
  on_fail (fail_if (negb (l_copy_out L)) (- EFAULT)) ud_free_pages.

(** Returns what it copies back to the caller. *)
Definition ud_prepare_session (L : linux) (arg : Z) : M ud_prepare :=
  s <- session ;;
  fail_if (s_prepared s) (- EALREADY) ;;
  fail_if (s_profile s !=? UD_PROFILE_MICRO) (- EPROTONOSUPPORT) ;;
  input <- copy_struct L ud_prepare arg ;;
  let va := p_import_va input in
  fail_if (z0 va || (va >? l_task_size L - UD_BYTES)) (- EINVAL) ;;
  magic <- copy_u64 L va ;;
  fail_if (magic =? UD_POOL_MAGIC) (- EPROTONOSUPPORT) ;;
  remote <- copy_struct L ud_remote_manifest (va + UD_REMOTE_META_OFFSET) ;;
  (if s_code_mode s =? UD_CODE_REMOTE_VERIFIED then
     fail_if (negb (l_allow_remote_code L) || (r_magic remote !=? UD_REMOTE_MAGIC) ||
              (r_abi remote !=? UD_REMOTE_ABI) || (r_mode remote !=? UD_CODE_REMOTE_VERIFIED) ||
              nz (r_reserved remote)) (- EPROTONOSUPPORT)
   else
     fail_if (nz (r_magic remote) || nz (r_abi remote) || nz (r_mode remote) || nz (r_reserved remote))
       (- EPROTONOSUPPORT)) ;;
  set_session (fun s => s.{ s_multi := false }) ;;
  ud_prepare_pages L input ;;
  copy_out_or_free L ;;
  set_session (fun s => s.{ s_prepared := true }) ;;
  s <- session ;; ret (s_p s).

Definition ud_prepare_pool (L : linux) (arg : Z) : M ud_pool_prepare :=
  s <- session ;;
  fail_if (s_prepared s) (- EALREADY) ;;
  input <- copy_struct L ud_pool_prepare arg ;;
  let va := p_import_va (q_domain input) in
  fail_if ((q_abi input !=? UD_POOL_ABI) || z0 (q_generation input) || nz (q_slot input) ||
           z0 va || (va >? l_task_size L - UD_BYTES)) (- EINVAL) ;;
  header <- copy_struct L ud_pool_header va ;;
  fail_if (negb (ud_pool_header_valid header) || (h_generation header !=? q_generation input)) (- ESTALE) ;;
  tag <- copy_struct L ud_profile_header (va + UD_PROFILE_OFFSET) ;;
  (if t_magic tag =? UD_PROFILE_MAGIC then
     fail_if ((t_abi tag !=? UD_POOL_ABI) || (t_profile tag !=? s_profile s)) (- EPROTONOSUPPORT)
   else fail_if (nz (s_profile s)) (- EPROTONOSUPPORT)) ;;
  fail_if ((s_profile s =? UD_PROFILE_SOCIAL) && (s_code_mode s !=? UD_CODE_REMOTE_SOCIAL)) (- EPROTONOSUPPORT) ;;
  (if s_code_mode s =? UD_CODE_REMOTE_SOCIAL then
     fail_if (negb (l_allow_remote_code L) || (s_profile s !=? UD_PROFILE_SOCIAL) ||
              negb (readable L (va + UD_REMOTE_META_OFFSET) (sizeof ud_remote_manifest))) (- EPROTONOSUPPORT) ;;
     remote <- copy_struct L ud_remote_manifest (va + UD_REMOTE_META_OFFSET) ;;
     fail_if ((r_magic remote !=? UD_REMOTE_MAGIC) || (r_abi remote !=? UD_REMOTE_ABI) ||
              (r_mode remote !=? UD_CODE_REMOTE_SOCIAL) || z0 (ud_remote_social_count (r_reserved remote)))
       (- EPROTONOSUPPORT) ;;
     set_session (fun s => s.{ s_social_nginx_count := ud_remote_social_count (r_reserved remote) }
       .{ s_remote_service := r_reserved remote .& UD_SOCIAL_CODE_KIND_MASK })
   else fail_if (s_code_mode s !=? UD_CODE_LEGACY) (- EPROTONOSUPPORT)) ;;
  set_session (fun s => s.{ s_multi := true }.{ s_pool_generation := q_generation input }
    .{ s_pool_exposed := false }.{ s_pool_reusable := false }) ;;
  ud_prepare_pages L (q_domain input) ;;
  copy_out_or_free L ;;
  set_session (fun s => s.{ s_prepared := true }.{ s_pool_exposed := true }) ;;
  s <- session ;; ret (mk_pool_prepare (s_p s) (q_generation input) (q_abi input) (s_pool_slot s)).

(** ** Committing *)

Section commit.
Context (L : linux).

(** [ud_copy]: read the region at an offset. *)
Definition ud_copy (A : Type) `{CStruct A} (off : Z) : M A :=
  s <- session ;; copy_struct L A (p_import_va (s_p s) + off).
Definition ud_copy_bytes (off n : Z) : M (list Z) :=
  s <- session ;; copy_bytes L (p_import_va (s_p s) + off) n.
Definition ud_copy_table (off : Z) : M (list Z) :=
  k <- get ;;
  let va := p_import_va (s_p (k_s k)) + off in
  if readable L va UD_PAGE then ret (ld_array 8 (user_view L (k_mem k)) va 512) else raise (- EFAULT).

(** The publication B completed, from the slot or the single-client region. *)
Definition commit_publication : M ud_publication :=
  s <- session ;;
  if s_multi s then
    header <- ud_copy ud_pool_header 0 ;;
    fail_if (negb (ud_pool_header_valid header) || (h_generation header !=? s_pool_generation s)) (- ESTALE) ;;
    slot <- ud_copy ud_pool_publication (UD_POOL_SLOT (s_pool_slot s)) ;;
    fail_if (nz (pp_error slot) || nz (pp_reserved slot)) (- EBADMSG) ;;
    ret (pp_pub slot)
  else ud_copy ud_publication 0.

Definition zero_manifest : ud_remote_manifest := mk_manifest 0 0 0 (replicate 4 0) 0 0.

Definition commit_manifest : M ud_remote_manifest :=
  s <- session ;;
  if s_code_mode s !=? UD_CODE_LEGACY then
    remote <- ud_copy ud_remote_manifest UD_REMOTE_META_OFFSET ;;
    fail_if ((r_magic remote !=? UD_REMOTE_MAGIC) || (r_abi remote !=? UD_REMOTE_ABI) ||
             (r_mode remote !=? s_code_mode s) ||
             (if s_code_mode s =? UD_CODE_REMOTE_SOCIAL then
                (ud_remote_social_count (r_reserved remote) !=? s_social_nginx_count s) ||
                (r_reserved remote .& UD_SOCIAL_CODE_KIND_MASK !=? s_remote_service s)
              else nz (r_reserved remote))) (- EBADMSG) ;;
    ret remote
  else ret zero_manifest.

(** The tables in the region are the ones A computes. *)
Definition check_tables (c : ud_contract) (d : Z) (offset : Z -> Z) : M unit :=
  for_m 4 (fun l =>
    actual <- ud_copy_table (offset l) ;;
    fail_if (negb (bool_decide (actual = ud_build_table c d l))) (- EBADMSG)).

Definition page_words (m : mem) (page : Z) : list Z := ld_array 4 m page 1024.

Definition check_remote_image (s : ud_session) (remote : ud_remote_manifest) (d : Z) (words : list Z) : bool :=
  let social := s_code_mode s =? UD_CODE_REMOTE_SOCIAL in
  (if social then ud_remote_social_image_valid d words (r_words remote).[d]
   else ud_remote_image_valid d words (r_words remote).[d]) &&
  negb (social && (d =? UD_DIRECT) &&
        xorb (words.[0] =? ud_remote_social_lb3_word 0) (ud_remote_social_count (r_reserved remote) =? 3)) &&
  negb (social && (d =? UD_MIDDLE) &&
        (words.[0] !=? (if s_remote_service s =? UD_SOCIAL_CODE_HOME then UD_RS_LDR_HOME else UD_RS_LDR_USER))).

Definition commit_domain (remote : ud_remote_manifest) (d : Z) : M unit :=
  s <- session ;;
  let is_remote := s_code_mode s !=? UD_CODE_LEGACY in
  let code := ud_profile_service (s_profile s) d in
  fail_if (is_remote && (z0 (r_words remote).[d] || ((r_words remote).[d] >? UD_REMOTE_MAX_WORDS))) (- EINVAL) ;;
  let size := if is_remote then (r_words remote).[d] * 4 else service_size code in
  check_tables (p_contract (s_p s)) d (table_offset s d) ;;
  initial <- ud_copy ud_initial (UD_CONTEXT d) ;;
  set_session (fun s => s.{ s_initial := setz (s_initial s) d initial }) ;;
  fail_if (negb (bool_decide (initial = domain_initial (s_profile s) d))) (- EBADMSG) ;;
  fail_if (z0 size || (size >? UD_PAGE)) (- EINVAL) ;;
  bytes <- ud_copy_bytes (UD_IMAGE d) size ;;
  k <- get ;;
  put (k.{ k_mem := store_bytes (k_mem k) (s_code s).[d] bytes }) ;;
  if is_remote then
    k <- get ;;
    fail_if (negb (check_remote_image s remote d (page_words (k_mem k) (s_code s).[d]))) (- EBADMSG) ;;
    set_session (fun s => s.{ s_remote_words := setz (s_remote_words s) d (r_words remote).[d] })
  else
    match code with
    | Some p => fail_if (negb (bool_decide (bytes = (wwords 0 (assemble p)).2))) (- EBADMSG)
    | None => ret tt
    end.

Definition commit_extra_domain (published : ud_social_extra) (d : Z) : M unit :=
  s <- session ;;
  match ud_social_extra_contract (p_contract (s_p s)) published d with
  | None => raise (- EBADMSG)
  | Some adapted =>
      let entry := extra_entry d in
      check_tables adapted entry (UD_SOCIAL_EXTRA_TABLE (s_pool_slot s) d) ;;
      let size := (s_remote_words s).[entry] * 4 in
      bytes <- ud_copy_bytes (UD_IMAGE entry) size ;;
      k <- get ;;
      put (k.{ k_mem := store_bytes (k_mem k) (s_social_code s).[d] bytes }) ;;
      k <- get ;;
      fail_if (negb (bool_decide (load_bytes (k_mem k) (s_code s).[entry] size = bytes))) (- EBADMSG)
  end.

Definition commit_extra : M unit :=
  s <- session ;;
  if three_nginx s then
    published <- ud_copy ud_social_extra (UD_SOCIAL_EXTRA_SLOT (s_pool_slot s)) ;;
    fail_if (negb (bool_decide (published = s_social_extra s))) (- EBADMSG) ;;
    for_m UD_SOCIAL_EXTRA_DOMAINS (commit_extra_domain published)
  else ret tt.

(** [ud_copy(s, UD_HEAP, actual, UD_PAGE)] and the checks of its content. *)
Definition heap_check (s : ud_session) (actual : mem) (heap : Z) : bool :=
  if s_profile s !=? UD_PROFILE_MICRO then
    if s_profile s =? UD_PROFILE_SOCIAL
    then us_heap_valid_count (ld_struct us_heap actual heap) (s_social_nginx_count s)
    else us_heap_valid (ld_struct us_heap actual heap)
  else micro_heap_valid actual heap.
Definition commit_heap : M unit :=
  k <- get ;;
  let va := p_import_va (s_p (k_s k)) + UD_HEAP in
  fail_if (negb (readable L va UD_PAGE)) (- EFAULT) ;;
  fail_if (negb (heap_check (k_s k) (user_view L (k_mem k)) va)) (- EBADMSG).

Definition ud_commit : M unit :=
  s <- session ;;
  fail_if (negb (s_prepared s) || s_committed s) (- EINVAL) ;;
  fail_if (negb (l_kmalloc L)) (- ENOMEM) ;;
  pub <- commit_publication ;;
  fail_if (negb (bool_decide (pub_contract pub = p_contract (s_p s))) ||
           (pub_request pub !=? c_nonce (p_contract (s_p s))) ||
           (pub_complete pub !=? pub_request pub)) (- ESTALE) ;;
  remote <- commit_manifest ;;
  for_m UD_DOMAINS (commit_domain remote) ;;
  commit_extra ;;
  commit_heap ;;
  set_session (fun s => s.{ s_committed := true }.{ s_pool_reusable := true }).
End commit.

(** ** Opening, closing and configuring *)

Section device.
Context (L : linux).

(** [kzalloc] may fail; otherwise a fresh session owned by the caller. *)
Definition ud_open (allocated : bool) : ud_session + Z :=
  if negb (l_capable L) then inr (- EPERM)
  else if nz (ud_supported L) then inr (ud_supported L)
  else if negb allocated then inr (- ENOMEM)
  else inl (new_session (l_current L) (l_current_mm L)).

(** [ud_free_pages]; the task and mm references and the session itself follow. *)
Definition ud_release : M unit := ud_free_pages.

Definition ud_set_code_mode (mode : option Z) : M unit :=
  s <- session ;;
  fail_if (s_prepared s) (- EBUSY) ;;
  match mode with
  | None => raise (- EFAULT)
  | Some mode =>
      fail_if ((mode !=? UD_CODE_LEGACY) && (mode !=? UD_CODE_REMOTE_VERIFIED) && (mode !=? UD_CODE_REMOTE_SOCIAL)) (- EINVAL) ;;
      fail_if ((mode =? UD_CODE_LEGACY) && (s_profile s =? UD_PROFILE_SOCIAL)) (- EOPNOTSUPP) ;;
      fail_if ((mode !=? UD_CODE_LEGACY) &&
               (negb (l_allow_remote_code L) ||
                (s_profile s !=? (if mode =? UD_CODE_REMOTE_SOCIAL then UD_PROFILE_SOCIAL else UD_PROFILE_MICRO))))
        (- EOPNOTSUPP) ;;
      set_session (fun s => s.{ s_code_mode := mode })
  end.

Definition ud_set_profile (profile : option Z) : M unit :=
  s <- session ;;
  fail_if (s_prepared s) (- EBUSY) ;;
  match profile with
  | None => raise (- EFAULT)
  | Some profile =>
      fail_if (profile >? UD_PROFILE_SOCIAL_SHARED) (- EINVAL) ;;
      fail_if (((s_code_mode s =? UD_CODE_REMOTE_VERIFIED) && (profile !=? UD_PROFILE_MICRO)) ||
               ((s_code_mode s =? UD_CODE_REMOTE_SOCIAL) && (profile !=? UD_PROFILE_SOCIAL))) (- EINVAL) ;;
      set_session (fun s => s.{ s_profile := profile })
  end.

Definition ud_set_nested_path (path : option Z) : M unit :=
  s <- session ;;
  fail_if (s_prepared s) (- EBUSY) ;;
  match path with
  | None => raise (- EFAULT)
  | Some path =>
      fail_if ((path !=? UD_NESTED_LEGACY) && (path !=? UD_NESTED_FUSED)) (- EINVAL) ;;
      set_session (fun s => s.{ s_nested_path := path })
  end.

Definition ud_social_extra_info : M ud_social_extra :=
  s <- session ;;
  fail_if (negb (s_prepared s) || (s_profile s !=? UD_PROFILE_SOCIAL) || (s_social_nginx_count s !=? 3)) (- EOPNOTSUPP) ;;
  fail_if (negb (l_copy_out L)) (- EFAULT) ;;
  ret (s_social_extra s).

Definition ud_get_connection_info : M ud_connection_info :=
  s <- session ;;
  fail_if (negb (l_copy_out L)) (- EFAULT) ;;
  ret (mk_connection_info (c_nonce (p_contract (s_p s))) (s_pool_generation s) UD_POOL_ABI
         (if s_multi s then 1 else 0) (s_pool_slot s) (if s_multi s then UD_CLIENTS else 1)).

(** The first result other than 0 of [vm_insert_page] for the domains' pages. *)
Fixpoint insert_pages (vm_insert_page : Z -> Z) (ds : list Z) : Z :=
  match ds with
  | [] => 0
  | d :: ds => if vm_insert_page d =? 0 then insert_pages vm_insert_page ds else vm_insert_page d
  end.
(** The pages inserted into the caller's mapping, or an error. *)
Definition ud_mmap (pgoff length : Z) (shared write exec : bool) (vm_insert_page : Z -> Z) : M (list Z) :=
  s <- session ;;
  fail_if ((l_current L !=? s_owner s) || (l_current_mm L !=? s_mm s) || negb (l_capable L)) (- EPERM) ;;
  fail_if (nz pgoff || (length !=? UD_DOMAINS * 2 ^ l_page_shift L) || negb shared || negb write || exec) (- EINVAL) ;;
  fail_if (negb (s_committed s)) (- ENOTCONN) ;;
  let rc := insert_pages vm_insert_page (seqZ 0 UD_DOMAINS) in
  fail_if (nz rc) rc ;;
  ret (s_args s).
End device.
