(* ===== verification/Ledger.v ===== *)
(** * Resources of a session

    The pages, ASIDs, tokens and file references a session holds are the ones its
    arrays record, along every path of [ud_prepare_pages] and [ud_free_pages],
    the error paths included. *)

From S2P Require Import Prelude Monad CMem Abi Layout PoolSlots RemoteCode Social Services Pool Kernel KernelLogic Session.

(** ** The session's arrays *)

Definition page_array (s : ud_session) : list Z :=
  s_empty_root s :: s_code s ++ s_stack s ++ s_args s ++ s_social_code s ++ s_social_stack s.
Definition asid_array (s : ud_session) : list Z := s_asid s ++ s_social_asid s.
Definition token_array (s : ud_session) : list Z := s_asid_token s ++ s_social_token s.

(** An imported table lies below the ASID field of a TTBR. *)
Definition extra_domain_fine (x : ud_social_extra_domain) : Prop :=
  extra_domain_ok x /\ Forall (fun t => 0 <= t < 2 ^ 48) (x_table_pa x).
Definition extra_fine (e : ud_social_extra) : Prop :=
  in_u64 (e_nonce e) /\ in_u32 (e_abi e) /\ in_u32 (e_domains e) /\
  length (e_domain e) = 4%nat /\ Forall extra_domain_fine (e_domain e).

Record sizes (s : ud_session) : Prop := {
  sz_code : length (s_code s) = 4%nat; sz_stack : length (s_stack s) = 4%nat; sz_args : length (s_args s) = 4%nat;
  sz_social_code : length (s_social_code s) = 4%nat; sz_social_stack : length (s_social_stack s) = 4%nat;
  sz_asid : length (s_asid s) = 4%nat; sz_token : length (s_asid_token s) = 4%nat;
  sz_social_asid : length (s_social_asid s) = 4%nat; sz_social_token : length (s_social_token s) = 4%nat;
  sz_files : length (s_import_file s) = IMPORT_FILES;
  sz_initial : length (s_initial s) = 4%nat; sz_words : length (s_remote_words s) = 4%nat;
  sz_extra : extra_fine (s_social_extra s) }.

Definition ledger (k : kstate) : Prop :=
  sizes (k_s k) /\
  accounts k (page_array (k_s k)) (asid_array (k_s k)) (token_array (k_s k)) (s_import_file (k_s k)).

(** Where the parts of the arrays sit. *)

Section arrays.
Context (s : ud_session) (d : Z).
Hypothesis (Hs : sizes s) (Hd : 0 <= d < 4).

Ltac list4 l := is_var l; destruct l as [|? [|? [|? [|? [|? ?]]]]]; try discriminate.
Ltac cases4 :=
  destruct Hs; destruct s; simpl in *;
  repeat match goal with H : length ?l = 4%nat |- _ => list4 l end;
  assert (d = 0 \/ d = 1 \/ d = 2 \/ d = 3) as [-> | [-> | [-> | ->]]] by lia; repeat split; reflexivity.

Lemma page_array_at :
  (page_array s).[1 + d] = (s_code s).[d] /\ (page_array s).[5 + d] = (s_stack s).[d] /\
  (page_array s).[9 + d] = (s_args s).[d] /\ (page_array s).[13 + d] = (s_social_code s).[d] /\
  (page_array s).[17 + d] = (s_social_stack s).[d].
Proof using Hs Hd. cases4. Qed.

Lemma page_array_set x :
  page_array s.{ s_code := setz (s_code s) d x } = setz (page_array s) (1 + d) x /\
  page_array s.{ s_stack := setz (s_stack s) d x } = setz (page_array s) (5 + d) x /\
  page_array s.{ s_args := setz (s_args s) d x } = setz (page_array s) (9 + d) x /\
  page_array s.{ s_social_code := setz (s_social_code s) d x } = setz (page_array s) (13 + d) x /\
  page_array s.{ s_social_stack := setz (s_social_stack s) d x } = setz (page_array s) (17 + d) x.
Proof using Hs Hd. cases4. Qed.

Lemma asid_array_at :
  (asid_array s).[d] = (s_asid s).[d] /\ (asid_array s).[4 + d] = (s_social_asid s).[d] /\
  (token_array s).[d] = (s_asid_token s).[d] /\ (token_array s).[4 + d] = (s_social_token s).[d].
Proof using Hs Hd. cases4. Qed.

Lemma asid_array_set x :
  asid_array s.{ s_asid := setz (s_asid s) d x } = setz (asid_array s) d x /\
  asid_array s.{ s_social_asid := setz (s_social_asid s) d x } = setz (asid_array s) (4 + d) x /\
  token_array s.{ s_asid_token := setz (s_asid_token s) d x } = setz (token_array s) d x /\
  token_array s.{ s_social_token := setz (s_social_token s) d x } = setz (token_array s) (4 + d) x.
Proof using Hs Hd. cases4. Qed.

Lemma array_lengths :
  length (page_array s) = 21%nat /\ length (asid_array s) = 8%nat /\ length (token_array s) = 8%nat.
Proof using Hs. destruct Hs. unfold page_array, asid_array, token_array. simpl. rewrite !length_app. lia. Qed.
End arrays.

(** ** [ud_free_pages] returns everything *)

Definition wipe_asid (d : Z) (s : ud_session) : ud_session :=
  s.{ s_asid := setz (s_asid s) d 0 }.{ s_asid_token := setz (s_asid_token s) d 0 }.
Definition wipe_social (d : Z) (s : ud_session) : ud_session :=
  s.{ s_social_asid := setz (s_social_asid s) d 0 }.{ s_social_token := setz (s_social_token s) d 0 }
   .{ s_social_code := setz (s_social_code s) d 0 }.{ s_social_stack := setz (s_social_stack s) d 0 }.
Definition wipe_pages (d : Z) (s : ud_session) : ud_session :=
  s.{ s_code := setz (s_code s) d 0 }.{ s_stack := setz (s_stack s) d 0 }.{ s_args := setz (s_args s) d 0 }.
Definition wipe_file (i : Z) (s : ud_session) : ud_session :=
  s.{ s_import_file := setz (s_import_file s) i 0 }.

(** What [free_asid] does to entry [i] of the books, whatever the session is. *)
Lemma wp_free_asid asids tokens (f g : ud_session -> ud_session) d i pg ak tk fl k Q E :
  accounts k pg ak tk fl -> 0 <= i < Z.of_nat (length ak) ->
  (asids (k_s k)).[d] = ak.[i] -> (tokens (k_s k)).[d] = tk.[i] ->
  ((asids (k_s k)).[d] = 0 -> f (k_s k) = k_s k) ->
  (forall k', k_s k' = g (f (k_s k)) -> k_banks k' = k_banks k ->
     accounts k' pg (setz ak i 0) (setz tk i 0) fl -> Q tt k') ->
  wp (free_asid asids tokens (fun _ => set_session f) (fun _ => set_session g) d) Q E k.
Proof.
  intros Hac Hi Ha Ht Hf HQ. pose proof (ac_len _ _ _ _ _ Hac) as Hl.
  unfold free_asid. apply wp_bind, wp_session. rewrite Ha in Hf. rewrite Ha, Ht.
  assert (Hrest : forall k', k_s k' = f (k_s k) -> k_banks k' = k_banks k ->
            accounts k' pg (setz ak i 0) tk fl ->
            wp (kfree_token tk.[i] ;; set_session g) Q E k').
  { intros k' Hk Hb Hac'. apply wp_bind. eapply wp_kfree_token; [done|lia|apply nthz_setz_eq; lia|].
    intros k2 [Hk2 Hb2] Hac2. apply wp_set_session, HQ; simpl; [congruence..|].
    eapply accounts_frame; [apply Hac2|done..]. }
  apply wp_bind. destruct (nz ak.[i]) eqn:Hz; bprop.
  - apply wp_bind. eapply wp_tlbi; [done|]. intros k1 [Hk1 Hb1] Hs1 Hac1.
    apply wp_bind. eapply wp_context_put; [done|done|done|done|]. intros k2 [Hk2 Hb2] Hac2.
    apply wp_set_session. apply Hrest; simpl; [congruence..|].
    eapply accounts_frame; [apply Hac2|done..].
  - apply wp_ret. apply Hrest; [by rewrite Hf|done|]. by rewrite setz_zero.
Qed.

Section wiping.
Context (E : Z -> kstate -> Prop) (k : kstate) (d : Z).
Hypothesis Hk : ledger k.

(** The ledger after a change that the arrays of the new session reflect. *)
Lemma ledger_intro (k' : kstate) s pg ak tk fl :
  k_s k' = s -> sizes s -> accounts k' pg ak tk fl ->
  page_array s = pg -> asid_array s = ak -> token_array s = tk -> s_import_file s = fl -> ledger k'.
Proof. intros <- Hs Hac <- <- <- <-. by split. Qed.

Lemma wp_free_main_asid Q :
  0 <= d < 4 ->
  (forall k', ledger k' -> k_s k' = wipe_asid d (k_s k) -> k_banks k' = k_banks k -> Q tt k') ->
  wp (free_main_asid d) Q E k.
Proof using Hk.
  intros Hd HQ. destruct Hk as [Hs Hac]. destruct (array_lengths _ Hs) as (Hl1 & Hl2 & Hl3).
  destruct (asid_array_at _ d Hs Hd) as (Ha & _ & Ht & _).
  unfold free_main_asid. eapply (wp_free_asid s_asid s_asid_token
            (fun s => s.{ s_asid := setz (s_asid s) d 0 }) (fun s => s.{ s_asid_token := setz (s_asid_token s) d 0 }) d d);
    [done|rewrite Hl2; lia|done|done| |].
  - intros H0. rewrite setz_zero; [by destruct (k_s k)|rewrite (sz_asid _ Hs); lia|done].
  - intros k' Hk' Hb Hac'. apply HQ; [|done|done].
    assert (Hs' : sizes (wipe_asid d (k_s k))) by (destruct Hs; constructor; simpl; by rewrite ?setz_length).
    eapply ledger_intro; [exact Hk'|done|done|..]; try done.
    + apply (asid_array_set _ d Hs Hd).
    + apply (asid_array_set _ d Hs Hd).
Qed.

Lemma wp_free_social Q :
  0 <= d < 4 ->
  (forall k', ledger k' -> k_s k' = wipe_social d (k_s k) -> k_banks k' = k_banks k -> Q tt k') ->
  wp (free_social d) Q E k.
Proof using Hk.
  intros Hd HQ. destruct Hk as [Hs Hac]. destruct (array_lengths _ Hs) as (Hl1 & Hl2 & Hl3).
  destruct (asid_array_at _ d Hs Hd) as (_ & Ha & _ & Ht).
  destruct (page_array_at _ d Hs Hd) as (_ & _ & _ & Hc & Hst).
  unfold free_social. apply wp_bind.
  eapply (wp_free_asid s_social_asid s_social_token
            (fun s => s.{ s_social_asid := setz (s_social_asid s) d 0 })
            (fun s => s.{ s_social_token := setz (s_social_token s) d 0 }) d (4 + d));
    [done|rewrite Hl2; lia|done|done| |].
  { intros H0. rewrite setz_zero; [by destruct (k_s k)|rewrite (sz_social_asid _ Hs); lia|done]. }
  intros k1 Hk1 Hb1 Hac1. apply wp_bind, wp_session. rewrite Hk1. simpl.
  apply wp_bind. eapply (wp_free_if _ _ _ _ _ _ Hac1 (13 + d)); [rewrite Hl1; lia|done|].
  intros k2 [Hk2 Hb2] Hac2. apply wp_bind.
  eapply (wp_free_if _ _ _ _ _ _ Hac2 (17 + d)); [rewrite setz_length, Hl1; lia|rewrite nthz_setz_ne by lia; done|].
  intros k3 [Hk3 Hb3] Hac3. apply wp_set_session.
  rewrite Hk3, Hk2, Hk1. apply HQ; [|done|simpl; congruence].
  assert (Hs' : sizes (wipe_social d (k_s k))) by (destruct Hs; constructor; simpl; by rewrite ?setz_length).
  eapply ledger_intro; [reflexivity|exact Hs'|eapply accounts_frame; [exact Hac3|done..]|..]; try done.
  - set (s1 := (k_s k).{ s_social_code := setz (s_social_code (k_s k)) d 0 }).
    assert (Hs1 : sizes s1) by (destruct Hs; constructor; simpl; by rewrite ?setz_length).
    destruct (page_array_set _ d Hs Hd 0) as (_ & _ & _ & <- & _).
    exact (proj2 (proj2 (proj2 (proj2 (page_array_set _ d Hs1 Hd 0))))).
  - apply (asid_array_set _ d Hs Hd).
  - apply (asid_array_set _ d Hs Hd).
Qed.

Lemma wp_free_main_pages Q :
  0 <= d < 4 ->
  (forall k', ledger k' -> k_s k' = wipe_pages d (k_s k) -> k_banks k' = k_banks k -> Q tt k') ->
  wp (free_main_pages d) Q E k.
Proof using Hk.
  intros Hd HQ. destruct Hk as [Hs Hac]. destruct (array_lengths _ Hs) as (Hl1 & _).
  destruct (page_array_at _ d Hs Hd) as (Hc & Hst & Ha & _).
  unfold free_main_pages. apply wp_bind, wp_session.
  apply wp_bind. eapply (wp_free_if _ _ _ _ _ _ Hac (1 + d)); [rewrite Hl1; lia|done|].
  intros k1 [Hk1 Hb1] Hac1. apply wp_bind.
  eapply (wp_free_if _ _ _ _ _ _ Hac1 (5 + d)); [rewrite setz_length, Hl1; lia|by rewrite nthz_setz_ne by lia|].
  intros k2 [Hk2 Hb2] Hac2. apply wp_bind.
  eapply (wp_free_if _ _ _ _ _ _ Hac2 (9 + d)); [rewrite !setz_length, Hl1; lia|by rewrite !nthz_setz_ne by lia|].
  intros k3 [Hk3 Hb3] Hac3. apply wp_set_session.
  rewrite Hk3, Hk2, Hk1. apply HQ; [|done|simpl; congruence].
  assert (Hs' : sizes (wipe_pages d (k_s k))) by (destruct Hs; constructor; simpl; by rewrite ?setz_length).
  eapply ledger_intro; [reflexivity|exact Hs'|eapply accounts_frame; [exact Hac3|done..]|..]; try done.
  set (s1 := (k_s k).{ s_code := setz (s_code (k_s k)) d 0 }).
  assert (Hs1 : sizes s1) by (destruct Hs; constructor; simpl; by rewrite ?setz_length).
  set (s2 := s1.{ s_stack := setz (s_stack s1) d 0 }).
  assert (Hs2 : sizes s2) by (destruct Hs; constructor; simpl; by rewrite ?setz_length).
  destruct (page_array_set _ d Hs Hd 0) as (H1 & _). destruct (page_array_set _ d Hs1 Hd 0) as (_ & H2 & _).
  destruct (page_array_set _ d Hs2 Hd 0) as (_ & _ & H3 & _).
  fold s1 in H1. fold s2 in H2. rewrite <- H1, <- H2. exact H3.
Qed.

Lemma wp_free_import Q :
  0 <= d < Z.of_nat IMPORT_FILES ->
  (forall k', ledger k' -> k_s k' = wipe_file d (k_s k) -> k_banks k' = k_banks k -> Q tt k') ->
  wp (free_import d) Q E k.
Proof using Hk.
  intros Hd HQ. destruct Hk as [Hs Hac]. unfold free_import. apply wp_bind, wp_session.
  assert (Hs' : sizes (wipe_file d (k_s k))) by (destruct Hs; constructor; simpl; by rewrite ?setz_length).
  assert (Hl : 0 <= d < Z.of_nat (length (s_import_file (k_s k)))) by (rewrite (sz_files _ Hs); lia).
  apply wp_bind. destruct (nz _) eqn:Hz; bprop.
  - eapply (wp_fput _ _ _ _ _ _ Hac d); [done..|]. intros k1 [Hk1 Hb1] Hac1.
    apply wp_set_session. rewrite Hk1. apply HQ; [|done|done].
    eapply ledger_intro; [reflexivity|exact Hs'|eapply accounts_frame; [exact Hac1|done..]|done..].
  - apply wp_ret, wp_set_session, HQ; [|done|done].
    eapply ledger_intro; [reflexivity|exact Hs'|eapply accounts_frame; [exact Hac|done..]|done..|].
    simpl. by apply setz_zero.
Qed.
End wiping.

Definition wiped (s : ud_session) : ud_session :=
  s.{ s_asid := replicate 4 0 }.{ s_asid_token := replicate 4 0 }
   .{ s_social_asid := replicate 4 0 }.{ s_social_token := replicate 4 0 }
   .{ s_social_code := replicate 4 0 }.{ s_social_stack := replicate 4 0 }
   .{ s_empty_root := 0 }
   .{ s_code := replicate 4 0 }.{ s_stack := replicate 4 0 }.{ s_args := replicate 4 0 }
   .{ s_import_file := replicate IMPORT_FILES 0 }
   .{ s_pool_reserved := false }.
Definition banks_after (k : kstate) : list ud_pool_bank :=
  let s := k_s k in
  if s_pool_reserved s
  then ud_slots_release (k_banks k) (s_pool_bank s) (s_pool_slot s) (s_pool_exposed s) (s_pool_reusable s)
  else k_banks k.

Lemma zero_all l n : length l = n -> for_ (Z.of_nat n) (fun i l => setz l i 0) l = replicate n 0.
Proof.
  intros Hn. set (l' := for_ _ _ _).
  assert (length l' = n /\ forall j, 0 <= j < Z.of_nat n -> l'.[j] = 0) as [Hlen Hz].
  { apply (for_invariant (fun i l => length l = n /\ forall j, 0 <= j < i -> l.[j] = 0)); [lia|split; [done|lia]|].
    intros i t Hi [Ht Hj]. rewrite setz_length. split; [done|]. intros j Hj'.
    destruct (decide (i = j)) as [->|]; [apply nthz_setz_eq; lia|].
    rewrite nthz_setz_ne by lia. apply Hj. lia. }
  apply (list_eq_nthz 0); [by rewrite length_replicate|]. intros i Hi. rewrite Hz by lia.
  unfold nthz. by rewrite nth_lookup, lookup_replicate_2 by lia.
Qed.

Lemma wipe_files_all s n : for_ n wipe_file s = s.{ s_import_file := for_ n (fun i l => setz l i 0) (s_import_file s) }.
Proof.
  unfold for_. generalize (seqZ 0 n) as is_. intros is_. revert s.
  induction is_ as [|i l IH]; intros s; simpl; [by destruct s|]. rewrite IH. done.
Qed.

Lemma wiped_by_loops s :
  sizes s ->
  (for_ (Z.of_nat IMPORT_FILES) wipe_file
     (for_ 4 wipe_pages (for_ 4 wipe_social (for_ 4 wipe_asid s)).{ s_empty_root := 0 })).{ s_pool_reserved := false }
  = wiped s.
Proof.
  intros []. rewrite wipe_files_all.
  assert (Hf : s_import_file (for_ 4 wipe_pages (for_ 4 wipe_social (for_ 4 wipe_asid s)).{ s_empty_root := 0 }) =
               s_import_file s) by done.
  rewrite Hf, zero_all by done. rewrite !for_4. unfold wiped. destruct s; simpl in *.
  repeat match goal with H : length ?l = 4%nat |- _ =>
    is_var l; destruct l as [|? [|? [|? [|? [|? ?]]]]]; try discriminate end.
  reflexivity.
Qed.

(** A loop whose iterations keep the ledger and change the session by [f]. *)
Lemma wp_for_wipe n (m : Z -> M unit) (f : Z -> ud_session -> ud_session) E k (Q : unit -> kstate -> Prop) :
  0 <= n -> ledger k ->
  (forall i k Q, 0 <= i < n -> ledger k ->
     (forall k', ledger k' -> k_s k' = f i (k_s k) -> k_banks k' = k_banks k -> Q tt k') -> wp (m i) Q E k) ->
  (forall k', ledger k' -> k_s k' = for_ n f (k_s k) -> k_banks k' = k_banks k -> Q tt k') ->
  wp (for_m n m) Q E k.
Proof.
  intros Hn Hk Hstep HQ.
  apply (wp_for (fun i k' => ledger k' /\ k_s k' = for_ i f (k_s k) /\ k_banks k' = k_banks k)); [done|done| |].
  - intros i k1 Hi (Hl & Hs & Hb). apply Hstep; [done|done|]. intros k2 Hl2 Hs2 Hb2.
    rewrite for_succ by lia. rewrite Hs2, Hs, Hb2. done.
  - intros k' (? & ? & ?). by apply HQ.
Qed.

(** A change of the session that leaves its arrays alone. *)
Lemma ledger_keep k k' :
  ledger k -> page_array (k_s k') = page_array (k_s k) -> asid_array (k_s k') = asid_array (k_s k) ->
  token_array (k_s k') = token_array (k_s k) -> s_import_file (k_s k') = s_import_file (k_s k) ->
  sizes (k_s k') -> k_pages k' = k_pages k -> k_tokens k' = k_tokens k -> k_pinned k' = k_pinned k ->
  k_files k' = k_files k -> k_stale k' = k_stale k -> k_fault k' = k_fault k ->
  a_tokens (k_answers k') = a_tokens (k_answers k) -> a_pages (k_answers k') = a_pages (k_answers k) -> ledger k'.
Proof.
  intros [_ Hac] Hp Ha Ht Hf Hs; intros. split; [done|]. rewrite Hp, Ha, Ht, Hf.
  by eapply accounts_frame.
Qed.
Ltac ledger_keep H := eapply ledger_keep; [exact H|..]; try done; destruct (proj1 H); constructor; simpl; try (by rewrite ?setz_length).

Lemma wp_release_slot E k (Q : unit -> kstate -> Prop) :
  ledger k ->
  (forall k', ledger k' -> k_s k' = (k_s k).{ s_pool_reserved := false } -> k_banks k' = banks_after k -> Q tt k') ->
  wp release_slot Q E k.
Proof.
  intros Hk HQ. unfold release_slot, banks_after in *. apply wp_bind, wp_get. cbv zeta.
  destruct (s_pool_reserved (k_s k)) eqn:Hr.
  - apply wp_bind, wp_put, wp_set_session, HQ; [ledger_keep Hk|done..].
  - apply wp_ret, HQ; [done| |done]. destruct (k_s k); simpl in *. by subst.
Qed.

Lemma wp_ud_free_pages E k (Q : unit -> kstate -> Prop) :
  ledger k ->
  (forall k', ledger k' -> k_s k' = wiped (k_s k) -> k_banks k' = banks_after k -> Q tt k') ->
  wp ud_free_pages Q E k.
Proof.
  intros Hk HQ. unfold ud_free_pages.
  apply wp_bind, (wp_for_wipe _ _ wipe_asid); [done|done|by intros; apply wp_free_main_asid|].
  intros k1 Hk1 Hs1 Hb1.
  apply wp_bind, (wp_for_wipe _ _ wipe_social); [done|done|by intros; apply wp_free_social|].
  intros k2 Hk2 Hs2 Hb2. apply wp_bind, wp_bind, wp_session, wp_bind.
  destruct (array_lengths _ (proj1 Hk2)) as (Hl & _).
  eapply (wp_free_if _ _ _ _ _ _ (proj2 Hk2) 0); [lia|done|]. intros k3 [Hs3 Hb3] Hac3.
  apply wp_set_session.
  assert (Hk4 : ledger k3.{ k_s := (k_s k3).{ s_empty_root := 0 } }).
  { eapply ledger_intro; [reflexivity| |eapply accounts_frame; [exact Hac3|done..]|..]; rewrite Hs3; try done.
    destruct (proj1 Hk2). by constructor. }
  apply wp_bind, (wp_for_wipe _ _ wipe_pages); [done|done|by intros; apply wp_free_main_pages|].
  intros k5 Hk5 Hs5 Hb5.
  apply wp_bind, (wp_for_wipe _ _ wipe_file); [done|done|by intros; apply wp_free_import|].
  intros k6 Hk6 Hs6 Hb6.
  assert (Hw : (k_s k6).{ s_pool_reserved := false } = wiped (k_s k)).
  { rewrite <- (wiped_by_loops _ (proj1 Hk)), Hs6, Hs5. simpl. by rewrite Hs3, Hs2, Hs1. }
  apply wp_release_slot; [done|]. intros k7 Hk7 Hs7 Hb7. apply HQ; [done|by rewrite Hs7|].
  assert (Hr : s_pool_reserved (k_s k6) = s_pool_reserved (k_s k))
    by (rewrite Hs6, wipe_files_all, Hs5; simpl; by rewrite Hs3, Hs2, Hs1).
  pose proof (f_equal s_pool_bank Hw) as E1. pose proof (f_equal s_pool_slot Hw) as E2.
  pose proof (f_equal s_pool_exposed Hw) as E3. pose proof (f_equal s_pool_reusable Hw) as E4. simpl in *.
  rewrite Hb7. unfold banks_after. rewrite Hr, E1, E2, E3, E4, Hb6, Hb5. simpl. by rewrite Hb3, Hb2, Hb1.
Qed.

(** ** Taking resources

    Each allocation of [ud_prepare_pages] is recorded at once in an entry of the
    session that was empty, whether or not it succeeded. *)

(** [s'] is [s] with other pages, ASIDs, tokens or files. *)
Definition rearranged (s' : ud_session) (pg ak tk fl : list Z) : Prop :=
  sizes s' /\ page_array s' = pg /\ asid_array s' = ak /\ token_array s' = tk /\ s_import_file s' = fl.

Section taking.
Context {A : Type} (E : Z -> kstate -> Prop) (k : kstate) (Q : A -> kstate -> Prop).
Context (i : Z) (g : Z -> ud_session -> ud_session) (f : Z -> M A).
Hypothesis Hk : ledger k.
Hypothesis Hf : forall p k', ledger k' -> k_s k' = g p (k_s k) -> k_banks k' = k_banks k -> wp (f p) Q E k'.
Notation s := (k_s k).

Lemma ledger_rearranged (k' : kstate) s' pg ak tk fl :
  accounts k' pg ak tk fl -> rearranged s' pg ak tk fl -> ledger k'.{ k_s := s' }.
Proof using Type.
  intros Hac (Hs & Hp & Ha & Ht & Hfl).
  eapply ledger_intro; [reflexivity|exact Hs|eapply accounts_frame; [exact Hac|done..]|done..].
Qed.

Lemma wp_take_page :
  0 <= i < 21 -> (page_array s).[i] = 0 ->
  (forall p, rearranged (g p s) (setz (page_array s) i p) (asid_array s) (token_array s) (s_import_file s)) ->
  wp (p <- get_zeroed_page ;; set_session (g p) ;; f p) Q E k.
Proof using Hk Hf.
  intros Hi H0 Hg. destruct (array_lengths _ (proj1 Hk)) as (Hl & _).
  apply wp_bind. eapply (wp_get_zeroed_page _ _ _ _ _ _ (proj2 Hk) i); [lia|done|].
  intros p k1 [Hs1 Hb1] Hac. apply wp_bind, wp_set_session, (Hf p); simpl; [|congruence|done].
  rewrite Hs1. by eapply ledger_rearranged.
Qed.

Lemma wp_take_token :
  0 <= i < 8 -> (token_array s).[i] = 0 -> (asid_array s).[i] = 0 ->
  (forall p, rearranged (g p s) (page_array s) (asid_array s) (setz (token_array s) i p) (s_import_file s)) ->
  wp (p <- alloc_token ;; set_session (g p) ;; f p) Q E k.
Proof using Hk Hf.
  intros Hi H0 Ha Hg. destruct (array_lengths _ (proj1 Hk)) as (_ & _ & Hl).
  apply wp_bind. eapply (wp_alloc_token _ _ _ _ _ _ (proj2 Hk) i); [lia|done|done|].
  intros p k1 [Hs1 Hb1] Hac. apply wp_bind, wp_set_session, (Hf p); simpl; [|congruence|done].
  rewrite Hs1. by eapply ledger_rearranged.
Qed.

Lemma wp_take_asid t :
  0 <= i < 8 -> t = (token_array s).[i] -> (asid_array s).[i] = 0 ->
  (forall p, rearranged (g p s) (page_array s) (setz (asid_array s) i p) (token_array s) (s_import_file s)) ->
  wp (p <- arm64_mm_context_get t ;; set_session (g p) ;; f p) Q E k.
Proof using Hk Hf.
  intros Hi -> Ha Hg. destruct (array_lengths _ (proj1 Hk)) as (_ & Hl & _).
  apply wp_bind. eapply (wp_context_get _ _ _ _ _ _ (proj2 Hk) i); [lia|done|].
  intros p k1 [Hs1 Hb1] Hac. apply wp_bind, wp_set_session, (Hf p); simpl; [|congruence|done].
  rewrite Hs1. by eapply ledger_rearranged.
Qed.
End taking.

(** Invalidating an ASID before its first use. *)
Lemma wp_tlbi_ledger E k a (Q : unit -> kstate -> Prop) :
  ledger k -> (forall k', ledger k' -> k_s k' = k_s k -> k_banks k' = k_banks k -> Q tt k') -> wp (tlbi_asid a) Q E k.
Proof.
  intros [Hs Hac] HQ. eapply wp_tlbi; [done|]. intros k' [Hs' Hb'] _ Hac'. apply HQ; [|done|done].
  eapply ledger_intro; [exact Hs'|done|done|done..].
Qed.

(** What preparing leaves alone: a session without its resources and contracts. *)
Definition config (s : ud_session) : ud_session :=
  s.{ s_asid := [] }.{ s_asid_token := [] }.{ s_social_asid := [] }.{ s_social_token := [] }
   .{ s_social_code := [] }.{ s_social_stack := [] }.{ s_empty_root := 0 }
   .{ s_code := [] }.{ s_stack := [] }.{ s_args := [] }.{ s_import_file := [] }
   .{ s_p := mk_prepare 0 zero_contract }.{ s_social_extra := zero_extra }.
Definition kept (k k' : kstate) : Prop := config (k_s k') = config (k_s k) /\ k_banks k' = k_banks k.

(** ** What the handles are *)

Lemma ledger_page k i : ledger k -> 0 <= i < 21 -> page_address (page_array (k_s k)).[i].
Proof.
  intros [Hs Hac] Hi. destruct (array_lengths _ Hs) as (Hl & _).
  destruct (decide ((page_array (k_s k)).[i] = 0)) as [->|Hne]; [done|].
  pose proof (ac_aligned _ _ _ _ _ Hac) as Hal. apply Forall_app in Hal as [_ Hal].
  rewrite (ac_pages _ _ _ _ _ Hac), (claims_one_drop _ i) in Hal by (lia || done).
  by apply List.Forall_cons_iff in Hal as [? _].
Qed.

(** No page is used twice. *)
Lemma ledger_distinct k i j :
  ledger k -> 0 <= i < 21 -> 0 <= j < 21 -> i <> j -> (page_array (k_s k)).[i] <> 0 ->
  (page_array (k_s k)).[i] <> (page_array (k_s k)).[j].
Proof.
  intros [Hs Hac] Hi Hj Hne Hnz Heq. destruct (array_lengths _ Hs) as (Hl & _).
  pose proof (ac_store _ _ _ _ _ Hac) as Hst. apply NoDup_app in Hst as (_ & _ & Hst).
  rewrite (ac_pages _ _ _ _ _ Hac), (claims_one_drop _ i) in Hst by (lia || done).
  apply NoDup_cons in Hst as [Hni _]. apply Hni, elem_of_claims_one. split; [|done].
  rewrite Heq, <- (nthz_setz_ne 0 _ i j 0) by lia. apply list_elem_of_In, nth_In. rewrite setz_length. lia.
Qed.

Lemma array_ok_set n P l i x : array_ok n P l -> P x -> array_ok n P (setz l i x).
Proof. intros [Hl HP] Hx. split; [by rewrite setz_length|]. by apply Forall_insert. Qed.

Lemma contract_lengths c : contract_ok c ->
  length (c_code_pa c) = 4%nat /\ length (c_stack_pa c) = 4%nat /\ length (c_args_pa c) = 4%nat.
Proof. intros (_ & _ & _ & _ & _ & _ & _ & _ & [? _] & [? _] & [? _] & _). done. Qed.

Lemma contract_ok_pages c d code stack args :
  contract_ok c -> in_u64 code -> in_u64 stack -> in_u64 args ->
  contract_ok c.{ c_code_pa := setz (c_code_pa c) d code }.{ c_stack_pa := setz (c_stack_pa c) d stack }
    .{ c_args_pa := setz (c_args_pa c) d args }.
Proof.
  intros (? & ? & ? & ? & ? & ? & ? & ? & ? & ? & ? & ?) Hc Hs Ha. unfold contract_ok. simpl.
  repeat match goal with |- _ /\ _ => split end; try done; by apply array_ok_set.
Qed.

Lemma extra_dom_ok e d : extra_fine e -> 0 <= d < 4 -> extra_domain_fine (e_dom e d).
Proof.
  intros (_ & _ & _ & Hl & Hf) Hd. rewrite List.Forall_forall in Hf. apply Hf, nth_In. lia.
Qed.
Lemma extra_fine_set e d x : extra_fine e -> extra_domain_fine x -> extra_fine e.{ e_domain := setz (e_domain e) d x }.
Proof.
  intros (? & ? & ? & ? & ?) Hx. unfold extra_fine. simpl. rewrite setz_length.
  repeat match goal with |- _ /\ _ => split end; try done. by apply Forall_insert.
Qed.

(** ** Preparing the domains *)

(** Entries from [d] on are still empty. *)
Definition main_free (d : Z) (s : ud_session) : Prop := forall j, d <= j < 4 ->
  (s_asid s).[j] = 0 /\ (s_asid_token s).[j] = 0 /\ (s_code s).[j] = 0 /\ (s_stack s).[j] = 0 /\ (s_args s).[j] = 0.
Definition social_free (d : Z) (s : ud_session) : Prop := forall j, d <= j < 4 ->
  (s_social_asid s).[j] = 0 /\ (s_social_token s).[j] = 0 /\
  (s_social_code s).[j] = 0 /\ (s_social_stack s).[j] = 0.

(** The contract names the pages of the first [d] domains. *)
Definition args_index (s : ud_session) (j : Z) : Z := if s_profile s !=? UD_PROFILE_MICRO then 0 else j.
Record recorded (d : Z) (s : ud_session) : Prop := {
  rc_contract : contract_ok (p_contract (s_p s));
  rc_pages : forall j, 0 <= j < d ->
    (c_code_pa (p_contract (s_p s))).[j] = (s_code s).[j] /\
    (c_stack_pa (p_contract (s_p s))).[j] = (s_stack s).[j] /\
    (c_args_pa (p_contract (s_p s))).[j] = (s_args s).[args_index s j];
  rc_asid : forall j, 0 <= j < d -> (s_asid s).[j] <> 0 }.

Ltac sizes_solve H := destruct H; constructor; simpl; by rewrite ?setz_length.
Ltac rearrange Hs Hd :=
  intros ?; split; [sizes_solve Hs|
    pose proof (page_array_set _ _ Hs Hd) as Hpg; pose proof (asid_array_set _ _ Hs Hd) as Hak;
    repeat match goal with |- _ /\ _ => split end; solve [done | apply Hpg | apply Hak]].

Ltac solve_kept :=
  split; simpl; [|congruence];
  repeat match goal with H : k_s ?k = _ |- context [k_s ?k] => rewrite H end; done.

(** An empty entry of a session stays empty while others are filled. *)
Ltac at_entry k Hd :=
  match goal with H : ledger k, Hs : k_s k = _ |- _ =>
    pose proof (asid_array_at _ _ (proj1 H) Hd) as (Aa & Aso & At & Ats);
    pose proof (page_array_at _ _ (proj1 H) Hd) as (Ac & Ast & Aar & Asc & Ass);
    rewrite ?Aa, ?Aso, ?At, ?Ats, ?Ac, ?Ast, ?Aar, ?Asc, ?Ass, Hs; simpl;
    clear Aa Aso At Ats Ac Ast Aar Asc Ass
  end.

(** The session records the pages and the ASID of one more domain. *)
Lemma recorded_next s d token asid code stack args :
  sizes s -> 0 <= d < 4 -> recorded d s -> asid <> 0 -> in_u64 code -> in_u64 stack -> in_u64 (setz (s_args s) d args).[args_index s d] ->
  recorded (d + 1)
    s.{ s_asid_token := setz (s_asid_token s) d token }.{ s_asid := setz (s_asid s) d asid }.{ s_code := setz (s_code s) d code }
     .{ s_stack := setz (s_stack s) d stack }.{ s_args := setz (s_args s) d args }
     .{ s_p := (s_p s).{ p_contract := (p_contract (s_p s)).{ c_code_pa := setz (c_code_pa (p_contract (s_p s))) d code }
          .{ c_stack_pa := setz (c_stack_pa (p_contract (s_p s))) d stack }
          .{ c_args_pa := setz (c_args_pa (p_contract (s_p s))) d (setz (s_args s) d args).[args_index s d] } } }.
Proof.
  intros [] Hd [Hc Hp Ha] Hn Uc Us Ua. destruct (contract_lengths _ Hc) as (Lc & Ls & La). constructor; simpl.
  - by apply contract_ok_pages.
  - intros j Hj. unfold args_index. simpl. destruct (decide (d = j)) as [->|Hne].
    + rewrite !nthz_setz_eq by lia. done.
    + rewrite !(nthz_setz_ne 0 _ d j) by lia. destruct (Hp j ltac:(lia)) as (-> & -> & ->).
      unfold args_index. split; [done|split; [done|]].
      destruct (s_profile s !=? UD_PROFILE_MICRO); rewrite nthz_setz_ne by lia; done.
  - intros j Hj. destruct (decide (d = j)) as [->|Hne].
    + by rewrite nthz_setz_eq by lia.
    + rewrite nthz_setz_ne by lia. apply Ha. lia.
Qed.

Lemma wp_prepare_domain k d (Q : unit -> kstate -> Prop) (E : Z -> kstate -> Prop) :
  ledger k -> 0 <= d < 4 -> main_free d (k_s k) -> social_free 0 (k_s k) -> recorded d (k_s k) ->
  (forall e k', ledger k' -> kept k k' -> E e k') ->
  (forall k', ledger k' -> kept k k' -> s_social_extra (k_s k') = s_social_extra (k_s k) -> main_free (d + 1) (k_s k') -> social_free 0 (k_s k') -> recorded (d + 1) (k_s k') ->
     Q tt k') ->
  wp (prepare_domain d) Q E k.
Proof.
  intros Hk Hd Hm Hso Hr HE HQ. destruct (Hm d ltac:(lia)) as (Ha & Ht & Hc & Hst & Hag).
  remember (k_s k) as s0 eqn:Hs0. symmetry in Hs0. pose proof (proj1 Hk) as Hz0. rewrite Hs0 in Hz0. unfold prepare_domain.
  eapply (wp_take_token _ _ _ d (fun t s => s.{ s_asid_token := setz (s_asid_token s) d t })); [done| |lia|by at_entry k Hd..|].
  2: { rearrange (proj1 Hk) Hd. }
  intros t k1 Hk1 Hs1 Hb1. rewrite Hs0 in Hs1. apply wp_bind, wp_fail_if; intros Hz1; [apply HE; [done|solve_kept]|].
  eapply (wp_take_asid _ _ _ d (fun a s => s.{ s_asid := setz (s_asid s) d a })); [done| |lia| |by at_entry k1 Hd|].
  3: { rearrange (proj1 Hk1) Hd. }
  2: { at_entry k1 Hd. rewrite nthz_setz_eq; [done|]. rewrite (sz_token _ Hz0). lia. }
  intros a k2 Hk2 Hs2 Hb2. rewrite Hs1 in Hs2. apply wp_bind, wp_fail_if; intros Hz2; [apply HE; [done|solve_kept]|].
  apply wp_bind, wp_tlbi_ledger; [done|]. intros k3 Hk3 Hs3 Hb3. rewrite Hs2 in Hs3.
  eapply (wp_take_page _ _ _ (1 + d) (fun p s => s.{ s_code := setz (s_code s) d p })); [done| |lia|by at_entry k3 Hd|].
  2: { rearrange (proj1 Hk3) Hd. }
  intros code k4 Hk4 Hs4 Hb4. rewrite Hs3 in Hs4.
  eapply (wp_take_page _ _ _ (5 + d) (fun p s => s.{ s_stack := setz (s_stack s) d p })); [done| |lia|by at_entry k4 Hd|].
  2: { rearrange (proj1 Hk4) Hd. }
  intros stack k5 Hk5 Hs5 Hb5. rewrite Hs4 in Hs5.
  eapply (wp_take_page _ _ _ (9 + d) (fun p s => s.{ s_args := setz (s_args s) d p })); [done| |lia|by at_entry k5 Hd|].
  2: { rearrange (proj1 Hk5) Hd. }
  intros args k6 Hk6 Hs6 Hb6. rewrite Hs5 in Hs6. apply wp_bind, wp_fail_if; intros Hz3; [apply HE; [done|solve_kept]|].
  apply wp_bind, wp_session, wp_set_session. simpl.
  assert (Hu : forall i, 0 <= i < 21 -> in_u64 (page_array (k_s k6)).[i])
    by (intros i Hi; apply (ledger_page _ _ Hk6 Hi)).
  destruct (page_array_at _ d (proj1 Hk6) Hd) as (Pc & Ps & Pa & _).
  assert (Pa' : in_u64 (s_args (k_s k6)).[args_index s0 d]).
  { assert (Hix : 0 <= args_index s0 d < 4) by (unfold args_index; destruct (_ !=? _); lia).
    destruct (page_array_at _ _ (proj1 Hk6) Hix) as (_ & _ & <- & _). apply Hu. lia. }
  pose proof (Hu (1 + d) ltac:(lia)) as Uc. pose proof (Hu (5 + d) ltac:(lia)) as Us.
  rewrite Pc, Hs6 in Uc. rewrite Ps, Hs6 in Us. rewrite Hs6 in Pa'. simpl in Uc, Us, Pa'. clear Hu Pc Ps Pa.
  assert (Hl : length (s_code s0) = 4%nat /\ length (s_stack s0) = 4%nat) by (by destruct Hz0). unfold z0 in *.
  rewrite nthz_setz_eq in Uc, Us by lia.
  apply HQ; [ledger_keep Hk6|solve_kept|..]; simpl; rewrite Hs6; simpl.
  - done.
  - intros j Hj. simpl. rewrite !nthz_setz_ne by lia. apply Hm. lia.
  - exact Hso.
  - apply recorded_next; try done. by apply Z.eqb_neq in Hz2.
Qed.

Record extra_recorded (d : Z) (s : ud_session) : Prop := {
  xr_pages : forall j, 0 <= j < d ->
    x_code_pa (e_dom (s_social_extra s) j) = (s_social_code s).[j] /\
    x_stack_pa (e_dom (s_social_extra s) j) = (s_social_stack s).[j];
  xr_asid : forall j, 0 <= j < d -> (s_social_asid s).[j] <> 0 }.

Lemma wp_prepare_extra_domain k d (Q : unit -> kstate -> Prop) (E : Z -> kstate -> Prop) :
  ledger k -> 0 <= d < 4 -> recorded 4 (k_s k) -> social_free d (k_s k) -> extra_recorded d (k_s k) ->
  (forall e k', ledger k' -> kept k k' -> E e k') ->
  (forall k', ledger k' -> kept k k' -> recorded 4 (k_s k') -> social_free (d + 1) (k_s k') -> extra_recorded (d + 1) (k_s k') ->
     Q tt k') ->
  wp (prepare_extra_domain d) Q E k.
Proof.
  intros Hk Hd Hr Hso Hx HE HQ. destruct (Hso d ltac:(lia)) as (Ha & Ht & Hc & Hst).
  remember (k_s k) as s0 eqn:Hs0. symmetry in Hs0. pose proof (proj1 Hk) as Hz0. rewrite Hs0 in Hz0. unfold prepare_extra_domain.
  eapply (wp_take_token _ _ _ (4 + d) (fun t s => s.{ s_social_token := setz (s_social_token s) d t })); [done| |lia|by at_entry k Hd..|].
  2: { rearrange (proj1 Hk) Hd. }
  intros t k1 Hk1 Hs1 Hb1. rewrite Hs0 in Hs1. apply wp_bind, wp_fail_if; intros Hz1; [apply HE; [done|solve_kept]|].
  eapply (wp_take_asid _ _ _ (4 + d) (fun a s => s.{ s_social_asid := setz (s_social_asid s) d a })); [done| |lia| |by at_entry k1 Hd|].
  3: { rearrange (proj1 Hk1) Hd. }
  2: { at_entry k1 Hd. rewrite nthz_setz_eq; [done|]. rewrite (sz_social_token _ Hz0). lia. }
  intros a k2 Hk2 Hs2 Hb2. rewrite Hs1 in Hs2. apply wp_bind, wp_fail_if; intros Hz2; [apply HE; [done|solve_kept]|].
  apply wp_bind, wp_tlbi_ledger; [done|]. intros k3 Hk3 Hs3 Hb3. rewrite Hs2 in Hs3.
  eapply (wp_take_page _ _ _ (13 + d) (fun p s => s.{ s_social_code := setz (s_social_code s) d p })); [done| |lia|by at_entry k3 Hd|].
  2: { rearrange (proj1 Hk3) Hd. }
  intros code k4 Hk4 Hs4 Hb4. rewrite Hs3 in Hs4.
  eapply (wp_take_page _ _ _ (17 + d) (fun p s => s.{ s_social_stack := setz (s_social_stack s) d p })); [done| |lia|by at_entry k4 Hd|].
  2: { rearrange (proj1 Hk4) Hd. }
  intros stack k5 Hk5 Hs5 Hb5. rewrite Hs4 in Hs5. apply wp_bind, wp_fail_if; intros Hz3; [apply HE; [done|solve_kept]|].
  apply wp_set_session. simpl.
  pose proof (ledger_page _ (13 + d) Hk5 ltac:(lia)) as [Uc _]. pose proof (ledger_page _ (17 + d) Hk5 ltac:(lia)) as [Us _].
  destruct (page_array_at _ d (proj1 Hk5) Hd) as (_ & _ & _ & Pc & Ps). rewrite Pc in Uc. rewrite Ps in Us.
  rewrite Hs5 in Uc, Us. simpl in Uc, Us. pose proof (extra_dom_ok _ d (sz_extra _ Hz0) Hd) as [(Xt & _ & _) Xf].
  destruct Hz0, Hx, Hr. pose proof sz_extra0 as (_ & _ & _ & Hlx & _). unfold z0 in *.
  rewrite nthz_setz_eq in Uc, Us by lia.
  apply HQ; [ledger_keep Hk5; rewrite Hs5; by apply extra_fine_set|solve_kept|..]; simpl; rewrite Hs5; simpl.
  - by constructor.
  - intros j Hj. simpl. rewrite !nthz_setz_ne by lia. apply Hso. lia.
  - constructor; simpl; rewrite ?setz_length; try done; unfold e_dom in *; simpl; intros j Hj;
      (destruct (decide (d = j)) as [->|Hne]; [rewrite !nthz_setz_eq by lia|rewrite !nthz_setz_ne by lia]).
    + done.
    + apply xr_pages0. lia.
    + by apply Z.eqb_neq in Hz2.
    + apply xr_asid0. lia.
Qed.

(** ** Importing the region *)

(** File pointers are not NULL; MT_NORMAL and MT_NORMAL_NC are MAIR indices. *)
Record linux_ok (L : linux) : Prop := {
  lk_files : forall va vma f, l_find_vma L va = Some vma -> vm_file_of vma = Some f -> f_id f <> 0;
  lk_normal : 0 <= l_mt_normal L < 8;
  lk_normal_nc : 0 <= l_mt_normal_nc L < 8 }.

Section importing.
Context (L : linux).
Hypothesis HL : linux_ok L.

Lemma wp_import_pa k offset slot (Q : Z -> kstate -> Prop) (E : Z -> kstate -> Prop) :
  ledger k -> 0 <= slot < 34 -> (s_import_file (k_s k)).[slot] = 0 ->
  (forall e, E e k) ->
  (forall pa f k', 0 <= pa < 2 ^ 48 -> ledger k' -> k_s k' = (k_s k).{ s_import_file := setz (s_import_file (k_s k)) slot f } ->
     f <> 0 -> k_banks k' = k_banks k -> Q pa k') ->
  wp (ud_import_pa L offset slot true) Q E k.
Proof using HL.
  intros Hk Hslot H0 HE HQ. unfold ud_import_pa. apply wp_bind, wp_session. cbv zeta.
  destruct (l_find_vma L _) as [vma|] eqn:Hv; [|by apply wp_raise].
  destruct (vm_file_of vma) as [f|] eqn:Hfile; [|by apply wp_raise].
  repeat (apply wp_bind, wp_fail_if; intros ?; [by apply HE|]).
  destruct (l_follow_pte L _) as [pte|rc]; [|by apply wp_raise].
  cbv zeta. repeat (apply wp_bind, wp_fail_if; intros ?; [by apply HE|]).
  apply wp_bind, wp_bind. destruct Hk as [Hs Hac].
  eapply (wp_get_file _ _ _ _ _ _ Hac slot (f_id f)); [rewrite (sz_files _ Hs); unfold IMPORT_FILES; lia|done|by eapply (lk_files _ HL)|].
  intros k' [Hs' Hb'] Hac'. apply wp_set_session, wp_ret, (HQ _ (f_id f)); simpl; [| |by rewrite Hs'|by eapply (lk_files _ HL)|done].
  - bprop. pose proof (pa_valid_lt _ (u64_range _) ltac:(eassumption)). lia.
  - rewrite Hs'. eapply ledger_rearranged; [exact Hac'|]. split; [sizes_solve Hs|done].
Qed.

(** Nothing but files has been taken yet, and none from entry [n] on. *)
Record importing (n : Z) (k0 k : kstate) : Prop := {
  im_ledger : ledger k;
  im_files : forall j, n <= j < 34 -> (s_import_file (k_s k)).[j] = 0;
  im_main : main_free 0 (k_s k); im_social : social_free 0 (k_s k); im_root : s_empty_root (k_s k) = 0;
  im_recorded : recorded 0 (k_s k); im_extra : extra_recorded 0 (k_s k);
  im_kept : kept k0 k }.

Lemma importing_weaken n n' k0 k : n <= n' -> importing n k0 k -> importing n' k0 k.
Proof using Type. intros Hn []. constructor; try done. intros j Hj. apply im_files0. lia. Qed.

Definition keeps_importing (f : ud_session -> ud_session) : Prop := forall n k0 k,
  importing n k0 k -> importing n k0 k.{ k_s := f (k_s k) }.

Lemma wp_import k0 k offset slot rec f (E : Z -> kstate -> Prop) (Q : unit -> kstate -> Prop) :
  importing slot k0 k -> 0 <= slot < 34 -> (forall pa, 0 <= pa < 2 ^ 48 -> keeps_importing (f pa)) ->
  (forall e k', importing (slot + 1) k0 k' -> E e k') ->
  (forall k', importing (slot + 1) k0 k' -> Q tt k') ->
  wp (import L offset slot true rec (fun pa => set_session (f pa))) Q E k.
Proof using HL.
  intros Hk Hslot Hf HE HQ. unfold import. apply wp_bind.
  apply wp_import_pa; [apply Hk|done|apply (im_files _ _ _ Hk); lia|intros e; eapply HE, importing_weaken; [|done]; lia|].
  intros pa f' k' Hpa Hk' Hs' Hf' Hb'. apply wp_set_session, HQ, Hf; [done|]. destruct Hk, im_kept0 as [Hc Hb].
  constructor; rewrite ?Hs'; try done.
  - intros j Hj. simpl. rewrite nthz_setz_ne by lia. apply im_files0. lia.
  - destruct im_recorded0. by constructor.
  - destruct im_extra0. by constructor.
  - split; [by rewrite Hs'|congruence].
Qed.

Lemma keeps_contract f :
  (forall c, contract_ok c -> contract_ok (f c)) -> keeps_importing (fun s => s.{ s_p := (s_p s).{ p_contract := f (p_contract (s_p s)) } }).
Proof using Type.
  intros Hf n k0 k []. constructor; try done.
  - ledger_keep im_ledger0.
  - destruct im_recorded0. constructor; simpl; [by apply Hf|lia|lia].
  - destruct im_extra0. by constructor.
Qed.
Lemma keeps_extra d f :
  0 <= d < 4 -> (forall x, extra_domain_fine x -> extra_domain_fine (f x)) ->
  keeps_importing (fun s => s.{ s_social_extra :=
    (s_social_extra s).{ e_domain := setz (e_domain (s_social_extra s)) d (f (e_dom (s_social_extra s) d)) } }).
Proof using Type.
  intros Hd Hf n k0 k []. constructor; try done.
  - ledger_keep im_ledger0. by apply extra_fine_set; [|apply Hf, extra_dom_ok].
  - destruct im_recorded0. by constructor.
  - constructor; simpl; lia.
Qed.

(** Four imports per domain, then the loop over the domains. *)
Lemma wp_import_tables k0 k base index offset rec f (E : Z -> kstate -> Prop) (Q : unit -> kstate -> Prop) :
  importing base k0 k -> 0 <= base -> base + 16 <= 34 -> (forall d l, index d l = base + 4 * d + l) ->
  (forall d l pa, 0 <= d < 4 -> 0 <= pa < 2 ^ 48 -> keeps_importing (f d l pa)) ->
  (forall e k', importing (base + 16) k0 k' -> E e k') ->
  (forall k', importing (base + 16) k0 k' -> Q tt k') ->
  wp (for_m 4 (fun d => for_m 4 (fun l =>
        import L (offset d l) (index d l) true (rec d l) (fun pa => set_session (f d l pa))))) Q E k.
Proof using HL.
  intros Hk Hb1 Hb2 Hix Hf HE HQ.
  apply (wp_for (fun d k' => importing (base + 4 * d) k0 k')); [done|by rewrite Z.mul_0_r, Z.add_0_r| |by apply HQ].
  intros d k1 Hd Hk1.
  apply (wp_for (fun l k' => importing (base + 4 * d + l) k0 k')); [done|by rewrite Z.add_0_r| |].
  - intros l k2 Hl Hk2. rewrite Hix. apply (wp_import k0); [done|lia|by intros; apply Hf| |].
    + intros e k' Hk'. eapply HE, importing_weaken; [|exact Hk']. lia.
    + intros k' Hk'. by rewrite Z.add_assoc.
  - intros k' Hk'. by replace (base + 4 * (d + 1)) with (base + 4 * d + 4) by lia.
Qed.

(** Replacing one field of a contract. *)
Ltac contract_field :=
  intros ? (? & ? & ? & ? & ? & ? & ? & ? & ? & ? & ? & ?); unfold contract_ok; simpl;
  repeat match goal with |- _ /\ _ => split end; try done.

Lemma wp_mapping k0 k (E : Z -> kstate -> Prop) (Q : unit -> kstate -> Prop) :
  importing 0 k0 k ->
  (forall e k', importing 34 k0 k' -> E e k') -> (forall k', importing 34 k0 k' -> Q tt k') ->
  wp (ud_mapping L true) Q E k.
Proof using HL.
  intros Hk HE HQ. unfold ud_mapping. apply wp_bind, wp_session, wp_bind.
  eapply (wp_import_tables k0 _ 0 _ _ _ (fun d l pa s => _)); [done|done|done|intros; lia| |..].
  { intros d l pa Hd Hpa. apply (keeps_contract (fun c => c.{ c_tables := setz (c_tables c) (4 * d + l) pa })).
    contract_field. apply array_ok_set; [done|]. unfold in_u64. lia. }
  { intros e k1 Hk1. eapply HE, importing_weaken; [|exact Hk1]. lia. }
  intros k1 Hk1. apply wp_bind.
  eapply (wp_import k0 _ _ _ _ (fun pa s => _)); [exact Hk1|done| |..].
  { intros pa Hpa. apply (keeps_contract (fun c => c.{ c_heap_pa := pa })). contract_field; unfold in_u64; lia. }
  { intros e k2 Hk2. eapply HE, importing_weaken; [|exact Hk2]. done. }
  intros k2 Hk2. apply wp_bind.
  assert (Hextra : forall k3, importing 18 k0 k3 -> wp (if three_nginx (k_s k) then
     for_m UD_SOCIAL_EXTRA_DOMAINS (fun d => for_m 4 (fun l =>
       import L (UD_SOCIAL_EXTRA_TABLE (s_pool_slot (k_s k)) d l) (UD_DOMAINS * 4 + 2 + d * 4 + l) true
         (fun s => (x_table_pa (e_dom (s_social_extra s) d)).[l])
         (fun pa => set_extra_domain d (fun x => x.{ x_table_pa := setz (x_table_pa x) l pa }))))
     else ret tt) Q E k3).
  { intros k3 Hk3. destruct (three_nginx (k_s k)).
    - eapply (wp_import_tables k0 _ 18 _ _ _ (fun d l pa s => _)); [exact Hk3|done|done| |..|exact HE|exact HQ].
      + intros d l. unfold UD_DOMAINS. lia.
      + intros d l pa Hd Hpa. apply (keeps_extra d (fun x => x.{ x_table_pa := setz (x_table_pa x) l pa })); [done|].
        intros x [(? & ? & ?) ?]. split; [split; [apply array_ok_set; [done|unfold in_u64; lia]|done]|by apply setz_Forall].
    - apply wp_ret, HQ. eapply importing_weaken; [|exact Hk3]. lia. }
  destruct (write_profile (s_profile (k_s k))).
  - eapply (wp_import k0 _ _ _ _ (fun pa s => _)); [exact Hk2|done| |..].
    + intros pa Hpa. apply (keeps_contract (fun c => c.{ c_write_pa := pa })). contract_field; unfold in_u64; lia.
    + intros e k3 Hk3. eapply HE, importing_weaken; [|exact Hk3]. done.
    + exact Hextra.
  - apply wp_ret, Hextra. eapply importing_weaken; [|exact Hk2]. done.
Qed.
End importing.

(** ** Leases

    A session's lease is the slot it has reserved; [pool_view] is the table with
    that lease and those of the [others]. *)

Definition lease (s : ud_session) : list (Z * Z) :=
  if s_pool_reserved s then [(s_pool_bank s, s_pool_slot s)] else [].
Definition pool_view (others : list (Z * Z)) (k : kstate) : pool := mk_pool (k_banks k) (lease (k_s k) ++ others).

(** The table has moved only by acquires and releases of this session's lease. *)
Definition pool_moves (k k' : kstate) : Prop := forall others,
  pool_inv (pool_view others k) -> rtc pool_step (pool_view others k) (pool_view others k').

Lemma pool_moves_refl k k' :
  lease (k_s k') = lease (k_s k) -> k_banks k' = k_banks k -> pool_moves k k'.
Proof. intros Hl Hb others _. unfold pool_view. by rewrite Hl, Hb. Qed.
Lemma pool_moves_trans k1 k2 k3 : pool_moves k1 k2 -> pool_moves k2 k3 -> pool_moves k1 k3.
Proof.
  intros H1 H2 others Hi. etrans; [by apply H1|]. apply H2.
  by eapply (rtc_invariant pool_step); [apply pool_inv_step|by apply H1|].
Qed.

Lemma kept_moves k k' : kept k k' -> pool_moves k k'.
Proof.
  intros [Hc Hb]. apply pool_moves_refl; [|done]. unfold lease.
  pose proof (f_equal s_pool_reserved Hc) as E1. pose proof (f_equal s_pool_bank Hc) as E2.
  pose proof (f_equal s_pool_slot Hc) as E3. simpl in *. by rewrite E1, E2, E3.
Qed.

(** What no part of preparing or freeing changes. *)
Definition settings (s : ud_session) : ud_session :=
  (config s).{ s_pool_bank := 0 }.{ s_pool_slot := 0 }.{ s_pool_reserved := false }.
Lemma kept_settings k k' : kept k k' -> settings (k_s k') = settings (k_s k).
Proof. intros [Hc _]. exact (f_equal (fun c => c.{ s_pool_bank := 0 }.{ s_pool_slot := 0 }.{ s_pool_reserved := false }) Hc). Qed.

Lemma filter_absent (x : Z * Z) (l : list (Z * Z)) : x ∉ l -> filter (fun y => y <> x) l = l.
Proof. intros Hx. apply filter_all. by intros y Hy ->. Qed.

Lemma free_pages_moves k k' : k_s k' = wiped (k_s k) -> k_banks k' = banks_after k -> pool_moves k k'.
Proof.
  intros Hs Hb. unfold banks_after in Hb. intros others Hi. unfold pool_view, lease in *. rewrite Hs, Hb. simpl.
  destruct (s_pool_reserved (k_s k)) eqn:Hr; [|done].
  apply rtc_once. assert (Hni : (s_pool_bank (k_s k), s_pool_slot (k_s k)) ∉ others).
  { pose proof (pi_nodup _ Hi) as Hn. simpl in Hn. by apply NoDup_cons in Hn as [? _]. }
  replace others with (filter (fun x => x <> (s_pool_bank (k_s k), s_pool_slot (k_s k)))
    ((s_pool_bank (k_s k), s_pool_slot (k_s k)) :: others)) at 2.
  - apply (pool_release (mk_pool _ _)). simpl. left.
  - rewrite filter_cons_False by naive_solver. by apply filter_absent.
Qed.

Lemma no_lease s : lease s = [] -> s_pool_reserved s = false.
Proof. unfold lease. by destruct (s_pool_reserved s). Qed.

(** [importing] starts over when only the lease has changed. *)
Lemma importing_restart n k0 k k' :
  importing n k0 k -> ledger k' -> settings (k_s k') = settings (k_s k) ->
  page_array (k_s k') = page_array (k_s k) -> asid_array (k_s k') = asid_array (k_s k) ->
  token_array (k_s k') = token_array (k_s k) ->
  s_p (k_s k') = s_p (k_s k) -> s_social_extra (k_s k') = s_social_extra (k_s k) ->
  (forall j, n <= j < 34 -> (s_import_file (k_s k')).[j] = 0) -> importing n k' k'.
Proof.
  intros [] Hk' Hset Hpg Hak Htk Hp Hx Hf. pose proof (proj1 Hk') as Hs'. pose proof (proj1 im_ledger0) as Hs.
  assert (Hpr : s_profile (k_s k') = s_profile (k_s k)) by exact (f_equal s_profile Hset).
  assert (Hat : forall j, 0 <= j < 4 ->
    (s_asid (k_s k')).[j] = (s_asid (k_s k)).[j] /\ (s_asid_token (k_s k')).[j] = (s_asid_token (k_s k)).[j] /\
    (s_social_asid (k_s k')).[j] = (s_social_asid (k_s k)).[j] /\ (s_social_token (k_s k')).[j] = (s_social_token (k_s k)).[j] /\
    (s_code (k_s k')).[j] = (s_code (k_s k)).[j] /\ (s_stack (k_s k')).[j] = (s_stack (k_s k)).[j] /\
    (s_args (k_s k')).[j] = (s_args (k_s k)).[j] /\ (s_social_code (k_s k')).[j] = (s_social_code (k_s k)).[j] /\
    (s_social_stack (k_s k')).[j] = (s_social_stack (k_s k)).[j]).
  { intros j Hj. destruct (asid_array_at _ j Hs' Hj) as (<- & <- & <- & <-).
    destruct (page_array_at _ j Hs' Hj) as (<- & <- & <- & <- & <-). rewrite Hpg, Hak, Htk.
    destruct (asid_array_at _ j Hs Hj) as (<- & <- & <- & <-).
    destruct (page_array_at _ j Hs Hj) as (<- & <- & <- & <- & <-). done. }
  constructor; try done.
  - intros j Hj. destruct (Hat j Hj) as (-> & -> & _ & _ & -> & -> & -> & _). by apply im_main0.
  - intros j Hj. destruct (Hat j Hj) as (_ & _ & -> & -> & _ & _ & _ & -> & ->). by apply im_social0.
  - unfold page_array in Hpg. congruence.
  - destruct im_recorded0. constructor; rewrite ?Hp; try done; lia.
  - destruct im_extra0. constructor; rewrite ?Hx; try done; lia.
Qed.

Section discovering.
Context (L : linux).
Hypothesis HL : linux_ok L.

Lemma wp_discover_slot k (Q : unit -> kstate -> Prop) (E : Z -> kstate -> Prop) :
  importing 0 k k -> lease (k_s k) = [] ->
  (forall e k', ledger k' -> pool_moves k k' -> settings (k_s k') = settings (k_s k) -> E e k') ->
  (forall k', importing 0 k' k' -> pool_moves k k' -> settings (k_s k') = settings (k_s k) ->
     s_pool_reserved (k_s k') = true -> Q tt k') ->
  wp (discover_slot L) Q E k.
Proof using HL.
  intros Hk Hl HE HQ. pose proof (no_lease _ Hl) as Hr. unfold discover_slot. apply wp_bind.
  apply wp_import_pa; [done|apply Hk|done|by apply (im_files _ _ _ Hk)| |].
  { intros e. apply HE; [apply Hk|by apply pool_moves_refl|done]. }
  intros heap f k1 _ Hk1 Hs1 Hf Hb1. apply wp_bind, wp_get. cbv zeta.
  destruct (ud_slots_acquire _ _ _ _ _) as [[[rc banks] bank] slot] eqn:Hacq.
  apply wp_bind, wp_put. rewrite Hb1, Hs1 in Hacq. simpl in Hacq. apply wp_bind, wp_fail_if; intros Hrc; bprop.
  { apply HE; [ledger_keep Hk1| |simpl; by rewrite Hs1].
    intros others _. unfold pool_view, lease. simpl. rewrite Hs1. simpl. rewrite Hr. simpl.
    apply rtc_once. exact (pool_refused (mk_pool (k_banks k) others) _ _ _ _ _ _ _ _ Hacq Hrc). }
  subst rc. apply wp_bind, wp_set_session, wp_bind, wp_session.
  match goal with |- wp _ _ _ ?t => remember t as k2 eqn:E2 end.
  assert (Hk2 : ledger k2) by (subst k2; ledger_keep Hk1).
  assert (Hs2 : k_s k2 = (k_s k1).{ s_pool_bank := bank }.{ s_pool_slot := slot }.{ s_pool_reserved := true })
    by by rewrite E2.
  assert (Hb2 : k_banks k2 = banks) by by rewrite E2. clear E2. rewrite Hs1 in Hs2.
  pose proof (sz_files _ (proj1 Hk2)) as Hlen.
  assert (Hfile : (s_import_file (k_s k2)).[UD_DOMAINS * 4] = f).
  { rewrite Hs2 in *. simpl in *. apply nthz_setz_eq. rewrite setz_length in Hlen. by rewrite Hlen. }
  unfold nz. destruct ((s_import_file (k_s k2)).[UD_DOMAINS * 4] =? 0) eqn:Hf0; bprop; [congruence|]. simpl.
  apply wp_bind. eapply (wp_fput _ _ _ _ _ _ (proj2 Hk2)); [by rewrite Hlen|done|].
  intros k3 [Hs3 Hb3] Hac3. apply wp_set_session. rewrite Hs3.
  assert (Hk4 : ledger k3.{ k_s := (k_s k2).{ s_import_file := setz (s_import_file (k_s k2)) (UD_DOMAINS * 4) 0 } }).
  { eapply ledger_rearranged; [exact Hac3|]. split; [sizes_solve (proj1 Hk2)|done]. }
  apply HQ; simpl; rewrite ?Hs2; try done.
  - eapply (importing_restart 0 k k); [done|by rewrite Hs2 in Hk4|done..|]. intros j Hj. simpl.
    destruct (decide (j = 16)) as [->|]; [apply nthz_setz_eq; simpl; rewrite Hs2 in Hlen; simpl in Hlen; by rewrite Hlen|].
    rewrite !nthz_setz_ne by (unfold UD_DOMAINS; lia). apply (im_files _ _ _ Hk). lia.
  - intros others _. unfold pool_view, lease. simpl. rewrite Hr, Hb3, Hb2. simpl.
    apply rtc_once. exact (pool_acquire (mk_pool (k_banks k) others) _ _ _ _ _ _ _ Hacq).
Qed.
End discovering.

(** ** Preparing *)

Record prepared_ok (s : ud_session) : Prop := {
  po_contract : ud_contract_valid (p_contract (s_p s)) = true;
  po_recorded : recorded 4 s;
  po_extra : three_nginx s = true -> extra_recorded 4 s;
  po_lease : s_pool_reserved s = s_multi s }.

Lemma kept_trans k1 k2 k3 : kept k1 k2 -> kept k2 k3 -> kept k1 k3.
Proof. intros [] []. split; etrans; done. Qed.
Lemma kept_refl k : kept k k.
Proof. done. Qed.

(** Everything after the import: local pages, ASIDs and the final check. *)
Lemma wp_prepare_local k0 k (Q : unit -> kstate -> Prop) (E : Z -> kstate -> Prop) :
  importing 34 k0 k ->
  (forall e k', ledger k' -> kept k0 k' -> E e k') ->
  (forall k', ledger k' -> kept k0 k' -> ud_contract_valid (p_contract (s_p (k_s k'))) = true ->
     recorded 4 (k_s k') -> (three_nginx (k_s k') = true -> extra_recorded 4 (k_s k')) -> Q tt k') ->
  wp prepare_local Q E k.
Proof.
  intros Hk HE HQ. pose proof (proj1 (im_ledger _ _ _ Hk)) as Hs. unfold prepare_local.
  eapply (wp_take_page _ _ _ 0 (fun p s => s.{ s_empty_root := p })); [apply Hk| |lia|apply Hk|].
  2: { intros p. split; [sizes_solve Hs|done]. }
  intros root k1 Hk1 Hs1 Hb1. destruct Hk, im_kept0 as [Hc0 Hb0].
  assert (Hkept1 : kept k0 k1) by (split; [by rewrite Hs1|congruence]).
  apply wp_bind, wp_fail_if; intros _; [by apply HE|].
  apply wp_bind, (wp_for (fun d k' => ledger k' /\ kept k0 k' /\ s_social_extra (k_s k') = s_social_extra (k_s k1) /\
    main_free d (k_s k') /\ social_free 0 (k_s k') /\ recorded d (k_s k'))); [done| | |].
  { rewrite Hs1. split_and!; try done. destruct im_recorded0. by constructor. }
  { intros d k2 Hd (Hk2 & Hkept2 & Hx2 & Hm2 & Hso2 & Hr2). apply wp_prepare_domain; try done.
    - intros e k' Hk' Hkept'. apply HE; [done|by eapply kept_trans].
    - intros k' Hk' Hkept' Hx' Hm' Hso' Hr'. split_and!; try done; [by eapply kept_trans|congruence]. }
  intros k2 (Hk2 & Hkept2 & Hx2 & _ & Hso2 & Hr2). apply wp_bind, wp_session.
  assert (Hend : forall k3, ledger k3 -> kept k0 k3 -> recorded 4 (k_s k3) ->
            (three_nginx (k_s k3) = true -> extra_recorded 4 (k_s k3)) ->
            wp (s <- session ;; fail_if (negb (ud_contract_valid (p_contract (s_p s)))) (- ERANGE)) Q E k3).
  { intros k3 Hk3 Hkept3 Hr3 Hx3. apply wp_bind, wp_session, wp_fail_if; intros Hv; [by apply HE|].
    apply HQ; try done. by apply negb_false_iff in Hv. }
  apply wp_bind. destruct (three_nginx (k_s k2)) eqn:H3.
  - apply wp_bind, wp_set_session.
    apply (wp_for (fun d k' => ledger k' /\ kept k0 k' /\ recorded 4 (k_s k') /\ social_free d (k_s k') /\ extra_recorded d (k_s k'))); [done| | |].
    + repeat match goal with |- _ /\ _ => split end; [|exact Hkept2|by destruct Hr2; constructor|exact Hso2|constructor; simpl; lia].
      ledger_keep Hk2. destruct sz_extra0 as (_ & _ & _ & ? & ?). destruct (rc_contract _ _ Hr2) as (_ & ? & _).
      unfold extra_fine. simpl. done.
    + intros d k3 Hd (Hk3 & Hkept3 & Hr3 & Hso3 & Hx3). apply wp_prepare_extra_domain; try done.
      * intros e k' Hk' Hkept'. apply HE; [done|by eapply kept_trans].
      * intros k' Hk' Hkept' Hr' Hso' Hx'. split_and!; try done. by eapply kept_trans.
    + intros k3 (? & ? & ? & ? & ?). by apply Hend.
  - apply wp_ret, Hend; try done. congruence.
Qed.
