(* ===== verification/Device.v ===== *)
(** * The life of a session

    What a session looks like between two calls into the device
    (kernel/ub-domain/domain.c): its ledger balances, it holds nothing unless it
    is prepared, and a prepared one has a valid contract made of its own pages. *)

From S2P Require Import Prelude Monad CMem Abi Layout PoolSlots RemoteCode Social Services Pool Kernel KernelLogic Session Ledger.

(** ** Preparing *)

(** A session without resources or lease. *)
Definition bare (s : ud_session) : Prop := wiped s = s.

Lemma wiped_bare s : bare (wiped s).
Proof. destruct s. vm_compute. reflexivity. Qed.

Lemma bare_arrays s : bare s ->
  s_asid s = replicate 4 0 /\ s_asid_token s = replicate 4 0 /\ s_social_asid s = replicate 4 0 /\
  s_social_token s = replicate 4 0 /\ s_social_code s = replicate 4 0 /\ s_social_stack s = replicate 4 0 /\
  s_empty_root s = 0 /\ s_code s = replicate 4 0 /\ s_stack s = replicate 4 0 /\ s_args s = replicate 4 0 /\
  s_import_file s = replicate IMPORT_FILES 0 /\ s_pool_reserved s = false.
Proof. intros <-. split_and!; reflexivity. Qed.

Lemma bare_lease s : bare s -> lease s = [].
Proof. by intros <-. Qed.

Lemma bare_importing k :
  ledger k -> bare (k_s k) -> recorded 0 (k_s k) -> importing 0 k k.
Proof.
  intros Hk Hb Hr. apply bare_arrays in Hb as (H1 & H2 & H3 & H4 & H5 & H6 & H7 & H8 & H9 & H10 & H11 & H12).
  constructor; try done.
  - intros j _. rewrite H11. apply replicate_nthz.
  - intros j _. rewrite H1, H2, H8, H9, H10, replicate_nthz. done.
  - intros j _. rewrite H3, H4, H5, H6, replicate_nthz. done.
  - constructor; lia.
Qed.

Lemma mair_index_range mair encoding preferred :
  0 <= preferred < 8 -> 0 <= ud_mair_index mair encoding preferred -> ud_mair_index mair encoding preferred < 8.
Proof.
  intros Hp. unfold ud_mair_index. case_if; [lia|].
  assert (H : forall l, Forall (fun i => i < 8) l -> 0 <= mair_scan mair encoding l -> mair_scan mair encoding l < 8).
  { induction l as [|i l IH]; simpl; [unfold EOPNOTSUPP; lia|]. intros [? ?]%List.Forall_cons_iff.
    case_if; [lia|]. by apply IH. }
  apply H. apply List.Forall_forall. intros i Hi. apply list_elem_of_In, elem_of_seqZ in Hi. lia.
Qed.
Lemma supported_indices L :
  linux_ok L -> ud_supported L = 0 ->
  in_u32 (ud_mair_index (l_mair L) 0xff (l_mt_normal L)) /\ in_u32 (ud_mair_index (l_mair L) 0x44 (l_mt_normal_nc L)).
Proof.
  intros [_ H1 H2] H. unfold ud_supported in H. repeat (case_if_in H; [done|]). bprop.
  assert (8 < 2 ^ 32) by lia.
  split; (split; [lia|eapply Z.lt_trans; [apply mair_index_range|]]); lia.
Qed.

Section preparing.
Context (L : linux).
Hypothesis HL : linux_ok L.

Lemma wp_prepare_body k (Q : unit -> kstate -> Prop) (E : Z -> kstate -> Prop) :
  importing 0 k k -> lease (k_s k) = [] ->
  (forall e k', ledger k' -> pool_moves k k' -> settings (k_s k') = settings (k_s k) -> E e k') ->
  (forall k', ledger k' -> pool_moves k k' -> settings (k_s k') = settings (k_s k) -> prepared_ok (k_s k') -> Q tt k') ->
  wp (prepare_body L) Q E k.
Proof using HL.
  intros Hk Hl HE HQ. pose proof (no_lease _ Hl) as Hr. unfold prepare_body. apply wp_bind, wp_session.
  assert (Hrest : forall k1, importing 0 k1 k1 -> pool_moves k k1 -> settings (k_s k1) = settings (k_s k) ->
    s_pool_reserved (k_s k1) = s_multi (k_s k) -> wp (ud_mapping L true ;; prepare_local) Q E k1).
  { intros k1 Hk1 Hm1 Hset1 Hr1. apply wp_bind, (wp_mapping L HL k1); [done| |].
    - intros e k2 []. apply HE; [done|by eapply pool_moves_trans, kept_moves|]. by rewrite (kept_settings _ _ im_kept).
    - intros k2 Hk2. apply (wp_prepare_local k1); [done| |].
      + intros e k3 Hk3 Hkept. apply HE; [done|by eapply pool_moves_trans, kept_moves|]. by rewrite (kept_settings _ _ Hkept).
      + intros k3 Hk3 Hkept Hv Hrec Hx. apply HQ; [done|by eapply pool_moves_trans, kept_moves|by rewrite (kept_settings _ _ Hkept)|].
        constructor; try done. destruct Hkept as [Hc _].
        rewrite (f_equal s_pool_reserved Hc : s_pool_reserved (k_s k3) = s_pool_reserved (k_s k1)), Hr1.
        rewrite (f_equal s_multi Hc : s_multi (k_s k3) = s_multi (k_s k1)).
        by rewrite (f_equal s_multi Hset1 : s_multi (k_s k1) = s_multi (k_s k)). }
  apply wp_bind. destruct (s_multi (k_s k)) eqn:Hmu.
  - apply wp_discover_slot; [done|done|done|done|]. intros k1 Hk1 Hm1 Hset1 Hr1. by apply Hrest.
  - apply wp_ret, Hrest; [done|by apply pool_moves_refl|done|done].
Qed.

Lemma settings_bare s : settings (wiped s) = settings s.
Proof using Type. reflexivity. Qed.

(** On error everything taken so far has been given back. *)
Lemma wp_prepare_pages k input (Q : unit -> kstate -> Prop) (E : Z -> kstate -> Prop) :
  ledger k -> bare (k_s k) ->
  (forall e k', ledger k' -> pool_moves k k' -> settings (k_s k') = settings (k_s k) -> bare (k_s k') -> E e k') ->
  (forall k', ledger k' -> pool_moves k k' -> settings (k_s k') = settings (k_s k) -> prepared_ok (k_s k') -> Q tt k') ->
  wp (ud_prepare_pages L input) Q E k.
Proof using HL.
  intros Hk Hb HE HQ. unfold ud_prepare_pages. apply wp_bind, wp_session.
  assert (HE' : forall e, E e k) by (intros e; apply HE; [done|by apply pool_moves_refl|done|done]).
  apply wp_bind, wp_fail_if; intros _; [done|]. apply wp_bind, wp_fail_if; intros _; [done|].
  apply wp_bind. eapply wp_get_random; [apply Hk|]. intros r k1 Hrand [Hs1 Hb1] Hac1.
  apply wp_bind, wp_set_session. rewrite Hs1.
  set (s2 := (k_s k).{ s_p := _ }). set (k2 := k1.{ k_s := s2 }).
  assert (Hk2 : ledger k2).
  { eapply ledger_rearranged; [exact Hac1|]. split; [|done]. destruct (proj1 Hk). by constructor. }
  assert (Hb2 : bare s2) by exact (f_equal (fun s => s.{ s_p := s_p s2 }) Hb).
  assert (Hm2 : pool_moves k k2) by (apply pool_moves_refl; [done|exact Hb1]).
  apply wp_bind, wp_fail_if; intros Hsup; [by apply HE|]. bprop.
  apply wp_bind, wp_set_session. simpl k_s.
  match goal with |- wp _ _ _ (update (fun _ => ?s) k2) => set (s3 := s) end.
  assert (Hk3 : ledger k2.{ k_s := s3 }) by ledger_keep Hk2.
  assert (Hb3 : bare s3) by exact (f_equal (fun s => s.{ s_p := s_p s3 }) Hb2).
  assert (Hm3 : pool_moves k k2.{ k_s := s3 }) by (apply pool_moves_refl; [done|exact Hb1]).
  apply wp_on_fail, wp_prepare_body.
  - apply bare_importing; [done|done|]. constructor; simpl; [|lia|lia].
    destruct (supported_indices _ HL Hsup). assert (in_u64 (r .| 1)) by (by apply lor_bound).
    unfold contract_ok, array_ok; simpl. repeat match goal with |- _ /\ _ => split end; try done; repeat constructor; done.
  - exact (bare_lease s3 Hb3).
  - intros e k4 Hk4 Hm4 Hset4.
    assert (Hfree : wp ud_free_pages (fun _ => E e) (fun _ => E e) k4).
    { apply wp_ud_free_pages; [done|]. intros k5 Hk5 Hs5 Hb5. apply HE; [done| | |].
      - eapply pool_moves_trans; [exact Hm3|]. eapply pool_moves_trans; [exact Hm4|]. by apply free_pages_moves.
      - rewrite Hs5, settings_bare, Hset4. done.
      - rewrite Hs5. apply wiped_bare. }
    unfold wp in Hfree. by destruct (ud_free_pages k4) as [[|] ?].
  - intros k4 Hk4 Hm4 Hset4 Hok. apply HQ; [done|by eapply pool_moves_trans|by rewrite Hset4|done].
Qed.

(** A failed [copy_to_user] gives everything back too. *)
Lemma wp_copy_out_or_free k (Q : unit -> kstate -> Prop) (E : Z -> kstate -> Prop) :
  ledger k ->
  (forall e k', ledger k' -> pool_moves k k' -> settings (k_s k') = settings (k_s k) -> bare (k_s k') -> E e k') ->
  Q tt k -> wp (copy_out_or_free L) Q E k.
Proof using Type.
  intros Hk HE HQ. apply wp_on_fail, wp_fail_if; intros _; [|done].
  assert (Hfree : wp ud_free_pages (fun _ => E (- EFAULT)) (fun _ => E (- EFAULT)) k).
  { apply wp_ud_free_pages; [done|]. intros k5 Hk5 Hs5 Hb5. apply HE; [done|by apply free_pages_moves| |].
    - by rewrite Hs5, settings_bare.
    - rewrite Hs5. apply wiped_bare. }
  unfold wp in Hfree. by destruct (ud_free_pages k) as [[|] ?].
Qed.
End preparing.

(** ** The session between two calls *)

Record session_inv (k : kstate) : Prop := {
  si_ledger : ledger k;
  si_idle : s_prepared (k_s k) = false -> bare (k_s k);
  si_ready : s_prepared (k_s k) = true -> prepared_ok (k_s k);
  si_committed : s_committed (k_s k) = true -> s_prepared (k_s k) = true;
  si_verified : s_code_mode (k_s k) = UD_CODE_REMOTE_VERIFIED -> s_profile (k_s k) = UD_PROFILE_MICRO;
  si_social : s_code_mode (k_s k) = UD_CODE_REMOTE_SOCIAL -> s_profile (k_s k) = UD_PROFILE_SOCIAL;
  si_remote : s_prepared (k_s k) = true -> s_profile (k_s k) = UD_PROFILE_SOCIAL ->
    s_code_mode (k_s k) = UD_CODE_REMOTE_SOCIAL;
  si_single : s_prepared (k_s k) = true -> s_multi (k_s k) = false -> s_profile (k_s k) = UD_PROFILE_MICRO }.

(** Every exit of a handler: the invariant holds and the table moved legally. *)
Definition handled (k k' : kstate) : Prop := session_inv k' /\ pool_moves k k'.

Lemma settings_fields s s' : settings s' = settings s ->
  s_prepared s' = s_prepared s /\ s_committed s' = s_committed s /\ s_code_mode s' = s_code_mode s /\
  s_profile s' = s_profile s /\ s_multi s' = s_multi s.
Proof.
  intros H. split_and!; [exact (f_equal s_prepared H)|exact (f_equal s_committed H)|exact (f_equal s_code_mode H)
    |exact (f_equal s_profile H)|exact (f_equal s_multi H)].
Qed.

(** A failed preparation leaves an idle session. *)
Lemma session_inv_idle k k1 k' :
  session_inv k -> s_prepared (k_s k) = false -> s_committed (k_s k) = false ->
  s_prepared (k_s k1) = s_prepared (k_s k) -> s_committed (k_s k1) = s_committed (k_s k) ->
  s_code_mode (k_s k1) = s_code_mode (k_s k) -> s_profile (k_s k1) = s_profile (k_s k) ->
  ledger k' -> settings (k_s k') = settings (k_s k1) -> bare (k_s k') -> session_inv k'.
Proof.
  intros [] Hp Hc E1 E2 E3 E4 Hk' Hset Hb. apply settings_fields in Hset as (F1 & F2 & F3 & F4 & F5).
  constructor; rewrite ?F1, ?F2, ?F3, ?F4, ?E1, ?E2, ?E3, ?E4; try done; try congruence.
Qed.

Lemma wp_copy_struct L A `{CStruct A} va k (Q : A -> kstate -> Prop) (E : Z -> kstate -> Prop) :
  (forall a, Q a k) -> (forall e, E e k) -> wp (copy_struct L A va) Q E k.
Proof. intros HQ HE. unfold copy_struct. wp_go; auto. Qed.
Lemma wp_copy_u64 L va k (Q : Z -> kstate -> Prop) (E : Z -> kstate -> Prop) :
  (forall a, Q a k) -> (forall e, E e k) -> wp (copy_u64 L va) Q E k.
Proof. intros HQ HE. unfold copy_u64. wp_go; auto. Qed.

Section preparing_handlers.
Context (L : linux) (k : kstate).
Hypothesis (HL : linux_ok L) (Hinv : session_inv k).

(** The common tail: prepare the pages, copy the result out, mark prepared. *)
Lemma wp_prepare_tail {A} k1 input (f : ud_session -> ud_session) (out : ud_session -> A) (Q : A -> kstate -> Prop) E :
  s_prepared (k_s k) = false -> ledger k1 -> bare (k_s k1) -> pool_moves k k1 ->
  s_prepared (k_s k1) = s_prepared (k_s k) -> s_committed (k_s k1) = s_committed (k_s k) ->
  s_code_mode (k_s k1) = s_code_mode (k_s k) -> s_profile (k_s k1) = s_profile (k_s k) ->
  (forall e k', handled k k' -> s_prepared (k_s k') = false -> E e k') ->
  (forall k', ledger k' -> pool_moves k k' -> settings (k_s k') = settings (k_s k1) -> prepared_ok (k_s k') ->
     Q (out (f (k_s k'))) k'.{ k_s := f (k_s k') }) ->
  wp (ud_prepare_pages L input ;; copy_out_or_free L ;; set_session f ;; s <- session ;; ret (out s)) Q E k1.
Proof using HL Hinv.
  intros Hp Hk1 Hb1 Hm1 E1 E2 E3 E4 HE HQ.
  assert (Hc : s_committed (k_s k) = false).
  { destruct (s_committed (k_s k)) eqn:Hc; [|done]. apply (si_committed _ Hinv) in Hc. congruence. }
  assert (Hfail : forall e k', ledger k' -> pool_moves k k' -> settings (k_s k') = settings (k_s k1) ->
            bare (k_s k') -> E e k').
  { intros e k' Hk' Hm' Hset' Hb'. apply HE; [split; [by eapply (session_inv_idle k k1)|done]|].
    apply settings_fields in Hset' as (-> & _). congruence. }
  apply wp_bind, wp_prepare_pages; [done|done|done| |].
  { intros e k' Hk' Hm' Hset' Hb'. apply Hfail; try done. by eapply pool_moves_trans. }
  intros k2 Hk2 Hm2 Hset2 Hok2. apply wp_bind, wp_copy_out_or_free; [done| |].
  { intros e k' Hk' Hm' Hset' Hb'. apply Hfail; try done.
    - eapply pool_moves_trans; [exact Hm1|]. by eapply pool_moves_trans.
    - by rewrite Hset'. }
  apply wp_bind, wp_set_session, wp_bind, wp_session, wp_ret. apply HQ; try done. by eapply pool_moves_trans.
Qed.

(** The session once it is marked prepared. *)
Lemma session_inv_prepared k1 k' exposed :
  ledger k' -> settings (k_s k') = settings (k_s k1) -> prepared_ok (k_s k') ->
  s_committed (k_s k1) = false -> s_code_mode (k_s k1) = s_code_mode (k_s k) ->
  s_profile (k_s k1) = s_profile (k_s k) ->
  (s_profile (k_s k) = UD_PROFILE_SOCIAL -> s_code_mode (k_s k) = UD_CODE_REMOTE_SOCIAL) ->
  (s_multi (k_s k1) = false -> s_profile (k_s k) = UD_PROFILE_MICRO) ->
  session_inv k'.{ k_s := (k_s k').{ s_prepared := true }.{ s_pool_exposed := exposed } }.
Proof using Hinv.
  intros Hk' Hset Hok Hc Em Ep Hsoc Hsin. apply settings_fields in Hset as (F1 & F2 & F3 & F4 & F5).
  rewrite Em in F3. rewrite Ep in F4. rewrite Hc in F2. destruct Hinv.
  constructor; simpl; rewrite ?F2, ?F3, ?F4, ?F5; try done.
  - ledger_keep Hk'.
  - intros _. destruct Hok as [Hv Hr Hx Hl]. constructor; simpl; try done.
    + by destruct Hr; constructor.
    + intros H3. by destruct (Hx H3); constructor.
Qed.

Lemma not_committed : s_prepared (k_s k) = false -> s_committed (k_s k) = false.
Proof using Hinv.
  intros Hp. destruct (s_committed (k_s k)) eqn:Hc; [|done]. apply (si_committed _ Hinv) in Hc. congruence.
Qed.

Lemma wp_prepare_session arg :
  wp (ud_prepare_session L arg) (fun _ k' => handled k k' /\ s_prepared (k_s k') = true)
    (fun _ k' => handled k k' /\ s_prepared (k_s k') = s_prepared (k_s k)) k.
Proof using HL Hinv.
  assert (Hsame : handled k k) by (split; [done|by apply pool_moves_refl]).
  unfold ud_prepare_session. apply wp_bind, wp_session.
  apply wp_bind, wp_fail_if; intros Hp; [done|]. apply wp_bind, wp_fail_if; intros Hprof; [done|]. bprop.
  apply wp_bind, wp_copy_struct; [|done]. intros input. cbv zeta.
  apply wp_bind, wp_fail_if; intros _; [done|].
  apply wp_bind, wp_copy_u64; [|done]. intros magic.
  apply wp_bind, wp_fail_if; intros _; [done|].
  apply wp_bind, wp_copy_struct; [|done]. intros remote.
  apply wp_bind. case_if; apply wp_fail_if; intros _; try done.
  all: apply wp_bind, wp_set_session; match goal with |- wp _ _ _ ?t => set (k1 := t) end.
  all: eapply (wp_prepare_tail k1 _ (fun s => s.{ s_prepared := true }) s_p);
    [done|ledger_keep (si_ledger _ Hinv)|exact (f_equal (fun s => s.{ s_multi := false }) (si_idle _ Hinv Hp))
    |by apply pool_moves_refl|done|done|done|done|by intros ? ? ? ->|].
  all: intros k' Hk' Hm' Hset' Hok'; split; [|done].
  all: split; [|eapply pool_moves_trans; [exact Hm'|by apply pool_moves_refl]].
  all: apply (session_inv_prepared k1 k' (s_pool_exposed (k_s k'))); try done; [by apply not_committed|].
  all: by rewrite Hprof.
Qed.

Lemma wp_prepare_pool arg :
  wp (ud_prepare_pool L arg) (fun _ k' => handled k k' /\ s_prepared (k_s k') = true)
    (fun _ k' => handled k k' /\ s_prepared (k_s k') = s_prepared (k_s k)) k.
Proof using HL Hinv.
  assert (Hsame : handled k k) by (split; [done|by apply pool_moves_refl]).
  unfold ud_prepare_pool. apply wp_bind, wp_session.
  apply wp_bind, wp_fail_if; intros Hp; [done|].
  apply wp_bind, wp_copy_struct; [|done]. intros input. cbv zeta.
  apply wp_bind, wp_fail_if; intros _; [done|].
  apply wp_bind, wp_copy_struct; [|done]. intros header.
  apply wp_bind, wp_fail_if; intros _; [done|].
  apply wp_bind, wp_copy_struct; [|done]. intros tag. apply wp_bind.
  eapply (wp_mono _ (fun _ k' => k' = k) _ (fun _ k' => k' = k)); [case_if; apply wp_fail_if; done| |by intros e k' ->].
  intros _ ? ->. apply wp_bind, wp_fail_if; intros Hsoc; [done|].
  assert (Htail : forall k0 n r, k_s k0 = (k_s k).{ s_social_nginx_count := n }.{ s_remote_service := r } ->
    ledger k0 -> k_banks k0 = k_banks k ->
    wp (set_session (fun s => s.{ s_multi := true }.{ s_pool_generation := q_generation input }
          .{ s_pool_exposed := false }.{ s_pool_reusable := false }) ;;
        ud_prepare_pages L (q_domain input) ;; copy_out_or_free L ;;
        set_session (fun s => s.{ s_prepared := true }.{ s_pool_exposed := true }) ;;
        s <- session ;; ret (mk_pool_prepare (s_p s) (q_generation input) (q_abi input) (s_pool_slot s)))
      (fun _ k' => handled k k' /\ s_prepared (k_s k') = true)
      (fun _ k' => handled k k' /\ s_prepared (k_s k') = s_prepared (k_s k)) k0).
  { intros k0 n r Hs0 Hk0 Hb0. apply wp_bind, wp_set_session.
    match goal with |- wp _ _ _ ?t => set (k1 := t) end.
    eapply (wp_prepare_tail k1 _ (fun s => s.{ s_prepared := true }.{ s_pool_exposed := true })
      (fun s => mk_pool_prepare (s_p s) (q_generation input) (q_abi input) (s_pool_slot s)));
      [done|ledger_keep Hk0| | |simpl; by rewrite Hs0..|by intros ? ? ? ->|].
    - simpl. rewrite Hs0. exact (f_equal (fun s => s.{ s_social_nginx_count := n }.{ s_remote_service := r }
        .{ s_multi := true }.{ s_pool_generation := q_generation input }.{ s_pool_exposed := false }
        .{ s_pool_reusable := false }) (si_idle _ Hinv Hp)).
    - apply pool_moves_refl; simpl; by rewrite ?Hs0.
    - intros k' Hk' Hm' Hset' Hok'. split; [|done].
      split; [|eapply pool_moves_trans; [exact Hm'|by apply pool_moves_refl]].
      apply (session_inv_prepared k1 k' true); try done; simpl; rewrite ?Hs0; try done; [by apply not_committed|].
      intros Hpr. rewrite Hpr in Hsoc. simpl in Hsoc. by bprop. }
  apply wp_bind. case_if.
  - apply wp_bind, wp_fail_if; intros _; [done|].
    apply wp_bind, wp_copy_struct; [|done]. intros remote.
    apply wp_bind, wp_fail_if; intros _; [done|].
    apply wp_set_session. eapply Htail; [done|ledger_keep (si_ledger _ Hinv)|done].
  - apply wp_fail_if; intros _; [done|].
    apply (Htail k (s_social_nginx_count (k_s k)) (s_remote_service (k_s k))); [by destruct (k_s k)|apply Hinv|done].
Qed.
End preparing_handlers.
