(* ===== verification/Commit.v ===== *)
(** * What a committed connection guarantees

    [ud_commit] (kernel/ub-domain/domain.c) reads everything the owner published
    through the process's mapping of the region, and copies the code into pages of
    its own before it verifies it.  The theorems say what holds of the kernel's
    copies, and of the tables the hardware will walk, once it has returned 0. *)

From S2P Require Import Prelude Monad CMem Abi Layout PageWalk PoolSlots Arm64 RemoteCode Social Services Pool Kernel KernelLogic Session Ledger Device.

Section commit_spec.
Context (L : linux) (k : kstate).
Notation s := (k_s k).
Notation c := (p_contract (s_p (k_s k))).
Notation va := (p_import_va (s_p (k_s k))).
Notation view := (user_view L (k_mem k)).

(** The pages of the module that hold code are in no user mapping. *)
Definition code_unmapped : Prop := forall a pa, l_user L a = Some pa ->
  forall d, 0 <= d < 4 ->
    (pa < (s_code s).[d] \/ (s_code s).[d] + UD_PAGE <= pa) /\
    (pa < (s_social_code s).[d] \/ (s_social_code s).[d] + UD_PAGE <= pa).

Hypothesis (Hled : ledger k) (Hok : prepared_ok s) (Hun : code_unmapped).

(** ** The states a commit goes through *)

Definition at_ (m : mem) (i : list ud_initial) (w : list Z) : kstate :=
  k.{ k_mem := m }.{ k_s := s.{ s_initial := i }.{ s_remote_words := w } }.

Record content (m : mem) (i : list ud_initial) (w : list Z) : Prop := {
  ct_view : mem_eq (user_view L m) view;
  ct_initial : length i = 4%nat;
  ct_words : length w = 4%nat }.

Lemma at_ledger m i w : content m i w -> ledger (at_ m i w).
Proof using Hled. intros []. ledger_keep Hled. Qed.

Lemma start_content : content (k_mem k) (s_initial s) (s_remote_words s).
Proof using Hled. destruct (proj1 Hled). by constructor. Qed.

Ltac state_is t := match goal with |- wp _ _ _ ?u => change u with t end.

(** Copies see what the user's mapping showed when the commit started. *)
Lemma wp_copy A `{CStruct A} off m i w (Q : A -> kstate -> Prop) (E : Z -> kstate -> Prop) :
  content m i w -> (forall e, E e (at_ m i w)) -> Q (ld_struct A view (va + off)) (at_ m i w) ->
  wp (ud_copy L A off) Q E (at_ m i w).
Proof using Type.
  intros Hct HE HQ. unfold ud_copy, copy_struct. apply wp_bind, wp_session, wp_bind, wp_get.
  wp_go; [|done]. simpl. erewrite ld_struct_ext; [exact HQ|]. intros j _. apply Hct.
Qed.
Lemma wp_copy_bytes off n m i w (Q : list Z -> kstate -> Prop) (E : Z -> kstate -> Prop) :
  content m i w -> (forall e, E e (at_ m i w)) -> Q (load_bytes view (va + off) n) (at_ m i w) ->
  wp (ud_copy_bytes L off n) Q E (at_ m i w).
Proof using Type.
  intros Hct HE HQ. unfold ud_copy_bytes, copy_bytes. apply wp_bind, wp_session, wp_bind, wp_get.
  wp_go; [|done]. simpl. erewrite load_bytes_ext; [exact HQ|]. intros j _. apply Hct.
Qed.
Lemma wp_copy_table off m i w (Q : list Z -> kstate -> Prop) (E : Z -> kstate -> Prop) :
  content m i w -> (forall e, E e (at_ m i w)) -> Q (ld_array 8 view (va + off) 512) (at_ m i w) ->
  wp (ud_copy_table L off) Q E (at_ m i w).
Proof using Type.
  intros Hct HE HQ. unfold ud_copy_table. wp_go; [|done]. simpl.
  erewrite ld_array_ext; [exact HQ|]. intros j _. apply Hct.
Qed.

Lemma wp_check_tables c' d offset m i w (Q : unit -> kstate -> Prop) (E : Z -> kstate -> Prop) :
  content m i w -> (forall e, E e (at_ m i w)) ->
  ((forall l, 0 <= l < 4 -> ld_array 8 view (va + offset l) 512 = ud_build_table c' d l) -> Q tt (at_ m i w)) ->
  wp (check_tables L c' d offset) Q E (at_ m i w).
Proof using Type.
  intros Hct HE HQ. unfold check_tables.
  apply (wp_for (fun n k' => k' = at_ m i w /\ forall l, 0 <= l < n ->
    ld_array 8 view (va + offset l) 512 = ud_build_table c' d l)); [done|split; [done|lia]| |].
  - intros l k' Hl [-> Hb]. apply wp_bind, wp_copy_table; [done|done|].
    apply wp_fail_if; intros Heq; [done|]. split; [done|]. intros l' Hl'.
    apply negb_false_iff, bool_decide_eq_true in Heq.
    destruct (decide (l' = l)) as [->|]; [done|]. apply Hb. lia.
  - intros k' [-> Hb]. by apply HQ.
Qed.

(** ** The code pages *)

Lemma code_page_ok d : 0 <= d < 4 -> page_address (s_code s).[d] /\ (s_code s).[d] <> 0.
Proof using Hled Hok.
  intros Hd. destruct (page_array_at _ d (proj1 Hled) Hd) as (<- & _). split; [apply ledger_page; [done|lia]|].
  destruct (page_array_at _ d (proj1 Hled) Hd) as (-> & _).
  destruct (rc_pages _ _ (po_recorded _ Hok) d Hd) as (<- & _).
  apply pa_valid_nonzero, (proj1 (ud_contract_valid_spec _) (po_contract _ Hok)). done.
Qed.

Lemma pages_apart a b : page_address a -> page_address b -> a <> b -> disjoint_ranges a UD_PAGE b UD_PAGE.
Proof using Type.
  unfold page_address, disjoint_ranges, UD_PAGE. intros [_ Ha] [_ Hb] Hne.
  apply Z.mod_divide in Ha as [x ->], Hb as [y ->]; lia.
Qed.

Lemma code_pages_apart d j :
  0 <= d < 4 -> 0 <= j < 4 -> d <> j -> disjoint_ranges (s_code s).[d] UD_PAGE (s_code s).[j] UD_PAGE.
Proof using Hled Hok.
  intros Hd Hj Hne. destruct (code_page_ok d Hd) as [Ad Nd], (code_page_ok j Hj) as [Aj _].
  apply pages_apart; try done.
  destruct (page_array_at _ d (proj1 Hled) Hd) as (Ed & _), (page_array_at _ j (proj1 Hled) Hj) as (Ej & _).
  rewrite <- Ed, <- Ej. apply ledger_distinct; [done|lia|lia|lia|]. by rewrite Ed.
Qed.

(** Writing into a page of the module's code does not show in the user's view. *)
Lemma store_code_view m a bs :
  (forall x pa, l_user L x = Some pa -> pa < a \/ a + Z.of_nat (length bs) <= pa) ->
  mem_eq (user_view L (store_bytes m a bs)) (user_view L m).
Proof using Type.
  intros Ha x. unfold user_view. destruct (l_user L x) as [pa|] eqn:E; [|done].
  by apply store_bytes_out, (Ha x).
Qed.

(** ** One domain *)

(** What the kernel's copy of the code of domain [j] is. *)
Definition code_ok (remote : ud_remote_manifest) (m : mem) (w : list Z) (j : Z) : Prop :=
  if s_code_mode s =? UD_CODE_LEGACY then
    exists p, ud_profile_service (s_profile s) j = Some p /\
      load_bytes m (s_code s).[j] (service_size (Some p)) = (wwords 0 (assemble p)).2
  else
    check_remote_image s remote j (page_words m (s_code s).[j]) = true /\
    w.[j] = (r_words remote).[j] /\ w.[j] <> 0 /\ w.[j] <= UD_REMOTE_MAX_WORDS.

Record domain_ok (remote : ud_remote_manifest) (m : mem) (i : list ud_initial) (w : list Z) (j : Z) : Prop := {
  do_tables : forall l, 0 <= l < 4 -> ld_array 8 view (va + table_offset s j l) 512 = ud_build_table c j l;
  do_initial : nthz (mk_initial 0 0 0 0) i j = domain_initial (s_profile s) j;
  do_code : code_ok remote m w j }.

(** It depends only on the page. *)
Lemma code_ok_ext remote m m' w j :
  (forall x, (s_code s).[j] <= x < (s_code s).[j] + UD_PAGE -> m' x = m x) ->
  code_ok remote m w j -> code_ok remote m' w j.
Proof using Type.
  intros Hx. unfold code_ok. destruct (s_code_mode s =? UD_CODE_LEGACY).
  - intros (p & Hp & Hl). exists p. split; [done|]. rewrite <- Hl. apply load_bytes_ext.
    intros a Ha. apply Hx. pose proof (services_fit _ _ _ Hp). lia.
  - intros (Hv & Hw). split; [|done]. rewrite <- Hv. f_equal. unfold page_words. apply ld_array_ext.
    intros a Ha. apply Hx. unfold UD_PAGE. lia.
Qed.

(** Copying the code of another domain keeps it. *)
Lemma domain_ok_other remote m i w j d bs x n :
  domain_ok remote m i w j -> 0 <= j < 4 -> 0 <= d < 4 -> j <> d -> Z.of_nat (length bs) <= UD_PAGE ->
  domain_ok remote (store_bytes m (s_code s).[d] bs) (setz i d x) (setz w d n) j.
Proof using Hled Hok.
  intros [Ht Hi Hc] Hj Hd Hne Hlen. pose proof (code_pages_apart d j Hd Hj ltac:(lia)) as Hap.
  unfold disjoint_ranges in Hap. constructor; [done|by rewrite nthz_setz_ne by lia|].
  apply (code_ok_ext _ m); [intros y Hy; apply store_bytes_out; lia|].
  unfold code_ok in *. by rewrite nthz_setz_ne by lia.
Qed.

Lemma store_code_content m i w d bs :
  content m i w -> 0 <= d < 4 -> Z.of_nat (length bs) <= UD_PAGE ->
  content (store_bytes m (s_code s).[d] bs) i w.
Proof using Hun.
  intros [Hv Hi Hw] Hd Hl. constructor; [|done|done]. etrans; [|exact Hv]. apply store_code_view.
  intros x pa Hx. destruct (Hun x pa Hx d Hd) as [? _]. lia.
Qed.

Lemma setz_content m i w d x n : content m i w -> content m (setz i d x) (setz w d n).
Proof using Type. intros []. constructor; rewrite ?setz_length; done. Qed.

Lemma wp_commit_domain remote d m i w (Q : unit -> kstate -> Prop) (E : Z -> kstate -> Prop) :
  content m i w -> 0 <= d < 4 -> (forall j, 0 <= j < d -> domain_ok remote m i w j) ->
  (forall e m' i' w', content m' i' w' -> E e (at_ m' i' w')) ->
  (forall m' i' w', content m' i' w' -> (forall j, 0 <= j < d + 1 -> domain_ok remote m' i' w' j) -> Q tt (at_ m' i' w')) ->
  wp (commit_domain L remote d) Q E (at_ m i w).
Proof using Hled Hok Hun.
  intros Hct Hd Hprev HE HQ. assert (Hws : setz w d w.[d] = w) by (apply setz_same; rewrite (ct_words _ _ _ Hct); lia).
  unfold commit_domain. apply wp_bind, wp_session. cbv zeta. simpl.
  apply wp_bind, wp_fail_if; intros Hrange; [by apply HE|].
  apply wp_bind, wp_check_tables; [done|by intros; apply HE|]. intros Htab.
  apply wp_bind, wp_copy; [done|by intros; apply HE|].
  set (initial := ld_struct ud_initial _ _). apply wp_bind, wp_set_session.
  state_is (at_ m (setz i d initial) w).
  assert (Hct1 : content m (setz i d initial) w) by (rewrite <- Hws; by apply setz_content).
  apply wp_bind, wp_fail_if; intros Hini; [by apply HE|]. apply negb_false_iff, bool_decide_eq_true in Hini.
  apply wp_bind, wp_fail_if; intros Hsize; [by apply HE|].
  set (size := if s_code_mode s !=? UD_CODE_LEGACY then (r_words remote).[d] * 4 else service_size (ud_profile_service (s_profile s) d)) in *.
  apply wp_bind, wp_copy_bytes; [done|by intros; apply HE|]. set (bytes := load_bytes view _ size).
  assert (Hbl : Z.of_nat (length bytes) <= UD_PAGE) by (unfold bytes; rewrite load_bytes_length; bprop; unfold UD_PAGE in *; lia).
  apply wp_bind, wp_get, wp_bind, wp_put. simpl.
  set (m' := store_bytes m (s_code s).[d] bytes). state_is (at_ m' (setz i d initial) w).
  assert (Hct2 : content m' (setz i d initial) w) by by apply store_code_content.
  assert (Hdone : forall n, code_ok remote m' (setz w d n) d -> forall j, 0 <= j < d + 1 -> domain_ok remote m' (setz i d initial) (setz w d n) j).
  { intros n Hc j Hj. destruct (decide (j = d)) as [->|Hne]; [|apply domain_ok_other; (done || lia || (apply Hprev; lia))].
    constructor; [done| |done]. rewrite nthz_setz_eq by (rewrite (ct_initial _ _ _ Hct); lia). done. }
  unfold code_ok in Hdone. destruct (s_code_mode s =? UD_CODE_LEGACY) eqn:Hmode; simpl in Hdone; cbn [negb].
  - destruct (ud_profile_service (s_profile s) d) as [p|] eqn:Hp; [|by bprop].
    apply wp_fail_if; intros Hcmp; [by apply HE|]. apply negb_false_iff, bool_decide_eq_true in Hcmp.
    apply HQ; [done|]. rewrite <- Hws. apply Hdone. exists p. split; [done|].
    rewrite <- Hcmp. unfold m'. apply load_store_same. unfold bytes. rewrite load_bytes_length.
    change size with (4 * Z.of_nat (length p)). simpl. lia.
  - apply wp_bind, wp_get, wp_bind. simpl. apply wp_fail_if; intros Hv; [by apply HE|]. apply negb_false_iff in Hv.
    apply wp_set_session, (HQ m' (setz i d initial) (setz w d (r_words remote).[d])); [destruct Hct2; constructor; [done|done|by rewrite setz_length]|]. apply Hdone.
    rewrite nthz_setz_eq by (rewrite (ct_words _ _ _ Hct); lia). bprop. split_and!; try done; lia.
Qed.
(** ** The extra identities *)

Record extra_committed (m : mem) (w : list Z) (j : Z) (a : ud_contract) : Prop := {
  ec_contract : ud_social_extra_contract c (s_social_extra s) j = Some a;
  ec_tables : forall l, 0 <= l < 4 ->
    ld_array 8 view (va + UD_SOCIAL_EXTRA_TABLE (s_pool_slot s) j l) 512 = ud_build_table a (extra_entry j) l;
  ec_code : load_bytes m (s_social_code s).[j] (w.[extra_entry j] * 4) =
    load_bytes m (s_code s).[extra_entry j] (w.[extra_entry j] * 4) }.

Lemma extra_entry_cases j : extra_entry j = UD_MIDDLE \/ extra_entry j = UD_LEAF.
Proof using Type. unfold extra_entry. destruct (nz _); auto. Qed.

(** The pages of the extra identities are apart from each other and from the main ones. *)
Lemma social_page_ok j a :
  three_nginx s = true -> 0 <= j < 4 -> ud_social_extra_contract c (s_social_extra s) j = Some a ->
  (forall d, 0 <= d < 4 -> disjoint_ranges (s_social_code s).[j] UD_PAGE (s_code s).[d] UD_PAGE) /\
  (forall d, 0 <= d < 4 -> d <> j -> disjoint_ranges (s_social_code s).[j] UD_PAGE (s_social_code s).[d] UD_PAGE).
Proof using Hled Hok.
  intros H3 Hj Ha.
  assert (Hnz : (s_social_code s).[j] <> 0).
  { destruct (xr_pages _ _ (po_extra _ Hok H3) j Hj) as [<- _].
    unfold ud_social_extra_contract in Ha. cbv zeta in Ha. repeat (case_if_in Ha; [done|]).
    destruct (ud_contract_valid _) eqn:Hv in Ha; [|done].
    apply ud_contract_valid_spec in Hv. pose proof (rc_contract _ _ (po_recorded _ Hok)) as Hc.
    destruct (contract_lengths _ Hc) as (Hl & _).
    assert (Hd : 0 <= extra_entry j < UD_DOMAINS) by (destruct (extra_entry_cases j) as [-> | ->]; done).
    pose proof (cv_code _ Hv (extra_entry j) Hd) as Hp. simpl in Hp. rewrite nthz_setz_eq in Hp by (rewrite Hl; done).
    by apply pa_valid_nonzero. }
  destruct (page_array_at _ j (proj1 Hled) Hj) as (_ & _ & _ & Ej & _).
  split; intros d Hd; [|intros Hne]; destruct (page_array_at _ d (proj1 Hled) Hd) as (Ed & _ & _ & Ed' & _);
    rewrite <- Ej; [rewrite <- Ed|rewrite <- Ed']; apply pages_apart; try (apply ledger_page; [done|lia]);
    apply ledger_distinct; try done; try lia; by rewrite Ej.
Qed.
Lemma load_bytes_copied m a bs n : length bs = Z.to_nat n -> load_bytes (store_bytes m a bs) a n = bs.
Proof using Type.
  intros Hl. destruct (decide (0 <= n)); [apply load_store_same; lia|].
  destruct bs as [|? ?]; [|simpl in Hl; lia]. unfold load_bytes. by rewrite seqZ_nil by lia.
Qed.

Lemma wp_commit_extra_domain remote d m i w (Q : unit -> kstate -> Prop) (E : Z -> kstate -> Prop) :
  three_nginx s = true -> content m i w -> 0 <= d < 4 -> (forall j, 0 <= j < 4 -> w.[j] <= UD_REMOTE_MAX_WORDS) ->
  (forall j, 0 <= j < 4 -> domain_ok remote m i w j) ->
  (forall j, 0 <= j < d -> exists a, extra_committed m w j a) ->
  (forall e m', content m' i w -> E e (at_ m' i w)) ->
  (forall m', content m' i w -> (forall j, 0 <= j < 4 -> domain_ok remote m' i w j) ->
     (forall j, 0 <= j < d + 1 -> exists a, extra_committed m' w j a) -> Q tt (at_ m' i w)) ->
  wp (commit_extra_domain L (s_social_extra s) d) Q E (at_ m i w).
Proof using Hled Hok Hun.
  intros H3 Hct Hd Hmax Hdom Hprev HE HQ. unfold commit_extra_domain. apply wp_bind, wp_session. simpl.
  destruct (ud_social_extra_contract c (s_social_extra s) d) as [a|] eqn:Ha; [|by apply wp_raise, HE]. cbv zeta.
  destruct (social_page_ok d a H3 Hd Ha) as [Hap1 Hap2].
  apply wp_bind, wp_check_tables; [done|by intros; apply HE|]. intros Htab.
  apply wp_bind, wp_copy_bytes; [done|by intros; apply HE|].
  set (entry := extra_entry d). set (bytes := load_bytes view _ _).
  assert (He : 0 <= entry < 4) by (unfold entry; destruct (extra_entry_cases d) as [-> | ->]; done).
  assert (Hbl : Z.of_nat (length bytes) <= UD_PAGE).
  { unfold bytes. rewrite load_bytes_length. pose proof (Hmax entry He). unfold UD_REMOTE_MAX_WORDS, UD_PAGE in *. lia. }
  apply wp_bind, wp_get, wp_bind, wp_put. simpl. set (m' := store_bytes m (s_social_code s).[d] bytes).
  state_is (at_ m' i w).
  assert (Hout : forall p, disjoint_ranges (s_social_code s).[d] UD_PAGE p UD_PAGE ->
            forall x, p <= x < p + UD_PAGE -> m' x = m x).
  { intros p Hp x Hx. apply store_bytes_out. unfold disjoint_ranges in Hp. lia. }
  assert (Hct' : content m' i w).
  { destruct Hct. constructor; [|done|done]. etrans; [|exact ct_view0]. apply store_code_view.
    intros x pa Hx. destruct (Hun x pa Hx d Hd) as [_ ?]. lia. }
  apply wp_bind, wp_get, wp_fail_if; intros Hcmp; [by apply HE|]. simpl in Hcmp.
  apply negb_false_iff, bool_decide_eq_true in Hcmp. apply HQ; [done| |].
  - intros j Hj. destruct (Hdom j Hj). constructor; [done|done|].
    eapply code_ok_ext; [|done]. by apply Hout, Hap1.
  - intros j Hj. destruct (decide (j = d)) as [->|Hne].
    + exists a. constructor; [done|done|]. fold entry. rewrite Hcmp. unfold m'. apply load_bytes_copied.
      unfold bytes. by rewrite load_bytes_length.
    + destruct (Hprev j ltac:(lia)) as [b []]. exists b. constructor; [done|done|].
      assert (Hej : 0 <= extra_entry j < 4) by (destruct (extra_entry_cases j) as [-> | ->]; done).
      pose proof (Hmax _ Hej) as Hmj. unfold UD_REMOTE_MAX_WORDS, UD_PAGE in *.
      rewrite (load_bytes_ext m' m _ (s_social_code s).[j]), (load_bytes_ext m' m _ (s_code s).[extra_entry j]); [done|..];
        intros x Hx.
      * apply (Hout (s_code s).[extra_entry j]); [by apply Hap1|lia].
      * apply (Hout (s_social_code s).[j]); [apply Hap2; lia|lia].
Qed.
(** ** The whole commit *)

Lemma at_start : at_ (k_mem k) (s_initial s) (s_remote_words s) = k.
Proof using Type. unfold at_. clear. destruct k as [s0 ? ? ? ? ? ? ? ? ?]. by destruct s0. Qed.

(** The publication is this session's, completed by the owner. *)
Definition published : Prop :=
  let pub := if s_multi s then pp_pub (ld_struct ud_pool_publication view (va + UD_POOL_SLOT (s_pool_slot s)))
             else ld_struct ud_publication view (va + 0) in
  pub_contract pub = c /\ pub_request pub = c_nonce c /\ pub_complete pub = c_nonce c /\
  (s_multi s = true ->
     pp_error (ld_struct ud_pool_publication view (va + UD_POOL_SLOT (s_pool_slot s))) = 0 /\
     h_generation (ld_struct ud_pool_header view (va + 0)) = s_pool_generation s).

Definition manifest_agrees (remote : ud_remote_manifest) : Prop :=
  s_code_mode s <> UD_CODE_LEGACY ->
  remote = ld_struct ud_remote_manifest view (va + UD_REMOTE_META_OFFSET) /\ r_mode remote = s_code_mode s /\
  (s_code_mode s = UD_CODE_REMOTE_SOCIAL ->
     ud_remote_social_count (r_reserved remote) = s_social_nginx_count s /\
     r_reserved remote .& UD_SOCIAL_CODE_KIND_MASK = s_remote_service s).

Lemma heap_check_ext s' v v' a : mem_eq v v' -> heap_check s' v a = heap_check s' v' a.
Proof using Type.
  intros Hv. unfold heap_check, micro_heap_valid. rewrite (ld_struct_ext v v' a a) by (intros; apply Hv).
  destruct (s_profile s' =? UD_PROFILE_MICRO); simpl; [|done]. rewrite Hv. f_equal.
  apply for_all_ext. intros j Hj. by rewrite !Hv.
Qed.

Record committed_ok (remote : ud_remote_manifest) (m : mem) (i : list ud_initial) (w : list Z) : Prop := {
  co_published : published;
  co_manifest : manifest_agrees remote;
  co_domains : forall j, 0 <= j < UD_DOMAINS -> domain_ok remote m i w j;
  co_extra : three_nginx s = true -> forall j, 0 <= j < UD_SOCIAL_EXTRA_DOMAINS -> exists a, extra_committed m w j a;
  co_heap : heap_check s view (va + UD_HEAP) = true }.

Lemma wp_commit_publication m i w (Q : ud_publication -> kstate -> Prop) (E : Z -> kstate -> Prop) :
  content m i w -> (forall e, E e (at_ m i w)) ->
  (forall pub, (pub_contract pub = c -> pub_request pub = c_nonce c -> pub_complete pub = pub_request pub -> published) ->
     Q pub (at_ m i w)) ->
  wp (commit_publication L) Q E (at_ m i w).
Proof using Type.
  intros Hct HE HQ. unfold commit_publication. apply wp_bind, wp_session. simpl.
  unfold published in HQ. destruct (s_multi s).
  - apply wp_bind, wp_copy; [done|done|]. apply wp_bind, wp_fail_if; intros Hh; [done|].
    apply wp_bind, wp_copy; [done|done|]. apply wp_bind, wp_fail_if; intros Her; [done|].
    apply wp_ret, HQ. bprop. intros P1 P2 P3. split_and!; try done; congruence.
  - apply wp_copy; [done|done|]. apply HQ. intros H1 H2 H3. split_and!; try done. congruence.
Qed.

Lemma wp_commit_manifest m i w (Q : ud_remote_manifest -> kstate -> Prop) (E : Z -> kstate -> Prop) :
  content m i w -> (forall e, E e (at_ m i w)) ->
  (forall remote, manifest_agrees remote -> Q remote (at_ m i w)) ->
  wp (commit_manifest L) Q E (at_ m i w).
Proof using Type.
  intros Hct HE HQ. unfold commit_manifest. apply wp_bind, wp_session. simpl.
  destruct (s_code_mode s =? UD_CODE_LEGACY) eqn:Hm; simpl; bprop.
  - apply wp_ret, HQ. by intros ?.
  - apply wp_bind, wp_copy; [done|done|]. apply wp_bind, wp_fail_if; intros Hchk; [done|].
    apply wp_ret, HQ. intros _. bprop. split_and!; try done. intros Hsoc. rewrite Hsoc in *. simpl in *. by bprop.
Qed.

Lemma wp_commit_heap m i w (Q : unit -> kstate -> Prop) (E : Z -> kstate -> Prop) :
  content m i w -> (forall e, E e (at_ m i w)) -> (heap_check s view (va + UD_HEAP) = true -> Q tt (at_ m i w)) ->
  wp (commit_heap L) Q E (at_ m i w).
Proof using Type.
  intros Hct HE HQ. unfold commit_heap. apply wp_bind, wp_get. cbv zeta.
  apply wp_bind, wp_fail_if; intros _; [done|]. apply wp_fail_if; intros Hh; [done|]. apply HQ.
  apply negb_false_iff in Hh. rewrite <- Hh. symmetry. apply (heap_check_ext s). apply Hct.
Qed.

(** On success everything the owner published has been checked, and the code the
    kernel will enter is its own copy. *)
Lemma wp_ud_commit (Q : unit -> kstate -> Prop) (E : Z -> kstate -> Prop) :
  (s_profile s = UD_PROFILE_SOCIAL -> s_code_mode s = UD_CODE_REMOTE_SOCIAL) ->
  (forall e m i w, content m i w -> E e (at_ m i w)) ->
  (forall remote m i w, content m i w -> s_prepared s = true -> committed_ok remote m i w ->
     Q tt (at_ m i w).{ k_s := (k_s (at_ m i w)).{ s_committed := true }.{ s_pool_reusable := true } }) ->
  wp (ud_commit L) Q E k.
Proof using Hled Hok Hun.
  intros Hsoc HE HQ. pose proof start_content as Hct.
  assert (Hgoal : wp (ud_commit L) Q E (at_ (k_mem k) (s_initial s) (s_remote_words s))); [|by rewrite at_start in Hgoal].
  unfold ud_commit. apply wp_bind, wp_session. simpl.
  apply wp_bind, wp_fail_if; intros Hp; [by apply HE|]. apply orb_false_iff in Hp as [Hp _]. apply negb_false_iff in Hp.
  apply wp_bind, wp_fail_if; intros _; [by apply HE|].
  apply wp_bind, wp_commit_publication; [done|by intros; apply HE|]. intros pub Hpub.
  apply wp_bind, wp_fail_if; intros Hst; [by apply HE|].
  apply orb_false_iff in Hst as [[Hc Hq]%orb_false_iff Hcm].
  apply negb_false_iff, bool_decide_eq_true in Hc. bprop. specialize (Hpub Hc Hq Hcm).
  apply wp_bind, wp_commit_manifest; [done|by intros; apply HE|]. intros remote Hman.
  apply wp_bind, (wp_for (fun d k' => exists m i w, k' = at_ m i w /\ content m i w /\
    forall j, 0 <= j < d -> domain_ok remote m i w j)); [done| | |].
  { exists (k_mem k), (s_initial s), (s_remote_words s). split_and!; try done. lia. }
  { intros d k' Hd (m & i & w & -> & Hmiw & Hdom). apply wp_commit_domain; [done|done|done|by intros; apply HE|].
    intros m' i' w' Hct' Hdom'. by exists m', i', w'. }
  intros k' (m & i & w & -> & Hmiw & Hdom).
  assert (Hend : forall m', content m' i w -> (forall j, 0 <= j < 4 -> domain_ok remote m' i w j) ->
    (three_nginx s = true -> forall j, 0 <= j < UD_SOCIAL_EXTRA_DOMAINS -> exists a, extra_committed m' w j a) ->
    wp (commit_heap L ;; set_session (fun s => s.{ s_committed := true }.{ s_pool_reusable := true })) Q E (at_ m' i w)).
  { intros m' Hct' Hdom' Hext'. apply wp_bind, wp_commit_heap; [done|by intros; apply HE|]. intros Hheap.
    apply wp_set_session, (HQ remote); try done. }
  apply wp_bind. unfold commit_extra. apply wp_bind, wp_session.
  change (three_nginx (k_s (at_ m i w))) with (three_nginx s).
  destruct (three_nginx s) eqn:H3; [|apply wp_ret, Hend; done].
  apply wp_bind, wp_copy; [done|by intros; apply HE|]. apply wp_bind, wp_fail_if; intros Heq; [by apply HE|].
  apply negb_false_iff, bool_decide_eq_true in Heq.
  assert (Hmax : forall j, 0 <= j < 4 -> w.[j] <= UD_REMOTE_MAX_WORDS).
  { intros j Hj. destruct (Hdom j Hj) as [_ _ Hcode]. unfold code_ok in Hcode.
    unfold three_nginx in H3. bprop. rewrite Hsoc in Hcode by done. by apply Hcode. }
  replace (ld_struct ud_social_extra _ _) with (s_social_extra s).
  apply (wp_for (fun d k' => exists m', k' = at_ m' i w /\ content m' i w /\
    (forall j, 0 <= j < 4 -> domain_ok remote m' i w j) /\ forall j, 0 <= j < d -> exists a, extra_committed m' w j a)); [done| | |].
  { exists m. split_and!; try done. lia. }
  { intros d k' Hd (m' & -> & Hct' & Hdom' & Hext'). apply (wp_commit_extra_domain remote); [done|done|done|done|done|done|by intros; apply HE|].
    intros m'' ? ? ?. by exists m''. }
  intros k' (m' & -> & Hct' & Hdom' & Hext'). by apply Hend.
Qed.
End commit_spec.

(** ** What a commit changes, whatever is mapped *)

Section commit_frame.
Context (L : linux) (k : kstate).

(** Only the kernel's copies of the code, contexts and word counts. *)
Definition framed (k' : kstate) : Prop :=
  exists m i w, k' = at_ k m i w /\ length i = length (s_initial (k_s k)) /\ length w = length (s_remote_words (k_s k)).

Lemma wp_ud_copy A `{CStruct A} off k' (Q : A -> kstate -> Prop) (E : Z -> kstate -> Prop) :
  (forall a, Q a k') -> (forall e, E e k') -> wp (ud_copy L A off) Q E k'.
Proof using Type. intros HQ HE. unfold ud_copy. apply wp_bind, wp_session. by apply wp_copy_struct. Qed.
Lemma wp_ud_copy_bytes off n k' (Q : list Z -> kstate -> Prop) (E : Z -> kstate -> Prop) :
  (forall a, Q a k') -> (forall e, E e k') -> wp (ud_copy_bytes L off n) Q E k'.
Proof using Type. intros HQ HE. unfold ud_copy_bytes, copy_bytes. apply wp_bind, wp_session. wp_go; auto. Qed.
Lemma wp_ud_check_tables c d offset k' (Q : unit -> kstate -> Prop) (E : Z -> kstate -> Prop) :
  Q tt k' -> (forall e, E e k') -> wp (check_tables L c d offset) Q E k'.
Proof using Type.
  intros HQ HE. unfold check_tables.
  apply (wp_for (fun _ k1 => k1 = k')); [done|done| |by intros ? ->].
  intros l ? _ ->. unfold ud_copy_table. wp_go; auto.
Qed.

Lemma framed_mem m k' : framed k' -> framed k'.{ k_mem := m }.
Proof using Type. intros (m0 & i & w & -> & Hi & Hw). by exists m, i, w. Qed.
Lemma framed_initial d x k' : framed k' -> framed k'.{ k_s := (k_s k').{ s_initial := setz (s_initial (k_s k')) d x } }.
Proof using Type. intros (m & i & w & -> & Hi & Hw). exists m, (setz i d x), w. by rewrite setz_length. Qed.
Lemma framed_words d x k' : framed k' -> framed k'.{ k_s := (k_s k').{ s_remote_words := setz (s_remote_words (k_s k')) d x } }.
Proof using Type. intros (m & i & w & -> & Hi & Hw). exists m, i, (setz w d x). by rewrite setz_length. Qed.
Lemma framed_start : framed k.
Proof using Type. exists (k_mem k), (s_initial (k_s k)), (s_remote_words (k_s k)). split; [by rewrite at_start|done]. Qed.

(** Walk through the checks of a commit. *)
Ltac frame_go :=
  repeat first
    [ assumption
    | progress (intros; cbv beta zeta)
    | lazymatch goal with
      | |- wp (ud_copy _ _ _) _ _ _ => apply wp_ud_copy
      | |- wp (ud_copy_bytes _ _ _) _ _ _ => apply wp_ud_copy_bytes
      | |- wp (check_tables _ _ _ _) _ _ _ => apply wp_ud_check_tables
      end
    | handler_step
    | apply framed_mem | apply framed_initial | apply framed_words ].

Lemma wp_commit_domain_frame remote d k' :
  framed k' -> wp (commit_domain L remote d) (fun _ => framed) (fun _ => framed) k'.
Proof using Type. intros Hf. unfold commit_domain. frame_go. Qed.
Lemma wp_commit_extra_domain_frame published d k' :
  framed k' -> wp (commit_extra_domain L published d) (fun _ => framed) (fun _ => framed) k'.
Proof using Type. intros Hf. unfold commit_extra_domain. frame_go. Qed.

Lemma wp_commit_frame (Q : unit -> kstate -> Prop) (E : Z -> kstate -> Prop) :
  (forall e k', framed k' -> E e k') ->
  (forall k', framed k' -> s_prepared (k_s k) = true ->
     Q tt k'.{ k_s := (k_s k').{ s_committed := true }.{ s_pool_reusable := true } }) ->
  wp (ud_commit L) Q E k.
Proof using Type.
  intros HE HQ. pose proof framed_start as Hk. unfold ud_commit. apply wp_bind, wp_session.
  apply wp_bind, wp_fail_if; intros Hp; [by apply HE|]. apply orb_false_iff in Hp as [Hp%negb_false_iff _].
  apply wp_bind, wp_fail_if; intros _; [by apply HE|]. apply wp_bind.
  eapply (wp_mono _ (fun _ k' => k' = k) _ (fun _ k' => k' = k)).
  { unfold commit_publication. frame_go; done. }
  2: { intros e ? ->. by apply HE. }
  intros pub ? ->. apply wp_bind, wp_fail_if; intros _; [by apply HE|]. apply wp_bind.
  eapply (wp_mono _ (fun _ k' => k' = k) _ (fun _ k' => k' = k)).
  { unfold commit_manifest. frame_go; done. }
  2: { intros e ? ->. by apply HE. }
  intros remote ? ->. apply wp_bind, (wp_for (fun _ => framed)); [done|done| |].
  { intros d k' _ Hf. eapply wp_mono; [by apply wp_commit_domain_frame|done|apply HE]. }
  intros k1 H1. apply wp_bind. eapply (wp_mono _ (fun _ => framed) _ (fun _ => framed)).
  { unfold commit_extra. frame_go. apply (wp_for (fun _ => framed)); [done|done| |done].
    intros. by apply wp_commit_extra_domain_frame. }
  2: { intros e k' Hf. by apply HE. }
  intros _ k2 H2. apply wp_bind. unfold commit_heap. frame_go; [by apply HE..|by apply HQ].
Qed.
End commit_frame.
