(* ===== verification/Ready.v ===== *)
(** * A commit succeeds on what the owner publishes

    [Commit] says what a commit that returns 0 has checked.  Here is the other
    direction: on a region that holds the answer to the session's request,
    [ud_commit] does return 0.  [ready] lists what the region holds; it is
    discharged in [Connect] from what the owner writes. *)

From S2P Require Import Prelude Monad CMem Abi Layout PageWalk PoolSlots Arm64 RemoteCode Social Services Pool PoolPoll Kernel KernelLogic Session Ledger Device Commit.

(** ** The parts of a publication *)

Lemma ld_publication m a :
  ld_struct ud_publication m a =
  mk_publication (ld_struct ud_contract m a) (ld64 m (a + PUB_REQUEST)) (ld64 m (a + PUB_COMPLETE))
    (ld64 m (a + PUB_B_INITIALIZATIONS)).
Proof.
  unfold ld_struct, sizeof. cbn [of_fields CStruct_ud_publication widths CStruct_ud_contract]. unfold publication_of.
  rewrite (dec_fields_take contract_widths), !(dec_fields_nth _ _ _ _ 8) by (done || reflexivity). reflexivity.
Qed.
Lemma ld_pool_publication m a :
  ld_struct ud_pool_publication m a =
  mk_pool_publication (ld_struct ud_publication m a) (ld32 m (a + PUB_ERROR)) (ld32 m (a + PUB_RESERVED)).
Proof.
  unfold ld_struct, sizeof. cbn [of_fields CStruct_ud_publication widths CStruct_ud_pool_publication]. unfold pool_publication_of, pool_publication_widths.
  rewrite (dec_fields_take (contract_widths ++ [8; 8; 8]%nat)), !(dec_fields_nth _ _ _ _ 4) by (done || reflexivity). reflexivity.
Qed.

(** The check of the heap reads one page. *)
Lemma heap_check_shift s v R a b :
  (forall x, 0 <= x < UD_PAGE -> v (a + x) = R (b + x)) -> heap_check s v a = heap_check s R b.
Proof.
  intros Hx. assert (Hw : forall x, 0 <= x -> x + 8 <= UD_PAGE -> ld64 v (a + x) = ld64 R (b + x)).
  { intros x H0 H8. unfold ld. f_equal. apply load_bytes_ext. intros i Hi. rewrite <- !Z.add_assoc. apply Hx. lia. }
  unfold heap_check. rewrite (ld_struct_ext v R a b) by (intros i Hi; apply Hx; change (sizeof us_heap) with 112 in Hi; unfold UD_PAGE; lia).
  case_if; [done|]. unfold micro_heap_valid. unfold UD_PAGE in Hw.
  replace (ld64 v a) with (ld64 R b) by (rewrite <- (Z.add_0_r a), <- (Z.add_0_r b); symmetry; apply Hw; lia).
  f_equal. apply for_all_ext. intros d Hd. by rewrite !Hw by lia.
Qed.

(** ** The verifier reads the words it counts *)

Section words.
Context (ws ws' : list Z) (count : Z).
Hypothesis Hws : forall i, 0 <= i < count -> ws.[i] = ws'.[i].

Lemma remote_body_valid_ext d body :
  0 <= body -> remote_body_valid d ws count body = remote_body_valid d ws' count body.
Proof using Hws.
  intros Hb. unfold remote_body_valid. destruct (count - 2 <=? body) eqn:E; [done|]. simpl.
  rewrite !Hws by lia. case_if; [done|]. apply eq_true_iff_eq. rewrite !for_range_spec.
  split; intros H i Hi; specialize (H i Hi); [rewrite <- Hws by lia|rewrite Hws by lia]; done.
Qed.

Lemma ud_remote_image_valid_ext d : ud_remote_image_valid d ws count = ud_remote_image_valid d ws' count.
Proof using Hws.
  unfold ud_remote_image_valid. case_if; [done|]. case_if.
  { destruct (Z.eqb_spec count 1) as [->|]; [|done]. by rewrite Hws by lia. }
  case_if; [|case_if]; lazymatch goal with |- context [count <? ?n] => destruct (count <? n) eqn:Hn end; simpl; try done;
    rewrite !Hws by lia; (case_if; [done|]); by rewrite remote_body_valid_ext.
Qed.

Lemma social_nops_ext from : 0 <= from -> social_nops ws from count = social_nops ws' from count.
Proof using Hws.
  intros Hf. unfold social_nops. apply eq_true_iff_eq. rewrite !for_range_spec.
  split; intros H i Hi; specialize (H i Hi); [rewrite <- Hws by lia|rewrite Hws by lia]; done.
Qed.

Lemma ud_remote_social_image_valid_ext d :
  ud_remote_social_image_valid d ws count = ud_remote_social_image_valid d ws' count.
Proof using Hws.
  unfold ud_remote_social_image_valid. destruct (d >=? UD_DOMAINS); [done|]. simpl.
  destruct (count <? 5) eqn:Hc; [done|]. simpl. rewrite (Hws 0), (Hws (count - 1)) by lia. case_if; [done|].
  case_if.
  - destruct (count <? UD_RS_LB3_WORDS + 1) eqn:Hn; [done|]. unfold UD_RS_LB3_WORDS in *. rewrite social_nops_ext by lia. f_equal.
    apply for_all_ext. intros i Hi. by rewrite Hws by lia.
  - unfold social_route. rewrite !Hws by lia.
    repeat case_if; try done; rewrite ?social_nops_ext by lia; done.
Qed.

Lemma check_remote_image_ext s remote d :
  (r_words remote).[d] = count -> 1 <= count -> check_remote_image s remote d ws = check_remote_image s remote d ws'.
Proof using Hws.
  intros Hc H1. unfold check_remote_image. rewrite Hc, ud_remote_social_image_valid_ext, ud_remote_image_valid_ext.
  by rewrite (Hws 0) by lia.
Qed.
End words.

Section ready.
Context (L : linux) (k : kstate).
Notation s := (k_s k).
Notation c := (p_contract (s_p (k_s k))).
Notation va := (p_import_va (s_p (k_s k))).
Notation view := (user_view L (k_mem k)).
Notation at_ := (at_ k).
Notation content := (content L k).
Hypothesis (Hled : ledger k) (Hok : prepared_ok s) (Hun : code_unmapped L k).
(** The region, by offset, and the manifest in it (or none). *)
Context (R : mem) (remote : ud_remote_manifest).

(** The process maps the whole region. *)
Record shows : Prop := {
  sh_mapped : forall x, 0 <= x < UD_BYTES -> exists pa, l_user L (va + x) = Some pa;
  sh_bytes : forall x, 0 <= x < UD_BYTES -> view (va + x) = R x }.

(** Where the answer of the owner is. *)
Definition pub_offset : Z := if s_multi s then UD_POOL_SLOT (s_pool_slot s) else 0.
Definition is_remote : bool := s_code_mode s !=? UD_CODE_LEGACY.

Definition manifest_fits : bool :=
  (r_magic remote =? UD_REMOTE_MAGIC) && (r_abi remote =? UD_REMOTE_ABI) && (r_mode remote =? s_code_mode s) &&
  (if s_code_mode s =? UD_CODE_REMOTE_SOCIAL then
     (ud_remote_social_count (r_reserved remote) =? s_social_nginx_count s) &&
     (r_reserved remote .& UD_SOCIAL_CODE_KIND_MASK =? s_remote_service s)
   else z0 (r_reserved remote)).

(** The image of domain [d]. *)
Definition image_ready (d : Z) : Prop :=
  if is_remote then
    0 < (r_words remote).[d] <= UD_REMOTE_MAX_WORDS /\
    check_remote_image s remote d (ld_array 4 R (UD_IMAGE d) (r_words remote).[d]) = true
  else exists p, ud_profile_service (s_profile s) d = Some p /\
    load_bytes R (UD_IMAGE d) (service_size (Some p)) = (wwords 0 (assemble p)).2.

Record ready : Prop := {
  rd_slot : s_multi s = true -> 0 <= s_pool_slot s < UD_CLIENTS /\
    ud_pool_header_valid (ld_struct ud_pool_header R 0) = true /\
    h_generation (ld_struct ud_pool_header R 0) = s_pool_generation s /\
    pp_error (ld_struct ud_pool_publication R (UD_POOL_SLOT (s_pool_slot s))) = 0 /\
    pp_reserved (ld_struct ud_pool_publication R (UD_POOL_SLOT (s_pool_slot s))) = 0;
  rd_contract : ld_struct ud_contract R pub_offset = c;
  rd_request : ld64 R (pub_offset + PUB_REQUEST) = c_nonce c;
  rd_complete : ld64 R (pub_offset + PUB_COMPLETE) = c_nonce c;
  rd_manifest : is_remote = true -> ld_struct ud_remote_manifest R UD_REMOTE_META_OFFSET = remote /\ manifest_fits = true;
  rd_tables : forall d l, 0 <= d < UD_DOMAINS -> 0 <= l < 4 -> ld_array 8 R (table_offset s d l) 512 = ud_build_table c d l;
  rd_contexts : forall d, 0 <= d < UD_DOMAINS -> ld_struct ud_initial R (UD_CONTEXT d) = domain_initial (s_profile s) d;
  rd_images : forall d, 0 <= d < UD_DOMAINS -> image_ready d;
  rd_extra : three_nginx s = true -> s_multi s = true /\ is_remote = true /\
    ld_struct ud_social_extra R (UD_SOCIAL_EXTRA_SLOT (s_pool_slot s)) = s_social_extra s /\
    forall d, 0 <= d < UD_SOCIAL_EXTRA_DOMAINS -> exists a, ud_social_extra_contract c (s_social_extra s) d = Some a /\
      forall l, 0 <= l < 4 ->
        ld_array 8 R (UD_SOCIAL_EXTRA_TABLE (s_pool_slot s) d l) 512 = ud_build_table a (extra_entry d) l;
  rd_heap : heap_check s R UD_HEAP = true }.

Hypothesis (Hsh : shows) (Hrd : ready).

(** ** Copies succeed and see the region *)

Lemma shown_readable off n : 0 <= off -> off + n <= UD_BYTES -> readable L (va + off) n = true.
Proof using Hsh.
  intros H0 Hn. apply for_all_spec. intros i Hi. destruct (sh_mapped Hsh (off + i) ltac:(lia)) as [pa Hpa].
  by rewrite <- Z.add_assoc, Hpa.
Qed.

Lemma content_shows m i w off x :
  content m i w -> 0 <= off + x < UD_BYTES -> user_view L m (va + off + x) = R (off + x).
Proof using Hsh. intros Hct Hx. rewrite (ct_view _ _ _ _ _ Hct), <- Z.add_assoc. by apply Hsh. Qed.

Lemma wp_copy_ready A `{CStruct A} off m i w (Q : A -> kstate -> Prop) (E : Z -> kstate -> Prop) :
  content m i w -> 0 <= off -> off + sizeof A <= UD_BYTES -> Q (ld_struct A R off) (at_ m i w) ->
  wp (ud_copy L A off) Q E (at_ m i w).
Proof using Hsh.
  intros Hct H0 Hn HQ. unfold ud_copy, copy_struct. apply wp_bind, wp_session, wp_bind, wp_get. simpl.
  rewrite shown_readable by done. apply wp_ret. erewrite ld_struct_ext; [exact HQ|].
  intros j Hj. apply (content_shows m i w); [done|lia].
Qed.
Lemma wp_copy_bytes_ready off n m i w (Q : list Z -> kstate -> Prop) (E : Z -> kstate -> Prop) :
  content m i w -> 0 <= off -> off + n <= UD_BYTES -> Q (load_bytes R off n) (at_ m i w) ->
  wp (ud_copy_bytes L off n) Q E (at_ m i w).
Proof using Hsh.
  intros Hct H0 Hn HQ. unfold ud_copy_bytes, copy_bytes. apply wp_bind, wp_session, wp_bind, wp_get. simpl.
  rewrite shown_readable by done. apply wp_ret. erewrite load_bytes_ext; [exact HQ|].
  intros j Hj. apply (content_shows m i w); [done|lia].
Qed.

Lemma wp_check_tables_ready c' d offset m i w (Q : unit -> kstate -> Prop) (E : Z -> kstate -> Prop) :
  content m i w ->
  (forall l, 0 <= l < 4 -> 0 <= offset l /\ offset l + UD_PAGE <= UD_BYTES /\ ld_array 8 R (offset l) 512 = ud_build_table c' d l) ->
  Q tt (at_ m i w) -> wp (check_tables L c' d offset) Q E (at_ m i w).
Proof using Hsh.
  intros Hct Ht HQ. unfold check_tables.
  apply (wp_for (fun _ k' => k' = at_ m i w)); [done|done| |by intros ? ->].
  intros l ? Hl ->. destruct (Ht l Hl) as (H0 & Hn & Heq). apply wp_bind. unfold ud_copy_table. apply wp_bind, wp_get. simpl.
  rewrite shown_readable by done. apply wp_ret, wp_fail_if; [|done]. intros Hne. exfalso.
  apply negb_true_iff, bool_decide_eq_false in Hne. apply Hne. rewrite <- Heq. apply ld_array_ext.
  intros j Hj. apply (content_shows m i w); [done|]. unfold UD_PAGE in *. lia.
Qed.

(** ** One domain *)

(** The kernel's copy of the code of domain [j] is the image in the region. *)
Definition copied (m : mem) (w : list Z) (j : Z) : Prop :=
  is_remote = true -> w.[j] = (r_words remote).[j] /\
  load_bytes m (s_code s).[j] (4 * (r_words remote).[j]) = load_bytes R (UD_IMAGE j) (4 * (r_words remote).[j]).

Lemma copied_words m a d n :
  load_bytes m a (4 * n) = load_bytes R (UD_IMAGE d) (4 * n) -> n <= 1024 ->
  forall i, 0 <= i < n -> (page_words m a).[i] = (ld_array 4 R (UD_IMAGE d) n).[i].
Proof using Type.
  intros Hl Hn i Hi. unfold page_words. rewrite !ld_array_nth by lia. unfold ld. f_equal.
  apply load_bytes_ext. intros j Hj. rewrite <- !Z.add_assoc.
  rewrite <- (load_bytes_nth m a (4 * n)), <- (load_bytes_nth R (UD_IMAGE d) (4 * n)), Hl by lia. done.
Qed.

Lemma copied_other m w d j bs n :
  copied m w j -> 0 <= j < 4 -> 0 <= d < 4 -> j <> d -> Z.of_nat (length bs) <= UD_PAGE ->
  (is_remote = true -> (r_words remote).[j] <= UD_REMOTE_MAX_WORDS) ->
  copied (store_bytes m (s_code s).[d] bs) (setz w d n) j.
Proof using Hled Hok.
  intros Hc Hj Hd Hne Hl Hmax Hr. destruct (Hc Hr) as [Hw Hb]. specialize (Hmax Hr).
  pose proof (code_pages_apart _ Hled Hok d j Hd Hj ltac:(lia)) as Hap. unfold disjoint_ranges in Hap.
  rewrite nthz_setz_ne by lia. split; [done|]. rewrite <- Hb. apply load_bytes_ext. intros x Hx.
  apply store_bytes_out. unfold UD_PAGE, UD_REMOTE_MAX_WORDS in *. lia.
Qed.

Lemma image_words_max d : 0 <= d < 4 -> is_remote = true -> 0 < (r_words remote).[d] <= UD_REMOTE_MAX_WORDS.
Proof using Hrd. intros Hd Hr. pose proof (rd_images Hrd d Hd) as H. unfold image_ready in H. rewrite Hr in H. apply H. Qed.

Definition image_bytes (d : Z) : Z :=
  if is_remote then (r_words remote).[d] * 4 else service_size (ud_profile_service (s_profile s) d).

Lemma image_bytes_range d : 0 <= d < 4 -> 0 < image_bytes d <= UD_PAGE.
Proof using Hrd.
  intros Hd. unfold image_bytes. pose proof (rd_images Hrd d Hd) as H. unfold image_ready in H.
  destruct is_remote; [unfold UD_REMOTE_MAX_WORDS, UD_PAGE in *; lia|].
  destruct H as (p & Hp & _). rewrite Hp. by eapply services_fit.
Qed.

Lemma table_offset_range d l : 0 <= d < 4 -> 0 <= l < 4 -> 0 <= table_offset s d l /\ table_offset s d l + UD_PAGE <= UD_BYTES.
Proof using Hrd.
  intros Hd Hl. unfold table_offset. destruct (s_multi s) eqn:Hm.
  - destruct (rd_slot Hrd Hm) as (Hs & _). unfold UD_POOL_TABLE, UD_PAGE, UD_BYTES, UD_CLIENTS in *. lia.
  - unfold UD_TABLE, UD_PAGE, UD_BYTES. lia.
Qed.

Lemma wp_commit_domain_ready d m i w (Q : unit -> kstate -> Prop) (E : Z -> kstate -> Prop) :
  content m i w -> 0 <= d < 4 -> (forall j, 0 <= j < d -> copied m w j) ->
  (forall m' i' w', content m' i' w' -> (forall j, 0 <= j < d + 1 -> copied m' w' j) -> Q tt (at_ m' i' w')) ->
  wp (commit_domain L remote d) Q E (at_ m i w).
Proof using Hled Hok Hun Hsh Hrd.
  intros Hct Hd Hprev HQ. assert (Hws : setz w d w.[d] = w) by (apply setz_same; rewrite (ct_words _ _ _ _ _ Hct); lia).
  pose proof (image_bytes_range d Hd) as Hsz. pose proof (rd_images Hrd d Hd) as Him.
  unfold commit_domain. apply wp_bind, wp_session. cbv zeta. simpl. fold is_remote.
  apply wp_bind, wp_fail_if; intros Hrange.
  { exfalso. apply andb_true_iff in Hrange as [Hr Hx]. pose proof (image_words_max d Hd Hr). unfold z0 in Hx. lia. }
  apply wp_bind, wp_check_tables_ready; [done| |].
  { intros l Hl. destruct (table_offset_range d l Hd Hl). split_and!; [done|done|]. by apply Hrd. }
  apply wp_bind, wp_copy_ready; [done|unfold UD_CONTEXT; lia|change (sizeof ud_initial) with 32; unfold UD_CONTEXT, UD_BYTES; lia|].
  rewrite (rd_contexts Hrd d Hd). set (initial := domain_initial _ _). apply wp_bind, wp_set_session.
  match goal with |- wp _ _ _ ?u => change u with (at_ m (setz i d initial) w) end.
  assert (Hct1 : content m (setz i d initial) w) by (rewrite <- Hws; by apply setz_content).
  apply wp_bind, wp_fail_if; intros Hini; [by rewrite bool_decide_eq_true_2 in Hini by done|].
  fold (image_bytes d). apply wp_bind, wp_fail_if; intros Hsize; [unfold z0 in Hsize; lia|].
  apply wp_bind, wp_copy_bytes_ready; [done|unfold UD_IMAGE; lia|unfold UD_IMAGE, UD_BYTES, UD_PAGE in *; lia|].
  set (bytes := load_bytes R _ _).
  assert (Hbl : Z.of_nat (length bytes) = image_bytes d) by (unfold bytes; rewrite load_bytes_length; lia).
  apply wp_bind, wp_get, wp_bind, wp_put. simpl. set (m' := store_bytes m (s_code s).[d] bytes).
  match goal with |- wp _ _ _ ?u => change u with (at_ m' (setz i d initial) w) end.
  assert (Hct2 : content m' (setz i d initial) w) by (apply store_code_content; [done|done|done|lia]).
  assert (Hdone : forall n, copied m' (setz w d n) d -> forall j, 0 <= j < d + 1 -> copied m' (setz w d n) j).
  { intros n Hc j Hj. destruct (decide (j = d)) as [->|Hne]; [done|].
    apply copied_other; [apply Hprev; lia|lia|done|done|lia|]. apply image_words_max. lia. }
  unfold image_bytes, image_ready in *. destruct is_remote eqn:Hr.
  - destruct Him as [Hw Hchk]. assert (Hb : load_bytes m' (s_code s).[d] (4 * (r_words remote).[d]) = bytes)
      by (apply load_store_same; rewrite Hbl; lia).
    apply wp_bind, wp_get, wp_bind. simpl. apply wp_fail_if; intros Hv.
    { exfalso. change (negb (check_remote_image s remote d (page_words m' (s_code s).[d])) = true) in Hv.
      rewrite (check_remote_image_ext _ (ld_array 4 R (UD_IMAGE d) (r_words remote).[d]) (r_words remote).[d]), Hchk in Hv;
        [done| |done|lia].
      apply copied_words; [|unfold UD_REMOTE_MAX_WORDS in Hw; lia]. rewrite Hb. unfold bytes. f_equal. lia. }
    apply wp_set_session. apply (HQ m' (setz i d initial) (setz w d (r_words remote).[d])).
    + destruct Hct2. constructor; [done|done|by rewrite setz_length].
    + apply Hdone. intros _. rewrite nthz_setz_eq by (rewrite (ct_words _ _ _ _ _ Hct); lia). split; [done|].
      rewrite Hb. unfold bytes. f_equal. lia.
  - destruct Him as (p & Hp & Hl). rewrite Hp in *. apply wp_fail_if; intros Hcmp.
    + exfalso. subst bytes. rewrite Hp in Hcmp. by rewrite Hl, bool_decide_eq_true_2 in Hcmp by done.
    + apply HQ; [done|]. rewrite <- Hws. apply Hdone. intros Hx. congruence.
Qed.

(** ** The extra identities *)

Lemma wp_commit_extra_domain_ready d m i w (Q : unit -> kstate -> Prop) (E : Z -> kstate -> Prop) :
  three_nginx s = true -> content m i w -> 0 <= d < 4 -> (forall j, 0 <= j < 4 -> copied m w j) ->
  (forall m', content m' i w -> (forall j, 0 <= j < 4 -> copied m' w j) -> Q tt (at_ m' i w)) ->
  wp (commit_extra_domain L (s_social_extra s) d) Q E (at_ m i w).
Proof using Hled Hok Hun Hsh Hrd.
  intros H3 Hct Hd Hcop HQ. destruct (rd_extra Hrd H3) as (Hm & Hr & _ & Hex). destruct (Hex d Hd) as (a & Ha & Ht).
  destruct (rd_slot Hrd Hm) as (Hslot & _). destruct (social_page_ok _ Hled Hok d a H3 Hd Ha) as [Hap1 _].
  unfold commit_extra_domain. apply wp_bind, wp_session. simpl. rewrite Ha. cbv zeta.
  apply wp_bind, wp_check_tables_ready; [done| |].
  { intros l Hl. split_and!; [..|by apply Ht]; unfold UD_SOCIAL_EXTRA_TABLE, UD_PAGE, UD_BYTES, UD_CLIENTS in *; lia. }
  set (entry := extra_entry d).
  assert (He : 0 <= entry < 4) by (unfold entry; destruct (extra_entry_cases d) as [-> | ->]; done).
  destruct (Hcop entry He Hr) as [Hw Hb]. pose proof (image_words_max entry He Hr) as Hmax. rewrite Hw.
  apply wp_bind, wp_copy_bytes_ready; [done|unfold UD_IMAGE; lia|unfold UD_IMAGE, UD_BYTES, UD_REMOTE_MAX_WORDS in *; lia|].
  set (bytes := load_bytes R _ _).
  assert (Hbl : Z.of_nat (length bytes) <= UD_PAGE).
  { unfold bytes. rewrite load_bytes_length. unfold UD_REMOTE_MAX_WORDS, UD_PAGE in *. lia. }
  apply wp_bind, wp_get, wp_bind, wp_put. simpl. set (m' := store_bytes m (s_social_code s).[d] bytes).
  match goal with |- wp _ _ _ ?u => change u with (at_ m' i w) end.
  assert (Hct' : content m' i w).
  { destruct Hct. constructor; [|done|done]. etrans; [|exact ct_view]. apply store_code_view.
    intros x pa Hx. destruct (Hun x pa Hx d Hd) as [_ ?]. lia. }
  assert (Hsame : forall j n, 0 <= j < 4 -> n <= UD_PAGE -> load_bytes m' (s_code s).[j] n = load_bytes m (s_code s).[j] n).
  { intros j n Hj Hn. apply load_bytes_ext. intros x Hx. apply store_bytes_out.
    specialize (Hap1 j Hj). unfold disjoint_ranges in Hap1. lia. }
  assert (Hcop' : forall j, 0 <= j < 4 -> copied m' w j).
  { intros j Hj _. destruct (Hcop j Hj Hr) as [Hwj Hbj]. split; [done|]. pose proof (image_words_max j Hj Hr).
    rewrite Hsame; [done|done|]. unfold UD_REMOTE_MAX_WORDS, UD_PAGE in *. lia. }
  apply wp_bind, wp_get, wp_fail_if; intros Hcmp; [|by apply HQ]. exfalso. simpl in Hcmp.
  apply negb_true_iff, bool_decide_eq_false in Hcmp. apply Hcmp. unfold bytes. rewrite (Z.mul_comm _ 4).
  destruct (Hcop' entry He Hr) as [_ <-]. done.
Qed.

(** ** The whole commit *)

Lemma pub_offset_range : 0 <= pub_offset /\ pub_offset + UD_PAGE <= UD_BYTES.
Proof using Hrd.
  unfold pub_offset. destruct (s_multi s) eqn:Hm; [|done].
  destruct (rd_slot Hrd Hm) as (Hs & _). unfold UD_POOL_SLOT, UD_PAGE, UD_BYTES, UD_CLIENTS in *. lia.
Qed.

Lemma wp_commit_publication_ready m i w (Q : ud_publication -> kstate -> Prop) (E : Z -> kstate -> Prop) :
  content m i w -> Q (ld_struct ud_publication R pub_offset) (at_ m i w) -> wp (commit_publication L) Q E (at_ m i w).
Proof using Hsh Hrd.
  intros Hct HQ. pose proof pub_offset_range as Hp. unfold commit_publication. apply wp_bind, wp_session. simpl.
  unfold pub_offset in *. destruct (s_multi s) eqn:Hm.
  - destruct (rd_slot Hrd Hm) as (Hslot & Hv & Hg & He & Hz). unfold UD_PAGE in Hp.
    apply wp_bind, wp_copy_ready; [done|lia|done|]. apply wp_bind, wp_fail_if; intros Hf.
    { rewrite Hv, Hg, Z.eqb_refl in Hf. done. }
    apply wp_bind, wp_copy_ready; [done|lia|change (sizeof ud_pool_publication) with 304; lia|].
    apply wp_bind, wp_fail_if; intros Hf'; [by rewrite He, Hz in Hf'|]. apply wp_ret. by rewrite ld_pool_publication.
  - apply wp_copy_ready; [done|lia|done|done].
Qed.

Lemma wp_commit_manifest_ready m i w (Q : ud_remote_manifest -> kstate -> Prop) (E : Z -> kstate -> Prop) :
  content m i w -> (is_remote = false -> remote = zero_manifest) -> Q remote (at_ m i w) ->
  wp (commit_manifest L) Q E (at_ m i w).
Proof using Hsh Hrd.
  intros Hct Hz HQ. unfold commit_manifest. apply wp_bind, wp_session. simpl. fold is_remote.
  destruct is_remote eqn:Hr; [|rewrite Hz in HQ by done; by apply wp_ret].
  destruct (rd_manifest Hrd Hr) as [Hl Hfits]. unfold manifest_fits in Hfits.
  apply wp_bind, wp_copy_ready; [done|done|done|]. rewrite Hl. apply wp_bind, wp_fail_if; intros Hf; [|by apply wp_ret]. exfalso.
  rewrite !andb_true_iff in Hfits. destruct Hfits as [[[H1 H2] H3] H4]. rewrite H1, H2, H3 in Hf. simpl in Hf.
  destruct (s_code_mode s =? UD_CODE_REMOTE_SOCIAL); [apply andb_true_iff in H4 as [H4 H5]; by rewrite H4, H5 in Hf|].
  unfold nz in Hf. unfold z0 in H4. by rewrite H4 in Hf.
Qed.

(** The commit of a session that is prepared and not committed returns 0. *)
Lemma commit_ready :
  s_prepared s = true -> s_committed s = false -> l_kmalloc L = true -> (is_remote = false -> remote = zero_manifest) ->
  exists k', ud_commit L k = (inl tt, k').
Proof using Hled Hok Hun Hsh Hrd.
  intros Hp Hc Hkm Hz. pose proof (start_content L k Hled) as Hct.
  assert (Hw : wp (ud_commit L) (fun _ _ => True) (fun _ _ => False) (at_ (k_mem k) (s_initial s) (s_remote_words s))).
  2: { rewrite at_start in Hw. unfold wp in Hw. destruct (ud_commit L k) as [[[]|] k']; [by exists k'|done]. }
  unfold ud_commit. apply wp_bind, wp_session. simpl. apply wp_bind, wp_fail_if; intros Hx; [by rewrite Hp, Hc in Hx|].
  apply wp_bind, wp_fail_if; intros Hx'; [by rewrite Hkm in Hx'|]. apply wp_bind, wp_commit_publication_ready; [done|].
  rewrite ld_publication. apply wp_bind, wp_fail_if; intros Hst.
  { change (negb (bool_decide (ld_struct ud_contract R pub_offset = c)) || (ld64 R (pub_offset + PUB_REQUEST) !=? c_nonce c) ||
      (ld64 R (pub_offset + PUB_COMPLETE) !=? ld64 R (pub_offset + PUB_REQUEST)) = true) in Hst.
    rewrite (rd_contract Hrd), (rd_request Hrd), (rd_complete Hrd), Z.eqb_refl, bool_decide_eq_true_2 in Hst by done. done. }
  apply wp_bind, wp_commit_manifest_ready; [done|done|].
  apply wp_bind, (wp_for (fun d k' => exists m i w, k' = at_ m i w /\ content m i w /\ forall j, 0 <= j < d -> copied m w j)); [done| | |].
  { exists (k_mem k), (s_initial s), (s_remote_words s). split_and!; try done. lia. }
  { intros d k' Hd (m & i & w & -> & Hmiw & Hcop). apply wp_commit_domain_ready; [done|done|done|].
    intros m' i' w' ? ?. by exists m', i', w'. }
  intros k' (m & i & w & -> & Hmiw & Hcop).
  assert (Hend : forall m', content m' i w ->
    wp (commit_heap L ;; set_session (fun s => s.{ s_committed := true }.{ s_pool_reusable := true })) (fun _ _ => True) (fun _ _ => False) (at_ m' i w)).
  { intros m' Hct'. apply wp_bind. unfold commit_heap. apply wp_bind, wp_get. cbv zeta.
    apply wp_bind, wp_fail_if; intros Hrb.
    { change (negb (readable L (va + UD_HEAP) UD_PAGE) = true) in Hrb. by rewrite shown_readable in Hrb by done. }
    apply wp_fail_if; intros Hh; [|done]. exfalso. apply negb_true_iff in Hh.
    change (heap_check s (user_view L m') (va + UD_HEAP) = false) in Hh.
    rewrite (heap_check_shift _ _ R _ UD_HEAP), (rd_heap Hrd) in Hh; [done|].
    intros x Hx0. apply (content_shows m' i w); [done|]. unfold UD_PAGE, UD_HEAP, UD_BYTES in *. lia. }
  apply wp_bind. unfold commit_extra. apply wp_bind, wp_session.
  change (three_nginx (k_s (at_ m i w))) with (three_nginx s).
  destruct (three_nginx s) eqn:H3; [|apply wp_ret, Hend; done].
  destruct (rd_extra Hrd H3) as (Hm & _ & He & _). destruct (rd_slot Hrd Hm) as (Hslot & _).
  apply wp_bind, wp_copy_ready; [done|unfold UD_SOCIAL_EXTRA_SLOT, UD_POOL_SLOT; simpl; lia|
    change (sizeof ud_social_extra) with 208; unfold UD_SOCIAL_EXTRA_SLOT, UD_POOL_SLOT, UD_BYTES, UD_CLIENTS in *; simpl; lia|].
  apply wp_bind, wp_fail_if; intros Heq.
  { change (negb (bool_decide (ld_struct ud_social_extra R (UD_SOCIAL_EXTRA_SLOT (s_pool_slot s)) = s_social_extra s)) = true) in Heq.
    by rewrite He, bool_decide_eq_true_2 in Heq by done. }
  change (s_pool_slot (k_s (at_ m i w))) with (s_pool_slot s). rewrite He.
  apply (wp_for (fun d k' => exists m', k' = at_ m' i w /\ content m' i w /\ forall j, 0 <= j < 4 -> copied m' w j)); [done| | |].
  { exists m. split_and!; try done. }
  { intros d k' Hd (m' & -> & Hct' & Hcop'). apply wp_commit_extra_domain_ready; [done|done|done|done|].
    intros m'' ? ?. by exists m''. }
  intros k' (m' & -> & Hct' & _). by apply Hend.
Qed.
End ready.
