(* ===== verification/Gate.v ===== *)
(** * Entering a domain: kernel/ub-domain/gate.S, gate_nested.S, nested_gate.h

    What an entry does between the moment the gate has switched to the shadow
    regime and the moment it has restored A's: EL0 code runs until an exception,
    with the translation of the shadow root over physical memory, and the vector
    records what the kernel looks at afterwards.  The saving and restoring of A's
    own registers, and the stop at the empty root between two shadow roots, leave
    no trace in this state.

    An entry that is still running after [fuel] instructions raises [EL0_RUNNING],
    which is no error code of the module: the handler has not returned. *)

From S2P Require Import Prelude Monad CMem Abi Layout PageWalk Arm64 Kernel Session.

(** [pstate] is saved for diagnostics and never read. *)
Record ud_regs := mk_regs { rg_x : list Z; rg_sp : Z; rg_pc : Z; rg_esr : Z; rg_far : Z; rg_vector : Z }.
#[export] Instance eta_regs : Eta ud_regs := fun r =>
  mk_regs (rg_x r) (rg_sp r) (rg_pc r) (rg_esr r) (rg_far r) (rg_vector r).
Definition zero_regs : ud_regs := mk_regs (replicate 31 0) 0 0 0 0 0.

Record ud_nested_gate := mk_gate {
  ng_middle : ud_regs; ng_leaf : ud_regs;
  ng_middle_root : Z; ng_leaf_root : Z;
  ng_middle_args : Z; ng_leaf_args : Z;
  ng_call_pc : Z; ng_leaf_pc : Z; ng_return_pc : Z;
  ng_transitions : Z; ng_complete : Z; ng_domain : Z;
  ng_mode : Z; ng_social_args : Z; ng_social_target : Z }.
#[export] Instance eta_gate : Eta ud_nested_gate := fun g =>
  mk_gate (ng_middle g) (ng_leaf g) (ng_middle_root g) (ng_leaf_root g) (ng_middle_args g) (ng_leaf_args g)
    (ng_call_pc g) (ng_leaf_pc g) (ng_return_pc g) (ng_transitions g) (ng_complete g) (ng_domain g)
    (ng_mode g) (ng_social_args g) (ng_social_target g).

Definition UDN_MODE_MICRO := 0.
Definition UDN_MODE_SOCIAL := 1.
Definition UDN_SOCIAL_ACTION_OFFSET := 196.
Definition UDN_SOCIAL_TARGET_OFFSET := 200.

(** ** The translation regime *)

(** The TCR of a shadow domain, from A's. *)
Definition shadow_tcr (tcr : Z) : Z :=
  (tcr .& not64 ((15 .<< 8) .| (1 .<< 7) .| (3 .<< 12) .| (3 .<< 39) .| (3 .<< 14) .| (1 .<< 22) .| 63)) .|
  ((3 .<< 12) .| 16).

Definition field (v lo len : Z) : Z := (v .>> lo) .& Z.ones len.

(** The TTBR0 walks of [PageWalk]: 48-bit addresses (T0SZ), enabled (EPD0), 4KB
    granule (TG0), the ASID of TTBR0 (A1), no hardware update of descriptors (HA,
    HD). *)
Definition regime_ok (tcr : Z) : bool :=
  (field tcr 0 6 =? 16) && (field tcr 7 1 =? 0) && (field tcr 14 2 =? 0) && (field tcr 22 1 =? 0) && (field tcr 39 2 =? 0).

Definition el0_xlat (tcr root : Z) (m : mem) (va : Z) : option (Z * perm) :=
  if regime_ok tcr then to_option (walk m root va) else None.
Definition el0_image (tcr root : Z) (m : mem) : list (option instr) :=
  match el0_xlat tcr root m UD_VA with
  | Some (pa, _) => decode <$> page_words m pa
  | None => []
  end.

(** ** Exceptions *)

Definition EC_BRK := 0x3c.
(** Exception class and fault address; the module tells only [brk] from the rest. *)
Definition esr_of (why : stop_reason) : Z :=
  match why with
  | SBrk imm => (EC_BRK .<< 26) .| (1 .<< 25) .| imm
  | SAbort _ => (0x24 .<< 26) .| (1 .<< 25)
  | SUnaligned _ => (0x22 .<< 26) .| (1 .<< 25)
  | SUndef => 1 .<< 25
  end.
Definition far_of (why : stop_reason) : Z :=
  match why with SAbort va | SUnaligned va => va | _ => 0 end.

(** A synchronous exception from EL0 with the [brk] immediate [imm]. *)
Definition brk_trap (r : ud_regs) (imm : Z) : bool :=
  (rg_vector r =? 8) && (rg_esr r .>> 26 =? EC_BRK) && (rg_esr r .& 0xffff =? imm).

(** What the vector stores in any case. *)
Definition trapped (r : ud_regs) (why : stop_reason) (st : cpu) : ud_regs :=
  r.{ rg_vector := 8 }.{ rg_pc := pc st }.{ rg_esr := esr_of why }.{ rg_far := far_of why }.
(** The full context of a suspended service. *)
Definition suspended (r : ud_regs) (st : cpu) : ud_regs := r.{ rg_x := x st }.{ rg_sp := sp st }.

Definition EL0_RUNNING := 0x10000.

Section gate.
Context (fuel : nat).

Definition el0 (tcr root : Z) (r : ud_regs) : M (stop_reason * cpu) :=
  k <- get ;;
  match run (el0_xlat tcr root (k_mem k)) (el0_image tcr root (k_mem k)) fuel
          (mk_cpu (rg_x r) (rg_sp r) (rg_pc r) false (k_mem k)) with
  | None => raise EL0_RUNNING
  | Some (why, st) =>
      put (k.{ k_mem := pm st }.{ k_stale := (root .>> 48) :: k_stale k }) ;; ret (why, st)
  end.

Definition ud_enter (r : ud_regs) (root tcr : Z) (save_middle : bool) : M ud_regs :=
  '(why, st) <- el0 tcr root r ;;
  let t := trapped r why st in
  ret (if save_middle && brk_trap t 0x4c1 && (rg_pc t =? u64 (rg_pc r + UD_NESTED_TRAP_OFFSET))
       then suspended t st else t).

(** [.Ludn_restore]: back to A. *)
Definition udn_restore (g : ud_nested_gate) : ud_nested_gate := g.{ ng_transitions := ng_transitions g + 1 }.
(** [.Ludn_switch]: on to the other domain. *)
Definition udn_switch (domain : Z) (g : ud_nested_gate) : ud_nested_gate :=
  g.{ ng_domain := domain }.{ ng_transitions := ng_transitions g + 1 }.

Definition mem_u64 (a : Z) : M Z := k <- get ;; ret (ld64 (k_mem k) a).
Definition mem_u32 (a : Z) : M Z := k <- get ;; ret (ld32 (k_mem k) a).
Definition set_u64 (a v : Z) : M unit := k <- get ;; put k.{ k_mem := st64 (k_mem k) a v }.
Definition set_u32 (a v : Z) : M unit := k <- get ;; put k.{ k_mem := st32 (k_mem k) a v }.

(** Phase 2: the middle domain returns. *)
Definition udn_middle_return (tcr : Z) (g : ud_nested_gate) : M ud_nested_gate :=
  '(why, st) <- el0 tcr (ng_middle_root g) (ng_middle g) ;;
  let g := g.{ ng_middle := trapped (ng_middle g) why st } in
  ret (udn_restore (if brk_trap (ng_middle g) 0x4c0 && (rg_pc (ng_middle g) =? ng_return_pc g)
                    then g.{ ng_complete := 1 } else g)).

(** Phase 1: the leaf, or the second routing service. *)
Definition udn_leaf (tcr : Z) (g : ud_nested_gate) : M ud_nested_gate :=
  '(why, st) <- el0 tcr (ng_leaf_root g) (ng_leaf g) ;;
  let g := g.{ ng_leaf := trapped (ng_leaf g) why st } in
  if brk_trap (ng_leaf g) 0x4c0 && (rg_pc (ng_leaf g) =? ng_leaf_pc g) then
    if ng_mode g =? UDN_MODE_MICRO then
      result <- mem_u64 (ng_leaf_args g + 16) ;;
      let middle := (ng_middle g).{ rg_x := setz (rg_x (ng_middle g)) 2 result }
        .{ rg_pc := u64 (rg_pc (ng_middle g) + 4) } in
      udn_middle_return tcr (udn_switch 1 g.{ ng_middle := middle })
    else ret (udn_restore g.{ ng_complete := 1 })
  else ret (udn_restore g).

(** Phase 0: the middle domain up to its call, or the first routing service. *)
Definition ud_enter_nested (gate : ud_nested_gate) (tcr : Z) : M ud_nested_gate :=
  let g := gate.{ ng_transitions := 1 }.{ ng_domain := 1 }.{ ng_complete := 0 } in
  '(why, st) <- el0 tcr (ng_middle_root g) (ng_middle g) ;;
  let g := g.{ ng_middle := trapped (ng_middle g) why st } in
  if brk_trap (ng_middle g) (if ng_mode g =? UDN_MODE_MICRO then 0x4c1 else 0x4c0) &&
     (rg_pc (ng_middle g) =? ng_call_pc g) then
    if ng_mode g =? UDN_MODE_MICRO then
      let middle := suspended (ng_middle g) st in
      set_u64 (ng_leaf_args g) (rg_x middle).[2] ;;
      set_u64 (ng_leaf_args g + 8) 0 ;;
      set_u64 (ng_leaf_args g + 16) 0 ;;
      udn_leaf tcr (udn_switch 2 g.{ ng_middle := middle })
    else
      action <- mem_u32 (ng_social_args g + UDN_SOCIAL_ACTION_OFFSET) ;;
      target <- mem_u32 (ng_social_args g + UDN_SOCIAL_TARGET_OFFSET) ;;
      if (action =? 2) && (target =? u32 (ng_social_target g)) then udn_leaf tcr (udn_switch 2 g)
      else ret (udn_restore g)
  else ret (udn_restore g).
End gate.
