(* ===== verification/Run.v ===== *)
(** * Calls: kernel/ub-domain/domain.c from [ud_initial_regs] to [ud_ioctl]

    The handlers that enter the service domains, and the dispatcher.  A call
    returns its status as a value; the only thing these handlers raise is
    [EL0_RUNNING], when a domain has not come back within [fuel] instructions.
    A-stack pages are read and written where the code does, through memory. *)

From S2P Require Import Prelude Monad CMem Abi Layout PageWalk Arm64 RemoteCode Social Services Kernel Session Gate.

#[export] Instance eta_call : Eta ud_call := fun r =>
  mk_call (k_a r) (k_b r) (k_result r) (k_elapsed_ns r) (k_esr r) (k_far r) (k_procedure r) (k_transitions r)
    (k_cpu r) (k_reserved r).
#[export] Instance eta_tlb_probe : Eta ud_tlb_probe := fun r =>
  mk_tlb_probe (t_a r) (t_b r) (t_first_ns r) (t_second_ns r) (t_first_result r) (t_second_result r)
    (t_first_esr r) (t_first_far r) (t_second_esr r) (t_second_far r) (t_procedure r) (t_flush r)
    (t_first_cpu r) (t_second_cpu r).
#[export] Instance eta_us_message : Eta us_message := fun r =>
  mk_us_message (um_source r) (um_request r) (um_machine r) (um_block r) (um_payload_offset r)
    (um_payload_bytes r) (um_value r) (um_ticket r) (um_type r) (um_action r) (um_target r) (um_status r).

(** [rc = f(); if (rc) goto ...]: the status as a value. *)
Definition attempt (m : M unit) : M Z := fun k =>
  match m k with
  | (inl _, k') => (inl 0, k')
  | (inr e, k') => (inl e, k')
  end.

Definition mem_struct (A : Type) `{CStruct A} (a : Z) : M A := k <- get ;; ret (ld_struct A (k_mem k) a).

(** [memset] *)
Definition mem_fill (a n v : Z) : M unit := k <- get ;; put k.{ k_mem := fill (k_mem k) a n v }.

(** ** Micro services *)

Definition initial_of (s : ud_session) (d : Z) : ud_initial := nthz (mk_initial 0 0 0 0) (s_initial s) d.

Definition ud_initial_regs (s : ud_session) (d : Z) : ud_regs :=
  let i := initial_of s d in mk_regs (in_args i :: in_heap i :: replicate 29 0) (in_sp i) (in_pc i) 0 0 0.

(** Bytes of the code of domain [d]. *)
Definition code_size (s : ud_session) (d : Z) : Z :=
  if s_code_mode s =? UD_CODE_REMOTE_VERIFIED then (s_remote_words s).[d] * 4
  else service_size (Some (ud_service d)).

Definition ud_returned (s : ud_session) (r : ud_regs) (d : Z) (nested : bool) : bool :=
  brk_trap r (if nested then 0x4c1 else 0x4c0) &&
  (rg_pc r =? u64 (UD_VA + (if nested then UD_NESTED_TRAP_OFFSET else code_size s d - 4))).

(** [table_pa[d][0] | asid[d] << 48] *)
Definition domain_root (s : ud_session) (d : Z) : Z :=
  c_table_pa (p_contract (s_p s)) d 0 .| ((s_asid s).[d] .<< 48).

Section calls.
Context (fuel : nat) (L : linux).

(** The exit state, the transitions, and whether the chain completed. *)
Definition ud_run_fused (s : ud_session) (tcr : Z) : M (ud_regs * Z * bool) :=
  let gate := mk_gate (ud_initial_regs s UD_MIDDLE) (ud_initial_regs s UD_LEAF)
    (domain_root s UD_MIDDLE) (domain_root s UD_LEAF) (s_args s).[UD_MIDDLE] (s_args s).[UD_LEAF]
    (u64 (UD_VA + UD_NESTED_TRAP_OFFSET)) (u64 (UD_VA + code_size s UD_LEAF - 4))
    (u64 (UD_VA + code_size s UD_MIDDLE - 4)) 0 0 UD_MIDDLE UDN_MODE_MICRO 0 0 in
  g <- ud_enter_nested fuel gate tcr ;;
  let r := if ng_domain g =? UD_LEAF then ng_leaf g else ng_middle g in
  ret (r, ng_transitions g,
       (ng_complete g =? 1) && (ng_transitions g =? 4) && (ng_domain g =? UD_MIDDLE) &&
       ud_returned s r UD_MIDDLE false).

(** Every hand-over goes through the kernel. *)
Definition run_legacy (s : ud_session) (d tcr : Z) : M (ud_regs * Z * bool) :=
  r <- ud_enter fuel (ud_initial_regs s d) (domain_root s d) tcr (d =? UD_MIDDLE) ;;
  if (d =? UD_MIDDLE) && ud_returned s r d true then
    let leaf_args := (s_args s).[UD_LEAF] in
    mem_fill leaf_args 24 0 ;;
    set_u64 leaf_args (rg_x r).[2] ;;
    leaf <- ud_enter fuel (ud_initial_regs s UD_LEAF) (domain_root s UD_LEAF) tcr false ;;
    if negb (ud_returned s leaf UD_LEAF false) then ret (leaf, 4, false)
    else
      result <- mem_u64 (leaf_args + 16) ;;
      r <- ud_enter fuel (r.{ rg_pc := u64 (rg_pc r + 4) }.{ rg_x := setz (rg_x r) 2 result })
             (domain_root s d) tcr false ;;
      ret (r, 6, true)
  else ret (r, 2, true).

Definition call_domain (c : ud_call) : Z :=
  if k_procedure c =? 1 then UD_DIRECT else if k_procedure c =? 2 then UD_MIDDLE else UD_QUERY.

Definition call_refused (s : ud_session) (c : ud_call) : bool :=
  negb (s_committed s) || (k_procedure c <? 1) || (k_procedure c >? 3) || nz (k_reserved c) ||
  ((s_code_mode s =? UD_CODE_REMOTE_VERIFIED) && (k_procedure c =? 3)) ||
  ((k_procedure c =? 3) && (z0 (k_a c) || (k_a c >? 32))).

Definition ud_run (c : ud_call) (mapped : bool) : M (Z * ud_call) :=
  s <- session ;;
  let d := call_domain c in
  if s_profile s !=? UD_PROFILE_MICRO then ret (- EOPNOTSUPP, c)
  else if call_refused s c then ret (- EINVAL, c)
  else
    rc <- attempt (ud_mapping L false) ;;
    if nz rc then ret (rc, c)
    else
      let args := (s_args s).[d] in
      (if mapped then ret tt else set_u64 args (k_a c) ;; set_u64 (args + 8) (k_b c)) ;;
      set_u64 (args + 16) 0 ;;
      if nz (ud_supported L) then ret (ud_supported L, c)
      else
        let tcr := shadow_tcr (l_tcr L) in
        '(r, transitions, completed) <-
          (if (d =? UD_MIDDLE) && (s_nested_path s =? UD_NESTED_FUSED) then ud_run_fused s tcr
           else run_legacy s d tcr) ;;
        let c := c.{ k_cpu := l_cpu L }.{ k_transitions := transitions } in
        if completed && ud_returned s r d false then
          result <- mem_u64 (args + 16) ;;
          ret (0, c.{ k_result := result }.{ k_esr := 0 }.{ k_far := 0 }.{ k_elapsed_ns := l_elapsed L })
        else
          set_session (fun s => s.{ s_committed := false }) ;;
          ret (- EIO, c.{ k_esr := rg_esr r }.{ k_far := rg_far r }.{ k_elapsed_ns := l_elapsed L }).

(** The status of the probe and what it reports. *)
Definition ud_tlb_probe_call (p : ud_tlb_probe) : M (Z * ud_tlb_probe) :=
  s <- session ;;
  let p := mk_tlb_probe (t_a p) (t_b p) 0 0 0 0 0 0 0 0 (t_procedure p) (t_flush p) 0 0 in
  (if nz (t_flush p) then
     for_m (if t_procedure p =? 2 then 2 else 1) (fun d =>
       tlbi_asid (s_asid s).[if nz d then UD_LEAF else if t_procedure p =? 2 then UD_MIDDLE else UD_DIRECT])
   else ret tt) ;;
  let call := mk_call (t_a p) (t_b p) 0 0 0 0 (t_procedure p) 0 0 0 in
  '(rc, first) <- ud_run call false ;;
  let p := p.{ t_first_ns := k_elapsed_ns first }.{ t_first_result := k_result first }
    .{ t_first_esr := k_esr first }.{ t_first_far := k_far first }.{ t_first_cpu := k_cpu first } in
  if z0 rc then
    '(rc, second) <- ud_run call false ;;
    let p := p.{ t_second_ns := k_elapsed_ns second }.{ t_second_result := k_result second }
      .{ t_second_esr := k_esr second }.{ t_second_far := k_far second }.{ t_second_cpu := k_cpu second } in
    ret (if z0 rc && (k_cpu first !=? k_cpu second) then - EXDEV else rc, p)
  else ret (rc, p).

Definition ud_tlb_probe_handler (arg : Z) : M (Z * ud_tlb_probe) :=
  s <- session ;;
  fail_if (negb (s_committed s)) (- ENOTCONN) ;;
  p <- copy_struct L ud_tlb_probe arg ;;
  fail_if (((t_procedure p !=? 1) && (t_procedure p !=? 2)) || (t_flush p >? 1)) (- EINVAL) ;;
  '(rc, p) <- ud_tlb_probe_call p ;;
  fail_if (negb (l_copy_out L)) (- EFAULT) ;;
  ret (rc, p).

(** ** Routing services *)

Definition ud_social_base_entry (entry : Z) : Z :=
  if entry <? UD_DOMAINS then entry else if nz ((entry - UD_DOMAINS) .& 1) then UD_LEAF else UD_MIDDLE.

Definition ud_social_initial_regs (s : ud_session) (entry : Z) : ud_regs :=
  ud_initial_regs s (ud_social_base_entry entry).

Definition ud_social_root (s : ud_session) (entry : Z) : Z :=
  if entry <? UD_DOMAINS then domain_root s entry
  else (x_table_pa (e_dom (s_social_extra s) (entry - UD_DOMAINS))).[0] .|
       ((s_social_asid s).[entry - UD_DOMAINS] .<< 48).

(** The registers of a routing service: x0 points at the message. *)
Definition social_regs (s : ud_session) (entry : Z) : ud_regs :=
  let r := ud_social_initial_regs s entry in r.{ rg_x := setz (rg_x r) 0 (u64 ((rg_x r).[0] + US_MAPPED_OFFSET)) }.

Definition social_size (s : ud_session) (entry : Z) : Z :=
  if s_profile s =? UD_PROFILE_SOCIAL then (s_remote_words s).[ud_social_base_entry entry] * 4
  else service_size (ud_profile_service (s_profile s) entry).

Definition shared_request (type : Z) : bool :=
  (type =? US_SHARED_WRITE_REQ) || (type =? US_SHARED_READ_REQ) || (type =? US_SHARED_FETCH_ADD_REQ).

(** The type of a request agrees with its direction and the profile. *)
Definition social_type_ok (profile direction type : Z) : bool :=
  (type =? (if nz direction then US_USER_RESP else US_USER_REQ)) ||
  (type =? (if nz direction then US_HOME_RESP else US_HOME_REQ)) ||
  ((profile =? UD_PROFILE_SOCIAL_WRITE) && (direction =? US_FORWARD) && (type =? US_WRITE_REQ)) ||
  ((profile =? UD_PROFILE_SOCIAL_SHARED) && (direction =? US_FORWARD) && shared_request type).

(** Shared requests name only the value and the counter. *)
Definition shared_index_bad (m : us_message) : bool :=
  ((um_type m =? US_SHARED_WRITE_REQ) && (um_request m !=? US_SHARED_VALUE_INDEX)) ||
  ((um_type m =? US_SHARED_READ_REQ) && (um_request m !=? US_SHARED_VALUE_INDEX) &&
   (um_request m !=? US_SHARED_COUNTER_INDEX)) ||
  ((um_type m =? US_SHARED_FETCH_ADD_REQ) &&
   ((um_request m !=? US_SHARED_COUNTER_INDEX) || (um_value m !=? 1))).

Definition U32_MAX := 0xffffffff.

Definition social_refused (s : ud_session) (c : us_call) : bool :=
  let m := ul_message c in
  (ul_abi c !=? US_ABI) || (ul_direction c >? US_REVERSE) ||
  z0 (um_source m) || (um_source m >? U32_MAX) || z0 (um_value m) || (um_value m >? U32_MAX) ||
  (um_request m >? U32_MAX) ||
  negb (social_type_ok (s_profile s) (ul_direction c) (um_type m)) ||
  ((s_profile s =? UD_PROFILE_SOCIAL_SHARED) && shared_index_bad m) ||
  nz (um_status m) || nz (um_action m) || nz (um_target m) || nz (um_ticket m).

Definition wrong_service (s : ud_session) (type : Z) : bool :=
  (s_profile s =? UD_PROFILE_SOCIAL) &&
  (s_remote_service s !=?
   (if (type =? US_USER_REQ) || (type =? US_USER_RESP) then UD_SOCIAL_CODE_USER else UD_SOCIAL_CODE_HOME)).

(** The nginx the call goes through. *)
Definition social_nginx (s : ud_session) (c : us_call) : Z :=
  if three_nginx s then
    if ul_direction c =? US_FORWARD then us_select_nginx (u32 (um_request (ul_message c))) (s_social_nginx_count s)
    else (ul_domain c).[0]
  else 2.
Definition nginx_bad (s : ud_session) (nginx : Z) : bool :=
  three_nginx s && ((nginx <? US_NGINX_FIRST) || (nginx >=? US_NGINX_FIRST + s_social_nginx_count s)).

(** The two domains of the chain, in the order they are entered. *)
Definition social_chain (direction nginx : Z) : Z * Z :=
  if direction =? US_FORWARD
  then (UD_DIRECT, if nginx =? 2 then UD_MIDDLE else UD_DOMAINS + 2 * (nginx - 3))
  else (if nginx =? 2 then UD_LEAF else UD_DOMAINS + 2 * (nginx - 3) + 1, UD_QUERY).

(** Where the last service must have sent the message. *)
Definition final_action (direction : Z) : Z := if direction =? US_REVERSE then US_ACTION_CLIENT else US_ACTION_RPC.
Definition final_target (direction type : Z) : Z :=
  if direction =? US_REVERSE then 0
  else if type =? US_WRITE_REQ then 104
  else if shared_request type then 105
  else if type =? US_HOME_REQ then 103 else 102.

(** Fields of the call on the A-stack page. *)
Definition CALL_ENTRIES := 14%nat.
Definition CALL_DOMAIN := 15%nat.
Definition CALL_FAULT := 17%nat.
Definition CALL_TRANSITIONS := 18%nat.
Definition CALL_CPU := 19%nat.
Definition set_call (call : Z) (field : nat) (v : Z) : M unit := set_u32 (call + offsetof us_call field) v.

(** A service came back by its return trap. *)
Definition social_returned (r : ud_regs) (pc : Z) : bool := brk_trap r 0x4c0 && (rg_pc r =? pc).
Definition return_pc (s : ud_session) (entry : Z) : Z := u64 (UD_VA + social_size s entry - 4).

(** The status of the chain and the exit state of the last domain entered. *)
Definition social_fused (s : ud_session) (call first second nginx : Z) (input : us_message) (tcr : Z) :
    M (Z * ud_regs) :=
  c <- mem_struct us_call call ;;
  let gate := mk_gate (social_regs s first) (social_regs s second) (ud_social_root s first) (ud_social_root s second)
    0 0 (return_pc s first) (return_pc s second) 0 0 0 0 UDN_MODE_SOCIAL (s_args s).[0]
    (if ul_direction c =? US_REVERSE then 1 else nginx) in
  g <- ud_enter_nested fuel gate tcr ;;
  set_call call CALL_TRANSITIONS (ng_transitions g) ;;
  let r := if ng_domain g =? 2 then ng_leaf g else ng_middle g in
  if (ng_complete g !=? 1) || (ng_transitions g !=? 3) || (ng_domain g !=? 2) ||
     negb (social_returned r (ng_leaf_pc g))
  then ret (- EIO, r)
  else
    c <- mem_struct us_call call ;;
    let reverse := ul_direction c =? US_REVERSE in
    set_call call CALL_DOMAIN (if reverse then nginx else 1) ;;
    set_call call (S CALL_DOMAIN) (if reverse then 1 else nginx) ;;
    set_call call CALL_ENTRIES 2 ;;
    if (um_action (ul_message c) !=? final_action (ul_direction c)) ||
       (um_target (ul_message c) !=? final_target (ul_direction c) (um_type input))
    then ret (- EPROTO, r) else ret (0, r).

(** One domain of the chain, entered and left through the kernel. *)
Definition social_hop (s : ud_session) (call d : Z) (last : bool) (nginx : Z) (input : us_message) (tcr : Z) :
    M (Z * ud_regs) :=
  r <- ud_enter fuel (social_regs s d) (ud_social_root s d) tcr false ;;
  c <- mem_struct us_call call ;;
  set_call call CALL_TRANSITIONS (u32 (ul_transitions c + 2)) ;;
  if negb (social_returned r (return_pc s d)) then ret (- EIO, r)
  else
    let reverse := ul_direction c =? US_REVERSE in
    set_call call (if last then S CALL_DOMAIN else CALL_DOMAIN)
      (if reverse then (if last then 1 else nginx) else (if last then nginx else 1)) ;;
    set_call call CALL_ENTRIES (u32 (ul_entries c + 1)) ;;
    if (um_action (ul_message c) !=? (if last then final_action (ul_direction c) else US_ACTION_DOMAIN)) ||
       (um_target (ul_message c) !=?
        (if last then final_target (ul_direction c) (um_type input) else if reverse then 1 else nginx))
    then ret (- EPROTO, r) else ret (0, r).

(** Both domains in turn. *)
Definition social_legacy (s : ud_session) (call first second nginx : Z) (input : us_message) (tcr : Z) :
    M (Z * ud_regs) :=
  '(rc, r) <- social_hop s call first false nginx input tcr ;;
  if nz rc then ret (rc, r) else social_hop s call second true nginx input tcr.

(** The message comes back as it went in, but for the fields the request may change. *)
Definition restored (input result : us_message) : us_message :=
  let r := result.{ um_action := um_action input }.{ um_target := um_target input } in
  let r := if (um_type input =? US_WRITE_REQ) && (um_ticket r =? um_value input)
           then r.{ um_ticket := um_ticket input } else r in
  let r := if shared_request (um_type input) then r.{ um_ticket := um_ticket input } else r in
  if (um_type input =? US_SHARED_FETCH_ADD_REQ) && (um_status r =? EAGAIN)
  then r.{ um_status := um_status input } else r.
Definition message_changed (input result : us_message) : bool :=
  ((um_type input =? US_SHARED_WRITE_REQ) && (um_ticket result !=? um_value input)) ||
  negb (bool_decide (restored input result = input)).

(** Fields of the A-stack header. *)
Definition set_mapped64 (m : Z) (field : nat) (v : Z) : M unit := set_u64 (m + offsetof ud_mapped field) v.
Definition set_mapped32 (m : Z) (field : nat) (v : Z) : M unit := set_u32 (m + offsetof ud_mapped field) v.
Definition MAPPED_COMPLETION := 3%nat.
Definition MAPPED_ELAPSED := 4%nat.
Definition MAPPED_ESR := 5%nat.
Definition MAPPED_FAR := 6%nat.
Definition MAPPED_PROCEDURE := 7%nat.
Definition MAPPED_TRANSITIONS := 8%nat.
Definition MAPPED_CPU := 9%nat.
Definition MAPPED_STATUS := 10%nat.

Definition ud_run_social : M Z :=
  s <- session ;;
  let m := (s_args s).[0] in
  let call := m + US_MAPPED_OFFSET in
  c <- mem_struct us_call call ;;
  let input := ul_message c in
  let nginx := social_nginx s c in
  if social_refused s c then ret (- EINVAL)
  else if wrong_service s (um_type input) then ret (- EPROTONOSUPPORT)
  else if nginx_bad s nginx then ret (- EINVAL)
  else
    let '(first, second) := social_chain (ul_direction c) nginx in
    set_call call CALL_ENTRIES 0 ;; set_call call CALL_TRANSITIONS 0 ;; set_call call CALL_FAULT 0 ;;
    set_call call CALL_DOMAIN 0 ;; set_call call (S CALL_DOMAIN) 0 ;;
    set_mapped64 m MAPPED_ESR 0 ;; set_mapped64 m MAPPED_FAR 0 ;; set_mapped64 m MAPPED_ELAPSED 0 ;;
    rc <- attempt (ud_mapping L false) ;;
    if nz rc then ret rc
    else if nz (ud_supported L) then ret (ud_supported L)
    else
      let tcr := shadow_tcr (l_tcr L) in
      set_call call CALL_CPU (l_cpu L) ;;
      '(rc, r) <-
        (if s_nested_path s =? UD_NESTED_FUSED then social_fused s call first second nginx input tcr
         else social_legacy s call first second nginx input tcr) ;;
      result <- mem_struct us_message call ;;
      let rc := if nz rc then rc else if message_changed input result then - EPROTO else 0 in
      (if nz rc then
         set_mapped64 m MAPPED_ESR (rg_esr r) ;; set_mapped64 m MAPPED_FAR (rg_far r) ;;
         set_call call CALL_FAULT (u32 (rg_vector r)) ;;
         set_session (fun s => s.{ s_committed := false })
       else ret tt) ;;
      set_mapped64 m MAPPED_ELAPSED (l_elapsed L) ;;
      ret (if z0 rc && (um_status result =? EAGAIN) then - EAGAIN else rc).

(** ** The dispatcher *)

(** [_IOC(dir, 'U', nr, size)] *)
Definition IOC (dir nr size : Z) : Z := (dir .<< 30) .| (size .<< 16) .| (0x55 .<< 8) .| nr.
Definition IO (nr : Z) : Z := IOC 0 nr 0.
Definition IOW (nr size : Z) : Z := IOC 1 nr size.
Definition IOR (nr size : Z) : Z := IOC 2 nr size.
Definition IOWR (nr size : Z) : Z := IOC 3 nr size.
Definition UD_PREPARE := IOWR 0x80 (sizeof ud_prepare).
Definition UD_COMMIT := IO 0x81.
Definition UD_CALL := IOWR 0x82 (sizeof ud_call).
Definition UD_MAPPED_CALL := IO 0x83.
Definition UD_TLB_PROBE := IOWR 0x84 (sizeof ud_tlb_probe).
Definition UD_SET_NESTED_PATH := IOW 0x86 4.
Definition UD_POOL_PREPARE := IOWR 0x87 (sizeof ud_pool_prepare).
Definition UD_CONNECTION_INFO := IOR 0x88 32.
Definition UD_SET_PROFILE := IOW 0x89 4.
Definition UD_SOCIAL_CALL := IO 0x8a.
Definition UD_SET_CODE_MODE := IOW 0x8b 4.
Definition UD_SOCIAL_EXTRA_INFO := IOR 0x8c (sizeof ud_social_extra).

(** What [copy_to_user] hands back. *)
Inductive reply :=
| RPrepare (p : ud_prepare)
| RPool (q : ud_pool_prepare)
| RCall (c : ud_call)
| RProbe (p : ud_tlb_probe)
| RExtra (e : ud_social_extra)
| RInfo (i : ud_connection_info).

(** The value a handler returns; a domain that is still running is no value. *)
Definition answer {A} (m : M A) (f : A -> Z * option reply) : M (Z * option reply) := fun k =>
  match m k with
  | (inl a, k') => (inl (f a), k')
  | (inr e, k') => (if e =? EL0_RUNNING then inr e else inl (e, None), k')
  end.
Definition done_ {A} (_ : A) : Z * option reply := (0, None).
Definition with_ {A} (build : A -> reply) (a : A) : Z * option reply := (0, Some (build a)).

(** [copy_from_user] of one word. *)
Definition user_u32 (va : Z) : M (option Z) :=
  k <- get ;; ret (if readable L va 4 then Some (ld32 (user_view L (k_mem k)) va) else None).

Definition ud_social_call : M Z :=
  s <- session ;;
  fail_if (negb (s_committed s) || (s_profile s =? UD_PROFILE_MICRO)) (- ENOTCONN) ;;
  let m := (s_args s).[0] in
  rc <- ud_run_social ;;
  set_mapped32 m MAPPED_STATUS (u32 (- rc)) ;;
  set_session (fun s => s.{ s_completion := u64 (s_completion s + 1) }) ;;
  s <- session ;;
  set_mapped64 m MAPPED_COMPLETION (s_completion s) ;;
  ret rc.

Definition ud_user_call (arg : Z) : M (Z * ud_call) :=
  call <- copy_struct L ud_call arg ;;
  let call := mk_call (k_a call) (k_b call) 0 0 0 0 (k_procedure call) 0 0 (k_reserved call) in
  '(rc, call) <- ud_run call false ;;
  fail_if (negb (l_copy_out L)) (- EFAULT) ;;
  ret (rc, call).

Definition ud_mapped_call (arg : Z) : M Z :=
  s <- session ;;
  fail_if (negb (s_committed s) || (arg <? 1) || (arg >? 3)) (- EINVAL) ;;
  let d := if arg =? 1 then UD_DIRECT else if arg =? 2 then UD_MIDDLE else UD_QUERY in
  let m := (s_args s).[d] in
  a <- mem_u64 m ;;
  b <- mem_u64 (m + 8) ;;
  '(rc, call) <- ud_run (mk_call a b 0 0 0 0 arg 0 0 0) true ;;
  set_mapped64 m MAPPED_ELAPSED (k_elapsed_ns call) ;;
  set_mapped64 m MAPPED_ESR (k_esr call) ;; set_mapped64 m MAPPED_FAR (k_far call) ;;
  set_mapped32 m MAPPED_PROCEDURE (u32 arg) ;; set_mapped32 m MAPPED_TRANSITIONS (k_transitions call) ;;
  set_mapped32 m MAPPED_CPU (k_cpu call) ;; set_mapped32 m MAPPED_STATUS (u32 (- rc)) ;;
  set_session (fun s => s.{ s_completion := u64 (s_completion s + 1) }) ;;
  s <- session ;;
  set_mapped64 m MAPPED_COMPLETION (s_completion s) ;;
  ret rc.

Definition ud_ioctl (cmd arg : Z) : M (Z * option reply) :=
  s <- session ;;
  if negb (l_capable L) || (l_current L !=? s_owner s) || (l_current_mm L !=? s_mm s) then ret (- EPERM, None)
  else if l_interrupted L then ret (- ERESTARTSYS, None)
  else if cmd =? UD_SET_CODE_MODE then answer (v <- user_u32 arg ;; ud_set_code_mode L v) done_
  else if cmd =? UD_SET_PROFILE then answer (v <- user_u32 arg ;; ud_set_profile v) done_
  else if cmd =? UD_SOCIAL_CALL then answer ud_social_call (fun rc => (rc, None))
  else if cmd =? UD_POOL_PREPARE then answer (ud_prepare_pool L arg) (with_ RPool)
  else if cmd =? UD_SOCIAL_EXTRA_INFO then answer (ud_social_extra_info L) (with_ RExtra)
  else if cmd =? UD_CONNECTION_INFO then answer (ud_get_connection_info L) (with_ RInfo)
  else if cmd =? UD_SET_NESTED_PATH then answer (v <- user_u32 arg ;; ud_set_nested_path v) done_
  else if cmd =? UD_PREPARE then answer (ud_prepare_session L arg) (with_ RPrepare)
  else if cmd =? UD_COMMIT then answer (ud_commit L) done_
  else if cmd =? UD_TLB_PROBE then answer (ud_tlb_probe_handler arg) (fun '(rc, p) => (rc, Some (RProbe p)))
  else if cmd =? UD_CALL then answer (ud_user_call arg) (fun '(rc, c) => (rc, Some (RCall c)))
  else if cmd =? UD_MAPPED_CALL then answer (ud_mapped_call arg) (fun rc => (rc, None))
  else ret (- ENOTTY, None).
End calls.
