(* ===== verification/Lifecycle.v ===== *)
(** * The life of a session

    Every handler of the device, whatever it answers, keeps the session's
    invariant and moves the slot table only as [PoolSlots] allows.  Calls into the
    domains change memory, leave TLB entries under the session's own ASIDs, and
    may end the connection. *)

From S2P Require Import Prelude Monad CMem Abi Layout PageWalk PoolSlots Arm64 RemoteCode Social Services Pool Kernel KernelLogic Session Ledger Device Commit Gate Run.

(** ** What a call can change *)

Section calling.
Context (k : kstate).
Notation s := (k_s k).

Definition calling (k' : kstate) : Prop :=
  exists m st c n, k' = k.{ k_mem := m }.{ k_stale := st }.{ k_s := s.{ s_committed := c }.{ s_completion := n } } /\
    (forall a, a ∈ st -> a ∈ k_stale k \/ a ∈ claims one (asid_array s)) /\
    (c = true -> s_committed s = true).

Lemma calling_start : calling k.
Proof using Type.
  exists (k_mem k), (k_stale k), (s_committed s), (s_completion s). split; [|auto].
  by destruct k as [[] ? ? ? ? ? ? ? ? ?].
Qed.
Lemma calling_mem k' m : calling k' -> calling k'.{ k_mem := m }.
Proof using Type. intros (m0 & st & c & n & -> & H). by exists m, st, c, n. Qed.
Lemma calling_stale k' m a :
  calling k' -> a ∈ claims one (asid_array s) -> calling (k'.{ k_mem := m }.{ k_stale := a :: k_stale k' }).
Proof using Type.
  intros (m0 & st & c & n & -> & Hst & Hc) Ha. exists m, (a :: st), c, n. split; [done|split; [|done]].
  intros x [->|Hx]%elem_of_cons; auto.
Qed.
Lemma calling_tlbi k' a : calling k' -> calling k'.{ k_stale := filter (fun x => x <> a) (k_stale k') }.
Proof using Type.
  intros (m & st & c & n & -> & Hst & Hc). eexists m, _, c, n. split; [done|split; [|done]].
  intros x. rewrite list_elem_of_filter. intros [_ ?]. by apply Hst.
Qed.
Lemma calling_end k' : calling k' -> calling k'.{ k_s := (k_s k').{ s_committed := false } }.
Proof using Type. intros (m & st & c & n & -> & Hst & Hc). by exists m, st, false, n. Qed.
Lemma calling_completion k' v : calling k' -> calling k'.{ k_s := (k_s k').{ s_completion := v } }.
Proof using Type. intros (m & st & c & n & -> & Hst & Hc). by exists m, st, c, v. Qed.
Lemma calling_session k' : calling k' -> s_prepared (k_s k') = s_prepared s /\ s_args (k_s k') = s_args s.
Proof using Type. by intros (m & st & c & n & -> & _). Qed.

Lemma calling_inv k' : session_inv k -> calling k' -> handled k k' /\ s_prepared (k_s k') = s_prepared s.
Proof using Type.
  intros [Hled Hidle Hok ? ? ? ? ?] (m & st & c & n & -> & Hst & Hc). split; [|done].
  split; [|by apply pool_moves_refl]. constructor; simpl; auto.
  - destruct Hled as [Hs Hac]. split; [by destruct Hs; constructor|]. destruct Hac; constructor; simpl; try done.
    intros a [Ha|Ha]%Hst; [by apply ac_stale|done].
  - intros Hp. exact (f_equal (fun s => s.{ s_committed := c }.{ s_completion := n }) (Hidle Hp)).
  - intros Hp. destruct (Hok Hp) as [Hv [] Hx Hl]. constructor; simpl; try done.
    intros H3. destruct (Hx H3). by constructor.
Qed.
End calling.

(** ** Entering domains *)

Lemma root_asid t a : 0 <= t < 2 ^ 48 -> 0 <= a -> (t .| (a .<< 48)) .>> 48 = a.
Proof.
  intros Ht Ha. rewrite Z.shiftr_lor, Z.shiftr_shiftl_l by lia. rewrite Z.shiftr_div_pow2, Z.div_small by lia.
  by rewrite Z.lor_0_l, Z.shiftl_0_r.
Qed.

Lemma claims_nonzero l a : a ∈ l -> a <> 0 -> a ∈ claims one l.
Proof.
  intros Ha Hne. unfold claims. apply list_elem_of_In, List.in_concat. exists (one a). split.
  - apply list_elem_of_In, list_elem_of_fmap. eauto.
  - unfold one, z0. destruct (Z.eqb_spec a 0); [done|]. by left.
Qed.

Section composing.
Context (fuel : nat) (L : linux) (k : kstate).

(** A part of a call. *)
Definition calls {A} (m : M A) : Prop := forall k', calling k k' -> wp m (fun _ => calling k) (fun _ => calling k) k'.

(** A root that carries one of the session's ASIDs. *)
Definition own_root (root : Z) : Prop := (root .>> 48) ∈ claims one (asid_array (k_s k)).

Lemma el0_calls tcr root r : own_root root -> calls (el0 fuel tcr root r).
Proof using Type.
  intros Hroot k' Hk'. unfold el0. wp_go; [by apply calling_stale|done].
Qed.

Lemma mapping_calls : calls (ud_mapping L false).
Proof using Type.
  intros k' Hk'. eapply (wp_mono _ (fun _ k1 => k1 = k') _ (fun _ k1 => k1 = k')); [|by intros ? ? ->..].
  assert (Himp : forall o sl rec record, wp (import L o sl false rec record) (fun _ k1 => k1 = k') (fun _ k1 => k1 = k') k').
  { intros. unfold import, ud_import_pa. wp_go; done. }
  assert (Htab : forall f, (forall d l, wp (f d l) (fun _ k1 => k1 = k') (fun _ k1 => k1 = k') k') ->
    wp (for_m 4 (fun d => for_m 4 (f d))) (fun _ k1 => k1 = k') (fun _ k1 => k1 = k') k').
  { intros f Hf. apply (wp_for (fun _ k1 => k1 = k')); [done|done| |by intros ? ->]. intros d ? _ ->.
    apply (wp_for (fun _ k1 => k1 = k')); [done|done| |by intros ? ->]. by intros l ? _ ->. }
  unfold ud_mapping. apply wp_bind, wp_session, wp_bind. eapply wp_mono; [by apply Htab; intros; apply Himp| |done].
  intros _ ? ->. apply wp_bind. eapply wp_mono; [by apply Himp| |done]. intros _ ? ->. apply wp_bind.
  eapply (wp_mono _ (fun _ k1 => k1 = k')); [case_if; [by apply Himp|by apply wp_ret]| |done]. intros _ ? ->.
  case_if; [by apply Htab; intros; apply Himp|by apply wp_ret].
Qed.

Lemma attempt_calls m : calls m -> calls (attempt m).
Proof using Type.
  intros Hm k' Hk'. specialize (Hm k' Hk'). unfold wp, attempt in *. by destruct (m k') as [[|] ?].
Qed.

(** Composition. *)
Lemma calls_ret {A} (a : A) : calls (ret a).
Proof using Type. intros k' Hk'. by apply wp_ret. Qed.
Lemma calls_bind {A B} (m : M A) (f : A -> M B) : calls m -> (forall a, calls (f a)) -> calls (bind m f).
Proof using Type. intros Hm Hf k' Hk'. apply wp_bind. eapply wp_mono; [by apply Hm|intros a k1 H1; by apply Hf|done]. Qed.
Lemma calls_fail_if b e : calls (fail_if b e).
Proof using Type. intros k' Hk'. by apply wp_fail_if. Qed.
Lemma calls_session : calls session.
Proof using Type. intros k' Hk'. by apply wp_session. Qed.
Lemma calls_mem f : calls (k <- get ;; put k.{ k_mem := f k }).
Proof using Type. intros k' Hk'. wp_go. by apply calling_mem. Qed.
Lemma calls_read {A} (f : kstate -> A) : calls (k <- get ;; ret (f k)).
Proof using Type. intros k' Hk'. by wp_go. Qed.
Lemma calls_tlbi a : calls (tlbi_asid a).
Proof using Type. intros k' Hk'. unfold tlbi_asid. wp_go. by apply calling_tlbi. Qed.
Lemma calls_for n f : (forall d, calls (f d)) -> calls (for_m n f).
Proof using Type.
  intros Hf. unfold for_m. induction (seqZ 0 n) as [|d l IH]; [apply calls_ret|].
  cbn [each]. by apply calls_bind.
Qed.
Lemma calls_end : calls (set_session (fun s => s.{ s_committed := false })).
Proof using Type. intros k' Hk'. apply wp_set_session. by apply calling_end. Qed.
Lemma calls_completion f : calls (set_session (fun s => s.{ s_completion := f s })).
Proof using Type. intros k' Hk'. apply wp_set_session. by apply calling_completion. Qed.
Lemma calls_copy_struct A `{CStruct A} va : calls (copy_struct L A va).
Proof using Type. intros k' Hk'. by apply wp_copy_struct. Qed.

End composing.

(** Take a part of a call apart. *)
Ltac calls_step :=
  lazymatch goal with
  | |- calls _ (ret _) => apply calls_ret
  | |- calls _ session => apply calls_session
  | |- calls _ (fail_if _ _) => apply calls_fail_if
  | |- calls _ (tlbi_asid _) => apply calls_tlbi
  | |- calls _ (copy_struct _ _ _) => apply calls_copy_struct
  | |- calls _ (el0 _ _ _ _) => apply el0_calls
  | |- calls _ (attempt _) => apply attempt_calls, mapping_calls
  | |- calls _ (set_session _) => first [apply calls_end | apply calls_completion]
  | |- calls _ (mem_u64 _) => apply calls_read
  | |- calls _ (mem_u32 _) => apply calls_read
  | |- calls _ (mem_struct _ _) => apply calls_read
  | |- calls _ (set_u64 _ _) => apply calls_mem
  | |- calls _ (set_u32 _ _) => apply calls_mem
  | |- calls _ (mem_fill _ _ _) => apply calls_mem
  | |- calls _ (set_call _ _ _) => apply calls_mem
  | |- calls _ (set_mapped64 _ _ _) => apply calls_mem
  | |- calls _ (set_mapped32 _ _ _) => apply calls_mem
  | |- calls _ (bind _ _) => apply calls_bind
  | |- calls _ (if ?b then _ else _) => destruct b
  | |- calls _ (match ?x with _ => _ end) => destruct x
  | |- calls _ (let _ := _ in _) => cbv zeta
  | |- forall _, _ => intros ?
  end.
Ltac calls_go := repeat calls_step; try assumption.

Section entering.
Context (fuel : nat) (L : linux) (k : kstate).
Hypothesis (Hinv : session_inv k) (Hprep : s_prepared (k_s k) = true).
Notation s := (k_s k).
Notation calls := (calls k).
Notation own_root := (own_root k).

Lemma own_asid i : 0 <= i < 8 -> (asid_array s).[i] <> 0 -> (asid_array s).[i] ∈ claims one (asid_array s).
Proof using Hinv.
  intros Hi Hne. apply claims_nonzero; [|done]. apply list_elem_of_In, nth_In.
  destruct (array_lengths _ (proj1 (si_ledger _ Hinv))) as (_ & -> & _). lia.
Qed.
Lemma asid_range i : 0 <= i < 8 -> 0 <= (asid_array s).[i].
Proof using Hinv.
  intros Hi. destruct (array_lengths _ (proj1 (si_ledger _ Hinv))) as (_ & Hl & _).
  pose proof (ac_range _ _ _ _ _ (proj2 (si_ledger _ Hinv))) as Hr. rewrite List.Forall_forall in Hr.
  apply (Hr (asid_array s).[i]). apply nth_In. lia.
Qed.

Lemma domain_root_own d : 0 <= d < 4 -> own_root (domain_root s d).
Proof using Hinv Hprep.
  intros Hd. pose proof (si_ready _ Hinv Hprep) as Hok. pose proof (proj1 (si_ledger _ Hinv)) as Hs.
  destruct (asid_array_at _ _ Hs Hd) as (Ea & _). pose proof (asid_range d ltac:(lia)) as Hr. rewrite Ea in Hr.
  assert (Ht : 0 <= c_table_pa (p_contract (s_p s)) d 0 < 2 ^ 48).
  { pose proof (pa_valid_lt _ (table_u64 _ _ (rc_contract _ _ (po_recorded _ Hok)) Hd 0 ltac:(lia))
      (cv_table _ (proj1 (ud_contract_valid_spec _) (po_contract _ Hok)) d 0 Hd ltac:(lia))). lia. }
  unfold own_root, domain_root. rewrite root_asid by done. rewrite <- Ea. apply own_asid; [lia|].
  rewrite Ea. by apply (rc_asid _ _ (po_recorded _ Hok)).
Qed.

Lemma social_root_own entry :
  0 <= entry < 4 \/ 4 <= entry < 8 /\ three_nginx s = true -> own_root (ud_social_root s entry).
Proof using Hinv Hprep.
  unfold ud_social_root, UD_DOMAINS. intros [Hd|[Hd H3]].
  - replace (entry <? 4) with true by lia. by apply domain_root_own.
  - replace (entry <? 4) with false by lia. pose proof (si_ready _ Hinv Hprep) as Hok.
    pose proof (proj1 (si_ledger _ Hinv)) as Hs. assert (Hj : 0 <= entry - 4 < 4) by lia. revert Hj. generalize (entry - 4) as j.
    intros j Hj. destruct (asid_array_at _ _ Hs Hj) as (_ & Ea & _).
    pose proof (asid_range (4 + j) ltac:(lia)) as Hr. rewrite Ea in Hr.
    destruct (extra_dom_ok _ _ (sz_extra _ Hs) Hj) as [([Hl _] & _ & _) Ht]. rewrite List.Forall_forall in Ht.
    unfold own_root. rewrite root_asid; [|by apply Ht, nth_In; rewrite Hl; simpl; lia|done].
    rewrite <- Ea. apply own_asid; [lia|]. rewrite Ea. by apply (xr_asid _ _ (po_extra _ Hok H3)).
Qed.

Lemma ud_enter_calls r root tcr save : own_root root -> calls (ud_enter fuel r root tcr save).
Proof using Type. intros Hroot. unfold ud_enter. calls_go. Qed.

Lemma udn_middle_return_calls g tcr : own_root (ng_middle_root g) -> calls (udn_middle_return fuel tcr g).
Proof using Type. intros Hm. unfold udn_middle_return. apply calls_bind; [by apply el0_calls|]. intros []. apply calls_ret. Qed.

Lemma udn_leaf_calls g tcr :
  own_root (ng_middle_root g) -> own_root (ng_leaf_root g) -> calls (udn_leaf fuel tcr g).
Proof using Type.
  intros Hm Hl. unfold udn_leaf. apply calls_bind; [by apply el0_calls|]. intros [why st]. case_if; [|apply calls_ret].
  case_if; [|apply calls_ret]. apply calls_bind; [apply calls_read|]. intros v. by apply udn_middle_return_calls.
Qed.

Lemma ud_enter_nested_calls g tcr :
  own_root (ng_middle_root g) -> own_root (ng_leaf_root g) -> calls (ud_enter_nested fuel g tcr).
Proof using Type.
  intros Hm Hl. unfold ud_enter_nested. apply calls_bind; [by apply el0_calls|]. intros [why st].
  case_if; [|apply calls_ret]. case_if.
  - do 3 (apply calls_bind; [apply calls_mem|]; intros _). by apply udn_leaf_calls.
  - do 2 (apply calls_bind; [apply calls_read|]; intros ?). case_if; [by apply udn_leaf_calls|apply calls_ret].
Qed.

Lemma run_fused_calls tcr : calls (ud_run_fused fuel s tcr).
Proof using Hinv Hprep.
  unfold ud_run_fused. apply calls_bind; [apply ud_enter_nested_calls; by apply domain_root_own|]. calls_go.
Qed.

Lemma run_legacy_calls d tcr : 0 <= d < 4 -> calls (run_legacy fuel s d tcr).
Proof using Hinv Hprep.
  intros Hd. unfold run_legacy.
  apply calls_bind; [by apply ud_enter_calls, domain_root_own|]. calls_go.
  - by apply ud_enter_calls, domain_root_own.
  - by apply ud_enter_calls, domain_root_own.
Qed.

Lemma social_fused_calls call first second nginx input tcr :
  own_root (ud_social_root s first) -> own_root (ud_social_root s second) ->
  calls (social_fused fuel s call first second nginx input tcr).
Proof using Type.
  intros H1 H2. unfold social_fused. calls_go. by apply ud_enter_nested_calls.
Qed.

Lemma social_legacy_calls call first second nginx input tcr :
  own_root (ud_social_root s first) -> own_root (ud_social_root s second) ->
  calls (social_legacy fuel s call first second nginx input tcr).
Proof using Type.
  intros H1 H2. unfold social_legacy, social_hop. calls_go; by apply ud_enter_calls.
Qed.
End entering.

(** ** Whole calls *)

Lemma calling_trans k1 k2 k3 : calling k1 k2 -> calling k2 k3 -> calling k1 k3.
Proof.
  intros (m & st & c & n & -> & Hst & Hc) (m' & st' & c' & n' & -> & Hst' & Hc').
  exists m', st', c', n'. split; [done|]. split; [|auto]. intros a [Ha|Ha]%Hst'; auto.
Qed.

(** A handler that starts in any state of the session. *)
Lemma calls_handler {A} (m : M A) k :
  (forall k, session_inv k -> wp m (fun _ => calling k) (fun _ => calling k) k) -> session_inv k -> calls k m.
Proof.
  intros Hm Hinv k' Hk'. destruct (calling_inv _ _ Hinv Hk') as [[Hinv' _] _].
  eapply wp_mono; [by apply Hm| |]; intros; by eapply calling_trans.
Qed.

Ltac start := apply wp_bind, wp_session; cbv zeta.

Section handlers.
Context (fuel : nat) (L : linux).



Lemma wp_ud_run c mapped k :
  session_inv k -> wp (ud_run fuel L c mapped) (fun _ => calling k) (fun _ => calling k) k.
Proof using Type.
  intros Hinv. pose proof (calling_start k) as Hk. unfold ud_run. start.
  case_if; [by apply wp_ret|]. destruct (call_refused (k_s k) c) eqn:Href; [by apply wp_ret|].
  assert (Hp : s_prepared (k_s k) = true).
  { unfold call_refused in Href. bprop. by apply (si_committed _ Hinv). }
  assert (Hd : 0 <= call_domain c < 4) by (unfold call_domain; repeat case_if; done).
  match goal with |- wp ?m _ _ _ => enough (H : calls k m) by by apply H end.
  apply calls_bind; [apply attempt_calls, mapping_calls|]. intros rc. case_if; [apply calls_ret|].
  apply calls_bind; [case_if; calls_go|]. intros _. apply calls_bind; [apply calls_mem|]. intros _.
  case_if; [apply calls_ret|]. apply calls_bind.
  - case_if; [by apply run_fused_calls|by apply run_legacy_calls].
  - intros [[r n] ok]. calls_go.
Qed.
Lemma ud_run_calls c mapped k : session_inv k -> calls k (ud_run fuel L c mapped).
Proof using Type. apply calls_handler. apply wp_ud_run. Qed.

Lemma wp_ud_user_call arg k :
  session_inv k -> wp (ud_user_call fuel L arg) (fun _ => calling k) (fun _ => calling k) k.
Proof using Type.
  intros Hinv. match goal with |- wp ?m _ _ _ => enough (H : calls k m) by by apply H, calling_start end.
  unfold ud_user_call. calls_go. by apply ud_run_calls.
Qed.

Lemma wp_ud_mapped_call arg k :
  session_inv k -> wp (ud_mapped_call fuel L arg) (fun _ => calling k) (fun _ => calling k) k.
Proof using Type.
  intros Hinv. match goal with |- wp ?m _ _ _ => enough (H : calls k m) by by apply H, calling_start end.
  unfold ud_mapped_call. calls_go. by apply ud_run_calls.
Qed.

Lemma wp_ud_tlb_probe arg k :
  session_inv k -> wp (ud_tlb_probe_handler fuel L arg) (fun _ => calling k) (fun _ => calling k) k.
Proof using Type.
  intros Hinv. match goal with |- wp ?m _ _ _ => enough (H : calls k m) by by apply H, calling_start end.
  unfold ud_tlb_probe_handler, ud_tlb_probe_call. calls_go; try (by apply ud_run_calls).
  apply calls_for. intros d. apply calls_tlbi.
Qed.

(** The domains of a routing chain are the session's own. *)
Lemma social_chain_own k c nginx :
  session_inv k -> s_prepared (k_s k) = true -> nginx = social_nginx (k_s k) c -> nginx_bad (k_s k) nginx = false ->
  let '(first, second) := social_chain (ul_direction c) nginx in
  own_root k (ud_social_root (k_s k) first) /\ own_root k (ud_social_root (k_s k) second).
Proof using Type.
  intros Hinv Hp Hn Hb. unfold social_chain.
  assert (Hr : nginx = 2 \/ (nginx = 3 \/ nginx = 4) /\ three_nginx (k_s k) = true).
  { unfold nginx_bad in Hb. unfold social_nginx in Hn. destruct (three_nginx (k_s k)) eqn:H3; [|by left].
    simpl in Hb. unfold three_nginx in H3. bprop. rewrite H0 in *. unfold US_NGINX_FIRST in *. lia. }
  unfold UD_DIRECT, UD_MIDDLE, UD_LEAF, UD_QUERY, UD_DOMAINS.
  case_if; (split; apply social_root_own; try done; [..]).
  all: try (left; lia). all: destruct Hr as [->|[[-> | ->] H3]]; simpl; try (left; lia); right; (split; [lia|done]).
Qed.

Lemma wp_ud_run_social k :
  session_inv k -> s_prepared (k_s k) = true ->
  wp (ud_run_social fuel L) (fun _ => calling k) (fun _ => calling k) k.
Proof using Type.
  intros Hinv Hp. pose proof (calling_start k) as Hk. unfold ud_run_social. start.
  apply wp_bind, wp_bind, wp_get, wp_ret. set (c := ld_struct us_call _ _). cbv beta zeta.
  case_if; [by apply wp_ret|]. case_if; [by apply wp_ret|].
  destruct (nginx_bad (k_s k) (social_nginx (k_s k) c)) eqn:Hb; [by apply wp_ret|].
  pose proof (social_chain_own k c _ Hinv Hp eq_refl Hb) as Hown. destruct (social_chain _ _) as [first second].
  destruct Hown as [H1 H2]. match goal with |- wp ?m _ _ _ => enough (H : calls k m) by by apply H end.
  calls_go; [by apply social_fused_calls|by apply social_legacy_calls].
Qed.

Lemma wp_ud_social_call k :
  session_inv k -> wp (ud_social_call fuel L) (fun _ => calling k) (fun _ => calling k) k.
Proof using Type.
  intros Hinv. pose proof (calling_start k) as Hk. unfold ud_social_call. start.
  apply wp_bind, wp_fail_if; intros Hc; [done|]. bprop.
  apply wp_bind. eapply wp_mono; [apply wp_ud_run_social; [done|by apply (si_committed _ Hinv)]| |done].
  intros rc k' Hk'. match goal with |- wp ?m _ _ _ => enough (H' : calls k m) by by apply H' end. calls_go.
Qed.
End handlers.

(** ** The dispatcher *)

Section dispatch.
Context (fuel : nat) (L : linux) (k : kstate).
Hypothesis (HL : linux_ok L) (Hinv : session_inv k).

Lemma handled_same : handled k k.
Proof using Hinv. split; [done|by apply pool_moves_refl]. Qed.
Lemma calling_handled k' : calling k k' -> handled k k'.
Proof using Hinv. intros H. by apply calling_inv. Qed.

(** Changing a setting of an idle session. *)
Lemma wp_ud_set_code_mode mode : wp (ud_set_code_mode L mode) (fun _ => handled k) (fun _ => handled k) k.
Proof using Hinv.
  pose proof handled_same as Hk. unfold ud_set_code_mode. start. apply wp_bind, wp_fail_if; intros Hp; [done|].
  destruct mode as [mode|]; [|by apply wp_raise]. do 3 (apply wp_bind, wp_fail_if; intros ?; [done|]).
  apply wp_set_session. split; [|by apply pool_moves_refl]. destruct Hinv. bprop.
  constructor; simpl; try congruence; try done.
  - ledger_keep si_ledger.
  - intros _. exact (f_equal (fun s => s.{ s_code_mode := mode }) (si_idle Hp)).
  - intros ->. simpl in *. destruct_or!; bprop; done.
  - intros ->. simpl in *. destruct_or!; bprop; done.
Qed.

Lemma wp_ud_set_profile profile : wp (ud_set_profile profile) (fun _ => handled k) (fun _ => handled k) k.
Proof using Hinv.
  pose proof handled_same as Hk. unfold ud_set_profile. start. apply wp_bind, wp_fail_if; intros Hp; [done|].
  destruct profile as [profile|]; [|by apply wp_raise]. do 2 (apply wp_bind, wp_fail_if; intros ?; [done|]).
  apply wp_set_session. split; [|by apply pool_moves_refl]. destruct Hinv. bprop.
  constructor; simpl; try congruence; try done.
  - ledger_keep si_ledger.
  - intros _. exact (f_equal (fun s => s.{ s_profile := profile }) (si_idle Hp)).
  - intros E. rewrite E in *. destruct_or!; bprop; done.
  - intros E. rewrite E in *. destruct_or!; bprop; done.
Qed.

Lemma wp_ud_set_nested_path path : wp (ud_set_nested_path path) (fun _ => handled k) (fun _ => handled k) k.
Proof using Hinv.
  pose proof handled_same as Hk. unfold ud_set_nested_path. start. apply wp_bind, wp_fail_if; intros Hp; [done|].
  destruct path as [path|]; [|by apply wp_raise]. apply wp_bind, wp_fail_if; intros ?; [done|].
  apply wp_set_session. split; [|by apply pool_moves_refl]. destruct Hinv.
  constructor; simpl; try congruence; try done.
  - ledger_keep si_ledger.
  - intros _. exact (f_equal (fun s => s.{ s_nested_path := path }) (si_idle Hp)).
Qed.

Lemma wp_ud_commit_handled : wp (ud_commit L) (fun _ => handled k) (fun _ => handled k) k.
Proof using Hinv.
  assert (Hframe : forall k', framed k k' -> handled k k' /\ k_s k' = k_s (at_ k (k_mem k') (s_initial (k_s k')) (s_remote_words (k_s k')))).
  { intros k' (m & i & w & -> & Hi & Hw). split; [|by destruct (k_s k)]. split; [|by apply pool_moves_refl].
    destruct Hinv as [Hled Hidle Hok ? ? ? ? ?]. destruct (proj1 Hled). constructor; simpl; auto.
    - ledger_keep Hled; congruence.
    - intros Hp. exact (f_equal (fun s => s.{ s_initial := i }.{ s_remote_words := w }) (Hidle Hp)).
    - intros Hp. destruct (Hok Hp) as [Hv [] Hx Hl]. constructor; simpl; try done. intros H3. destruct (Hx H3). by constructor. }
  apply (wp_commit_frame L k); [intros e k' Hf; by apply Hframe|].
  intros k' Hf Hp. apply Hframe in Hf as [[Hi Hm] Hs].
  assert (Hp' : s_prepared (k_s k') = true) by by rewrite Hs.
  split; [|eapply pool_moves_trans; [exact Hm|by apply pool_moves_refl]].
  destruct Hi as [Hled Hidle Hok ? ? ? ? ?]. constructor; simpl; auto; try congruence.
  - ledger_keep Hled.
  - intros _. destruct (Hok Hp') as [Hv [] Hx Hl]. constructor; simpl; try done. intros H3. destruct (Hx H3). by constructor.
Qed.

Lemma wp_answer {A} (m : M A) f :
  wp m (fun _ => handled k) (fun _ => handled k) k -> wp (answer m f) (fun _ => handled k) (fun _ => handled k) k.
Proof using Type.
  intros H. unfold wp, answer in *. destruct (m k) as [[a|e] k']; [done|]. by case_if.
Qed.

Lemma wp_user_u32 {A} (f : option Z -> M A) va :
  (forall v, wp (f v) (fun _ => handled k) (fun _ => handled k) k) ->
  wp (v <- user_u32 L va ;; f v) (fun _ => handled k) (fun _ => handled k) k.
Proof using Type. intros Hf. apply wp_bind, wp_bind, wp_get, wp_ret, Hf. Qed.

Lemma wp_calling_handled {A} (m : M A) :
  wp m (fun _ => calling k) (fun _ => calling k) k -> wp m (fun _ => handled k) (fun _ => handled k) k.
Proof using Hinv. intros H. eapply wp_mono; [exact H|intros; by apply calling_handled..]. Qed.

Lemma wp_ud_ioctl cmd arg : wp (ud_ioctl fuel L cmd arg) (fun _ => handled k) (fun _ => handled k) k.
Proof using HL Hinv.
  pose proof handled_same as Hk. unfold ud_ioctl. start.
  repeat (case_if; [first [by apply wp_ret
    | apply wp_answer; first
      [ apply wp_user_u32; intros v;
        first [apply wp_ud_set_code_mode | apply wp_ud_set_profile | apply wp_ud_set_nested_path]
      | apply wp_calling_handled;
        first [by apply wp_ud_social_call | by apply wp_ud_tlb_probe | by apply wp_ud_user_call | by apply wp_ud_mapped_call]
      | apply wp_ud_commit_handled
      | eapply wp_mono; [first [by apply wp_prepare_pool | by apply wp_prepare_session]|by intros ? ? [? _]..]
      | unfold ud_social_extra_info, ud_get_connection_info; wp_go; done ]]|]).
  by apply wp_ret.
Qed.
End dispatch.
