(* ===== verification/Sessions.v ===== *)
(** * The device: all its sessions and the shared slot table

    The sessions of /dev/ub-lrpc-ub-domain share one table of pool slots.  A step
    opens a session, runs one request of one session, or releases one; between two
    steps memory may have changed in any way and the allocators of Linux may
    answer anything that is free. *)

From S2P Require Import Prelude Monad CMem Abi Layout PoolSlots Arm64 Kernel KernelLogic Session Ledger Device Commit Gate Run Lifecycle.

Record device := mk_device { dv_banks : list ud_pool_bank; dv_open : list kstate }.

Definition device_start : device := mk_device (pl_banks pool_start) [].

(** The slots the open sessions have reserved. *)
Definition leases (open : list kstate) : list (Z * Z) := concat ((fun k => lease (k_s k)) <$> open).
Definition pool_of (d : device) : pool := mk_pool (dv_banks d) (leases (dv_open d)).

(** What Linux hands out is not in the session's hands. *)
Record fresh (k : kstate) (a : answers) : Prop := {
  fr_tokens : NoDup (claims one (a_tokens a) ++ k_tokens k);
  fr_pages : NoDup (claims one (a_pages a) ++ k_pages k);
  fr_aligned : Forall page_address (a_pages a) }.

(** The state a request of session [k] starts in. *)
Definition enter (d : device) (k : kstate) (m : mem) (a : answers) : kstate :=
  k.{ k_banks := dv_banks d }.{ k_mem := m }.{ k_answers := a }.

Definition open_state (s : ud_session) : kstate :=
  mk_k s [] [] [] [] [] [] false (fun _ => 0) (mk_answers [] [] [] []).

Inductive device_step : device -> device -> Prop :=
| step_open d L allocated s :
    ud_open L allocated = inl s ->
    device_step d (mk_device (dv_banks d) (open_state s :: dv_open d))
| step_ioctl banks pre k post L fuel cmd arg m a r k' :
    linux_ok L -> fresh k a ->
    ud_ioctl fuel L cmd arg (enter (mk_device banks (pre ++ k :: post)) k m a) = (inl r, k') ->
    device_step (mk_device banks (pre ++ k :: post)) (mk_device (k_banks k') (pre ++ k' :: post))
| step_release banks pre k post m a r k' :
    fresh k a ->
    ud_release (enter (mk_device banks (pre ++ k :: post)) k m a) = (r, k') ->
    device_step (mk_device banks (pre ++ k :: post)) (mk_device (k_banks k') (pre ++ post)).

(** ** Slot tables up to the order of their leases *)

Definition same_pool (p q : pool) : Prop := pl_banks p = pl_banks q /\ pl_live p ≡ₚ pl_live q.
#[export] Instance same_pool_equiv : Equivalence same_pool.
Proof.
  split.
  - intros p. by split.
  - intros p q [? ?]. by split.
  - intros p q r [? ?] [? ?]. split; etrans; done.
Qed.

Lemma same_pool_step p q p' : same_pool p q -> pool_step p p' -> exists q', pool_step q q' /\ same_pool p' q'.
Proof.
  intros [Hb Hl] Hst. destruct Hst as [p heap g b0 s0 banks b s H|p heap g b0 s0 rc banks b s H Hrc|p b s e r H].
  - rewrite Hb in H. eexists. split; [by eapply pool_acquire|]. split; [done|]. simpl. by rewrite Hl.
  - rewrite Hb in H. eexists. split; [by eapply pool_refused|]. by split.
  - rewrite Hl in H. eexists. split; [by eapply (pool_release q b s e r)|]. split; simpl; [by rewrite Hb|by rewrite Hl].
Qed.
Lemma same_pool_steps p q p' :
  same_pool p q -> rtc pool_step p p' -> exists q', rtc pool_step q q' /\ same_pool p' q'.
Proof.
  intros Hpq Hst. revert q Hpq. induction Hst as [p|p p1 p' H1 _ IH]; intros q Hpq; [by exists q|].
  destruct (same_pool_step _ _ _ Hpq H1) as (q1 & Hq1 & H2). destruct (IH _ H2) as (q' & ? & ?).
  exists q'. split; [by eapply rtc_l|done].
Qed.
#[export] Instance pool_inv_proper : Proper (same_pool ==> iff) pool_inv.
Proof.
  assert (H : forall p q, same_pool p q -> pool_inv p -> pool_inv q).
  { intros p q [Hb Hl] []. constructor; rewrite <- ?Hb; [done|by rewrite <- Hl| |].
    - intros b s. rewrite <- Hl. auto.
    - intros b s. rewrite <- Hl. auto. }
  intros p q Hpq. split; apply H; [done|by symmetry].
Qed.

(** ** Every step keeps every session and refines the slot table *)

Lemma leases_split pre k post :
  leases (pre ++ k :: post) ≡ₚ lease (k_s k) ++ leases (pre ++ post).
Proof.
  unfold leases. rewrite !fmap_app, !concat_app. simpl.
  rewrite Permutation_app_comm. rewrite <- !app_assoc. f_equiv. apply Permutation_app_comm.
Qed.

Lemma enter_inv d k m a : session_inv k -> fresh k a -> session_inv (enter d k m a).
Proof.
  intros [Hled ? Hok ? ? ? ? ?] [Ht Hp Ha]. constructor; auto.
  destruct Hled as [Hs Hac]. split; [done|]. destruct Hac. constructor; try done. simpl.
  apply List.Forall_app. split; [done|]. by apply List.Forall_app in ac_aligned as [_ ?].
Qed.

Lemma open_inv L allocated s : ud_open L allocated = inl s -> session_inv (open_state s).
Proof.
  unfold ud_open. intros H. repeat case_if_in H; try done. injection H as <-.
  constructor; try done. split; [constructor; try done|constructor; try done].
  - unfold extra_fine. simpl. split_and!; try done. repeat constructor; simpl; try lia; repeat constructor; lia.
  - apply NoDup_nil_2.
  - apply NoDup_nil_2.
  - repeat constructor; lia.
Qed.

(** The session holds nothing of Linux. *)
Record holds_nothing (k : kstate) : Prop := {
  hn_pages : k_pages k = []; hn_tokens : k_tokens k = []; hn_pinned : k_pinned k = [];
  hn_files : k_files k = []; hn_stale : k_stale k = [] }.

Lemma bare_holds_nothing k : ledger k -> bare (k_s k) -> holds_nothing k.
Proof.
  intros [Hs []] Hb. apply bare_arrays in Hb as (H1 & H2 & H3 & H4 & H5 & H6 & H7 & H8 & H9 & H10 & H11 & _).
  unfold page_array, asid_array, token_array in *. rewrite H1, H2, H3, H4 in *. rewrite H5, H6, H7, H8, H9, H10, H11 in *.
  constructor.
  - by apply Permutation_nil_r.
  - by apply Permutation_nil_r.
  - by apply Permutation_nil_r.
  - rewrite claims_zero in ac_files. by apply Permutation_nil_r.
  - destruct (k_stale k) as [|a l]; [done|]. specialize (ac_stale a ltac:(left)). by apply elem_of_nil in ac_stale.
Qed.

Lemma release_spec k : ledger k ->
  exists k', ud_release k = (inl tt, k') /\ k_s k' = wiped (k_s k) /\ k_banks k' = banks_after k /\
    holds_nothing k' /\ k_fault k' = false.
Proof.
  intros Hk. assert (Hw : wp ud_free_pages (fun _ k' => ledger k' /\ k_s k' = wiped (k_s k) /\ k_banks k' = banks_after k)
    (fun _ _ => False) k) by (apply wp_ud_free_pages; auto).
  unfold wp in Hw. unfold ud_release. destruct (ud_free_pages k) as [[[]|] k']; [|done].
  destruct Hw as (Hk' & Hs & Hb). exists k'. split_and!; try done.
  - apply bare_holds_nothing; [done|]. rewrite Hs. apply wiped_bare.
  - apply Hk'.
Qed.

Definition device_inv (d : device) : Prop := Forall session_inv (dv_open d) /\ pool_inv (pool_of d).

(** A step of session [k] among the others. *)
Lemma session_moves banks pre k post m a k' :
  pool_inv (pool_of (mk_device banks (pre ++ k :: post))) ->
  pool_moves (enter (mk_device banks (pre ++ k :: post)) k m a) k' ->
  exists p, rtc pool_step (pool_of (mk_device banks (pre ++ k :: post))) p /\
    same_pool (mk_pool (k_banks k') (lease (k_s k') ++ leases (pre ++ post))) p.
Proof.
  intros Hp Hm. specialize (Hm (leases (pre ++ post))).
  assert (Heq : same_pool (pool_of (mk_device banks (pre ++ k :: post)))
    (pool_view (leases (pre ++ post)) (enter (mk_device banks (pre ++ k :: post)) k m a))).
  { split; [done|]. apply leases_split. }
  rewrite Heq in Hp. apply (same_pool_steps _ (pool_of (mk_device banks (pre ++ k :: post)))) in Hm; [done|by symmetry|done].
Qed.

Lemma device_step_sim d d' :
  device_step d d' -> device_inv d ->
  Forall session_inv (dv_open d') /\ exists p, rtc pool_step (pool_of d) p /\ same_pool (pool_of d') p.
Proof.
  intros Hst [Hs Hp]. destruct Hst as [d L al s H|banks pre k post L fuel cmd arg m a r k' HL Hf H|banks pre k post m a r k' Hf H].
  - split; [constructor; [by eapply open_inv|done]|]. eexists. split; [apply rtc_refl|]. split; [done|]. simpl. unfold leases. simpl.
    unfold ud_open in H. repeat case_if_in H; try done. by injection H as <-.
  - apply List.Forall_app in Hs as [Hpre Hpost]. apply List.Forall_cons_iff in Hpost as [Hk Hpost].
    pose proof (wp_ud_ioctl fuel L _ HL (enter_inv (mk_device banks (pre ++ k :: post)) k m a Hk Hf) cmd arg) as Hw.
    unfold wp in Hw. rewrite H in Hw. destruct Hw as [Hi Hm].
    split; [by apply List.Forall_app; auto|].
    destruct (session_moves banks pre k post m a k' Hp Hm) as (p & Hp' & Heq). exists p. split; [done|].
    rewrite <- Heq. split; [done|]. apply leases_split.
  - apply List.Forall_app in Hs as [Hpre Hpost]. apply List.Forall_cons_iff in Hpost as [Hk Hpost].
    pose proof (si_ledger _ (enter_inv (mk_device banks (pre ++ k :: post)) k m a Hk Hf)) as Hled.
    destruct (release_spec _ Hled) as (k1 & H1 & Hs' & Hb' & _). rewrite H1 in H. injection H as _ <-.
    split; [by apply List.Forall_app|].
    destruct (session_moves banks pre k post m a k1 Hp (free_pages_moves _ _ Hs' Hb')) as (p & Hp' & Heq). exists p. split; [done|].
    rewrite <- Heq. split; [done|]. simpl. rewrite Hs'. done.
Qed.

Lemma device_step_inv d d' : device_inv d -> device_step d d' -> device_inv d'.
Proof.
  intros Hd Hst. destruct (device_step_sim _ _ Hst Hd) as (Hs & p & Hp & Heq). split; [done|]. rewrite Heq.
  apply (rtc_invariant pool_step pool_inv _ _ pool_inv_step Hp), Hd.
Qed.
Lemma device_inv_reachable d : rtc device_step device_start d -> device_inv d.
Proof.
  intros H. apply (rtc_invariant device_step device_inv _ _ device_step_inv H).
  split; [constructor|apply pool_inv_start].
Qed.
