(* ===== verification/Demo.v ===== *)
(** * A concrete platform for the witnesses

    Linux on a machine whose process maps the shared region at [USER] and a page
    for request arguments at [ARGBUF]; the region sits at physical [REGION]. *)

From Stdlib Require Import String.
From S2P Require Import Prelude Monad CMem Abi Layout PoolSlots Social Services Pool Kernel KernelLogic Session Ledger Device Commit Gate Run Lifecycle Sessions.

Definition REGION := 0x40000000.
Definition USER := 0x7f0000000000.
Definition ARGBUF := 0x7e0000000000.
Definition ARGPA := 0x50000000.

Definition demo_user (va : Z) : option Z :=
  if (USER <=? va) && (va <? USER + UD_BYTES) then Some (REGION + (va - USER))
  else if (ARGBUF <=? va) && (va <? ARGBUF + UD_PAGE) then Some (ARGPA + (va - ARGBUF)) else None.
Definition demo_vma : vm_area :=
  mk_vma USER (USER + UD_BYTES) true true true true (Some (mk_file 77 "obmm_shmdev0")).
Definition demo_linux : linux :=
  mk_linux 1 2 true false 0x3500 0x44ff 4 0 true true false false false 0 1 (2 ^ 48) 12
    (fun va => if (USER <=? va) && (va <? USER + UD_BYTES) then Some demo_vma else None)
    (fun _ => UTable) (fun _ => UTable) (fun _ => UTable) (fun _ => UTable)
    (fun va => inl ((REGION + (va - USER)) .>> 12)) (fun pte => pte) (fun _ => 1) (fun _ => true) (fun _ => true)
    demo_user true true 3 1000.
Definition demo_answers : answers :=
  mk_answers ((fun i => 0x900000 + 4096 * i) <$> seqZ 0 32) (seqZ 1 16) (seqZ 1 16) [12; 14; 16].

Lemma demo_linux_ok : linux_ok demo_linux.
Proof.
  constructor; simpl; try lia. intros va vma f. case_if; [|done]. intros [= <-] [= <-]. done.
Qed.

(** Physical memory with the region replaced. *)
Definition splice (m region : mem) : mem :=
  fun a => if (REGION <=? a) && (a <? REGION + UD_BYTES) then region (a - REGION) else m a.

(** A region the owner has initialized, and the arguments of a pool prepare. *)
Definition demo_mem : mem :=
  st_struct (splice (fun _ => 0) (ud_pool_initialize (fun _ => 0) 9).2) ARGPA
    (mk_pool_prepare (mk_prepare USER zero_contract) 9 UD_POOL_ABI 0).

Definition demo_session : ud_session := new_session 1 2.
Definition demo_opened : device := mk_device (dv_banks device_start) [open_state demo_session].
Definition demo_entered : kstate := enter demo_opened (open_state demo_session) demo_mem demo_answers.
Definition demo_prepared : kstate := (ud_ioctl 0 demo_linux UD_POOL_PREPARE ARGBUF demo_entered).2.

(** What the owner has published for the first slot: the tables of the contract,
    and the publication with the request answered. *)
Definition demo_published_contract : ud_contract := p_contract (s_p (k_s demo_prepared)).
Definition demo_table_words : list (list Z) :=
  (fun i => ud_build_table demo_published_contract (i / 4) (i mod 4)) <$> seqZ 0 16.
Definition demo_published_tables (m : mem) : mem := fun a =>
  let t := a - (REGION + UD_POOL_TABLE 0 0 0) in
  if (0 <=? t) && (t <? 16 * UD_PAGE)
  then ((nthz [] demo_table_words (t / UD_PAGE)).[t mod UD_PAGE / 8] .>> (8 * (t mod 8))) .& 255
  else m a.
Definition demo_published : mem :=
  st_struct (demo_published_tables (k_mem demo_prepared)) (REGION + UD_POOL_SLOT 0)
    (mk_pool_publication (mk_publication demo_published_contract 13 13 1) 0 0).
Definition demo_committed : kstate :=
  (ud_ioctl 0 demo_linux UD_COMMIT 0
     (enter (mk_device (k_banks demo_prepared) [demo_prepared]) demo_prepared demo_published demo_answers)).2.

Lemma demo_fresh open : k_tokens open = [] -> k_pages open = [] -> fresh open demo_answers.
Proof.
  intros Ht Hp. constructor; rewrite ?Ht, ?Hp.
  - apply (bool_decide_eq_true_1 _). vm_compute. reflexivity.
  - apply (bool_decide_eq_true_1 _). vm_compute. reflexivity.
  - apply List.Forall_forall. intros p (i & -> & Hi%elem_of_seqZ)%list_elem_of_In%list_elem_of_fmap. unfold page_address, in_u64, UD_PAGE.
    split; [lia|]. replace (_ + _) with ((0x900 + i) * 4096) by lia. apply Z.mod_mul. lia.
Qed.
