(* ===== verification/Guarantees.v ===== *)
(** * What the device guarantees, over every sequence of requests

    Consequences of the invariant of [Sessions] for the users of
    kernel/ub-domain/domain.c: exclusive slots, no leaks, error paths that undo
    everything, and what a process can map. *)

From S2P Require Import Prelude Monad CMem Abi Layout PoolSlots Kernel KernelLogic Session Ledger Device Commit Gate Run Lifecycle Sessions Demo.

Lemma session_reachable d k : rtc device_step device_start d -> k ∈ dv_open d -> session_inv k.
Proof.
  intros [Hs _]%device_inv_reachable Hk. rewrite List.Forall_forall in Hs. by apply Hs, list_elem_of_In.
Qed.

(** C4. The device implements the slot table: whatever sessions open, send requests
    (successful or not) and close, in any order, the shared table and the slots the
    open sessions believe to own have evolved by acquiring, refusing and releasing
    single slots as [PoolSlots] specifies. *)
Theorem device_refines_slot_table d :
  rtc device_step device_start d -> exists p, rtc pool_step pool_start p /\ same_pool (pool_of d) p.
Proof.
  intros H. apply (rtc_ind_r (fun d => device_inv d /\ exists p, rtc pool_step pool_start p /\ same_pool (pool_of d) p) device_start)
    in H as [_ ?]; [done| |].
  - split; [apply device_inv_reachable, rtc_refl|]. by exists pool_start.
  - intros d1 d2 _ Hst [Hi (p & Hp & Heq)]. split; [by eapply device_step_inv|].
    destruct (device_step_sim _ _ Hst Hi) as (_ & p1 & Hp1 & Heq1).
    destruct (same_pool_steps _ _ _ Heq Hp1) as (p2 & Hp2 & Heq2). exists p2. split; [by etrans|by etrans].
Qed.

(** C16. Two open sessions never hold the same slot of a pool, and a slot a session
    holds is marked used and not quarantined in the table. *)
Theorem sessions_never_share_a_slot d pre k1 mid k2 post :
  rtc device_step device_start d -> dv_open d = pre ++ k1 :: mid ++ k2 :: post ->
  s_pool_reserved (k_s k1) = true -> s_pool_reserved (k_s k2) = true ->
  (s_pool_bank (k_s k1), s_pool_slot (k_s k1)) <> (s_pool_bank (k_s k2), s_pool_slot (k_s k2)) /\
  used_at (dv_banks d) (s_pool_bank (k_s k1)) (s_pool_slot (k_s k1)) = true /\
  quarantined_at (dv_banks d) (s_pool_bank (k_s k1)) (s_pool_slot (k_s k1)) = false.
Proof.
  intros [_ Hp]%device_inv_reachable Hd H1 H2.
  assert (Hl : leases (dv_open d) ≡ₚ (s_pool_bank (k_s k1), s_pool_slot (k_s k1)) ::
    (s_pool_bank (k_s k2), s_pool_slot (k_s k2)) :: leases (pre ++ mid ++ post)).
  { rewrite Hd, leases_split. unfold lease at 1. rewrite H1. simpl. f_equiv.
    rewrite app_assoc, leases_split. unfold lease at 1. rewrite H2. by rewrite <- app_assoc. }
  pose proof (pi_nodup _ Hp) as Hn. simpl in Hn. rewrite Hl in Hn. split.
  - intros Heq. rewrite Heq in Hn. apply NoDup_cons in Hn as [Hn _]. apply Hn. left.
  - destruct (pi_live _ Hp (s_pool_bank (k_s k1)) (s_pool_slot (k_s k1))) as (_ & _ & ? & ?); [|done].
    simpl. rewrite Hl. left.
Qed.

(** C11. Nothing leaks.  In every reachable state an open session has returned
    nothing it did not hold and released no ASID with live translations; a session
    that is not prepared holds no page, ASID, token, file reference or slot; and
    closing any session succeeds and returns everything. *)
Theorem nothing_leaks d k :
  rtc device_step device_start d -> k ∈ dv_open d ->
  k_fault k = false /\
  (s_prepared (k_s k) = false -> holds_nothing k /\ lease (k_s k) = []) /\
  forall m a, fresh k a -> exists k',
    ud_release (enter d k m a) = (inl tt, k') /\ holds_nothing k' /\ lease (k_s k') = [] /\ k_fault k' = false.
Proof.
  intros Hd Hk. pose proof (session_reachable _ _ Hd Hk) as Hi. split_and!.
  - apply (proj2 (si_ledger _ Hi)).
  - intros Hp. apply (si_idle _ Hi) in Hp. split; [by apply bare_holds_nothing; [apply Hi|]|by apply bare_lease].
  - intros m a Ha. destruct (release_spec _ (si_ledger _ (enter_inv d k m a Hi Ha))) as (k' & H1 & H2 & _ & H3 & H4).
    exists k'. split_and!; try done. rewrite H2. apply bare_lease, wiped_bare.
Qed.

(** A prepare request of a session that is prepared is refused and changes nothing. *)
Lemma prepared_session_stays k L fuel cmd arg rc out k' :
  cmd = UD_PREPARE \/ cmd = UD_POOL_PREPARE -> s_prepared (k_s k) = true -> ud_ioctl fuel L cmd arg k = (inl (rc, out), k') ->
  k' = k /\ out = None /\ (rc = - EALREADY \/ rc = - EPERM \/ rc = - ERESTARTSYS).
Proof.
  intros Hcmd Hp H.
  assert (Hw : wp (ud_ioctl fuel L cmd arg) (fun r k' => k' = k /\ r.2 = None /\ (r.1 = - EALREADY \/ r.1 = - EPERM \/ r.1 = - ERESTARTSYS)) (fun _ _ => True) k).
  { unfold ud_ioctl. apply wp_bind, wp_session. case_if; [apply wp_ret; auto|]. case_if; [apply wp_ret; auto|].
    assert (Hone : forall X (h : M X) f, wp h (fun _ _ => False) (fun e k' => e = - EALREADY /\ k' = k) k ->
      wp (answer h f) (fun r k' => k' = k /\ r.2 = None /\ (r.1 = - EALREADY \/ r.1 = - EPERM \/ r.1 = - ERESTARTSYS)) (fun _ _ => True) k).
    { intros X h f Hh. unfold wp, answer in *. destruct (h k) as [[x|e] k1]; [done|]. destruct Hh as [-> ->]. simpl. auto. }
    destruct Hcmd as [-> | ->]; simpl; apply Hone; unfold ud_prepare_session, ud_prepare_pool; apply wp_bind, wp_session; rewrite Hp; apply wp_bind; by apply wp_raise. }
  unfold wp in Hw. rewrite H in Hw. exact Hw.
Qed.

(** C20. A prepare request that fails, at whatever point, is undone.  A session that was not prepared is left
    unprepared and holding nothing: every page, ASID, token, file reference and slot taken on the way has been
    given back.  A session that was prepared already stays so: nothing of its state, its resources or its slots
    changes, and the answer is EALREADY unless the caller may not use the session.  Nothing is copied out. *)
Theorem failed_prepare_is_undone d k m a L fuel cmd arg rc out k' :
  rtc device_step device_start d -> k ∈ dv_open d -> fresh k a -> linux_ok L ->
  cmd = UD_PREPARE \/ cmd = UD_POOL_PREPARE ->
  ud_ioctl fuel L cmd arg (enter d k m a) = (inl (rc, out), k') -> rc <> 0 ->
  out = None /\
  if s_prepared (k_s k)
  then k' = enter d k m a /\ (rc = - EALREADY \/ rc = - EPERM \/ rc = - ERESTARTSYS)
  else s_prepared (k_s k') = false /\ holds_nothing k' /\ lease (k_s k') = [].
Proof.
  intros Hd Hk Ha HL Hcmd H Hrc. destruct (s_prepared (k_s k)) eqn:Hp.
  { by destruct (prepared_session_stays (enter d k m a) L fuel cmd arg rc out k' Hcmd Hp H) as (?&?&?). }
  pose proof (enter_inv d k m a (session_reachable _ _ Hd Hk) Ha) as Hi.
  assert (Hw : wp (ud_ioctl fuel L cmd arg)
    (fun r k' => r.1 <> 0 -> session_inv k' /\ s_prepared (k_s k') = false /\ r.2 = None) (fun _ _ => True) (enter d k m a)).
  { unfold ud_ioctl. apply wp_bind, wp_session. case_if; [by apply wp_ret|]. case_if; [by apply wp_ret|].
    assert (Hone : forall A (h : M A) f, (forall r, (f r).1 = 0) ->
      wp h (fun _ k' => handled (enter d k m a) k' /\ s_prepared (k_s k') = true)
        (fun _ k' => handled (enter d k m a) k' /\ s_prepared (k_s k') = s_prepared (k_s (enter d k m a))) (enter d k m a) ->
      wp (answer h f) (fun r k' => r.1 <> 0 -> session_inv k' /\ s_prepared (k_s k') = false /\ r.2 = None) (fun _ _ => True) (enter d k m a)).
    { intros A h f Hf Hh. unfold wp, answer in *. destruct (h _) as [[r|e] k1]; [by rewrite Hf|].
      destruct Hh as [[? _] Hp1]. simpl in Hp1. rewrite Hp in Hp1. by case_if. }
    destruct Hcmd as [-> | ->]; simpl; apply Hone; try done; [by apply wp_prepare_session|by apply wp_prepare_pool]. }
  unfold wp in Hw. rewrite H in Hw. destruct (Hw Hrc) as (Hi' & Hp' & Ho). simpl in Ho.
  pose proof (si_idle _ Hi' Hp') as Hb. split_and!; try done; [by apply bare_holds_nothing; [apply Hi'|]|by apply bare_lease].
Qed.

(** A page that holds code or a stack of a prepared session. *)
Definition private_page (s : ud_session) (p : Z) : Prop :=
  exists j, 0 <= j < 4 /\ (p = (s_code s).[j] \/ p = (s_stack s).[j] \/
    three_nginx s = true /\ (p = x_code_pa (e_dom (s_social_extra s) j) \/ p = x_stack_pa (e_dom (s_social_extra s) j)) /\ p <> 0).

(** C21. Mapping the device succeeds only for the owner of a committed session, with
    a writable, shared, non-executable mapping, changes nothing, and shows only
    argument pages: no page that holds code or a stack of a domain. *)
Theorem mmap_shows_only_arguments d k m a L pgoff length shared write exec inserted pages k' :
  rtc device_step device_start d -> k ∈ dv_open d -> fresh k a ->
  ud_mmap L pgoff length shared write exec inserted (enter d k m a) = (inl pages, k') ->
  k' = enter d k m a /\ s_committed (k_s k) = true /\ l_current L = s_owner (k_s k) /\ l_current_mm L = s_mm (k_s k) /\
  l_capable L = true /\ shared = true /\ write = true /\ exec = false /\
  pages = s_args (k_s k) /\ forall p, p ∈ pages -> ~ private_page (k_s k) p.
Proof.
  intros Hd Hk Ha. pose proof (enter_inv d k m a (session_reachable _ _ Hd Hk) Ha) as Hi.
  assert (Hw : wp (ud_mmap L pgoff length shared write exec inserted) (fun pages k' => k' = enter d k m a /\
    s_committed (k_s k) = true /\ l_current L = s_owner (k_s k) /\ l_current_mm L = s_mm (k_s k) /\ l_capable L = true /\
    shared = true /\ write = true /\ exec = false /\ pages = s_args (k_s k)) (fun _ _ => True) (enter d k m a)).
  { unfold ud_mmap. apply wp_bind, wp_session. repeat (apply wp_bind, wp_fail_if; intros ?; [done|]). apply wp_ret. simpl in *.
    bprop. by destruct exec. }
  intros H. unfold wp in Hw. rewrite H in Hw. destruct Hw as (-> & Hc & ? & ? & ? & ? & ? & ? & ->). split_and!; try done.
  pose proof (si_committed _ Hi Hc) as Hp. pose proof (si_ready _ Hi Hp) as Hok. pose proof (si_ledger _ Hi) as Hled.
  pose proof (proj1 Hled) as Hs. simpl in Hs, Hok.
  intros p Hin (j & Hj & Hpj). apply list_elem_of_lookup in Hin as [i Hi']. 
  assert (Hlt : (i < 4)%nat). { apply lookup_lt_Some in Hi'. by rewrite (sz_args _ Hs) in Hi'. }
  assert (Hpi : p = (page_array (k_s k)).[9 + Z.of_nat i]).
  { destruct (page_array_at _ (Z.of_nat i) Hs ltac:(lia)) as (_ & _ & -> & _). symmetry. unfold nthz. rewrite Nat2Z.id. by apply nth_lookup_Some. }
  assert (Hdist : forall n, 0 <= n < 21 -> n <> 9 + Z.of_nat i -> (page_array (k_s k)).[n] <> 0 -> p <> (page_array (k_s k)).[n]).
  { intros n Hn Hne Hnz Heq. apply (ledger_distinct _ n (9 + Z.of_nat i) Hled); simpl; try done; try lia; congruence. }
  destruct (rc_pages _ _ (po_recorded _ Hok) j Hj) as (Ec & Es & _).
  pose proof (proj1 (ud_contract_valid_spec _) (po_contract _ Hok)) as Hv.
  pose proof (pa_valid_nonzero _ (cv_code _ Hv j Hj)). pose proof (pa_valid_nonzero _ (cv_stack _ Hv j Hj)).
  destruct (page_array_at _ j Hs Hj) as (Ac & As & _ & Axc & Axs).
  destruct Hpj as [Hpj|[Hpj|(Hx3 & [Hpj|Hpj] & Hnz)]].
  - apply (Hdist (1 + j)); [lia|lia|congruence|congruence].
  - apply (Hdist (5 + j)); [lia|lia|congruence|congruence].
  - destruct (xr_pages _ _ (po_extra _ Hok Hx3) j Hj) as [E1 E2]. apply (Hdist (13 + j)); [lia|lia|congruence|congruence].
  - destruct (xr_pages _ _ (po_extra _ Hok Hx3) j Hj) as [E1 E2]. apply (Hdist (17 + j)); [lia|lia|congruence|congruence].
Qed.

(** ** Witnesses: two clients of one pool *)

Lemma run_result {A} (m : M A) k r : (m k).1 = inl r -> m k = (inl r, (m k).2).
Proof. destruct (m k). simpl. by intros ->. Qed.

Lemma demo_open_step banks open :
  device_step (mk_device banks open) (mk_device banks (open_state demo_session :: open)).
Proof. by apply (step_open (mk_device banks open) demo_linux true). Qed.

(** The first client has prepared; the second has just opened the device. *)
Definition demo_first : device := mk_device (k_banks demo_prepared) [demo_prepared].
Definition demo_second : device := mk_device (dv_banks demo_first) (open_state demo_session :: dv_open demo_first).
Definition demo_second_entered : kstate := enter demo_second (open_state demo_session) demo_mem demo_answers.
Definition demo_second_prepared : kstate := (ud_ioctl 0 demo_linux UD_POOL_PREPARE ARGBUF demo_second_entered).2.
Definition demo_both : device := mk_device (k_banks demo_second_prepared) [demo_second_prepared; demo_prepared].

Definition demo_reply (nonce slot first : Z) : Z * option reply :=
  (0, Some (RPool (mk_pool_prepare (mk_prepare USER (mk_contract UD_MAGIC nonce UD_ABI 0 1 0
    ((fun i => REGION + UD_POOL_TABLE slot (i / 4) (i mod 4)) <$> seqZ 0 16) (REGION + UD_HEAP)
    ((fun d => first + 4096 * (1 + 3 * d)) <$> seqZ 0 4) ((fun d => first + 4096 * (2 + 3 * d)) <$> seqZ 0 4)
    ((fun d => first + 4096 * (3 + 3 * d)) <$> seqZ 0 4) 0)) 9 UD_POOL_ABI slot))).

Lemma demo_first_reached : rtc device_step device_start demo_first.
Proof.
  eapply rtc_l; [apply demo_open_step|]. apply rtc_once.
  apply (step_ioctl (dv_banks device_start) [] (open_state demo_session) [] demo_linux 0 UD_POOL_PREPARE ARGBUF demo_mem demo_answers (demo_reply 13 0 0x900000)).
  - apply demo_linux_ok.
  - by apply demo_fresh.
  - apply (run_result (ud_ioctl 0 demo_linux UD_POOL_PREPARE ARGBUF) demo_entered). vm_compute. reflexivity.
Qed.

Lemma demo_second_reached : rtc device_step device_start demo_second.
Proof. eapply rtc_r; [apply demo_first_reached|]. apply demo_open_step. Qed.

Lemma demo_both_reached : rtc device_step device_start demo_both.
Proof.
  eapply rtc_r; [apply demo_second_reached|].
  apply (step_ioctl (dv_banks demo_second) [] (open_state demo_session) [demo_prepared] demo_linux 0 UD_POOL_PREPARE ARGBUF demo_mem demo_answers (demo_reply 13 1 0x900000)).
  - apply demo_linux_ok.
  - by apply demo_fresh.
  - apply (run_result (ud_ioctl 0 demo_linux UD_POOL_PREPARE ARGBUF) demo_second_entered). vm_compute. reflexivity.
Qed.

Lemma device_refines_slot_table_witness :
  exists p, rtc pool_step pool_start p /\ same_pool (pool_of demo_both) p.
Proof. exact (device_refines_slot_table demo_both demo_both_reached). Defined.

Lemma sessions_never_share_a_slot_witness :
  (s_pool_bank (k_s demo_second_prepared), s_pool_slot (k_s demo_second_prepared)) <>
  (s_pool_bank (k_s demo_prepared), s_pool_slot (k_s demo_prepared)).
Proof.
  refine (proj1 (sessions_never_share_a_slot demo_both [] demo_second_prepared [] demo_prepared [] demo_both_reached eq_refl _ _));
    vm_compute; reflexivity.
Defined.

Lemma nothing_leaks_witness : k_fault demo_prepared = false /\ s_prepared (k_s demo_prepared) = true.
Proof.
  split; [|vm_compute; reflexivity].
  refine (proj1 (nothing_leaks demo_first demo_prepared demo_first_reached _)). left.
Defined.

(** ASIDs run out at the second domain. *)
Definition demo_scarce : answers := mk_answers (a_pages demo_answers) (a_tokens demo_answers) [5] (a_random demo_answers).
Definition demo_refused : kstate :=
  (ud_ioctl 0 demo_linux UD_POOL_PREPARE ARGBUF (enter demo_opened (open_state demo_session) demo_mem demo_scarce)).2.

Lemma failed_prepare_is_undone_witness :
  ud_ioctl 0 demo_linux UD_POOL_PREPARE ARGBUF (enter demo_opened (open_state demo_session) demo_mem demo_scarce) =
    (inl (- ENOSPC, None), demo_refused) /\
  s_prepared (k_s demo_refused) = false /\ holds_nothing demo_refused /\ lease (k_s demo_refused) = [].
Proof.
  assert (H : ud_ioctl 0 demo_linux UD_POOL_PREPARE ARGBUF (enter demo_opened (open_state demo_session) demo_mem demo_scarce) =
    (inl (- ENOSPC, None), demo_refused)) by (unfold demo_refused; refine (run_result (ud_ioctl 0 demo_linux UD_POOL_PREPARE ARGBUF) _ (- ENOSPC, None) _); vm_compute; reflexivity).
  split; [exact H|].
  assert (Hf : fresh (open_state demo_session) demo_scarce) by (destruct (demo_fresh (open_state demo_session) eq_refl eq_refl); by constructor).
  destruct (failed_prepare_is_undone demo_opened (open_state demo_session) demo_mem demo_scarce demo_linux 0 UD_POOL_PREPARE ARGBUF
    (- ENOSPC) None demo_refused) as (_ & H1 & H2 & H3).
  - apply rtc_once, demo_open_step.
  - left.
  - exact Hf.
  - apply demo_linux_ok.
  - by right.
  - exact H.
  - discriminate.
  - split; [exact H1|]. split; [exact H2|exact H3].
Defined.
