(* ===== verification/Ubsm.v ===== *)
(** * The region library: lib/backend_ubsm.c and lib/ubsm_pa.c

    Regions of the UBS Memory SDK, with the process-wide reference count of the
    SDK and the list of imports shared by name.  The SDK is not part of the
    repository: [sdk_answers] holds what its functions return during one call, and
    [u_up] and [u_live] what it then holds, the initialized library and the live
    mappings; initializing twice, finalizing with live mappings, or unmapping what
    is not mapped sets [u_fault]. *)

From Stdlib Require Import String.
From S2P Require Import Prelude Monad Abi.

Record lrpc_ubsm_region := mk_region {
  g_base : Z; g_size : Z; g_name : string; g_initialized : bool; g_mapped : bool; g_owner : bool;
  g_shared_mapping : option Z }.
Record shared_import := mk_import { im_id : Z; im_name : string; im_base : Z; im_size : Z; im_refs : Z }.
Record ubsm := mk_ubsm {
  u_refs : Z; u_external : bool; u_imports : list shared_import;
  u_up : bool; u_live : list Z; u_fault : bool }.

Record sdk_answers := mk_sdk {
  v_mode : option string;             (* LRPC_UBSM_SDK_MODE *)
  v_logger : Z; v_attributes : Z; v_initialize : Z; v_finalize : Z;
  v_allocate : Z; v_map : Z; v_map_base : Z; v_unmap : Z; v_deallocate : Z;
  v_calloc : Z }.                     (* the import record, 0 for NULL *)

(** A call works on the library and one region. *)
Record ubsm_state := mk_ubsm_state { b_lib : ubsm; b_region : lrpc_ubsm_region }.

#[export] Instance eta_region : Eta lrpc_ubsm_region := fun r =>
  mk_region (g_base r) (g_size r) (g_name r) (g_initialized r) (g_mapped r) (g_owner r) (g_shared_mapping r).
#[export] Instance eta_import : Eta shared_import := fun r =>
  mk_import (im_id r) (im_name r) (im_base r) (im_size r) (im_refs r).
#[export] Instance eta_ubsm : Eta ubsm := fun r =>
  mk_ubsm (u_refs r) (u_external r) (u_imports r) (u_up r) (u_live r) (u_fault r).
#[export] Instance eta_ubsm_state : Eta ubsm_state := fun r => mk_ubsm_state (b_lib r) (b_region r).

Definition U : Type -> Type := MS ubsm_state.
Definition lib : U ubsm := k <- get ;; ret (b_lib k).
Definition set_lib (f : ubsm -> ubsm) : U unit := k <- get ;; put k.{ b_lib := f (b_lib k) }.
Definition region : U lrpc_ubsm_region := k <- get ;; ret (b_region k).
Definition set_region (f : lrpc_ubsm_region -> lrpc_ubsm_region) : U unit := k <- get ;; put k.{ b_region := f (b_region k) }.

Definition empty_region : lrpc_ubsm_region := mk_region 0 0 "" false false false None.
Definition LRPC_UBSM_REGION_SIZE := 4 * 1024 * 1024.
Definition MAP_FAILED := 2 ^ 64 - 1.

Section library.
(** Constants of the SDK headers. *)
Context (UBSM_ERR_PARAM_INVALID UBSM_ERR_MEMORY MAX_SHM_NAME_LENGTH : Z).
Context (V : sdk_answers).

(** ** The SDK *)

Definition misuse (u : ubsm) : ubsm := u.{ u_fault := true }.
Definition ubsmem_initialize (u : ubsm) : ubsm := if u_up u then misuse u else u.{ u_up := true }.
Definition ubsmem_finalize (u : ubsm) : ubsm :=
  if u_up u && bool_decide (u_live u = []) then u.{ u_up := false } else misuse u.
Definition usable (u : ubsm) : bool := u_up u || u_external u.
Definition ubsmem_shmem_map (base : Z) (u : ubsm) : ubsm :=
  if usable u then u.{ u_live := base :: u_live u } else misuse u.
Definition ubsmem_shmem_unmap (base : Z) (u : ubsm) : ubsm :=
  if usable u && bool_decide (base ∈ u_live u) then u.{ u_live := filter (fun b => b <> base) (u_live u) } else misuse u.

(** ** Initialization *)

Definition mode_ok : bool :=
  match v_mode V with None => true | Some m => String.eqb m "external" || String.eqb m "owned" end.
Definition mode_external : bool := match v_mode V with None => false | Some m => String.eqb m "external" end.

(** The three calls of the first initialization. *)
Definition sdk_start : Z :=
  if nz (v_logger V) then v_logger V else if nz (v_attributes V) then v_attributes V else v_initialize V.

Definition lrpc_ubsm_initialize : U unit :=
  fail_if (negb mode_ok) UBSM_ERR_PARAM_INVALID ;;
  u <- lib ;;
  fail_if (nz (u_refs u) && negb (Bool.eqb (u_external u) mode_external)) UBSM_ERR_PARAM_INVALID ;;
  (if z0 (u_refs u) && negb mode_external then
     fail_if (nz sdk_start) sdk_start ;; set_lib ubsmem_initialize
   else ret tt) ;;
  set_lib (fun u => u.{ u_external := mode_external }.{ u_refs := u_refs u + 1 }) ;;
  set_region (fun r => r.{ g_initialized := true }).

Definition lrpc_ubsm_finalize : U unit :=
  u <- lib ;;
  fail_if (z0 (u_refs u)) UBSM_ERR_PARAM_INVALID ;;
  (if (u_refs u =? 1) && negb (u_external u) then
     fail_if (nz (v_finalize V)) (v_finalize V) ;; set_lib ubsmem_finalize
   else ret tt) ;;
  set_lib (fun u => u.{ u_refs := u_refs u - 1 }).

Definition strlen (s : string) : Z := Z.of_nat (String.length s).

Definition lrpc_ubsm_prepare (name : string) (size : Z) : U unit :=
  fail_if (String.eqb name "" || (strlen name >=? MAX_SHM_NAME_LENGTH) || (size <? LRPC_UBSM_REGION_SIZE) ||
           nz (size mod LRPC_UBSM_REGION_SIZE)) UBSM_ERR_PARAM_INVALID ;;
  set_region (fun _ => empty_region.{ g_name := name }.{ g_size := size }) ;;
  lrpc_ubsm_initialize.

(** ** Closing *)

Definition find_import (p : shared_import -> bool) (l : list shared_import) : option shared_import := List.find p l.
Definition set_refs (id n : Z) (l : list shared_import) : list shared_import :=
  (fun m => if im_id m =? id then m.{ im_refs := n } else m) <$> l.

Definition close_shared (id : Z) : U unit :=
  u <- lib ;;
  match find_import (fun m => im_id m =? id) (u_imports u) with
  | None => set_lib misuse
  | Some m =>
      if im_refs m =? 1 then
        fail_if (nz (v_unmap V)) (v_unmap V) ;;
        set_lib (ubsmem_shmem_unmap (im_base m)) ;;
        set_lib (fun u => u.{ u_imports := filter (fun m => im_id m <> id) (u_imports u) })
      else set_lib (fun u => u.{ u_imports := set_refs id (im_refs m - 1) (u_imports u) })
  end ;;
  set_region (fun r => r.{ g_shared_mapping := None }.{ g_mapped := false }.{ g_base := 0 }).

Definition lrpc_ubsm_close (deallocate : bool) : U unit :=
  r <- region ;;
  match g_shared_mapping r with Some id => close_shared id | None => ret tt end ;;
  r <- region ;;
  (if g_mapped r then
     fail_if (nz (v_unmap V)) (v_unmap V) ;;
     set_lib (ubsmem_shmem_unmap (g_base r)) ;;
     set_region (fun r => r.{ g_mapped := false }.{ g_base := 0 })
   else ret tt) ;;
  (if deallocate && g_owner r then
     fail_if (nz (v_deallocate V)) (v_deallocate V) ;; set_region (fun r => r.{ g_owner := false })
   else ret tt) ;;
  (if g_initialized r then
     lrpc_ubsm_finalize ;; set_region (fun r => r.{ g_initialized := false })
   else ret tt).

(** ** Opening *)

Definition bad_base (base : Z) : bool := z0 base || (base =? MAP_FAILED).

(** [goto fail]: close, ignoring what that returns. *)
Definition close_on_fail {A} (m : U A) : U A :=
  on_fail m (r <- region ;; fun k => (inl tt, (lrpc_ubsm_close (g_owner r) k).2)).

Definition provider_ok (host : string) (limit : Z) : bool := negb (String.eqb host "") && (strlen host <? limit).

Definition lrpc_ubsm_owner_open (name : string) (size : Z) (host : string) (limit : Z) : U unit :=
  fail_if (negb (provider_ok host limit)) UBSM_ERR_PARAM_INVALID ;;
  lrpc_ubsm_prepare name size ;;
  close_on_fail (
    fail_if (nz (v_allocate V)) (v_allocate V) ;;
    set_region (fun r => r.{ g_owner := true }) ;;
    fail_if (nz (v_map V)) (v_map V) ;;
    fail_if (bad_base (v_map_base V)) UBSM_ERR_MEMORY ;;
    set_lib (ubsmem_shmem_map (v_map_base V)) ;;
    set_region (fun r => r.{ g_base := v_map_base V }.{ g_mapped := true })).

Definition lrpc_ubsm_remote_open (name : string) (size : Z) : U unit :=
  lrpc_ubsm_prepare name size ;;
  close_on_fail (
    u <- lib ;;
    match find_import (fun m => String.eqb (im_name m) name) (u_imports u) with
    | Some m =>
        fail_if (im_size m !=? size) UBSM_ERR_PARAM_INVALID ;;
        set_lib (fun u => u.{ u_imports := set_refs (im_id m) (im_refs m + 1) (u_imports u) }) ;;
        set_region (fun r => r.{ g_base := im_base m }.{ g_mapped := true }.{ g_shared_mapping := Some (im_id m) })
    | None =>
        fail_if (z0 (v_calloc V)) UBSM_ERR_MEMORY ;;
        fail_if (nz (v_map V)) (v_map V) ;;
        fail_if (bad_base (v_map_base V)) UBSM_ERR_MEMORY ;;
        set_lib (ubsmem_shmem_map (v_map_base V)) ;;
        set_lib (fun u => u.{ u_imports := mk_import (v_calloc V) name (v_map_base V) size 1 :: u_imports u }) ;;
        set_region (fun r => r.{ g_base := v_map_base V }.{ g_mapped := true }.{ g_shared_mapping := Some (v_calloc V) })
    end).
End library.

(** ** What the regions of a process account for *)

Definition sumz {A} (f : A -> Z) (l : list A) : Z := foldr (fun a s => f a + s) 0 l.
Lemma sumz_perm {A} (f : A -> Z) l l' : l ≡ₚ l' -> sumz f l = sumz f l'.
Proof. intros H. induction H; simpl; lia. Qed.
Lemma sumz_ext {A} (f g : A -> Z) l : (forall a, a ∈ l -> f a = g a) -> sumz f l = sumz g l.
Proof.
  induction l as [|a l IH]; intros H; [done|]. simpl. rewrite (H a) by left. rewrite IH; [done|].
  intros b Hb. apply H. by right.
Qed.
Lemma sumz_nonneg {A} (f : A -> Z) l : (forall a, 0 <= f a) -> 0 <= sumz f l.
Proof. intros Hf. induction l as [|a l IH]; simpl; [lia|]. specialize (Hf a). lia. Qed.
Lemma sumz_zero {A} (f : A -> Z) l : (forall a, 0 <= f a) -> sumz f l = 0 -> forall a, a ∈ l -> f a = 0.
Proof.
  intros Hf. induction l as [|b l IH]; simpl; intros Hs a Ha; [by apply elem_of_nil in Ha|].
  pose proof (Hf b). pose proof (sumz_nonneg f l Hf). apply elem_of_cons in Ha as [->|Ha]; [lia|]. apply IH; [lia|done].
Qed.

Definition uses (r : lrpc_ubsm_region) : Z := if g_initialized r then 1 else 0.
Definition refers (id : Z) (r : lrpc_ubsm_region) : Z := if decide (g_shared_mapping r = Some id) then 1 else 0.
Definition own_mapping (r : lrpc_ubsm_region) : list Z :=
  if g_mapped r then match g_shared_mapping r with None => [g_base r] | Some _ => [] end else [].

Record region_ok (u : ubsm) (r : lrpc_ubsm_region) : Prop := {
  ro_mapped : g_mapped r = true -> g_initialized r = true;
  ro_shared : forall id, g_shared_mapping r = Some id -> g_mapped r = true /\
    exists m, m ∈ u_imports u /\ im_id m = id /\ im_base m = g_base r /\ im_name m = g_name r /\ im_size m = g_size r }.

Record ubsm_inv (u : ubsm) (rs : list lrpc_ubsm_region) : Prop := {
  ui_refs : u_refs u = sumz uses rs;
  ui_ids : NoDup (im_id <$> u_imports u);
  ui_names : NoDup (im_name <$> u_imports u);
  ui_imports : forall m, m ∈ u_imports u -> im_refs m = sumz (refers (im_id m)) rs /\ 1 <= im_refs m;
  ui_regions : forall r, r ∈ rs -> region_ok u r;
  ui_live : u_live u ≡ₚ (im_base <$> u_imports u) ++ concat (own_mapping <$> rs);
  ui_nodup : NoDup (u_live u);
  ui_up : u_up u = negb (u_external u) && (u_refs u >? 0);
  ui_fault : u_fault u = false }.

Lemma ubsm_inv_perm u rs rs' : rs ≡ₚ rs' -> ubsm_inv u rs -> ubsm_inv u rs'.
Proof.
  intros Hp []. constructor; try done.
  - by rewrite <- (sumz_perm uses _ _ Hp).
  - intros m. rewrite <- (sumz_perm _ _ _ Hp). auto.
  - intros r. rewrite <- Hp. auto.
  - rewrite ui_live0. f_equiv. rewrite <- !flat_map_concat_map. by rewrite Hp.
Qed.

Lemma uses_nonneg r : 0 <= uses r. Proof. unfold uses. case_if; lia. Qed.
Lemma refers_nonneg id r : 0 <= refers id r. Proof. unfold refers. case_decide; lia. Qed.

(** ** Every operation keeps the accounts *)

Lemma find_import_id l m : NoDup (im_id <$> l) -> m ∈ l -> find_import (fun x => im_id x =? im_id m) l = Some m.
Proof.
  induction l as [|x l IH]; intros Hn Hm; [by apply elem_of_nil in Hm|]. simpl in *. apply NoDup_cons in Hn as [Hx Hn].
  apply elem_of_cons in Hm as [->|Hm]; [by rewrite Z.eqb_refl|]. destruct (Z.eqb_spec (im_id x) (im_id m)) as [E|_]; [|by apply IH].
  exfalso. apply Hx. rewrite E. by apply list_elem_of_fmap_2.
Qed.

Lemma drop_import l m :
  NoDup (im_id <$> l) -> m ∈ l -> l ≡ₚ m :: filter (fun x => im_id x <> im_id m) l.
Proof.
  induction l as [|x l IH]; intros Hn Hm; [by apply elem_of_nil in Hm|]. simpl in Hn. apply NoDup_cons in Hn as [Hx Hn].
  rewrite filter_cons. apply elem_of_cons in Hm as [->|Hm].
  - rewrite decide_False by naive_solver. rewrite filter_all; [done|].
    intros y Hy E. apply Hx. rewrite <- E. by apply list_elem_of_fmap_2.
  - rewrite decide_True by (intros E; apply Hx; rewrite E; by apply list_elem_of_fmap_2).
    rewrite (IH Hn Hm) at 1. apply Permutation_swap.
Qed.

Lemma set_refs_fields id n l :
  im_id <$> set_refs id n l = im_id <$> l /\ im_name <$> set_refs id n l = im_name <$> l /\
  im_base <$> set_refs id n l = im_base <$> l.
Proof.
  unfold set_refs. rewrite <- !list_fmap_compose. split_and!; apply list_fmap_ext; intros ? m _; simpl; by destruct (im_id m =? id).
Qed.

Section accounts.
Context (UBSM_ERR_PARAM_INVALID UBSM_ERR_MEMORY MAX_SHM_NAME_LENGTH : Z) (V : sdk_answers).
(** The regions other than the one an operation works on. *)
Context (o : list lrpc_ubsm_region).

Definition fine (k : ubsm_state) : Prop := ubsm_inv (b_lib k) (b_region k :: o).

(** Closing fails only with an error of the SDK. *)
Definition sdk_failed (deallocate : bool) (e : Z) : Prop :=
  e <> 0 /\ (e = v_unmap V \/ deallocate = true /\ e = v_deallocate V \/ e = v_finalize V).
Lemma sdk_failed_any d e : sdk_failed false e -> sdk_failed d e.
Proof using Type. unfold sdk_failed. naive_solver. Qed.

Lemma wp_lib (Q : ubsm -> ubsm_state -> Prop) E k : Q (b_lib k) k -> wp lib Q E k.
Proof using Type. done. Qed.
Lemma wp_region (Q : lrpc_ubsm_region -> ubsm_state -> Prop) E k : Q (b_region k) k -> wp region Q E k.
Proof using Type. done. Qed.
Lemma wp_set_lib f (Q : unit -> ubsm_state -> Prop) E k : Q tt k.{ b_lib := f (b_lib k) } -> wp (set_lib f) Q E k.
Proof using Type. done. Qed.
Lemma wp_set_region f (Q : unit -> ubsm_state -> Prop) E k :
  Q tt k.{ b_region := f (b_region k) } -> wp (set_region f) Q E k.
Proof using Type. done. Qed.

Lemma unmapped_unshared u r : region_ok u r -> g_mapped r = false -> g_shared_mapping r = None.
Proof using Type.
  intros [_ H] Hm. destruct (g_shared_mapping r) as [id|]; [|done]. destruct (H id eq_refl). congruence.
Qed.

(** The last initialized region has no mapping beside it. *)
Lemma last_region u r :
  ubsm_inv u (r :: o) -> g_initialized r = true -> g_mapped r = false -> u_refs u = 1 -> u_imports u = [] /\ u_live u = [].
Proof using Type.
  intros Hi Hin Hm H1. destruct Hi. simpl in ui_refs0. unfold uses at 1 in ui_refs0. rewrite Hin in ui_refs0.
  assert (Hidle : forall x, x ∈ o -> g_mapped x = false /\ g_shared_mapping x = None).
  { intros x Hx. pose proof (sumz_zero uses o uses_nonneg ltac:(lia) x Hx) as Hu. unfold uses in Hu.
    assert (Hxm : g_mapped x = false).
    { destruct (g_mapped x) eqn:E; [|done]. rewrite (ro_mapped _ _ (ui_regions0 x ltac:(by right)) E) in Hu. done. }
    split; [done|]. eapply unmapped_unshared; [apply ui_regions0; by right|done]. }
  assert (Himp : u_imports u = []).
  { destruct (u_imports u) as [|m l] eqn:E; [done|]. destruct (ui_imports0 m ltac:(left)) as [Hr H1m].
    assert (Hz : sumz (refers (im_id m)) (r :: o) = 0); [|lia].
    assert (Hall : forall x, x ∈ r :: o -> refers (im_id m) x = (fun _ => 0) x).
    { intros x Hx. assert (Hsx : g_shared_mapping x = None).
      { apply elem_of_cons in Hx as [->|Hx]; [by eapply unmapped_unshared; [apply ui_regions0; left|]|by apply Hidle]. }
      unfold refers. by rewrite Hsx. }
    rewrite (sumz_ext _ _ _ Hall). clear. induction (r :: o); simpl; lia. }
  split; [done|]. rewrite Himp in ui_live0. simpl in ui_live0. unfold own_mapping at 1 in ui_live0. rewrite Hm in ui_live0. simpl in ui_live0.
  apply Permutation_nil_r. rewrite ui_live0. clear -Hidle. induction o as [|x l IH]; [done|]. simpl.
  unfold own_mapping at 1. destruct (Hidle x ltac:(left)) as [-> _]. simpl. apply IH. intros y Hy. apply Hidle. by right.
Qed.

Lemma wp_finalize k :
  fine k -> g_initialized (b_region k) = true -> g_mapped (b_region k) = false ->
  wp (lrpc_ubsm_finalize UBSM_ERR_PARAM_INVALID V ;; set_region (fun r => r.{ g_initialized := false }))
    (fun _ k' => fine k' /\ b_region k' = (b_region k).{ g_initialized := false }) (fun e k' => k' = k /\ sdk_failed false e) k.
Proof using Type.
  intros Hf Hin Hm. pose proof (last_region _ _ Hf Hin Hm) as Hlast. unfold fine in Hf. destruct k as [u r]. simpl in *.
  pose proof (unmapped_unshared _ _ (ui_regions _ _ Hf r ltac:(left)) Hm) as Hsh.
  assert (Href : u_refs u = 1 + sumz uses o).
  { rewrite (ui_refs _ _ Hf). simpl. unfold uses at 1. by rewrite Hin. }
  pose proof (sumz_nonneg uses o uses_nonneg) as Hge.
  assert (Hdone : forall up, (up = negb (u_external u) && (u_refs u - 1 >? 0)) ->
    ubsm_inv u.{ u_up := up }.{ u_refs := u_refs u - 1 } (r.{ g_initialized := false } :: o)).
  { intros up Hup. destruct Hf. constructor; try done; simpl.
    - unfold uses at 1. simpl. lia.
    - intros x [->|Hx]%elem_of_cons.
      + constructor; simpl; [congruence|]. intros id Hid. congruence.
      + destruct (ui_regions0 x ltac:(by right)). by constructor. }
  unfold lrpc_ubsm_finalize. apply wp_bind, wp_bind, wp_lib. simpl.
  apply wp_bind, wp_fail_if; intros Hz; bprop; [lia|]. apply wp_bind. destruct ((u_refs u =? 1) && negb (u_external u)) eqn:E.
  - bprop. destruct (Hlast H) as [Himp Hlive]. apply wp_bind, wp_fail_if; intros Hfl; [bprop; unfold sdk_failed; auto|].
    do 2 apply wp_set_lib. apply wp_set_region. simpl. split; [|done]. unfold fine. simpl.
    unfold ubsmem_finalize. rewrite (ui_up _ _ Hf), H0, Hlive. replace (u_refs u >? 0) with true by lia. simpl.
    apply Hdone. rewrite H0, H. done.
  - apply wp_ret, wp_set_lib, wp_set_region. simpl. split; [|done]. unfold fine. simpl.
    match goal with |- ubsm_inv ?x _ => replace x with (u.{ u_up := u_up u }.{ u_refs := u_refs u - 1 }) by by destruct u end.
    apply Hdone. rewrite (ui_up _ _ Hf). destruct (u_external u); [done|]. simpl in *. bprop. destruct E as [E|E]; [lia|done].
Qed.

Lemma filter_head (b : Z) (l : list Z) : NoDup (b :: l) -> filter (fun x => x <> b) (b :: l) = l.
Proof using Type.
  intros [Hb _]%NoDup_cons. rewrite filter_cons_False by naive_solver. apply filter_all. by intros x Hx ->.
Qed.

(** A region that has dropped its mapping. *)
Definition dropped (r : lrpc_ubsm_region) : lrpc_ubsm_region :=
  r.{ g_shared_mapping := None }.{ g_mapped := false }.{ g_base := 0 }.

Lemma refers_dropped id r : refers id (dropped r) = 0.
Proof using Type. unfold refers. by rewrite decide_False. Qed.

(** Removing the last reference to an import unmaps it. *)
Lemma close_last_ref u r m :
  ubsm_inv u (r :: o) -> g_shared_mapping r = Some (im_id m) -> m ∈ u_imports u -> im_refs m = 1 ->
  ubsm_inv (ubsmem_shmem_unmap (im_base m) u).{ u_imports := filter (fun x => im_id x <> im_id m) (u_imports u) } (dropped r :: o).
Proof using Type.
  intros Hi Hsh Hm H1. destruct (ro_shared _ _ (ui_regions _ _ Hi r ltac:(left)) _ Hsh) as (Hmap & _).
  pose proof (ro_mapped _ _ (ui_regions _ _ Hi r ltac:(left)) Hmap) as Hin.
  assert (Hother : forall x, x ∈ o -> g_shared_mapping x <> Some (im_id m)).
  { destruct (ui_imports _ _ Hi m Hm) as [Hr _]. simpl in Hr. unfold refers at 1 in Hr. rewrite decide_True in Hr by done.
    intros x Hx E. pose proof (sumz_zero (refers (im_id m)) o (refers_nonneg _) ltac:(lia) x Hx) as H0.
    unfold refers in H0. by rewrite decide_True in H0. }
  pose proof (drop_import _ _ (ui_ids _ _ Hi) Hm) as Hperm. set (rest := filter _ _) in *.
  assert (Hlive : u_live u ≡ₚ im_base m :: (im_base <$> rest) ++ concat (own_mapping <$> o)).
  { rewrite (ui_live _ _ Hi), Hperm. simpl. unfold own_mapping at 1. by rewrite Hmap, Hsh. }
  assert (Hup : usable u = true).
  { unfold usable. rewrite (ui_up _ _ Hi), (ui_refs _ _ Hi). simpl. unfold uses at 1. rewrite Hin.
    pose proof (sumz_nonneg uses o uses_nonneg). replace (_ >? 0) with true by lia. by destruct (u_external u). }
  unfold ubsmem_shmem_unmap. rewrite Hup, bool_decide_eq_true_2 by (rewrite Hlive; left). simpl.
  destruct Hi. constructor; simpl; try done.
  - assert (Hn : NoDup (im_id <$> (m :: rest))) by (by rewrite <- Hperm). by apply NoDup_cons in Hn as [_ ?].
  - assert (Hn : NoDup (im_name <$> (m :: rest))) by (by rewrite <- Hperm). by apply NoDup_cons in Hn as [_ ?].
  - intros x [Hne Hx]%list_elem_of_filter. destruct (ui_imports0 x Hx) as [E ?]. split; [|done]. rewrite E. simpl. f_equal.
    rewrite refers_dropped. unfold refers. rewrite decide_False; [done|]. congruence.
  - intros x [->|Hx]%elem_of_cons; [by constructor|]. destruct (ui_regions0 x ltac:(by right)). constructor; [done|].
    intros id Hid. destruct (ro_shared0 id Hid) as (? & m' & Hm' & <- & ?). split; [done|]. exists m'. split; [|done].
    apply list_elem_of_filter. split; [|done]. intros E. apply (Hother x Hx). congruence.
  - rewrite Hlive. rewrite filter_head; [done|]. by rewrite <- Hlive.
  - by apply list.NoDup_filter.
Qed.

Lemma set_refs_elem id n l m : m ∈ set_refs id n l ->
  exists m0, m0 ∈ l /\ m = (if im_id m0 =? id then m0.{ im_refs := n } else m0).
Proof using Type. intros (m0 & -> & Hm0)%list_elem_of_fmap. eauto. Qed.
Lemma elem_set_refs id n l m : m ∈ l -> exists m', m' ∈ set_refs id n l /\ im_id m' = im_id m /\ im_base m' = im_base m /\
  im_name m' = im_name m /\ im_size m' = im_size m.
Proof using Type.
  intros Hm. exists (if im_id m =? id then m.{ im_refs := n } else m). split.
  - apply list_elem_of_fmap. eauto.
  - by case_if.
Qed.

(** Counting one reference up or down. *)
Lemma change_refs u r r' m n :
  ubsm_inv u (r :: o) -> m ∈ u_imports u -> 1 <= n ->
  n = im_refs m - refers (im_id m) r + refers (im_id m) r' ->
  (forall id, id <> im_id m -> refers id r' = refers id r) ->
  uses r' = uses r -> own_mapping r' = own_mapping r ->
  region_ok u.{ u_imports := set_refs (im_id m) n (u_imports u) } r' ->
  ubsm_inv u.{ u_imports := set_refs (im_id m) n (u_imports u) } (r' :: o).
Proof using Type.
  intros Hi Hm Hn En Hrefs Huses Hown Hok. destruct (set_refs_fields (im_id m) n (u_imports u)) as (F1 & F2 & F3).
  destruct Hi. constructor; simpl; rewrite ?F1, ?F2, ?F3; try done.
  - by rewrite Huses.
  - intros x (x0 & Hx0 & ->)%set_refs_elem. destruct (ui_imports0 x0 Hx0) as [E ?]. destruct (Z.eqb_spec (im_id x0) (im_id m)) as [Ei|Ei]; simpl.
    + split; [|done]. rewrite (nodup_key im_id _ _ _ ui_ids0 Hx0 Hm Ei) in E. simpl in E. rewrite Ei. lia.
    + simpl in E. rewrite Hrefs by done. done.
  - intros x [->|Hx]%elem_of_cons; [done|]. destruct (ui_regions0 x ltac:(by right)). constructor; [done|].
    intros id Hid. destruct (ro_shared0 id Hid) as (? & m0 & Hm0 & <- & <- & <- & <-). split; [done|].
    destruct (elem_set_refs (im_id m) n _ m0 Hm0) as (m' & ? & ? & ? & ? & ?). exists m'. done.
  - by rewrite Hown.
Qed.

Lemma wp_close_shared k id :
  fine k -> g_shared_mapping (b_region k) = Some id ->
  wp (close_shared V id) (fun _ k' => fine k' /\ b_region k' = dropped (b_region k)) (fun e k' => k' = k /\ sdk_failed false e) k.
Proof using Type.
  intros Hf Hsh. unfold fine in Hf. destruct k as [u r]. simpl in *.
  destruct (ro_shared _ _ (ui_regions _ _ Hf r ltac:(left)) _ Hsh) as (Hmap & m & Hm & <- & Hb & _).
  unfold close_shared. apply wp_bind, wp_lib. simpl. rewrite (find_import_id _ _ (ui_ids _ _ Hf) Hm).
  apply wp_bind. destruct (Z.eqb_spec (im_refs m) 1) as [H1|H1].
  - apply wp_bind, wp_fail_if; intros Hfl; [bprop; unfold sdk_failed; auto|]. apply wp_bind. do 2 apply wp_set_lib. apply wp_set_region. simpl. split; [|done].
    pose proof (close_last_ref u r m Hf Hsh Hm H1) as Hc. unfold fine. simpl.
    assert (Himp : u_imports (ubsmem_shmem_unmap (im_base m) u) = u_imports u) by (unfold ubsmem_shmem_unmap, misuse; by case_if).
    by rewrite Himp.
  - apply wp_set_lib, wp_set_region. simpl. split; [|done]. unfold fine. simpl.
    change (ubsm_inv u.{ u_imports := set_refs (im_id m) (im_refs m - 1) (u_imports u) } (dropped r :: o)).
    destruct (ui_imports _ _ Hf m Hm) as [E ?]. apply (change_refs u r); try done; [lia|..].
    + rewrite refers_dropped. unfold refers. rewrite decide_True by done. lia.
    + intros id Hne. rewrite refers_dropped. unfold refers. rewrite decide_False; congruence.
    + unfold own_mapping. simpl. by rewrite Hmap, Hsh.
Qed.

(** A mapping of the region's own. *)
Lemma wp_unmap_own k (Q : unit -> ubsm_state -> Prop) (E : Z -> ubsm_state -> Prop) :
  fine k -> g_mapped (b_region k) = true -> g_shared_mapping (b_region k) = None ->
  (forall e, sdk_failed false e -> E e k) -> (forall k', fine k' -> b_region k' = dropped (b_region k) -> Q tt k') ->
  wp (fail_if (nz (v_unmap V)) (v_unmap V) ;; set_lib (ubsmem_shmem_unmap (g_base (b_region k))) ;;
      set_region (fun r => r.{ g_mapped := false }.{ g_base := 0 })) Q E k.
Proof using Type.
  intros Hf Hmap Hsh HE HQ. apply wp_bind, wp_fail_if; intros Hfl; [bprop; apply HE; unfold sdk_failed; auto|]. apply wp_bind, wp_set_lib, wp_set_region.
  apply HQ; [|simpl; by destruct (b_region k); simpl in *; subst]. unfold fine in *. destruct k as [u r]. simpl in *.
  pose proof (ro_mapped _ _ (ui_regions _ _ Hf r ltac:(left)) Hmap) as Hin.
  assert (Hlive : u_live u ≡ₚ g_base r :: (im_base <$> u_imports u) ++ concat (own_mapping <$> o)).
  { rewrite (ui_live _ _ Hf). simpl. unfold own_mapping at 1. rewrite Hmap, Hsh. simpl. by rewrite <- Permutation_middle. }
  assert (Hup : usable u = true).
  { unfold usable. rewrite (ui_up _ _ Hf), (ui_refs _ _ Hf). simpl. unfold uses at 1. rewrite Hin.
    pose proof (sumz_nonneg uses o uses_nonneg). replace (_ >? 0) with true by lia. by destruct (u_external u). }
  unfold ubsmem_shmem_unmap. rewrite Hup, bool_decide_eq_true_2 by (rewrite Hlive; left). simpl.
  destruct Hf. constructor; simpl; try done.
  - intros x [->|Hx]%elem_of_cons; [|by destruct (ui_regions0 x ltac:(by right))]. constructor; simpl; [done|]. intros id Hid. congruence.
  - rewrite Hlive. rewrite filter_head; [done|]. by rewrite <- Hlive.
  - by apply list.NoDup_filter.
Qed.

(** Closing: on success nothing of the region is left. *)
Lemma wp_close k deallocate :
  fine k ->
  wp (lrpc_ubsm_close UBSM_ERR_PARAM_INVALID V deallocate)
    (fun _ k' => fine k' /\ g_mapped (b_region k') = false /\ g_initialized (b_region k') = false /\
       g_shared_mapping (b_region k') = None)
    (fun e k' => fine k' /\ sdk_failed deallocate e) k.
Proof using Type.
  intros Hf. unfold lrpc_ubsm_close. apply wp_bind, wp_region. apply wp_bind.
  eapply (wp_mono _ (fun _ k' => fine k' /\ g_shared_mapping (b_region k') = None) _ (fun e k' => fine k' /\ sdk_failed deallocate e)); [| |done].
  { destruct (g_shared_mapping (b_region k)) as [id|] eqn:Hsh; [|by apply wp_ret].
    eapply wp_mono; [by apply wp_close_shared| |by intros ? ? [-> ?%(sdk_failed_any deallocate)]]. intros _ k' [? ->]. done. }
  intros _ k1 [Hf1 Hsh1]. apply wp_bind, wp_region. apply wp_bind.
  eapply (wp_mono _ (fun _ k' => fine k' /\ g_mapped (b_region k') = false /\ g_shared_mapping (b_region k') = None /\
    g_initialized (b_region k') = g_initialized (b_region k1)) _ (fun e k' => fine k' /\ sdk_failed deallocate e)); [| |done].
  { destruct (g_mapped (b_region k1)) eqn:Hm; [|by apply wp_ret].
    apply wp_unmap_own; [done|done|done|by intros e ?%(sdk_failed_any deallocate)|]. intros k' ? ->. done. }
  intros _ k2 (Hf2 & Hm2 & Hsh2 & Hin2). apply wp_bind.
  eapply (wp_mono _ (fun _ k' => fine k' /\ g_mapped (b_region k') = false /\ g_shared_mapping (b_region k') = None /\
    g_initialized (b_region k') = g_initialized (b_region k1)) _ (fun e k' => fine k' /\ sdk_failed deallocate e)); [| |done].
  { case_if; [|by apply wp_ret]. apply wp_bind, wp_fail_if; intros Hfl; [bprop; unfold sdk_failed; naive_solver|]. apply wp_set_region. simpl. split_and!; try done.
    unfold fine in *. destruct Hf2. constructor; try done. intros x [->|Hx]%elem_of_cons; [|apply ui_regions0; by right].
    destruct (ui_regions0 _ (list_elem_of_here _ _)). by constructor. }
  intros _ k3 (Hf3 & Hm3 & Hsh3 & Hin3). destruct (g_initialized (b_region k1)) eqn:E; [|by apply wp_ret].
  eapply wp_mono; [by apply wp_finalize| |by intros ? ? [-> ?%(sdk_failed_any deallocate)]]. intros _ k4 [Hf4 ->]. split_and!; try done.
Qed.

(** A region without anything of the SDK. *)
Definition idle (r : lrpc_ubsm_region) : Prop :=
  g_initialized r = false /\ g_mapped r = false /\ g_shared_mapping r = None.

Lemma idle_inv u r r' : idle r -> idle r' -> ubsm_inv u (r :: o) -> ubsm_inv u (r' :: o).
Proof using Type.
  intros (Hi & Hm & Hs) (Hi' & Hm' & Hs') []. simpl in *.
  assert (Hr : forall id, refers id r' = refers id r) by (intros; unfold refers; by rewrite Hs, Hs').
  constructor; simpl; try done.
  - rewrite ui_refs0. unfold uses at 1 3. by rewrite Hi, Hi'.
  - intros m. rewrite Hr. auto.
  - intros x [->|Hx]%elem_of_cons; [|apply ui_regions0; by right]. constructor; congruence.
  - rewrite ui_live0. unfold own_mapping at 1 3. by rewrite Hm, Hm'.
Qed.

Lemma wp_initialize k (Q : unit -> ubsm_state -> Prop) (E : Z -> ubsm_state -> Prop) :
  fine k -> idle (b_region k) -> (forall e, E e k) ->
  (forall k', fine k' -> b_region k' = (b_region k).{ g_initialized := true } ->
     u_imports (b_lib k') = u_imports (b_lib k) -> u_live (b_lib k') = u_live (b_lib k) -> usable (b_lib k') = true -> Q tt k') ->
  wp (lrpc_ubsm_initialize UBSM_ERR_PARAM_INVALID V) Q E k.
Proof using Type.
  intros Hf (Hin & Hm & Hs) HE HQ. unfold lrpc_ubsm_initialize. apply wp_bind, wp_fail_if; intros _; [done|].
  apply wp_bind, wp_lib, wp_bind, wp_fail_if; intros Hmode; [done|]. unfold fine in Hf. destruct k as [u r]. simpl in *.
  pose proof (sumz_nonneg uses o uses_nonneg) as Hge. pose proof (ui_refs _ _ Hf) as Href. simpl in Href.
  unfold uses at 1 in Href. rewrite Hin in Href.
  assert (Hdone : forall up, up = negb (mode_external V) ->
    let u' := u.{ u_up := up }.{ u_external := mode_external V }.{ u_refs := u_refs u + 1 } in
    ubsm_inv u' (r.{ g_initialized := true } :: o) /\ usable u' = true).
  { intros up Hup. split; [|unfold usable; simpl; rewrite Hup; by destruct (mode_external V)]. destruct Hf. constructor; simpl; try done.
    - unfold uses at 1. simpl. lia.
    - intros x [->|Hx]%elem_of_cons; [|by destruct (ui_regions0 x ltac:(by right))]. constructor; simpl; [done|congruence].
    - rewrite Hup. replace (_ >? 0) with true by lia. by rewrite andb_true_r. }
  pose proof (ui_up _ _ Hf) as Hup. apply wp_bind. destruct (z0 (u_refs u) && negb (mode_external V)) eqn:Hc.
  - bprop. apply wp_bind, wp_fail_if; intros _; [done|]. apply wp_set_lib. apply wp_bind, wp_set_lib, wp_set_region. simpl.
    assert (Hu : ubsmem_initialize u = u.{ u_up := true }) by (unfold ubsmem_initialize; by rewrite Hup, H, andb_false_r).
    rewrite Hu. destruct (Hdone true ltac:(by rewrite H0)) as [H1 H2]. by apply HQ.
  - apply wp_ret. apply wp_bind, wp_set_lib, wp_set_region. simpl.
    assert (Heq : u.{ u_external := mode_external V }.{ u_refs := u_refs u + 1 } =
      u.{ u_up := u_up u }.{ u_external := mode_external V }.{ u_refs := u_refs u + 1 }) by by destruct u.
    assert (Hue : u_up u = negb (mode_external V)).
    { rewrite Hup. unfold z0 in Hc. unfold nz in Hmode. destruct (Z.eqb_spec (u_refs u) 0) as [E0|E0]; simpl in *.
      - rewrite E0. apply negb_false_iff in Hc as ->. by destruct (u_external u).
      - apply negb_false_iff, eqb_prop in Hmode as ->. replace (u_refs u >? 0) with true by lia. by rewrite andb_true_r. }
    destruct (Hdone (u_up u) Hue) as [H1 H2]. rewrite <- Heq in H1, H2. by apply HQ.
Qed.

Lemma wp_close_on_fail {A} (m : U A) k (Q : A -> ubsm_state -> Prop) :
  wp m Q (fun _ => fine) k -> wp (close_on_fail UBSM_ERR_PARAM_INVALID V m) Q (fun _ => fine) k.
Proof using Type.
  intros H. apply wp_on_fail. eapply wp_mono; [exact H|done|]. intros e k' Hf. simpl. unfold bind, region, get, ret. simpl.
  pose proof (wp_close k' (g_owner (b_region k')) Hf) as Hc. unfold wp in Hc.
  destruct (lrpc_ubsm_close _ _ _ k') as [[|] k2]; apply Hc.
Qed.

(** Mapping something new. *)
Lemma map_inv u r base :
  ubsm_inv u (r :: o) -> g_initialized r = true -> g_mapped r = false -> base ∉ u_live u -> usable u = true ->
  ubsm_inv (ubsmem_shmem_map base u) (r.{ g_base := base }.{ g_mapped := true } :: o).
Proof using Type.
  intros Hf Hin Hm Hb Hu. pose proof (unmapped_unshared _ _ (ui_regions _ _ Hf r ltac:(left)) Hm) as Hs.
  unfold ubsmem_shmem_map. rewrite Hu. destruct Hf. constructor; simpl; try done.
  - intros x [->|Hx]%elem_of_cons; [|by destruct (ui_regions0 x ltac:(by right))]. constructor; simpl; [done|congruence].
  - rewrite ui_live0. simpl. unfold own_mapping at 1 3. simpl. rewrite Hm, Hs. simpl. by rewrite <- Permutation_middle.
  - by apply NoDup_cons_2.
Qed.

(** The SDK and the allocator hand out what is not in use. *)
Record sdk_fresh (u : ubsm) : Prop := {
  sf_base : v_map_base V ∉ u_live u;
  sf_import : v_calloc V ∉ (im_id <$> u_imports u) }.

Lemma wp_prepare k name size (Q : unit -> ubsm_state -> Prop) (E : Z -> ubsm_state -> Prop) :
  fine k -> idle (b_region k) -> (forall e k', fine k' -> E e k') ->
  (forall k', fine k' -> b_region k' = mk_region 0 size name true false false None ->
     u_imports (b_lib k') = u_imports (b_lib k) -> u_live (b_lib k') = u_live (b_lib k) -> usable (b_lib k') = true -> Q tt k') ->
  wp (lrpc_ubsm_prepare UBSM_ERR_PARAM_INVALID MAX_SHM_NAME_LENGTH V name size) Q E k.
Proof using Type.
  intros Hf Hi HE HQ. unfold lrpc_ubsm_prepare. apply wp_bind, wp_fail_if; intros _; [by apply HE|].
  apply wp_bind, wp_set_region. assert (Hf' : fine k.{ b_region := empty_region.{ g_name := name }.{ g_size := size } }).
  { unfold fine in *. simpl. by eapply idle_inv; [exact Hi| |]. }
  apply wp_initialize; [done|done|by intros; apply HE|]. intros k' H1 H2 H3 H4 H5. by apply HQ.
Qed.

Lemma wp_owner_open k name size host limit :
  fine k -> idle (b_region k) -> sdk_fresh (b_lib k) ->
  wp (lrpc_ubsm_owner_open UBSM_ERR_PARAM_INVALID UBSM_ERR_MEMORY MAX_SHM_NAME_LENGTH V name size host limit)
    (fun _ k' => fine k' /\ g_mapped (b_region k') = true /\ g_owner (b_region k') = true) (fun _ => fine) k.
Proof using Type.
  intros Hf Hi [Hb _]. unfold lrpc_ubsm_owner_open. apply wp_bind, wp_fail_if; intros _; [done|].
  apply wp_bind, wp_prepare; [done|done|done|]. intros k1 Hf1 Hr1 _ Hl1 Hu1. apply wp_close_on_fail.
  apply wp_bind, wp_fail_if; intros _; [done|]. apply wp_bind, wp_set_region.
  set (k2 := k1.{ b_region := (b_region k1).{ g_owner := true } }).
  assert (Hf2 : fine k2).
  { unfold fine in *. simpl. destruct Hf1. rewrite Hr1 in *. constructor; try done.
    intros x [->|Hx]%elem_of_cons; [by constructor|apply ui_regions0; by right]. }
  apply wp_bind, wp_fail_if; intros _; [done|]. apply wp_bind, wp_fail_if; intros _; [done|].
  apply wp_bind, wp_set_lib, wp_set_region. simpl. rewrite Hr1. simpl. split_and!; try done. unfold fine. simpl.
  unfold fine in Hf2. simpl in Hf2. rewrite Hr1 in Hf2. apply (map_inv _ _ (v_map_base V)) in Hf2; try done. by rewrite Hl1.
Qed.

(** Turning a mapping of the region into a shared import. *)
Lemma share_inv u r id :
  ubsm_inv u (r :: o) -> g_mapped r = true -> g_shared_mapping r = None ->
  id ∉ (im_id <$> u_imports u) -> (forall m, m ∈ u_imports u -> im_name m <> g_name r) ->
  ubsm_inv u.{ u_imports := mk_import id (g_name r) (g_base r) (g_size r) 1 :: u_imports u }
    (r.{ g_shared_mapping := Some id } :: o).
Proof using Type.
  intros Hf Hm Hs Hid Hname. destruct Hf.
  assert (Hother : sumz (refers id) o = 0).
  { rewrite (sumz_ext _ (fun _ => 0)); [clear; induction o; simpl; lia|]. intros x Hx. unfold refers.
    destruct (decide (g_shared_mapping x = Some id)) as [E|]; [|done]. exfalso. apply Hid.
    destruct (ro_shared _ _ (ui_regions0 x ltac:(by right)) id E) as (_ & m & Hm' & <- & _). by apply list_elem_of_fmap_2. }
  constructor; simpl; try done.
  - by apply NoDup_cons_2.
  - apply NoDup_cons_2; [|done]. intros (m & E & Hm')%list_elem_of_fmap. by apply (Hname m Hm').
  - intros m [->|Hm']%elem_of_cons; simpl.
    + unfold refers at 1. simpl. rewrite decide_True by done. lia.
    + destruct (ui_imports0 m Hm') as [E ?]. split; [|done]. rewrite E. simpl. f_equal. unfold refers. simpl. rewrite Hs.
      rewrite decide_False by done. rewrite decide_False; [done|]. intros [= ->]. apply Hid. by apply list_elem_of_fmap_2.
  - intros x [->|Hx]%elem_of_cons.
    + destruct (ui_regions0 r ltac:(left)). constructor; simpl; [done|]. intros id' [= <-]. split; [done|].
      eexists. split; [left|]. done.
    + destruct (ui_regions0 x ltac:(by right)). constructor; [done|]. intros id' Hid'.
      destruct (ro_shared0 id' Hid') as (? & m & ? & ?). split; [done|]. exists m. split; [by right|done].
  - rewrite ui_live0. simpl. unfold own_mapping at 1 3. simpl. rewrite Hm, Hs. simpl. by rewrite <- Permutation_middle.
Qed.

Lemma find_import_name l name :
  match find_import (fun m => String.eqb (im_name m) name) l with
  | Some m => m ∈ l /\ im_name m = name
  | None => forall m, m ∈ l -> im_name m <> name
  end.
Proof using Type.
  unfold find_import. destruct (List.find _ l) as [m|] eqn:E.
  - apply find_some in E as [Hm He%String.eqb_eq]. by rewrite list_elem_of_In.
  - intros m Hm Hn. apply list_elem_of_In in Hm. pose proof (find_none _ _ E m Hm) as H. simpl in H. by rewrite Hn, String.eqb_refl in H.
Qed.

Lemma wp_remote_open k name size :
  fine k -> idle (b_region k) -> sdk_fresh (b_lib k) ->
  wp (lrpc_ubsm_remote_open UBSM_ERR_PARAM_INVALID UBSM_ERR_MEMORY MAX_SHM_NAME_LENGTH V name size)
    (fun _ k' => fine k' /\ exists id, g_shared_mapping (b_region k') = Some id /\ g_name (b_region k') = name /\ g_size (b_region k') = size)
    (fun _ => fine) k.
Proof using Type.
  intros Hf Hi [Hb Hid]. unfold lrpc_ubsm_remote_open.
  apply wp_bind, wp_prepare; [done|done|done|]. intros k1 Hf1 Hr1 Him1 Hl1 Hu1. apply wp_close_on_fail.
  apply wp_bind, wp_lib. pose proof (find_import_name (u_imports (b_lib k1)) name) as Hfind. unfold fine in Hf1.
  destruct k1 as [u r]. simpl in *. subst r.
  destruct (find_import _ _) as [m|].
  - destruct Hfind as [Hm Hn]. apply wp_bind, wp_fail_if; intros Hsz; [done|]. unfold nz in Hsz. bprop.
    apply wp_bind, wp_set_lib, wp_set_region. simpl. split; [|by exists (im_id m)].
    destruct (ui_imports _ _ Hf1 m Hm) as [E ?]. unfold fine. simpl.
    eapply (change_refs u); [exact Hf1|exact Hm|lia| | | | |].
    + unfold refers. simpl. destruct (decide (None = Some (im_id m))); [done|]. rewrite decide_True by done. lia.
    + intros id Hne. unfold refers. simpl. rewrite !decide_False; congruence.
    + done.
    + done.
    + constructor; simpl; [done|]. intros id [= <-]. split; [done|].
      destruct (elem_set_refs (im_id m) (im_refs m + 1) _ m Hm) as (m' & ? & ? & ? & ? & ?). exists m'. split_and!; try done; congruence.
  - apply wp_bind, wp_fail_if; intros _; [done|]. apply wp_bind, wp_fail_if; intros _; [done|]. apply wp_bind, wp_fail_if; intros _; [done|].
    apply wp_bind, wp_set_lib. apply wp_bind, wp_set_lib, wp_set_region. simpl. split; [|by eexists].
    unfold fine. simpl. assert (Hmap : ubsm_inv (ubsmem_shmem_map (v_map_base V) u) (mk_region (v_map_base V) size name true true false None :: o)).
    { apply (map_inv u (mk_region 0 size name true false false None)); try done. by rewrite Hl1. }
    unfold ubsmem_shmem_map in *. rewrite Hu1 in *.
    apply (share_inv _ (mk_region (v_map_base V) size name true true false None) (v_calloc V)) in Hmap; try done.
    simpl. by rewrite Him1.
Qed.
End accounts.

(** ** A process and its regions *)

Record process := mk_process { pr_lib : ubsm; pr_regions : list lrpc_ubsm_region }.
Definition process_start : process := mk_process (mk_ubsm 0 false [] false [] false) [].

Section process.
Context (UBSM_ERR_PARAM_INVALID UBSM_ERR_MEMORY MAX_SHM_NAME_LENGTH : Z).

Inductive process_step : process -> process -> Prop :=
| step_owner_open u rs V name size host limit r k :
    sdk_fresh V u ->
    lrpc_ubsm_owner_open UBSM_ERR_PARAM_INVALID UBSM_ERR_MEMORY MAX_SHM_NAME_LENGTH V name size host limit
      (mk_ubsm_state u empty_region) = (r, k) ->
    process_step (mk_process u rs) (mk_process (b_lib k) (b_region k :: rs))
| step_remote_open u rs V name size r k :
    sdk_fresh V u ->
    lrpc_ubsm_remote_open UBSM_ERR_PARAM_INVALID UBSM_ERR_MEMORY MAX_SHM_NAME_LENGTH V name size
      (mk_ubsm_state u empty_region) = (r, k) ->
    process_step (mk_process u rs) (mk_process (b_lib k) (b_region k :: rs))
| step_close u pre x post V deallocate r k :
    lrpc_ubsm_close UBSM_ERR_PARAM_INVALID V deallocate (mk_ubsm_state u x) = (r, k) ->
    process_step (mk_process u (pre ++ x :: post)) (mk_process (b_lib k) (pre ++ b_region k :: post)).

Definition process_inv (p : process) : Prop := ubsm_inv (pr_lib p) (pr_regions p).

Lemma add_empty u rs : ubsm_inv u rs -> ubsm_inv u (empty_region :: rs).
Proof using Type. intros []. constructor; try done. intros r [->|Hr]%elem_of_cons; [by constructor|auto]. Qed.

Lemma process_step_inv p p' : process_inv p -> process_step p p' -> process_inv p'.
Proof using Type.
  unfold process_inv. intros Hi Hst. revert Hi.
  destruct Hst as [u rs V name size host limit r k Hf H|u rs V name size r k Hf H|u pre x post V d r k H]; simpl; intros Hi.
  - pose proof (wp_owner_open UBSM_ERR_PARAM_INVALID UBSM_ERR_MEMORY MAX_SHM_NAME_LENGTH V rs
      (mk_ubsm_state u empty_region) name size host limit (add_empty _ _ Hi) ltac:(done) Hf) as Hw.
    apply wp_run with (1 := Hw) in H. destruct r; [apply H|done].
  - pose proof (wp_remote_open UBSM_ERR_PARAM_INVALID UBSM_ERR_MEMORY MAX_SHM_NAME_LENGTH V rs
      (mk_ubsm_state u empty_region) name size (add_empty _ _ Hi) ltac:(done) Hf) as Hw.
    apply wp_run with (1 := Hw) in H. destruct r; [apply H|done].
  - apply (ubsm_inv_perm _ _ (x :: pre ++ post)) in Hi; [|by rewrite Permutation_middle].
    pose proof (wp_close UBSM_ERR_PARAM_INVALID V (pre ++ post) (mk_ubsm_state u x) d Hi) as Hw.
    apply wp_run with (1 := Hw) in H. apply (ubsm_inv_perm _ (b_region k :: pre ++ post)); [by rewrite Permutation_middle|].
    destruct r; apply H.
Qed.

Lemma process_inv_reachable p : rtc process_step process_start p -> process_inv p.
Proof using Type.
  intros H. apply (rtc_invariant process_step process_inv _ _ process_step_inv H). constructor; try done.
  - apply NoDup_nil_2.
  - apply NoDup_nil_2.
  - intros m Hm. by apply elem_of_nil in Hm.
  - intros m Hm. by apply elem_of_nil in Hm.
  - apply NoDup_nil_2.
Qed.

(** C22. However regions are opened and closed, with whatever failures of the SDK,
    the library never misuses it: it is not initialized twice, not finalized while
    a mapping is live, and nothing is unmapped that is not mapped.  A mapped region
    is live in an initialized SDK, imports of the same name share one mapping, and
    once every region has been closed no mapping and no reference is left. *)
Theorem regions_never_misuse_the_sdk p :
  rtc process_step process_start p ->
  u_fault (pr_lib p) = false /\
  (forall r, r ∈ pr_regions p -> g_mapped r = true -> g_base r ∈ u_live (pr_lib p) /\ usable (pr_lib p) = true) /\
  (forall r1 r2 i1 i2, r1 ∈ pr_regions p -> r2 ∈ pr_regions p -> g_shared_mapping r1 = Some i1 ->
     g_shared_mapping r2 = Some i2 -> g_name r1 = g_name r2 -> g_base r1 = g_base r2) /\
  ((forall r, r ∈ pr_regions p -> idle r) ->
     u_refs (pr_lib p) = 0 /\ u_imports (pr_lib p) = [] /\ u_live (pr_lib p) = [] /\ u_up (pr_lib p) = false).
Proof using Type.
  intros Hi%process_inv_reachable. unfold process_inv in Hi. destruct p as [u rs]. simpl in *. split_and!.
  - apply Hi.
  - intros r Hr Hm. pose proof (ui_regions _ _ Hi r Hr) as [Hini Hsh]. split.
    + rewrite (ui_live _ _ Hi). apply elem_of_app. destruct (g_shared_mapping r) as [id|] eqn:E.
      * left. destruct (Hsh id eq_refl) as (_ & m & Hm' & _ & <- & _). by apply list_elem_of_fmap_2.
      * right. apply list_elem_of_In, in_concat. exists (own_mapping r).
        split; [apply list_elem_of_In; by apply list_elem_of_fmap_2|]. unfold own_mapping. rewrite Hm, E. by left.
    + unfold usable. rewrite (ui_up _ _ Hi), (ui_refs _ _ Hi). assert (H1 : 0 < sumz uses rs).
      { pose proof (sumz_nonneg uses rs uses_nonneg). destruct (decide (sumz uses rs = 0)) as [E|]; [|lia].
        apply (sumz_zero uses rs uses_nonneg E) in Hr. unfold uses in Hr. by rewrite Hini in Hr. }
      replace (_ >? 0) with true by lia. by destruct (u_external u).
  - intros r1 r2 i1 i2 H1 H2 E1 E2 En.
    destruct (ro_shared _ _ (ui_regions _ _ Hi r1 H1) i1 E1) as (_ & m1 & Hm1 & _ & <- & N1 & _).
    destruct (ro_shared _ _ (ui_regions _ _ Hi r2 H2) i2 E2) as (_ & m2 & Hm2 & _ & <- & N2 & _).
    f_equal. apply (nodup_key im_name (u_imports u)); try done; [apply Hi|congruence].
  - intros Hall. assert (Hrefs : u_refs u = 0).
    { rewrite (ui_refs _ _ Hi), (sumz_ext _ (fun _ => 0)); [clear; induction rs; simpl; lia|].
      intros r Hr. unfold uses. by destruct (Hall r Hr) as [-> _]. }
    assert (Himp : u_imports u = []).
    { destruct (u_imports u) as [|m l] eqn:E; [done|]. destruct (ui_imports _ _ Hi m ltac:(rewrite E; left)) as [Hr ?].
      rewrite (sumz_ext _ (fun _ => 0)) in Hr; [exfalso; clear -Hr H; induction rs; simpl in *; lia|].
      intros r Hr'. unfold refers. by destruct (Hall r Hr') as (_ & _ & ->). }
    split_and!; try done.
    + apply Permutation_nil_r. rewrite (ui_live _ _ Hi), Himp. simpl. clear -Hall. induction rs as [|r rs IH]; [done|]. simpl.
      unfold own_mapping at 1. destruct (Hall r ltac:(left)) as (_ & -> & _). simpl. apply IH. intros x Hx. apply Hall. by right.
    + rewrite (ui_up _ _ Hi), Hrefs. by rewrite andb_false_r.
Qed.
End process.

(** ** Physical addresses: lib/ubsm_pa.c *)

Record shmem_info := mk_info { if_name : string; if_size : Z; if_mem_num : Z; if_mem_unit_size : Z; if_mem_id_list : list Z }.
Record lrpc_ubsm_pa := mk_pa { pa_mem_id : Z; pa_unit_offset : Z; pa_pa : Z }.

Section addresses.
(** From the SDK headers, and the two queries of libobmm: a value or errno. *)
Context (MAX_MEMID_NUM name_bytes : Z).
Context (obmm_query_pa_by_memid : Z -> Z -> Z + Z) (obmm_query_memid_by_pa : Z -> (Z * Z) + Z).
Context (ubsmem_shmem_lookup : string -> shmem_info + Z).

Definition strncmp_differs (a b : string) (n : Z) : bool :=
  negb (String.eqb (substring 0 (Z.to_nat n) a) (substring 0 (Z.to_nat n) b)).

Definition valid_info (r : lrpc_ubsm_region) (info : shmem_info) : Z :=
  if negb (g_mapped r) || g_owner r || z0 (g_base r) || z0 (g_size r) || z0 (if_mem_num info) ||
     (if_mem_num info >? MAX_MEMID_NUM) || z0 (if_mem_unit_size info) || (if_size info !=? g_size r) ||
     strncmp_differs (if_name info) (g_name r) name_bytes then - EINVAL
  else if u64 ((g_size r - 1) / if_mem_unit_size info + 1) !=? if_mem_num info then - EINVAL
  else if for_all (if_mem_num info) (fun i => nz (if_mem_id_list info).[i]) then 0 else - EINVAL.

Definition lrpc_ubsm_import_info (r : lrpc_ubsm_region) : shmem_info + Z :=
  if negb (g_mapped r) || g_owner r then inr (- EINVAL)
  else match ubsmem_shmem_lookup (g_name r) with
  | inr rc => inr rc
  | inl info => if nz (valid_info r info) then inr (valid_info r info) else inl info
  end.

Definition obmm_error (errno : Z) : Z := if nz errno then - errno else - EIO.

Definition lrpc_ubsm_query_pa (r : lrpc_ubsm_region) (info : shmem_info) (offset : Z) : lrpc_ubsm_pa + Z :=
  if nz (valid_info r info) then inr (valid_info r info)
  else if offset >=? g_size r then inr (- EINVAL)
  else
    let within := offset mod if_mem_unit_size info in
    let id := (if_mem_id_list info).[offset / if_mem_unit_size info] in
    match obmm_query_pa_by_memid id within with
    | inr e => inr (obmm_error e)
    | inl pa =>
        match obmm_query_memid_by_pa pa with
        | inr e => inr (obmm_error e)
        | inl (reverse_id, reverse_offset) =>
            if (reverse_id !=? id) || (reverse_offset !=? within) then inr (- ESTALE)
            else inl (mk_pa id within pa)
        end
    end.

(** C37. A query that succeeds for an offset of a region of at most 2^63 bytes used a
    memory id that the import really has (the index is below the number of units,
    the id is not zero), the offset inside that unit, and an address that libobmm
    translates back to the same id and offset; two queries that return the same
    address agree on id and offset. *)
Theorem query_pa_is_exact r info offset out :
  0 <= offset -> g_size r <= 2 ^ 63 -> 0 < if_mem_unit_size info ->
  lrpc_ubsm_query_pa r info offset = inl out ->
  0 <= offset / if_mem_unit_size info < if_mem_num info /\ pa_mem_id out <> 0 /\
  pa_mem_id out = (if_mem_id_list info).[offset / if_mem_unit_size info] /\
  offset = (offset / if_mem_unit_size info) * if_mem_unit_size info + pa_unit_offset out /\
  obmm_query_memid_by_pa (pa_pa out) = inl (pa_mem_id out, pa_unit_offset out) /\
  forall offset' out', lrpc_ubsm_query_pa r info offset' = inl out' -> pa_pa out' = pa_pa out ->
    pa_mem_id out' = pa_mem_id out /\ pa_unit_offset out' = pa_unit_offset out.
Proof using Type.
  intros Ho Hs Hu. assert (Hrev : forall offset out, lrpc_ubsm_query_pa r info offset = inl out ->
    pa_unit_offset out = offset mod if_mem_unit_size info /\ pa_mem_id out = (if_mem_id_list info).[offset / if_mem_unit_size info] /\
    obmm_query_memid_by_pa (pa_pa out) = inl (pa_mem_id out, pa_unit_offset out) /\ valid_info r info = 0 /\ offset < g_size r).
  { intros off res H. unfold lrpc_ubsm_query_pa in H. destruct (nz (valid_info r info)) eqn:Hv; [done|].
    destruct (off >=? g_size r) eqn:Hlt; [done|]. cbv zeta in H. destruct (obmm_query_pa_by_memid _ _) as [pa|]; [|done].
    destruct (obmm_query_memid_by_pa pa) as [[rid roff]|] eqn:Hq; [|done]. case_if_in H; [done|]. injection H as <-. simpl.
    unfold nz in *. bprop. subst. done. }
  intros H. destruct (Hrev _ _ H) as (Hw & Hid & Hq & Hv & Hlt). unfold valid_info in Hv.
  destruct (negb (g_mapped r) || _ || _ || _ || _ || _ || _ || _ || _) eqn:E0; [done|].
  destruct (u64 _ !=? _) eqn:E1; [done|]. destruct (for_all _ _) eqn:E2; [|done]. unfold nz, z0 in *. bprop.
  assert (Hidx : offset / if_mem_unit_size info < if_mem_num info).
  { rewrite <- E1, u64_id.
    - pose proof (Z.div_le_mono offset (g_size r - 1) (if_mem_unit_size info) Hu ltac:(lia)). lia.
    - unfold in_u64. pose proof (Z.div_pos (g_size r - 1) (if_mem_unit_size info)).
      pose proof (Z.div_le_upper_bound (g_size r - 1) (if_mem_unit_size info) (g_size r - 1) Hu ltac:(nia)). lia. }
  pose proof (Z.div_pos offset (if_mem_unit_size info) Ho Hu). split_and!; try done.
  - rewrite Hid. pose proof (proj1 (for_all_spec _ _) E2 (offset / if_mem_unit_size info) ltac:(lia)) as Hne.
    unfold nz in Hne. by bprop.
  - rewrite Hw. pose proof (Z.div_mod offset (if_mem_unit_size info) ltac:(lia)). lia.
  - intros offset' out' H' Hpa. destruct (Hrev _ _ H') as (_ & _ & Hq' & _). rewrite Hpa, Hq in Hq'. by injection Hq' as -> ->.
Qed.
End addresses.

(** ** Witnesses: two clients import the same region, the first one closes *)

Definition demo_sdk (base import : Z) : sdk_answers := mk_sdk None 0 0 0 0 0 0 base 0 0 import.
Definition demo_open (base import : Z) (u : ubsm) : ubsm_state :=
  (lrpc_ubsm_remote_open 1 2 48 (demo_sdk base import) "lrpc_ub_domain" LRPC_UBSM_REGION_SIZE (mk_ubsm_state u empty_region)).2.
Definition demo_first_region : ubsm_state := Eval vm_compute in demo_open 0x1000 7 (pr_lib process_start).
Definition demo_second_region : ubsm_state := Eval vm_compute in demo_open 0x2000 8 (b_lib demo_first_region).
Definition demo_closed : ubsm_state := Eval vm_compute in
  (lrpc_ubsm_close 1 (demo_sdk 0 0) false (mk_ubsm_state (b_lib demo_second_region) (b_region demo_first_region))).2.

Lemma demo_process_reached :
  rtc (process_step 1 2 48) process_start (mk_process (b_lib demo_closed) [b_region demo_second_region; b_region demo_closed]).
Proof.
  eapply rtc_l; [apply (step_remote_open 1 2 48 _ [] (demo_sdk 0x1000 7) "lrpc_ub_domain" LRPC_UBSM_REGION_SIZE (inl tt) demo_first_region)|].
  { constructor; apply not_elem_of_nil. }
  { vm_compute. reflexivity. }
  eapply rtc_l; [apply (step_remote_open 1 2 48 _ _ (demo_sdk 0x2000 8) "lrpc_ub_domain" LRPC_UBSM_REGION_SIZE (inl tt) demo_second_region)|].
  { constructor; apply (bool_decide_eq_true_1 _); vm_compute; reflexivity. }
  { vm_compute. reflexivity. }
  apply rtc_once. apply (step_close 1 2 48 _ [b_region demo_second_region] (b_region demo_first_region) [] (demo_sdk 0 0) false (inl tt) demo_closed).
  vm_compute. reflexivity.
Qed.

Lemma regions_never_misuse_the_sdk_witness :
  g_mapped (b_region demo_second_region) = true /\ g_base (b_region demo_second_region) ∈ u_live (b_lib demo_closed).
Proof.
  split; [reflexivity|].
  refine (proj1 (proj1 (proj2 (regions_never_misuse_the_sdk 1 2 48 _ demo_process_reached)) (b_region demo_second_region) _ eq_refl)). left.
Defined.

Definition demo_info : shmem_info := mk_info "lrpc_ub_domain" LRPC_UBSM_REGION_SIZE 2 0x200000 [5; 6].
Definition demo_imported : lrpc_ubsm_region := mk_region 0x1000 LRPC_UBSM_REGION_SIZE "lrpc_ub_domain" true true false (Some 7).
Definition demo_pa (id within : Z) : Z + Z := inl (id * 2 ^ 32 + within).
Definition demo_id (pa : Z) : (Z * Z) + Z := inl (pa / 2 ^ 32, pa mod 2 ^ 32).

Lemma query_pa_is_exact_witness : demo_id (6 * 2 ^ 32 + 0x10000) = inl (6, 0x10000).
Proof.
  refine (proj1 (proj2 (proj2 (proj2 (proj2 (query_pa_is_exact 16 48 demo_pa demo_id demo_imported demo_info 0x210000
    (mk_pa 6 0x10000 (6 * 2 ^ 32 + 0x10000)) _ _ _ _)))))).
  - lia.
  - vm_compute. discriminate.
  - vm_compute. reflexivity.
  - vm_compute. reflexivity.
Defined.
