(* ===== verification/Owner.v ===== *)
(** * The owner of the region: demo/ub/domain_owner.c and provider_options.h

    The B side: options, the code bundle it may publish, the region it prepares,
    one pass of its polling loop (multi-client mode) and its single publication
    (single-client mode).  The region is a byte memory addressed by offset. *)

From Stdlib Require Import String Ascii.
From S2P Require Import Prelude CMem CString Abi Layout RemoteCode Social Services Pool.

(** ** Options *)

Record owner_options := mk_owner {
  ow_social : bool; ow_write : bool; ow_shared : bool; ow_multi : bool;
  ow_remote : option string; ow_nginx3 : bool; ow_args : list string }.
Definition no_options : owner_options := mk_owner false false false false None false [].

(** The first pass over [argv]; [None] is [return 2]. *)
Fixpoint owner_scan (args : list string) (o : owner_options) : option owner_options :=
  match args with
  | [] => Some o
  | arg :: rest =>
      if String.eqb arg "--social" then
        if ow_social o then None
        else owner_scan rest (mk_owner true (ow_write o) (ow_shared o) (ow_multi o) (ow_remote o) (ow_nginx3 o) (ow_args o))
      else if String.eqb arg "--social-write" then
        if ow_social o || ow_write o then None
        else owner_scan rest (mk_owner true true (ow_shared o) (ow_multi o) (ow_remote o) (ow_nginx3 o) (ow_args o))
      else if String.eqb arg "--social-shared" then
        if ow_social o || ow_shared o then None
        else owner_scan rest (mk_owner true (ow_write o) true (ow_multi o) (ow_remote o) (ow_nginx3 o) (ow_args o))
      else if String.eqb arg "--multi" then
        if ow_multi o then None
        else owner_scan rest (mk_owner (ow_social o) (ow_write o) (ow_shared o) true (ow_remote o) (ow_nginx3 o) (ow_args o))
      else if String.eqb arg "--remote-code" then
        match ow_remote o, rest with
        | None, file :: rest =>
            owner_scan rest (mk_owner (ow_social o) (ow_write o) (ow_shared o) (ow_multi o) (Some file) (ow_nginx3 o) (ow_args o))
        | _, _ => None
        end
      else if String.eqb arg "--experimental-nginx3" then
        if ow_nginx3 o then None
        else owner_scan rest (mk_owner (ow_social o) (ow_write o) (ow_shared o) (ow_multi o) (ow_remote o) true (ow_args o))
      else owner_scan rest (mk_owner (ow_social o) (ow_write o) (ow_shared o) (ow_multi o) (ow_remote o) (ow_nginx3 o) (ow_args o ++ [arg]))
  end.

Definition is_some {A} (o : option A) : bool := match o with Some _ => true | None => false end.

(** [--social] implies [--multi]; combinations that make no sense are refused. *)
Definition owner_options_of (args : list string) : option owner_options :=
  match owner_scan args no_options with
  | None => None
  | Some o =>
      let o := mk_owner (ow_social o) (ow_write o) (ow_shared o) (ow_multi o || ow_social o) (ow_remote o) (ow_nginx3 o) (ow_args o) in
      if is_some (ow_remote o) && (ow_write o || ow_shared o || (ow_multi o && negb (ow_social o))) then None
      else if ow_social o && negb (ow_write o) && negb (ow_shared o) && negb (is_some (ow_remote o)) then None
      else if ow_nginx3 o && (negb (ow_social o) || ow_write o || ow_shared o || negb (is_some (ow_remote o))) then None
      else Some o
  end.

Definition owner_profile (o : owner_options) : Z :=
  if ow_shared o then UD_PROFILE_SOCIAL_SHARED
  else if ow_write o then UD_PROFILE_SOCIAL_WRITE
  else if ow_social o then UD_PROFILE_SOCIAL else UD_PROFILE_MICRO.

(** ** Provider options *)

Definition UINT32_MAX := 2 ^ 32 - 1.

Definition starts_with_dash (s : string) : bool :=
  match s with String c _ => Ascii.eqb c "-"%char | EmptyString => false end.
Definition provider_value (text : string) : option Z :=
  if String.eqb text "" || starts_with_dash text then None
  else let '(value, rest, range) := strtoull 10 text in
    if range || negb (String.eqb rest "") || (value >? UINT32_MAX) then None else Some value.

Record provider_options := mk_provider {
  pv_socket_id : Z; pv_numa_id : Z; pv_port_id : Z; pv_override : option string; pv_pos : list string }.
Definition provider_start : provider_options := mk_provider UINT32_MAX UINT32_MAX UINT32_MAX None [].

Fixpoint ub_provider_parse (args : list string) (maximum : nat) (o : provider_options) : option provider_options :=
  match args with
  | [] => Some o
  | arg :: rest =>
      if String.eqb arg "--provider-host" then
        match rest, pv_override o with
        | host :: rest, None =>
            ub_provider_parse rest maximum (mk_provider (pv_socket_id o) (pv_numa_id o) (pv_port_id o) (Some host) (pv_pos o))
        | _, _ => None
        end
      else if String.eqb arg "--provider-socket" || String.eqb arg "--provider-numa" || String.eqb arg "--provider-port" then
        match rest with
        | text :: rest =>
            match provider_value text with
            | None => None
            | Some v =>
                ub_provider_parse rest maximum
                  (if String.eqb arg "--provider-socket" then mk_provider v (pv_numa_id o) (pv_port_id o) (pv_override o) (pv_pos o)
                   else if String.eqb arg "--provider-numa" then mk_provider (pv_socket_id o) v (pv_port_id o) (pv_override o) (pv_pos o)
                   else mk_provider (pv_socket_id o) (pv_numa_id o) v (pv_override o) (pv_pos o))
            end
        | [] => None
        end
      else if starts_with_dash arg || (length (pv_pos o) =? maximum)%nat then None
      else ub_provider_parse rest maximum (mk_provider (pv_socket_id o) (pv_numa_id o) (pv_port_id o) (pv_override o) (pv_pos o ++ [arg]))
  end.

(** The host name, [bytes] the size of its buffer; [local] is what [gethostname] left
    there, if it succeeded and is terminated. *)
Definition ub_provider_resolve (o : provider_options) (legacy local : option string) (bytes : Z) : option string :=
  if is_some legacy && is_some (pv_override o) then None
  else match (match pv_override o with Some h => Some h | None => legacy end) with
  | Some host => if String.eqb host "" || (Z.of_nat (String.length host) >=? bytes) then None else Some host
  | None => match local with Some host => if String.eqb host "" then None else Some host | None => None end
  end.

(** ** The code bundle

    [file] is the outcome of opening and reading the bundle file: [None] if it cannot be
    read in full (or is longer than the bundle). *)

Definition owner_bundle_check (o : owner_options) (b : ud_remote_bundle) : Z :=
  let m := b_manifest b in
  if negb (ud_remote_bundle_valid b) then 1
  else if r_mode m !=? (if ow_social o then UD_CODE_REMOTE_SOCIAL else UD_CODE_REMOTE_VERIFIED) then 2
  else if ow_social o && (ud_remote_social_count (r_reserved m) =? 3) && negb (ow_nginx3 o) then 2
  else if ow_nginx3 o && (negb (ow_social o) || (ud_remote_social_count (r_reserved m) !=? 3)) then 2
  else 0.

(** Everything before the region is opened: the exit code, or the options, the provider
    positionals' name of the region, and the bundle to publish. *)
Definition owner_arguments (argv : list string) (local : option string) (host_bytes : Z)
    (file : string -> option ud_remote_bundle) : Z + (owner_options * string * string * option ud_remote_bundle) :=
  match owner_options_of argv with
  | None => inl 2
  | Some o =>
      match ub_provider_parse (ow_args o) 2 provider_start with
      | None => inl 2
      | Some p =>
          let '(legacy, name) := match pv_pos p with
            | [host; name] => (Some host, name)
            | [name] => (None, name)
            | _ => (None, "lrpc_ub_domain"%string)
            end in
          match ub_provider_resolve p legacy local host_bytes with
          | None => inl 2
          | Some host =>
              match ow_remote o with
              | None => inr (o, host, name, None)
              | Some path =>
                  match file path with
                  | None => inl 1
                  | Some b => let rc := owner_bundle_check o b in
                      if z0 rc then inr (o, host, name, Some b) else inl rc
                  end
              end
          end
      end
  end.

(** ** The region, multi-client mode *)

Definition bundle_words (b : ud_remote_bundle) (d : Z) : list Z :=
  take (Z.to_nat (nthz 0 (r_words (b_manifest b)) d)) (b_img b d).
Definition bundle_images (b : ud_remote_bundle) : list write :=
  (fun d => wwords (UD_IMAGE d) (bundle_words b d)) <$> seqZ 0 UD_DOMAINS.

(** [None]: the pool could not be initialized and the owner gives up. *)
Definition owner_multi_setup (o : owner_options) (bundle : option ud_remote_bundle) (generation : Z) (m : mem) : option mem :=
  if z0 generation then None
  else
    let '(rc, m) := ud_pool_initialize_profile m generation (owner_profile o) in
    if nz rc then None
    else Some match bundle with
    | None => m
    | Some b =>
        apply_writes
          ((if ow_social o then [wstruct UD_HEAP (us_heap_init_count (ud_remote_social_count (r_reserved (b_manifest b))))] else [])
           ++ wstruct UD_REMOTE_META_OFFSET (b_manifest b) :: bundle_images b) m
    end.

(** The lines the owner prints while it polls. *)
Inductive owner_event :=
| POOL_PUBLISHED (count : Z)
| WRITE_SLOT_READY (slot identity : Z)
| WRITE_OBSERVED (slot identity index value : Z)
| SHARED_OBSERVED (generation index value : Z).

Definition WRITE_CELLS := UD_PAGE / 8.
Record observer := mk_observer {
  ob_identity : list Z;            (** [observed_identity] *)
  ob_observed : list (list Z);     (** [observed] *)
  ob_previous : list Z }.          (** [previous] *)
Definition observer_start : observer :=
  mk_observer (replicate (Z.to_nat UD_CLIENTS) 0)
    (replicate (Z.to_nat UD_CLIENTS) (replicate (Z.to_nat WRITE_CELLS) 0)) [0; 0].

(** Compare the cells with what was seen last. *)
Definition observe_cells (slot identity : Z) (m : mem) (seen : list Z) : list Z * list owner_event :=
  for_ WRITE_CELLS (fun index '(seen, events) =>
    let value := ld64 m (UD_WRITE_HEAP slot + 8 * index) in
    if value !=? nthz 0 seen index then
      (setz seen index value, events ++ (if nz value then [WRITE_OBSERVED slot identity index value] else []))
    else (seen, events)) (seen, []).

Definition observe_slot (slot : Z) (m : mem) (ob : observer) : observer * list owner_event :=
  let identity := ld64 m (UD_POOL_SLOT slot + PUB_COMPLETE) in
  if z0 identity then (ob, [])
  else
    let reused := identity !=? nthz 0 (ob_identity ob) slot in
    let seen := if reused then replicate (Z.to_nat WRITE_CELLS) 0 else nthz [] (ob_observed ob) slot in
    let '(seen, events) := observe_cells slot identity m seen in
    (mk_observer (setz (ob_identity ob) slot identity) (setz (ob_observed ob) slot seen) (ob_previous ob),
     (if reused then [WRITE_SLOT_READY slot identity] else []) ++ events).

Definition observe_write (m : mem) (ob : observer) : observer * list owner_event :=
  for_ UD_CLIENTS (fun slot '(ob, events) =>
    let '(ob, more) := observe_slot slot m ob in (ob, events ++ more)) (ob, []).

Definition observe_shared (generation : Z) (m : mem) (ob : observer) : observer * list owner_event :=
  let values := [ld64 m (UD_SHARED_HEAP + 8 * US_SHARED_VALUE_INDEX); ld64 m (UD_SHARED_HEAP + 8 * US_SHARED_COUNTER_INDEX)] in
  for_ 2 (fun index '(ob, events) =>
    let value := nthz 0 values index in
    if value !=? nthz 0 (ob_previous ob) index then
      (mk_observer (ob_identity ob) (ob_observed ob) (setz (ob_previous ob) index value),
       events ++ [SHARED_OBSERVED generation (index + 1) value])
    else (ob, events)) (ob, []).

(** One pass of the loop; [None] is the failing exit. *)
Definition owner_poll (o : owner_options) (generation : Z) (m : mem) (ob : observer)
    : option (mem * observer * list owner_event) :=
  let '(rc, m) := ud_pool_poll m in
  if rc <? 0 then None
  else
    let events := if nz rc then [POOL_PUBLISHED rc] else [] in
    let '(ob, written) := if ow_write o then observe_write m ob else (ob, []) in
    let '(ob, shared) := if ow_shared o then observe_shared generation m ob else (ob, []) in
    Some (m, ob, events ++ written ++ shared).

(** ** The region, single-client mode *)

Definition owner_single_setup (bundle : option ud_remote_bundle) (m : mem) : mem :=
  let m := fill m 0 UD_BYTES 0 in
  match bundle with
  | Some b => apply_writes [wstruct UD_REMOTE_META_OFFSET (b_manifest b)] m
  | None => m
  end.

Definition single_domain (bundle : option ud_remote_bundle) (c : ud_contract) (d : Z) : list write :=
  ((fun l => (UD_TABLE d l, enc_fields (replicate 512 8%nat) (ud_build_table c d l))) <$> seqZ 0 4)
  ++ [wwords (UD_IMAGE d) match bundle with Some b => bundle_words b d | None => assemble (ud_service d) end;
      wstruct (UD_CONTEXT d) (mk_initial UD_ARGS UD_DATA (UD_STACK + UD_PAGE) UD_VA)].

Definition single_writes (bundle : option ud_remote_bundle) (c : ud_contract) : list write :=
  mjoin (single_domain bundle c <$> seqZ 0 UD_DOMAINS) ++ init_heap UD_PROFILE_MICRO
  ++ [w64 PUB_B_INITIALIZATIONS 1; w64 PUB_COMPLETE (c_nonce c)].

(** The answer to the single client once it has set [request]; [None] if the contract is refused. *)
Definition owner_single_publish (bundle : option ud_remote_bundle) (m : mem) : option mem :=
  let c := ld_struct ud_contract m 0 in
  if negb (ud_contract_valid c) || nz (c_write_pa c) || (c_nonce c !=? ld64 m PUB_REQUEST) then None
  else Some (apply_writes (single_writes bundle c) m).
