(* ===== verification/Connect.v ===== *)
(** * From request to connection

    The owner ([Owner], [Pool]) and the module ([Session]) meet in the region: what
    the owner publishes in answer to a request is what the module's commit accepts,
    in the multi-client and in the single-client protocol. *)

From Stdlib Require Import String.
From S2P Require Import Prelude Monad CMem Abi Layout PageWalk PoolSlots Arm64 RemoteCode Social RemoteSound Services Pool PoolPoll Kernel KernelLogic Session Ledger Device Commit Ready Gate Run Lifecycle Sessions Demo Guarantees Owner.

(** ** Writes whose places are known

    An interval (start, size) for each write: enough to read back any of them when
    the intervals are apart, whatever the bytes are. *)

Definition fits (w : write) (iv : Z * Z) : Prop := w.1 = iv.1 /\ Z.of_nat (length w.2) <= iv.2.
Definition apart (a n : Z) (iv : Z * Z) : bool := (a + n <=? iv.1) || (iv.1 + iv.2 <=? a).
Fixpoint separate (ivs : list (Z * Z)) : bool :=
  match ivs with
  | [] => true
  | iv :: ivs => forallb (apart iv.1 iv.2) ivs && separate ivs
  end.

Lemma writes_frame ws ivs m a n :
  Forall2 fits ws ivs -> forallb (apart a n) ivs = true -> load_bytes (apply_writes ws m) a n = load_bytes m a n.
Proof.
  intros H. revert m. induction H as [|w iv ws ivs [Hs Hl] _ IH]; intros m; [done|]. cbn [forallb]. intros [Ha Hr]%andb_true_iff.
  change (apply_writes (w :: ws) m) with (apply_writes ws (store_bytes m w.1 w.2)). rewrite IH by done.
  apply load_store_other. unfold disjoint_ranges, apart in *. lia.
Qed.

Lemma writes_load ws ivs m i w :
  Forall2 fits ws ivs -> separate ivs = true -> ws !! i = Some w ->
  load_bytes (apply_writes ws m) w.1 (Z.of_nat (length w.2)) = w.2.
Proof.
  intros H. revert m i. induction H as [|w' iv ws ivs [Hs Hl] Hf IH]; intros m i; [done|]. cbn [separate].
  intros [Ha Hr]%andb_true_iff Hi. change (apply_writes (w' :: ws) m) with (apply_writes ws (store_bytes m w'.1 w'.2)).
  destruct i as [|i]; [|by eapply IH]. injection Hi as ->.
  rewrite (writes_frame _ _ _ _ _ Hf); [by apply load_store_same|]. rewrite forallb_forall in *. intros x Hx.
  specialize (Ha x Hx). unfold apart in *. lia.
Qed.

Lemma writes_struct {A} `{CStruct A} ws ivs m i a (v : A) :
  Forall2 fits ws ivs -> separate ivs = true -> ws !! i = Some (wstruct a v) -> struct_ok v ->
  ld_struct A (apply_writes ws m) a = v.
Proof.
  intros Hf Hs Hi Hv. pose proof (writes_load _ _ m _ _ Hf Hs Hi) as Hl. cbn [wstruct fst snd] in Hl.
  rewrite enc_struct_length in Hl by done. unfold ld_struct. rewrite Hl, dec_enc_fields by by apply fields_ok.
  by apply of_fields_fields.
Qed.

Lemma writes_frame_struct {A} `{CStruct A} ws ivs m a :
  Forall2 fits ws ivs -> forallb (apart a (sizeof A)) ivs = true ->
  ld_struct A (apply_writes ws m) a = ld_struct A m a.
Proof. intros Hf Ha. unfold ld_struct. by rewrite (writes_frame _ _ _ _ _ Hf). Qed.

(** ** What the owner prepares for many clients *)

(** A bundle as the owner reads it from a file. *)
Definition bundle_ok (b : ud_remote_bundle) : Prop :=
  struct_ok (b_manifest b) /\ length (b_image b) = 4%nat /\
  Forall (fun ws => length ws = 32%nat /\ Forall in_u32 ws) (b_image b).

Definition bundle_writes (social : bool) (b : ud_remote_bundle) : list write :=
  (if social then [wstruct UD_HEAP (us_heap_init_count (ud_remote_social_count (r_reserved (b_manifest b))))] else [])
  ++ wstruct UD_REMOTE_META_OFFSET (b_manifest b) :: bundle_images b.

Definition bundle_intervals (social : bool) : list (Z * Z) :=
  (if social then [(UD_HEAP, 112)] else []) ++ (UD_REMOTE_META_OFFSET, 40) :: ((fun d => (UD_IMAGE d, 128)) <$> seqZ 0 UD_DOMAINS).

Lemma bundle_img_ok b d : bundle_ok b -> 0 <= d < 4 -> length (b_img b d) = 32%nat /\ Forall in_u32 (b_img b d).
Proof.
  intros (_ & Hl & Hf) Hd. unfold b_img, nthz. rewrite List.Forall_forall in Hf. apply Hf, nth_In. lia.
Qed.

Lemma bundle_words_length b d : bundle_ok b -> 0 <= d < 4 -> (length (bundle_words b d) <= 32)%nat.
Proof. intros Hb Hd. unfold bundle_words. rewrite length_take. destruct (bundle_img_ok b d Hb Hd) as [-> _]. lia. Qed.

Lemma wwords_length a ws : length (wwords a ws).2 = (4 * length ws)%nat.
Proof.
  simpl. rewrite enc_fields_length by by rewrite length_replicate. induction ws as [|w ws IH]; [done|]. simpl. lia.
Qed.

Lemma social_count_cases tag :
  ud_remote_social_count tag = 0 \/ ud_remote_social_count tag = 1 \/ ud_remote_social_count tag = 3.
Proof. unfold ud_remote_social_count. repeat case_if; auto. Qed.

Lemma bundle_fits social b : bundle_ok b -> Forall2 fits (bundle_writes social b) (bundle_intervals social).
Proof.
  intros Hb. unfold bundle_writes, bundle_intervals. apply Forall2_app.
  - destruct social; [|constructor]. constructor; [|constructor]. split; [done|]. cbn [wstruct snd].
    rewrite enc_struct_length; [done|]. apply us_heap_init_ok.
    destruct (social_count_cases (r_reserved (b_manifest b))) as [-> |[-> | ->]]; done.
  - constructor.
    + split; [done|]. cbn [wstruct snd]. rewrite enc_struct_length; [done|apply Hb].
    + unfold bundle_images. apply Forall2_fmap_2, Forall_Forall2_diag, List.Forall_forall. intros d Hd%list_elem_of_In%elem_of_seqZ.
      split; [done|]. rewrite wwords_length. pose proof (bundle_words_length b d Hb Hd). cbn [snd]. lia.
Qed.

(** The parts of the region that stay as the owner prepared them. *)
Record prepared_region (profile generation : Z) (bundle : option ud_remote_bundle) (R : mem) : Prop := {
  pg_header : ld_struct ud_pool_header R 0 = mk_pool_header UD_POOL_MAGIC generation UD_POOL_ABI UD_CLIENTS UD_DOMAINS 0;
  pg_tag : ld_struct ud_profile_header R UD_PROFILE_OFFSET = mk_profile_header UD_PROFILE_MAGIC UD_POOL_ABI profile;
  pg_contexts : forall d, 0 <= d < UD_DOMAINS -> ld_struct ud_initial R (UD_CONTEXT d) = domain_initial profile d;
  pg_code : match bundle with
    | None => forall d p, 0 <= d < UD_DOMAINS -> ud_profile_service profile d = Some p ->
        load_bytes R (UD_IMAGE d) (service_size (Some p)) = (wwords 0 (assemble p)).2
    | Some b => ld_struct ud_remote_manifest R UD_REMOTE_META_OFFSET = b_manifest b /\
        forall d, 0 <= d < UD_DOMAINS -> ld_array 4 R (UD_IMAGE d) (r_words (b_manifest b)).[d] = bundle_words b d
    end;
  pg_heap : match bundle with
    | None => if profile =? UD_PROFILE_MICRO then micro_heap_valid R UD_HEAP = true
              else us_heap_valid (ld_struct us_heap R UD_HEAP) = true
    | Some b => ld_struct us_heap R UD_HEAP = us_heap_init_count (ud_remote_social_count (r_reserved (b_manifest b)))
    end }.

(** They lie below the slots. *)
Definition low (x : Z) : bool := (0 <=? x) && (x <? UD_POOL_SLOT 0).

Lemma prepared_region_agree profile generation bundle R R' :
  agree low R' R -> (forall b d, bundle = Some b -> 0 <= d < 4 -> (r_words (b_manifest b)).[d] <= UD_REMOTE_MAX_WORDS) ->
  prepared_region profile generation bundle R -> prepared_region profile generation bundle R'.
Proof.
  intros Ha Hw []. assert (Hbytes : forall a n, 0 <= a -> a + n <= UD_POOL_SLOT 0 -> load_bytes R' a n = load_bytes R a n).
  { intros a n H0 Hn. apply load_bytes_ext. intros i Hi. apply Ha. unfold low. lia. }
  assert (Hst : forall A `(CStruct A) a, 0 <= a -> a + sizeof A <= UD_POOL_SLOT 0 -> ld_struct A R' a = ld_struct A R a).
  { intros A HA a H0 Hn. unfold ld_struct. by rewrite Hbytes. }
  constructor.
  - by rewrite Hst.
  - by rewrite Hst.
  - intros d Hd. rewrite Hst; [by apply pg_contexts0|unfold UD_CONTEXT; lia|].
    change (sizeof ud_initial) with 32. unfold UD_CONTEXT, UD_POOL_SLOT, UD_DOMAINS in *. lia.
  - destruct bundle as [b|].
    + rewrite Hst by done. split; [apply pg_code0|]. intros d Hd. rewrite <- (proj2 pg_code0 d Hd). apply ld_array_ext.
      intros i Hi. apply Ha. specialize (Hw b d eq_refl Hd). unfold low, UD_IMAGE, UD_POOL_SLOT, UD_DOMAINS, UD_REMOTE_MAX_WORDS in *. lia.
    + intros d p Hd Hp. rewrite Hbytes; [by apply pg_code0|unfold UD_IMAGE; lia|].
      pose proof (services_fit _ _ _ Hp). unfold UD_IMAGE, UD_POOL_SLOT, UD_DOMAINS, UD_PAGE in *. lia.
  - rewrite Hst by done. destruct bundle as [b|]; [done|]. destruct (profile =? UD_PROFILE_MICRO); [|done].
    rewrite <- pg_heap0. unfold micro_heap_valid. unfold ld. rewrite Hbytes by done. f_equal. apply for_all_ext. intros d Hd.
    rewrite !Hbytes by (unfold UD_HEAP, UD_POOL_SLOT in *; lia). done.
Qed.

(** Each image of a valid bundle passes the verifier of its kind. *)
Lemma bundle_valid_image b d :
  ud_remote_bundle_valid b = true -> 0 <= d < UD_DOMAINS ->
  (if r_mode (b_manifest b) =? UD_CODE_REMOTE_SOCIAL
   then ud_remote_social_image_valid d (b_img b d) (r_words (b_manifest b)).[d]
   else ud_remote_image_valid d (b_img b d) (r_words (b_manifest b)).[d]) = true /\
  1 <= (r_words (b_manifest b)).[d] <= UD_REMOTE_MAX_WORDS.
Proof.
  intros Hv Hd. unfold ud_remote_bundle_valid in Hv. cbv zeta in Hv. repeat (case_if_in Hv; [done|]).
  rewrite for_all_spec in Hv. specialize (Hv d Hd). simpl in Hv. case_if_in Hv; [done|].
  match goal with H : negb _ = false |- _ => apply negb_false_iff in H; rename H into Hi end. split; [done|].
  destruct (r_mode _ =? _) in Hi.
  - unfold ud_remote_social_image_valid in Hi. case_if_in Hi; [done|]. bprop. lia.
  - unfold ud_remote_image_valid in Hi. case_if_in Hi; [done|]. bprop.
    repeat (case_if_in Hi; bprop; try done; try lia).
Qed.

(** What the owner's arguments guarantee about its mode and bundle. *)
Record owner_consistent (o : owner_options) (bundle : option ud_remote_bundle) : Prop := {
  oc_multi : ow_social o = true -> ow_multi o = true;
  oc_none : bundle = None -> owner_profile o <> UD_PROFILE_SOCIAL;
  oc_profile : owner_profile o <> UD_PROFILE_MICRO -> ow_social o = true;
  oc_some : forall b, bundle = Some b -> ow_write o = false /\ ow_shared o = false /\
    (ow_multi o = true -> ow_social o = true) /\ owner_bundle_check o b = 0 }.

Lemma owner_scan_social args o o' :
  (ow_write o = true \/ ow_shared o = true -> ow_social o = true) ->
  owner_scan args o = Some o' -> ow_write o' = true \/ ow_shared o' = true -> ow_social o' = true.
Proof.
  revert o. induction args as [args IH] using (induction_ltof1 _ (@length string)). intros o Ho. unfold ltof in IH.
  destruct args as [|arg rest]; simpl; [by intros [= <-]|].
  repeat (case_if; try done; try (apply IH; [simpl; lia|simpl; tauto])).
  destruct (ow_remote o); [done|]. destruct rest as [|file rest]; [done|]. apply IH; [simpl; lia|simpl; tauto].
Qed.

Lemma owner_arguments_consistent argv local bytes file o host name bundle :
  owner_arguments argv local bytes file = inr (o, host, name, bundle) -> owner_consistent o bundle.
Proof.
  unfold owner_arguments, owner_options_of. destruct (owner_scan argv no_options) as [o0|] eqn:Hs; [|done].
  pose proof (owner_scan_social argv no_options o0 ltac:(by intros []) Hs) as Hsoc. simpl.
  destruct (is_some (ow_remote o0) && _) eqn:E1; [done|]. destruct (ow_social o0 && _ && _ && _) eqn:E2; [done|].
  destruct (ow_nginx3 o0 && _); [done|]. simpl. destruct (ub_provider_parse _ _ _) as [p|]; [|done].
  destruct (match pv_pos p with [] => _ | _ => _ end) as [legacy name']. destruct (ub_provider_resolve _ _ _ _) as [h|]; [|done].
  set (o1 := mk_owner _ _ _ _ _ _ _).
  assert (Hc : forall b, (b = None -> ow_remote o0 = None) ->
    (forall b', b = Some b' -> is_some (ow_remote o0) = true /\ owner_bundle_check o1 b' = 0) -> owner_consistent o1 b).
  { intros b Hn Hb. constructor; simpl.
    - intros ->. apply orb_true_r.
    - intros ->. rewrite (Hn eq_refl) in E2. simpl in E2. unfold owner_profile. simpl.
      destruct (ow_shared o0); [done|]. destruct (ow_write o0); [done|]. by destruct (ow_social o0).
    - unfold owner_profile. simpl. destruct (ow_shared o0); [auto|]. destruct (ow_write o0); [auto|]. by destruct (ow_social o0).
    - intros b' ->. destruct (Hb b' eq_refl) as [Hr Hchk]. rewrite Hr in E1. simpl in E1.
      apply orb_false_iff in E1 as [[E1w E1s]%orb_false_iff E1m]. split_and!; try done.
      intros Hm. rewrite Hm in E1m. simpl in E1m. by apply negb_false_iff in E1m. }
  destruct (ow_remote o0) as [path|] eqn:Hr; simpl.
  - destruct (file path) as [b|]; [|done]. destruct (z0 (owner_bundle_check o1 b)) eqn:Hz; [|done]. intros [= <- <- <- <-].
    apply Hc; [done|]. intros b' [= <-]. split; [done|]. unfold z0 in Hz. lia.
  - intros [= <- <- <- <-]. by apply Hc.
Qed.

Lemma owner_profile_range o : 0 <= owner_profile o <= UD_PROFILE_SOCIAL_SHARED.
Proof. unfold owner_profile. repeat case_if; done. Qed.

(** The region once the owner announces it is ready. *)
Lemma owner_multi_setup_region o bundle generation m R :
  owner_consistent o bundle -> ow_multi o = true -> 0 <= generation < 2 ^ 64 -> (forall b, bundle = Some b -> bundle_ok b) ->
  owner_multi_setup o bundle generation m = Some R -> prepared_region (owner_profile o) generation bundle R.
Proof.
  intros Hc Hm Hg Hb. unfold owner_multi_setup. destruct (z0 generation) eqn:Hz; [done|].
  unfold ud_pool_initialize_profile. pose proof (owner_profile_range o) as Hp. rewrite Hz.
  replace (owner_profile o >? UD_PROFILE_SOCIAL_SHARED) with false by lia. cbn [orb].
  pose proof (init_ok generation _ Hp) as Hi. destruct (init_writes generation (owner_profile o)) as [ok ws] eqn:Hw.
  cbn [fst] in Hi. subst ok. cbn zeta iota. intros [= <-].
  set (base := apply_writes ws (fill m 0 UD_BYTES 0)).
  assert (Hbase : base = apply_writes (init_writes generation (owner_profile o)).2 (fill m 0 UD_BYTES 0)) by by rewrite Hw.
  assert (Hg' : 0 < generation < 2 ^ 64) by (unfold z0 in Hz; lia).
  destruct bundle as [b|].
  - destruct (oc_some _ _ Hc b eq_refl) as (Hwr & Hsh & Hms & Hchk). rewrite Hms by done.
    assert (Hcount : forall d, 0 <= d < UD_DOMAINS -> 1 <= (r_words (b_manifest b)).[d] <= UD_REMOTE_MAX_WORDS).
    { intros d Hd. unfold owner_bundle_check in Hchk. cbv zeta in Hchk. case_if_in Hchk; [done|].
      apply (bundle_valid_image b d); [by apply negb_false_iff|done]. }
    specialize (Hb b eq_refl). pose proof (bundle_fits true b Hb) as Hf. fold (bundle_writes true b).
    constructor.
    + rewrite (writes_frame_struct _ _ _ _ Hf) by reflexivity. rewrite Hbase. by apply init_header_load.
    + rewrite (writes_frame_struct _ _ _ _ Hf) by reflexivity. rewrite Hbase. by apply init_tag_load.
    + intros d Hd. rewrite (writes_frame_struct _ _ _ _ Hf); [rewrite Hbase; by apply init_context_load|].
      assert (Hd4 : d = 0 \/ d = 1 \/ d = 2 \/ d = 3) by (unfold UD_DOMAINS in Hd; lia). destruct_or! Hd4; subst d; reflexivity.
    + split; [apply (writes_struct _ _ _ 1 _ _ Hf); [reflexivity|reflexivity|apply Hb]|]. intros d Hd.
      assert (Hi2 : bundle_writes true b !! (2 + Z.to_nat d)%nat = Some (wwords (UD_IMAGE d) (bundle_words b d))).
      { unfold bundle_writes. simpl. unfold bundle_images. rewrite list_lookup_fmap, lookup_seqZ_lt by (unfold UD_DOMAINS in *; lia).
        simpl. do 2 f_equal; f_equal; lia. }
      pose proof (writes_load _ _ base _ _ Hf eq_refl Hi2) as Hl. rewrite wwords_length in Hl. cbn [fst snd wwords] in Hl.
      destruct (bundle_img_ok b d Hb Hd) as [H32 Hu32]. unfold UD_REMOTE_MAX_WORDS in Hcount.
      assert (Hlen : Z.of_nat (length (bundle_words b d)) = (r_words (b_manifest b)).[d]).
      { unfold bundle_words. rewrite length_take, H32. specialize (Hcount d Hd). lia. }
      rewrite <- Hlen. apply ld_array_bytes; [|rewrite <- Hl; f_equal; lia].
      apply Forall_take. eapply Forall_impl; [exact Hu32|]. intros v Hv. unfold field_in_range, in_u32 in *. simpl. lia.
    + apply (writes_struct _ _ _ 0 _ _ Hf); [reflexivity|reflexivity|]. apply us_heap_init_ok.
      destruct (social_count_cases (r_reserved (b_manifest b))) as [-> |[-> | ->]]; done.
  - rewrite Hbase. constructor.
    + by apply init_header_load.
    + by apply init_tag_load.
    + intros d Hd. by apply init_context_load.
    + intros d p Hd Hpd. by apply init_image_load.
    + case_if; bprop; [by apply init_micro_heap|by apply init_social_heap].
Qed.

(** ** An accepted request commits *)

Section pool.
Context (L : linux) (k : kstate) (o : owner_options) (bundle : option ud_remote_bundle) (generation : Z).
Notation s := (k_s k).
Notation c := (p_contract (s_p (k_s k))).
Notation slot := (s_pool_slot (k_s k)).

(** The session was prepared for this region. *)
Record session_matches : Prop := {
  sm_multi : s_multi s = true;
  sm_generation : s_pool_generation s = generation;
  sm_slot : 0 <= slot < UD_CLIENTS;
  sm_profile : s_profile s = owner_profile o;
  sm_mode : s_code_mode s = if is_some bundle then UD_CODE_REMOTE_SOCIAL else UD_CODE_LEGACY;
  sm_social : forall b, bundle = Some b ->
    s_social_nginx_count s = ud_remote_social_count (r_reserved (b_manifest b)) /\
    s_remote_service s = r_reserved (b_manifest b) .& UD_SOCIAL_CODE_KIND_MASK }.

(** The region holds the session's request, and the owner accepts it. *)
Record request_made (R : mem) : Prop := {
  rm_contract : ld_struct ud_contract R (UD_POOL_SLOT slot) = c;
  rm_request : ld64 R (UD_POOL_SLOT slot + PUB_REQUEST) = c_nonce c;
  rm_pending : ld64 R (UD_POOL_SLOT slot + PUB_COMPLETE) <> c_nonce c;
  rm_extra : three_nginx s = true -> ld_struct ud_social_extra R (UD_SOCIAL_EXTRA_SLOT slot) = s_social_extra s;
  rm_accepted : accepted (owner_profile o) slot R <> None }.

Definition manifest_of : ud_remote_manifest := match bundle with Some b => b_manifest b | None => zero_manifest end.

Hypothesis (Hc : owner_consistent o bundle) (Hmulti : ow_multi o = true) (Hm : session_matches).

Lemma bundle_social b : bundle = Some b ->
  ow_social o = true /\ owner_profile o = UD_PROFILE_SOCIAL /\ ud_remote_bundle_valid b = true /\
  r_mode (b_manifest b) = UD_CODE_REMOTE_SOCIAL.
Proof using Hc Hmulti.
  intros Hb. destruct (oc_some _ _ Hc b Hb) as (Hw & Hsh & Hs & Hchk). specialize (Hs Hmulti).
  unfold owner_profile. rewrite Hw, Hsh, Hs. unfold owner_bundle_check in Hchk. cbv zeta in Hchk. rewrite Hs in Hchk.
  repeat (case_if_in Hchk; [done|]). bprop. done.
Qed.

(** The commit's check of an image passes on the words of a valid bundle. *)
Lemma bundle_image_check b d :
  bundle = Some b -> bundle_ok b -> 0 <= d < UD_DOMAINS ->
  check_remote_image s (b_manifest b) d (bundle_words b d) = true.
Proof using Hc Hmulti Hm.
  intros Hb Hbo Hd. destruct (bundle_social b Hb) as (_ & _ & Hv & Hmode).
  destruct (bundle_valid_image b d Hv Hd) as [Hi Hn]. rewrite Hmode in Hi. simpl in Hi.
  destruct (sm_social Hm b Hb) as [_ Hserv]. pose proof (sm_mode Hm) as Hcm. rewrite Hb in Hcm.
  destruct (bundle_img_ok b d Hbo Hd) as [H32 _].
  rewrite (check_remote_image_ext _ (b_img b d) (r_words (b_manifest b)).[d]); [| |done|lia].
  2: { intros i Hix. unfold bundle_words. by apply nthz_take. }
  unfold check_remote_image. rewrite Hcm, Hi, Hserv. simpl.
  unfold ud_remote_bundle_valid in Hv. rewrite Hmode in Hv. simpl in Hv.
  case_if_in Hv; [done|]. case_if_in Hv; [done|]. case_if_in Hv; [done|]. 
  destruct (Z.eqb_spec d UD_DIRECT) as [->|]; [|destruct (Z.eqb_spec d UD_MIDDLE) as [->|]; [|done]]; simpl.
  - match goal with H : xorb _ _ = false |- _ => by rewrite H end.
  - match goal with H : ((b_img b UD_MIDDLE).[0] !=? _) = false |- _ => by rewrite H end.
Qed.

Lemma manifest_ready R :
  prepared_region (owner_profile o) generation bundle R -> is_some bundle = true ->
  ld_struct ud_remote_manifest R UD_REMOTE_META_OFFSET = manifest_of /\ manifest_fits k manifest_of = true.
Proof using Hc Hmulti Hm.
  intros Hreg Hs. assert (Hb : exists b, bundle = Some b) by (destruct bundle; [by eexists|done]). destruct Hb as [b Hb].
  pose proof (pg_code _ _ _ _ Hreg) as Hcode. unfold manifest_of. rewrite Hb in Hcode |- *. split; [apply Hcode|].
  destruct (bundle_social b Hb) as (_ & _ & Hv & Hmode). destruct (sm_social Hm b Hb) as [Hcount Hserv].
  unfold manifest_fits. rewrite (sm_mode Hm), Hb. simpl. rewrite Hmode, Hcount, Hserv, !Z.eqb_refl.
  unfold ud_remote_bundle_valid in Hv. cbv zeta in Hv. case_if_in Hv; [done|]. bprop.
  rewrite !andb_true_r, !andb_true_iff, !Z.eqb_eq. done.
Qed.

Lemma service_exists profile d :
  0 <= profile <= UD_PROFILE_SOCIAL_SHARED -> profile <> UD_PROFILE_SOCIAL -> 0 <= d < UD_DOMAINS ->
  exists p, ud_profile_service profile d = Some p.
Proof using Type.
  unfold UD_PROFILE_SOCIAL_SHARED, UD_PROFILE_SOCIAL, UD_DOMAINS. intros Hp Hn Hd.
  assert (Hpc : profile = 0 \/ profile = 2 \/ profile = 3) by lia. assert (Hdc : d = 0 \/ d = 1 \/ d = 2 \/ d = 3) by lia.
  destruct_or! Hpc; destruct_or! Hdc; subst; by eexists.
Qed.

Lemma images_ready R d :
  (forall b, bundle = Some b -> bundle_ok b) -> prepared_region (owner_profile o) generation bundle R ->
  0 <= d < UD_DOMAINS -> image_ready k R manifest_of d.
Proof using Hc Hmulti Hm.
  intros Hbo Hreg Hd. pose proof (pg_code _ _ _ _ Hreg) as Hcode. unfold image_ready, is_remote, manifest_of. rewrite (sm_mode Hm).
  pose proof (option_cases bundle) as Hcase. destruct Hcase as [Hb|[b Hb]].
  - rewrite Hb in Hcode |- *. simpl. destruct (service_exists (owner_profile o) d (owner_profile_range o) (oc_none _ _ Hc Hb) Hd) as [p Hp].
    exists p. rewrite (sm_profile Hm). split; [done|]. by apply Hcode.
  - rewrite Hb in Hcode |- *. simpl. destruct (bundle_social b Hb) as (_ & _ & Hv & _).
    destruct (bundle_valid_image b d Hv Hd) as [_ Hn]. split; [lia|]. rewrite (proj2 Hcode d Hd).
    apply bundle_image_check; [done|by apply Hbo|done].
Qed.

Lemma heap_ready R : prepared_region (owner_profile o) generation bundle R -> heap_check s R UD_HEAP = true.
Proof using Hc Hmulti Hm.
  intros Hreg. pose proof (pg_heap _ _ _ _ Hreg) as Hheap. unfold heap_check. rewrite (sm_profile Hm).
  pose proof (option_cases bundle) as Hcase. destruct Hcase as [Hb|[b Hb]].
  - rewrite Hb in Hheap. pose proof (oc_none _ _ Hc Hb) as Hns. destruct (owner_profile o =? UD_PROFILE_MICRO); [done|]. simpl.
    case_if; [bprop; done|done].
  - rewrite Hb in Hheap. destruct (bundle_social b Hb) as (_ & -> & Hv & Hmode).
    change (UD_PROFILE_SOCIAL =? UD_PROFILE_MICRO) with false. rewrite Z.eqb_refl. cbn [negb]. destruct (sm_social Hm b Hb) as [-> _]. unfold us_heap_valid_count. rewrite Hheap, bool_decide_eq_true_2 by done.
    unfold ud_remote_bundle_valid in Hv. cbv zeta in Hv. rewrite Hmode in Hv. simpl in Hv. case_if_in Hv; [done|]. bprop.
    destruct (social_count_cases (r_reserved (b_manifest b))) as [E|[E|E]]; rewrite E in *; done.
Qed.

Lemma three_nginx_bundle : three_nginx s = true ->
  exists b, bundle = Some b /\ owner_profile o = UD_PROFILE_SOCIAL /\ ud_remote_social_count (r_reserved (b_manifest b)) = 3.
Proof using Hc Hm.
  intros H3. unfold three_nginx in H3. bprop. assert (Hb : exists b, bundle = Some b).
  { pose proof (option_cases bundle) as Hcase. destruct Hcase as [Hb|?]; [|done].
    exfalso. apply (oc_none _ _ Hc Hb). by rewrite <- (sm_profile Hm). }
  destruct Hb as [b Hb]. exists b. destruct (sm_social Hm b Hb) as [E _]. split_and!; [done| |by rewrite <- E].
  by rewrite <- (sm_profile Hm).
Qed.

(** What the owner leaves after a poll is ready for the commit. *)
Lemma polled_ready R rc R' :
  (forall b, bundle = Some b -> bundle_ok b) -> prepared_ok s -> bytes_ok R ->
  prepared_region (owner_profile o) generation bundle R -> generation <> 0 -> request_made R ->
  ud_pool_poll R = (rc, R') -> ready k R' manifest_of.
Proof using Hc Hmulti Hm.
  intros Hbo Hok Hby Hreg Hg [Hct Hrq Hpe Hex Hac] Hpoll. pose proof (sm_slot Hm) as Hslot. pose proof (sm_multi Hm) as Hmu.
  assert (Hpoll' : poll_slots (owner_profile o) R = (R', rc)).
  { rewrite ud_pool_poll_valid, (pg_tag _ _ _ _ Hreg) in Hpoll; rewrite ?(pg_tag _ _ _ _ Hreg); try done.
    - injection Hpoll as <- <-. by destruct (poll_slots _ R).
    - rewrite (pg_header _ _ _ _ Hreg). unfold ud_pool_header_valid, nz. cbn. lia.
    - apply owner_profile_range. }
  pose proof (poll_slots_spec (owner_profile o) R Hby) as Hspec. rewrite Hpoll' in Hspec. destruct Hspec as (_ & _ & Hf & Ha).
  assert (Hnz : c_nonce c <> 0) by (pose proof (po_contract _ Hok) as Hv; unfold ud_contract_valid in Hv; case_if_in Hv; [done|]; bprop; done).
  assert (Hpend : pending slot R = true).
  { unfold pending. rewrite Hrq. unfold z0. lia. }
  destruct (Ha slot Hslot Hpend) as [Acmp Aerr Abuilt _]. destruct (accepted (owner_profile o) slot R) as [n|] eqn:Hacc; [|done].
  specialize (Abuilt n eq_refl). rewrite Hct in Abuilt. destruct pub_offsets as (Oreq & Ocmp & Oini & Oerr & Ores).
  assert (Hlow : agree low R' R) by (intros x Hx; apply Hf; intros t Ht _; clear - Hx Ht; unfold low in Hx; areas; lia).
  assert (Hkeep : agree (fun x => within x (UD_POOL_SLOT slot) 280 || within x (UD_POOL_SLOT slot + 300) 3796) R' R).
  { intros x Hx. apply Hf. intros t Ht _. clear - Hx Ht Hslot. areas. lia. }
  assert (Hreg' : prepared_region (owner_profile o) generation bundle R').
  { apply (prepared_region_agree _ _ _ R); [done| |done]. intros b d Hb Hd. destruct (bundle_social b Hb) as (_ & _ & Hv & _).
    apply (bundle_valid_image b d Hv Hd). }
  assert (Hres : ld32 R (UD_POOL_SLOT slot + PUB_RESERVED) = 0).
  { unfold accepted, request_error in Hacc. case_if_in Hacc; [done|]. bprop. done. }
  assert (Hrem : is_remote k = is_some bundle).
  { unfold is_remote. rewrite (sm_mode Hm). by destruct bundle. }
  constructor.
  - intros _. rewrite (pg_header _ _ _ _ Hreg'), ld_pool_publication. cbn [pp_error pp_reserved h_generation].
    split_and!; [lia|lia| |by rewrite (sm_generation Hm)|by rewrite Aerr|].
    + unfold ud_pool_header_valid, nz. cbn. lia.
    + rewrite <- Hres. apply (agree_ld 4 _ _ _ _ Hkeep). intros i Hi. rewrite Ores. unfold within. lia.
  - unfold pub_offset. rewrite Hmu, <- Hct. apply (agree_struct (A := ud_contract) _ _ _ _ Hkeep).
    intros i Hi. change (sizeof ud_contract) with 272 in Hi. unfold within. lia.
  - unfold pub_offset. rewrite Hmu, <- Hrq. apply (agree_ld 8 _ _ _ _ Hkeep). intros i Hi. rewrite Oreq. unfold within. lia.
  - unfold pub_offset. by rewrite Hmu, Acmp.
  - rewrite Hrem. by apply manifest_ready.
  - intros d l Hd Hl. unfold table_offset. rewrite Hmu. by apply (bt_tables _ _ _ _ _ _ Abuilt).
  - intros d Hd. rewrite (sm_profile Hm). by apply (pg_contexts _ _ _ _ Hreg').
  - intros d Hd. by apply images_ready.
  - intros H3. destruct (three_nginx_bundle H3) as (b & Hb & Hprof & Hcount). split_and!; [done|by rewrite Hrem, Hb| |].
    { rewrite <- Hex by done. apply (agree_struct (A := ud_social_extra) _ _ _ _ Hkeep). intros i Hi.
      change (sizeof ud_social_extra) with 208 in Hi. clear - Hi Hslot. areas. lia. }
    intros d Hd. unfold accepted in Hacc. case_if_in Hacc; [done|]. rewrite Hprof, Hct, (Hex H3) in Hacc. simpl in Hacc.
    unfold social_checks in Hacc. pose proof (pg_code _ _ _ _ Hreg) as Hcode. rewrite Hb in Hcode.
    rewrite (proj1 Hcode), Hcount in Hacc. case_if_in Hacc; [done|]. simpl in Hacc. case_if_in Hacc; [|done]. injection Hacc as <-.
    match goal with H : for_all _ _ = true |- _ => rewrite for_all_spec in H; specialize (H d Hd) end.
    destruct (ud_social_extra_contract c (s_social_extra s) d) as [a|] eqn:Hxa; [|done]. exists a. split; [done|]. intros l Hl.
    apply (bt_extra _ _ _ _ _ _ Abuilt); [done|done|]. by rewrite (Hex H3).
  - by apply heap_ready.
Qed.
End pool.

Lemma commit_committed L k R remote :
  ledger k -> prepared_ok (k_s k) -> code_unmapped L k -> shows L k R -> ready k R remote ->
  s_prepared (k_s k) = true -> s_committed (k_s k) = false -> l_kmalloc L = true ->
  (is_remote k = false -> remote = zero_manifest) ->
  exists k', ud_commit L k = (inl tt, k') /\ s_committed (k_s k') = true /\
    s_owner (k_s k') = s_owner (k_s k) /\ s_mm (k_s k') = s_mm (k_s k).
Proof.
  intros Hl Hok Hun Hsh Hrd Hp Hnc Hkm Hz.
  destruct (commit_ready L k Hl Hok Hun R remote Hsh Hrd Hp Hnc Hkm Hz) as [k' Hk']. exists k'. split; [done|].
  assert (Hwp : wp (ud_commit L) (fun _ k' => s_committed (k_s k') = true /\ s_owner (k_s k') = s_owner (k_s k) /\
    s_mm (k_s k') = s_mm (k_s k)) (fun _ _ => True) k).
  { apply wp_commit_frame; [done|]. by intros k1 (m & i & w & -> & _). }
  unfold wp in Hwp. by rewrite Hk' in Hwp.
Qed.

(** The commit request of the owner of a session. *)
Lemma ud_ioctl_commit fuel L arg k :
  l_capable L = true -> l_current L = s_owner (k_s k) -> l_current_mm L = s_mm (k_s k) -> l_interrupted L = false ->
  ud_ioctl fuel L UD_COMMIT arg k = answer (ud_commit L) done_ k.
Proof.
  intros H1 H2 H3 H4. change (ud_ioctl fuel L UD_COMMIT arg k) with
    ((if negb (l_capable L) || (l_current L !=? s_owner (k_s k)) || (l_current_mm L !=? s_mm (k_s k))
      then ret (- EPERM, None) else if l_interrupted L then ret (- ERESTARTSYS, None) else answer (ud_commit L) done_) k).
  by rewrite H1, H2, H3, H4, !Z.eqb_refl.
Qed.

(** The region after one poll of an owner that has accepted the request. *)
Lemma connect_ready k argv local bytes file o host name bundle generation m R0 R1 R2 rc :
  owner_arguments argv local bytes file = inr (o, host, name, bundle) -> ow_multi o = true ->
  (forall b, bundle = Some b -> bundle_ok b) -> 0 <= generation < 2 ^ 64 ->
  owner_multi_setup o bundle generation m = Some R0 -> agree low R1 R0 -> bytes_ok R1 ->
  prepared_ok (k_s k) -> session_matches k o bundle generation -> request_made k o R1 ->
  ud_pool_poll R1 = (rc, R2) -> ready k R2 (manifest_of bundle).
Proof.
  intros Harg Hmu Hbo Hg Hset Hlow Hby Hok Hm Hrq Hpoll.
  pose proof (owner_arguments_consistent _ _ _ _ _ _ _ _ Harg) as Hc.
  pose proof (owner_multi_setup_region _ _ _ _ _ Hc Hmu Hg Hbo Hset) as Hreg.
  assert (Hw : forall b d, bundle = Some b -> 0 <= d < 4 -> (r_words (b_manifest b)).[d] <= UD_REMOTE_MAX_WORDS).
  { intros b d Hb Hd. destruct (bundle_social o bundle Hc Hmu b Hb) as (_ & _ & Hv & _). apply (bundle_valid_image b d Hv Hd). }
  pose proof (prepared_region_agree _ _ _ _ _ Hlow Hw Hreg) as Hreg1.
  assert (Hg0 : generation <> 0) by (intros ->; by unfold owner_multi_setup in Hset).
  exact (polled_ready k o bundle generation Hc Hmu Hm R1 rc R2 Hbo Hok Hby Hreg1 Hg0 Hrq Hpoll).
Qed.

(** C13. The connection protocol completes.  Take any owner started with arguments it
    accepts, in multi-client mode, and a session prepared for its region.  Once the
    request of the session is in its slot and the owner's checks accept it, one poll
    of the owner is enough: the commit of the session returns 0, whatever other
    clients have written to their slots in between. *)
Theorem accepted_request_commits L k argv local bytes file o host name bundle generation m R0 R1 R2 rc :
  owner_arguments argv local bytes file = inr (o, host, name, bundle) -> ow_multi o = true ->
  (forall b, bundle = Some b -> bundle_ok b) -> 0 <= generation < 2 ^ 64 ->
  owner_multi_setup o bundle generation m = Some R0 -> agree low R1 R0 -> bytes_ok R1 ->
  session_inv k -> s_prepared (k_s k) = true -> s_committed (k_s k) = false ->
  session_matches k o bundle generation -> request_made k o R1 ->
  ud_pool_poll R1 = (rc, R2) ->
  code_unmapped L k -> shows L k R2 -> l_kmalloc L = true ->
  exists k', ud_commit L k = (inl tt, k') /\ s_committed (k_s k') = true.
Proof.
  intros Harg Hmu Hbo Hg Hset Hlow Hby Hinv Hp Hnc Hm Hrq Hpoll Hun Hsh Hkm.
  pose proof (connect_ready _ _ _ _ _ _ _ _ _ _ _ _ _ _ _ Harg Hmu Hbo Hg Hset Hlow Hby (si_ready _ Hinv Hp) Hm Hrq Hpoll) as Hrd.
  destruct (commit_committed L k R2 (manifest_of bundle)) as (k' & ? & ? & _); try done; [apply Hinv|by apply (si_ready _ Hinv)| |by exists k'].
  unfold is_remote, manifest_of. rewrite (sm_mode _ _ _ _ Hm). by destruct bundle.
Qed.

(** ** Witness: one client of a legacy owner *)

Definition demo_owner : owner_options := mk_owner false false false true None false [].
Definition demo_region : mem := apply_writes (init_writes 9 UD_PROFILE_MICRO).2 (fill blank 0 UD_BYTES 0).
Definition demo_asked : mem :=
  st64 (st_struct demo_region (UD_POOL_SLOT 0) demo_published_contract) (UD_POOL_SLOT 0 + PUB_REQUEST) 13.
Definition demo_answered : mem := (ud_pool_poll demo_asked).2.
(** The session with the region the owner has answered. *)
Definition demo_waiting : kstate := enter demo_first demo_prepared (splice blank demo_answered) (mk_answers [] [] [] []).

Lemma fresh_none k : session_inv k -> fresh k (mk_answers [] [] [] []).
Proof.
  intros Hk. destruct (proj2 (si_ledger _ Hk)). constructor; simpl.
  - by apply NoDup_app in ac_fresh as (_ & _ & ?).
  - by apply NoDup_app in ac_store as (_ & _ & ?).
  - constructor.
Qed.

Lemma demo_prepared_inv : session_inv demo_prepared.
Proof. apply (session_reachable demo_first); [apply demo_first_reached|left]. Qed.
Lemma demo_waiting_inv : session_inv demo_waiting.
Proof. apply enter_inv; [apply demo_prepared_inv|apply fresh_none, demo_prepared_inv]. Qed.

Lemma demo_waiting_request : contract_ok demo_published_contract.
Proof.
  assert (Hp : s_prepared (k_s demo_prepared) = true) by (vm_compute; reflexivity). unfold demo_published_contract.
  exact (rc_contract _ _ (po_recorded _ (si_ready _ demo_prepared_inv Hp))).
Qed.

Lemma demo_asked_ok : bytes_ok demo_asked /\ agree low demo_asked demo_region.
Proof.
  split.
  - apply st_ok, st_struct_bytes_ok, apply_writes_ok; [apply fill_ok; [apply blank_ok|lia]|]. vm_compute. reflexivity.
  - intros x Hx. unfold low in Hx. destruct pub_offsets as (Oreq & _). unfold demo_asked.
    rewrite st_out by (rewrite Oreq; lia). apply st_struct_out; [apply demo_waiting_request|lia].
Qed.

Lemma demo_owner_setup : owner_multi_setup demo_owner None 9 blank = Some demo_region.
Proof.
  unfold owner_multi_setup, ud_pool_initialize_profile. pose proof (init_ok 9 UD_PROFILE_MICRO ltac:(done)) as H. unfold demo_region.
  change (owner_profile demo_owner) with UD_PROFILE_MICRO. destruct (init_writes 9 UD_PROFILE_MICRO) as [ok ws].
  simpl in H. by subst ok.
Qed.

(** In the demo platform user addresses lead to the region or above it. *)
Definition pages_below (k : kstate) : bool :=
  for_all 4 (fun d => ((s_code (k_s k)).[d] + UD_PAGE <=? REGION) && ((s_social_code (k_s k)).[d] + UD_PAGE <=? REGION)).
Lemma demo_code_unmapped k : pages_below k = true -> code_unmapped demo_linux k.
Proof.
  intros Hc a pa Ha d Hd. unfold pages_below in Hc. rewrite for_all_spec in Hc. specialize (Hc d Hd).
  assert (Hpa : REGION <= pa); [|lia].
  unfold demo_linux, demo_user, ARGPA, REGION in *. cbn [l_user] in Ha. repeat (case_if_in Ha; [injection Ha as <-; lia|]). done.
Qed.

Lemma demo_shows k R : p_import_va (s_p (k_s k)) = USER -> k_mem k = splice blank R -> shows demo_linux k R.
Proof.
  intros Hva Hmem. assert (Hu : forall x, 0 <= x < UD_BYTES -> l_user demo_linux (USER + x) = Some (REGION + x)).
  { intros x Hx. cbn [demo_linux l_user]. unfold demo_user. case_if; bprop; [f_equal; lia|]. lia. }
  constructor; rewrite Hva; intros x Hx; [by eexists; apply Hu|].
  unfold user_view. rewrite Hu, Hmem by done. unfold splice. case_if; bprop; [f_equal; lia|]. lia.
Qed.

Lemma demo_matches : session_matches demo_waiting demo_owner None 9.
Proof.
  constructor; [| | | | |by intros b [=]].
  - vm_compute. reflexivity.
  - vm_compute. reflexivity.
  - vm_compute. split; [discriminate|reflexivity].
  - vm_compute. reflexivity.
  - vm_compute. reflexivity.
Qed.

Lemma demo_request_made : request_made demo_waiting demo_owner demo_asked.
Proof.
  constructor.
  - vm_compute. reflexivity.
  - vm_compute. reflexivity.
  - vm_compute. discriminate.
  - assert (H3 : three_nginx (k_s demo_waiting) = false) by (vm_compute; reflexivity). by rewrite H3.
  - vm_compute. discriminate.
Qed.

Lemma accepted_request_commits_witness :
  exists k', ud_commit demo_linux demo_waiting = (inl tt, k') /\ s_committed (k_s k') = true.
Proof.
  apply (accepted_request_commits demo_linux demo_waiting ["--multi"%string] (Some "b"%string) 64 (fun _ => None)
    demo_owner "b"%string "lrpc_ub_domain"%string None 9 blank demo_region demo_asked demo_answered (ud_pool_poll demo_asked).1).
  - reflexivity.
  - reflexivity.
  - discriminate.
  - lia.
  - apply demo_owner_setup.
  - apply demo_asked_ok.
  - apply demo_asked_ok.
  - apply demo_waiting_inv.
  - vm_compute. reflexivity.
  - vm_compute. reflexivity.
  - apply demo_matches.
  - apply demo_request_made.
  - apply surjective_pairing.
  - apply demo_code_unmapped. vm_compute. reflexivity.
  - apply demo_shows; [vm_compute; reflexivity|reflexivity].
  - reflexivity.
Defined.

(** The same client, once it has committed. *)
Definition demo_bound : kstate := (ud_ioctl 0 demo_linux UD_COMMIT 0 demo_waiting).2.
Definition demo_bound_device : device := mk_device (k_banks demo_bound) [demo_bound].

Lemma demo_waiting_prepared : s_prepared (k_s demo_waiting) = true /\ s_committed (k_s demo_waiting) = false.
Proof. split; vm_compute; reflexivity. Qed.

Lemma demo_commits :
  ud_ioctl 0 demo_linux UD_COMMIT 0 demo_waiting = (inl (0, None), demo_bound) /\ s_committed (k_s demo_bound) = true /\
  s_owner (k_s demo_bound) = 1 /\ s_mm (k_s demo_bound) = 2.
Proof.
  destruct demo_waiting_prepared as [Hp Hnc].
  assert (Hrd : ready demo_waiting demo_answered (manifest_of None)).
  { apply (connect_ready demo_waiting ["--multi"%string] (Some "b"%string) 64 (fun _ => None)
      demo_owner "b"%string "lrpc_ub_domain"%string None 9 blank demo_region demo_asked demo_answered (ud_pool_poll demo_asked).1);
      [reflexivity|reflexivity|done|lia|apply demo_owner_setup|apply demo_asked_ok|apply demo_asked_ok| |apply demo_matches|
       apply demo_request_made|apply surjective_pairing].
    by apply (si_ready _ demo_waiting_inv). }
  destruct (commit_committed demo_linux demo_waiting demo_answered (manifest_of None)) as (k' & Hk' & Hc' & How & Hmm).
  { apply demo_waiting_inv. } { by apply (si_ready _ demo_waiting_inv). } { apply demo_code_unmapped. vm_compute. reflexivity. }
  { apply demo_shows; [vm_compute; reflexivity|reflexivity]. }
  { exact Hrd. } { exact Hp. } { exact Hnc. } { reflexivity. } { reflexivity. }
  assert (Hio : ud_ioctl 0 demo_linux UD_COMMIT 0 demo_waiting = (inl (0, None), k')).
  { rewrite ud_ioctl_commit; [unfold answer; by rewrite Hk'|reflexivity|vm_compute; reflexivity|vm_compute; reflexivity|reflexivity]. }
  unfold demo_bound. rewrite Hio. cbn [snd]. split; [reflexivity|]. split; [exact Hc'|]. rewrite How, Hmm. split; vm_compute; reflexivity.
Qed.

Lemma demo_bound_reached : rtc device_step device_start demo_bound_device.
Proof.
  eapply rtc_r; [apply demo_first_reached|].
  refine (step_ioctl (k_banks demo_prepared) [] demo_prepared [] demo_linux 0 UD_COMMIT 0 (splice blank demo_answered)
    (mk_answers [] [] [] []) (0, None) demo_bound demo_linux_ok (fresh_none _ demo_prepared_inv) (proj1 demo_commits)).
Qed.

Lemma ud_mmap_maps L k :
  l_current L = s_owner (k_s k) -> l_current_mm L = s_mm (k_s k) -> l_capable L = true -> s_committed (k_s k) = true ->
  ud_mmap L 0 (UD_DOMAINS * 2 ^ l_page_shift L) true true false (fun _ => 0) k = (inl (s_args (k_s k)), k).
Proof.
  intros H1 H2 H3 H4. unfold ud_mmap, session, bind, get, ret. cbv beta iota. rewrite H1, H2, H3, H4, !Z.eqb_refl. reflexivity.
Qed.

Lemma mmap_shows_only_arguments_witness :
  let k := enter demo_bound_device demo_bound (k_mem demo_bound) (mk_answers [] [] [] []) in
  ud_mmap demo_linux 0 (UD_DOMAINS * 4096) true true false (fun _ => 0) k = (inl (s_args (k_s demo_bound)), k) /\
  forall p, p ∈ s_args (k_s demo_bound) -> ~ private_page (k_s demo_bound) p.
Proof.
  destruct demo_commits as (_ & Hc & Ho & Hm). pose proof demo_bound_reached as Hr. revert Hc Ho Hm Hr.
  unfold demo_bound_device. generalize demo_bound. intros b Hc Ho Hm Hr.
  assert (Hin : b ∈ dv_open (mk_device (k_banks b) [b])) by left.
  pose proof (session_reachable _ _ Hr Hin) as Hinv. set (k := enter _ b _ _).
  assert (Hmap : ud_mmap demo_linux 0 (UD_DOMAINS * 4096) true true false (fun _ => 0) k = (inl (s_args (k_s b)), k)).
  { exact (ud_mmap_maps demo_linux k (eq_sym Ho) (eq_sym Hm) eq_refl Hc). }
  split; [exact Hmap|].
  exact (proj2 (proj2 (proj2 (proj2 (proj2 (proj2 (proj2 (proj2 (proj2 (mmap_shows_only_arguments (mk_device (k_banks b) [b]) b (k_mem b) (mk_answers [] [] [] [])
    demo_linux 0 (UD_DOMAINS * 4096) true true false (fun _ => 0) _ _ Hr Hin (fresh_none _ Hinv) Hmap)))))))))).
Defined.
