(* ===== verification/Single.v ===== *)
(** * The single-client protocol

    The owner without [--multi] serves one connection: it clears the region, waits
    for the request at its start, and publishes tables, code, contexts and heap once
    (demo/ub/domain_owner.c).  What it publishes is what the module's commit accepts. *)

From Stdlib Require Import String.
From S2P Require Import Prelude Monad CMem Abi Layout PageWalk PoolSlots Arm64 RemoteCode Social RemoteSound Services Pool PoolPoll Kernel KernelLogic Session Ledger Device Commit Ready Gate Run Lifecycle Sessions Demo Guarantees Owner Connect.

(** Where each write of the publication goes. *)
Definition single_domain_intervals (d : Z) : list (Z * Z) :=
  ((fun l => (UD_TABLE d l, UD_PAGE)) <$> seqZ 0 4) ++ [(UD_IMAGE d, UD_PAGE); (UD_CONTEXT d, 32)].
Definition single_intervals : list (Z * Z) :=
  mjoin (single_domain_intervals <$> seqZ 0 UD_DOMAINS) ++ ((fun w => (w.1, 8)) <$> init_heap UD_PROFILE_MICRO)
  ++ [(PUB_B_INITIALIZATIONS, 8); (PUB_COMPLETE, 8)].

Lemma single_separate : separate single_intervals = true.
Proof. vm_compute. reflexivity. Qed.

Section single.
Context (bundle : option ud_remote_bundle) (c : ud_contract).
Hypothesis (Hbo : forall b, bundle = Some b -> bundle_ok b).

Lemma single_image_length d :
  0 <= d < UD_DOMAINS ->
  (length (match bundle with Some b => bundle_words b d | None => assemble (ud_service d) end) <= 32)%nat.
Proof using Hbo.
  intros Hd. destruct bundle as [b|].
  - apply bundle_words_length; [by apply Hbo|done].
  - assert (Hd4 : d = 0 \/ d = 1 \/ d = 2 \/ d = 3) by (unfold UD_DOMAINS in Hd; lia).
    destruct_or! Hd4; subst d; vm_compute; lia.
Qed.

Lemma single_fits : Forall2 fits (single_writes bundle c) single_intervals.
Proof using Hbo.
  unfold single_writes, single_intervals. apply Forall2_app.
  - assert (Hall : forall ds, Forall (fun d => 0 <= d < UD_DOMAINS) ds ->
      Forall2 fits (mjoin (single_domain bundle c <$> ds)) (mjoin (single_domain_intervals <$> ds))).
    { intros ds Hds. induction Hds as [|d ds Hd _ IH]; [constructor|]. apply Forall2_app; [|exact IH].
      apply Forall2_app.
      - apply Forall2_fmap_2, Forall_Forall2_diag, List.Forall_forall. intros l _. split; [done|]. cbn [snd].
        rewrite <- (ud_build_table_length c d l), enc_array_length. unfold UD_PAGE. rewrite ud_build_table_length. lia.
      - constructor; [|constructor; [|constructor]].
        + split; [done|]. rewrite wwords_length. pose proof (single_image_length d Hd). cbn [snd]. unfold UD_PAGE. lia.
        + split; [done|]. reflexivity. }
    apply Hall. apply List.Forall_forall. intros d Hd%list_elem_of_In%elem_of_seqZ. lia.
  - apply Forall2_app.
    + apply Forall2_fmap_r, Forall_Forall2_diag.
      assert (Hh : forallb (fun w : write => Z.of_nat (length w.2) <=? 8) (init_heap UD_PROFILE_MICRO) = true) by (vm_compute; reflexivity).
      rewrite forallb_forall in Hh. apply List.Forall_forall. intros w Hw. split; [done|]. specialize (Hh w Hw). cbn [snd]. lia.
    + constructor; [by split|]. constructor; [by split|constructor].
Qed.

Context (R : mem).
Notation R' := (apply_writes (single_writes bundle c) R).

Lemma single_lookup d j :
  0 <= d < UD_DOMAINS -> (j < 6)%nat ->
  single_writes bundle c !! (6 * Z.to_nat d + j)%nat = single_domain bundle c d !! j.
Proof using Type.
  intros Hd Hj. assert (Hd4 : d = 0 \/ d = 1 \/ d = 2 \/ d = 3) by (unfold UD_DOMAINS in Hd; lia).
  do 6 (destruct j as [|j]; [destruct_or! Hd4; subst d; reflexivity|]). lia.
Qed.

Lemma single_table d l :
  contract_ok c -> ud_contract_valid c = true -> 0 <= d < UD_DOMAINS -> 0 <= l < 4 ->
  ld_array 8 R' (UD_TABLE d l) 512 = ud_build_table c d l.
Proof using Hbo.
  intros Hok Hv Hd Hl. assert (Hj : single_domain bundle c d !! Z.to_nat l = Some (UD_TABLE d l, enc_fields (replicate 512 8%nat) (ud_build_table c d l))).
  { assert (Hl4 : l = 0 \/ l = 1 \/ l = 2 \/ l = 3) by lia. destruct_or! Hl4; subst l; reflexivity. }
  rewrite <- (single_lookup d) in Hj by (done || lia).
  pose proof (writes_load _ _ R _ _ single_fits single_separate Hj) as Hload. cbn [fst snd] in Hload.
  pose proof (ud_build_table_range c d l Hok Hv Hd Hl) as Hr. pose proof (ud_build_table_length c d l) as Hn.
  generalize dependent (ud_build_table c d l). intros t Hj Hload Hr Hn. change 512 with (Z.of_nat 512) in *. rewrite <- Hn in *.
  rewrite enc_array_length in Hload. apply ld_array_bytes; [exact (Forall_impl _ _ _ Hr in_u64_field)|].
  rewrite <- Hload. f_equal. lia.
Qed.

Lemma single_image d :
  0 <= d < UD_DOMAINS ->
  let words := match bundle with Some b => bundle_words b d | None => assemble (ud_service d) end in
  load_bytes R' (UD_IMAGE d) (4 * Z.of_nat (length words)) = (wwords 0 words).2.
Proof using Hbo.
  intros Hd words. assert (Hj : single_writes bundle c !! (6 * Z.to_nat d + 4)%nat = Some (wwords (UD_IMAGE d) words))
    by by rewrite single_lookup by (done || lia).
  pose proof (writes_load _ _ R _ _ single_fits single_separate Hj) as Hl. rewrite wwords_length in Hl.
  cbn [wwords fst snd] in Hl |- *. rewrite <- Hl. f_equal. lia.
Qed.

Lemma single_context d : 0 <= d < UD_DOMAINS -> ld_struct ud_initial R' (UD_CONTEXT d) = domain_initial UD_PROFILE_MICRO d.
Proof using Hbo.
  intros Hd. apply (writes_struct _ _ _ (6 * Z.to_nat d + 5)%nat _ _ single_fits single_separate).
  - by rewrite single_lookup by (done || lia).
  - vm_compute. done.
Qed.

Lemma single_heap_lookup j : (j < 97)%nat -> single_writes bundle c !! (24 + j)%nat = init_heap UD_PROFILE_MICRO !! j.
Proof using Type.
  intros Hj. unfold single_writes. rewrite lookup_app_r by (change (length (mjoin _)) with 24%nat; lia).
  change (length (mjoin _)) with 24%nat. replace (24 + j - 24)%nat with j by lia. apply lookup_app_l.
  change (length (init_heap UD_PROFILE_MICRO)) with 97%nat. lia.
Qed.

Lemma single_heap : micro_heap_valid R' UD_HEAP = true.
Proof using Hbo.
  assert (Hword : forall j i v, (j < 97)%nat -> init_heap UD_PROFILE_MICRO !! j = Some (heap_word i v) -> 0 <= v < 2 ^ 64 ->
    ld64 R' (UD_HEAP + 8 * i) = v).
  { intros j i v Hj Hl Hv. rewrite <- single_heap_lookup in Hl by done.
    pose proof (writes_load _ _ R _ _ single_fits single_separate Hl) as Hload.
    cbn [heap_word w64 fst snd] in Hload. rewrite le_bytes_length in Hload. unfold ld. rewrite Hload, le_value_bytes.
    apply Z.mod_small. done. }
  assert (Hcheck : for_all 32 (fun d =>
    bool_decide (init_heap UD_PROFILE_MICRO !! Z.to_nat (1 + 3 * d) = Some (heap_word (8 + d * 8) d)) &&
    bool_decide (init_heap UD_PROFILE_MICRO !! Z.to_nat (2 + 3 * d) = Some (heap_word (9 + d * 8) ((d + 1) .& 31))) &&
    bool_decide (init_heap UD_PROFILE_MICRO !! Z.to_nat (3 + 3 * d) = Some (heap_word (10 + d * 8) (1000 + d)))) = true)
    by (vm_compute; reflexivity).
  unfold micro_heap_valid. apply andb_true_iff. split.
  { apply Z.eqb_eq. exact (Hword 0%nat 0 100 ltac:(lia) eq_refl ltac:(lia)). }
  apply for_all_spec. intros d Hd. rewrite for_all_spec in Hcheck. specialize (Hcheck d Hd).
  rewrite !andb_true_iff, !bool_decide_eq_true in Hcheck. destruct Hcheck as [[H1 H2] H3].
  assert (Hr : 0 <= (d + 1) .& 31 < 32)
    by (change 31 with (Z.ones 5); rewrite Z.land_ones by lia; apply Z.mod_pos_bound; lia).
  rewrite !andb_true_iff, !Z.eqb_eq. split_and!;
    [apply (Hword (Z.to_nat (1 + 3 * d)))|apply (Hword (Z.to_nat (2 + 3 * d)))|apply (Hword (Z.to_nat (3 + 3 * d)))];
    first [assumption|lia].
Qed.
End single.

(** ** The answer commits *)

(** The session was prepared for a single-client region. *)
Record single_matches (k : kstate) (bundle : option ud_remote_bundle) : Prop := {
  sg_single : s_multi (k_s k) = false;
  sg_profile : s_profile (k_s k) = UD_PROFILE_MICRO;
  sg_mode : s_code_mode (k_s k) = if is_some bundle then UD_CODE_REMOTE_VERIFIED else UD_CODE_LEGACY }.

Lemma single_bundle_valid o bundle b :
  owner_consistent o bundle -> ow_multi o = false -> bundle = Some b ->
  ud_remote_bundle_valid b = true /\ r_mode (b_manifest b) = UD_CODE_REMOTE_VERIFIED.
Proof.
  intros Hc Hm Hb. destruct (oc_some _ _ Hc b Hb) as (_ & _ & _ & Hchk).
  assert (Hs : ow_social o = false) by (destruct (ow_social o) eqn:E; [|done]; by rewrite (oc_multi _ _ Hc E) in Hm).
  unfold owner_bundle_check in Hchk. cbv zeta in Hchk. rewrite Hs in Hchk. repeat (case_if_in Hchk; [done|]). bprop. done.
Qed.

(** The words of a verified bundle pass the commit's check. *)
Lemma single_image_check k b d :
  bundle_ok b -> ud_remote_bundle_valid b = true -> r_mode (b_manifest b) = UD_CODE_REMOTE_VERIFIED ->
  s_code_mode (k_s k) = UD_CODE_REMOTE_VERIFIED -> 0 <= d < UD_DOMAINS ->
  check_remote_image (k_s k) (b_manifest b) d (bundle_words b d) = true.
Proof.
  intros Hbo Hv Hmode Hcm Hd. destruct (bundle_valid_image b d Hv Hd) as [Hi Hn]. rewrite Hmode in Hi. simpl in Hi.
  rewrite (check_remote_image_ext _ (b_img b d) (r_words (b_manifest b)).[d]); [| |done|lia].
  2: { intros i Hix. unfold bundle_words. by apply nthz_take. }
  unfold check_remote_image. by rewrite Hcm, Hi.
Qed.

Lemma published_ready k o bundle m c R R' :
  owner_consistent o bundle -> ow_multi o = false -> (forall b, bundle = Some b -> bundle_ok b) ->
  prepared_ok (k_s k) -> single_matches k bundle ->
  p_contract (s_p (k_s k)) = c -> ld_struct ud_contract R 0 = c ->
  agree (fun x => (UD_REMOTE_META_OFFSET <=? x) && (x <? UD_TABLE 0 0)) R (owner_single_setup bundle m) ->
  owner_single_publish bundle R = Some R' -> ready k R' (manifest_of bundle).
Proof.
  intros Hc Hm Hbo Hok [Hs Hp Hmode] Hceq Hct Hag. unfold owner_single_publish. rewrite Hct. case_if; [done|]. intros HR%(inj Some).
  assert (Hnonce : ld64 R PUB_REQUEST = c_nonce c) by (bprop; done).
  pose proof (single_fits bundle c Hbo) as Hf.
  pose proof (rc_contract _ _ (po_recorded _ Hok)) as Hcok. pose proof (po_contract _ Hok) as Hv. rewrite Hceq in Hcok, Hv.
  pose proof (option_cases bundle) as Hcase.
  constructor.
  - rewrite Hs. discriminate.
  - rewrite Hceq, <- HR. unfold pub_offset. rewrite Hs, (writes_frame_struct _ _ _ _ Hf) by (vm_compute; reflexivity). exact Hct.
  - rewrite Hceq, <- HR. unfold pub_offset. rewrite Hs. unfold ld. rewrite (writes_frame _ _ _ _ _ Hf) by (vm_compute; reflexivity). exact Hnonce.
  - rewrite Hceq, <- HR. unfold pub_offset. rewrite Hs. assert (Hl : single_writes bundle c !! 122%nat = Some (w64 PUB_COMPLETE (c_nonce c))) by reflexivity.
    pose proof (writes_load _ _ R _ _ Hf single_separate Hl) as Hload. cbn [w64 fst snd] in Hload.
    rewrite le_bytes_length in Hload. unfold ld. rewrite Z.add_0_l, Hload, le_value_bytes. apply Z.mod_small. apply Hcok.
  - unfold is_remote. rewrite Hmode. destruct Hcase as [Hb|[b Hb]]; [by rewrite Hb|]. intros _.
    destruct (single_bundle_valid o bundle b Hc Hm Hb) as [Hbv Hbm]. unfold manifest_fits, manifest_of. rewrite Hmode, Hb. split.
    + rewrite <- HR, Hb. rewrite (writes_frame_struct (A := ud_remote_manifest) _ _ _ _ (single_fits (Some b) c ltac:(intros b' [= <-]; by apply Hbo))) by (vm_compute; reflexivity).
      rewrite (agree_struct (A := ud_remote_manifest) _ _ _ _ Hag).
      2: { intros i Hi. change (sizeof ud_remote_manifest) with 40 in Hi. unfold UD_REMOTE_META_OFFSET, UD_TABLE. lia. }
      rewrite Hb. unfold owner_single_setup. apply (writes_struct _ [(UD_REMOTE_META_OFFSET, 40)] _ 0%nat).
      * constructor; [|constructor]. split; [done|]. cbn [wstruct snd]. rewrite enc_struct_length; [done|]. by apply Hbo.
      * reflexivity.
      * reflexivity.
      * by apply Hbo.
    + rewrite Hbm. unfold ud_remote_bundle_valid in Hbv. cbv zeta in Hbv. rewrite Hbm in Hbv.
      change (UD_CODE_REMOTE_VERIFIED =? UD_CODE_REMOTE_SOCIAL) with false in Hbv |- *. case_if_in Hbv; [done|]. bprop.
      simpl. unfold z0. rewrite !andb_true_iff, !Z.eqb_eq. done.
  - intros d l Hd Hl. rewrite Hceq, <- HR. unfold table_offset. rewrite Hs. by apply single_table.
  - intros d Hd. rewrite Hp, <- HR. by apply single_context.
  - intros d Hd. unfold image_ready, is_remote. rewrite Hmode. pose proof (single_image bundle c Hbo R d Hd) as Hi. rewrite HR in Hi.
    destruct Hcase as [Hb|[b Hb]].
    + rewrite Hb in Hi |- *. simpl. exists (ud_service d). rewrite Hp. split; [done|]. cbn [service_size].
      unfold assemble in Hi at 1. rewrite length_fmap in Hi. exact Hi.
    + destruct (single_bundle_valid o bundle b Hc Hm Hb) as [Hbv Hbm]. specialize (Hbo b Hb). rewrite Hb in Hi |- *. simpl.
      destruct (bundle_valid_image b d Hbv Hd) as [_ Hn]. destruct (bundle_img_ok b d Hbo Hd) as [H32 Hu32]. split; [lia|].
      assert (Hlen : Z.of_nat (length (bundle_words b d)) = (r_words (b_manifest b)).[d]).
      { unfold bundle_words. rewrite length_take, H32. unfold UD_REMOTE_MAX_WORDS in Hn. lia. }
      rewrite <- Hlen, ld_array_bytes; [apply (single_image_check k b d); [done|done|done|by rewrite Hmode, Hb|done]| |exact Hi].
      apply Forall_take. eapply Forall_impl; [exact Hu32|]. intros v Hv'. unfold field_in_range, in_u32 in *. simpl. lia.
  - unfold three_nginx. by rewrite Hp.
  - unfold heap_check. rewrite Hp, <- HR. by apply single_heap.
Qed.

(** C30. The single-client protocol completes.  An owner without [--multi], started
    with arguments it accepts, and a session prepared for a single-client region:
    when the contract of the session is at the start of the region and the owner
    publishes, the commit of the session returns 0. *)
Theorem published_answer_commits L k argv local bytes file o host name bundle m R R' :
  owner_arguments argv local bytes file = inr (o, host, name, bundle) -> ow_multi o = false ->
  (forall b, bundle = Some b -> bundle_ok b) ->
  session_inv k -> s_prepared (k_s k) = true -> s_committed (k_s k) = false -> single_matches k bundle ->
  ld_struct ud_contract R 0 = p_contract (s_p (k_s k)) ->
  agree (fun x => (UD_REMOTE_META_OFFSET <=? x) && (x <? UD_TABLE 0 0)) R (owner_single_setup bundle m) ->
  owner_single_publish bundle R = Some R' ->
  code_unmapped L k -> shows L k R' -> l_kmalloc L = true ->
  exists k', ud_commit L k = (inl tt, k') /\ s_committed (k_s k') = true.
Proof.
  intros Harg Hm Hbo Hinv Hp Hnc Hsm Hct Hag Hpub Hun Hsh Hkm.
  pose proof (owner_arguments_consistent _ _ _ _ _ _ _ _ Harg) as Hc.
  pose proof (published_ready k o bundle m _ R R' Hc Hm Hbo (si_ready _ Hinv Hp) Hsm eq_refl Hct Hag Hpub) as Hrd.
  destruct (commit_committed L k R' (manifest_of bundle)) as (k' & ? & ? & _); try done; [apply Hinv|by apply (si_ready _ Hinv)| |by exists k'].
  unfold is_remote, manifest_of. rewrite (sg_mode _ _ Hsm). by destruct bundle.
Qed.

(** ** Witness: the only client of a legacy owner *)

Definition demo_sole_mem : mem := st_struct (splice blank (owner_single_setup None blank)) ARGPA (mk_prepare USER zero_contract).
Definition demo_sole : kstate :=
  (ud_ioctl 0 demo_linux UD_PREPARE ARGBUF (enter demo_opened (open_state demo_session) demo_sole_mem demo_answers)).2.
Definition demo_sole_contract : ud_contract := p_contract (s_p (k_s demo_sole)).
Definition demo_sole_asked : mem := st64 (st_struct (owner_single_setup None blank) 0 demo_sole_contract) PUB_REQUEST 13.
Definition demo_sole_answer : mem := apply_writes (single_writes None demo_sole_contract) demo_sole_asked.
Definition demo_sole_device : device := mk_device (k_banks demo_sole) [demo_sole].
Definition demo_sole_waiting : kstate := enter demo_sole_device demo_sole (splice blank demo_sole_answer) (mk_answers [] [] [] []).
Definition demo_sole_owner : owner_options := mk_owner false false false false None false ["region"%string].

Lemma demo_sole_inv : session_inv demo_sole.
Proof.
  apply (session_reachable demo_sole_device); [|left].
  eapply rtc_l; [apply demo_open_step|]. apply rtc_once.
  assert (Hrun : (ud_ioctl 0 demo_linux UD_PREPARE ARGBUF (enter demo_opened (open_state demo_session) demo_sole_mem demo_answers)).1 =
    inl (0, Some (RPrepare (s_p (k_s demo_sole))))) by (vm_compute; reflexivity).
  refine (step_ioctl (dv_banks device_start) [] (open_state demo_session) [] demo_linux 0 UD_PREPARE ARGBUF demo_sole_mem demo_answers
    (0, Some (RPrepare (s_p (k_s demo_sole)))) demo_sole demo_linux_ok (demo_fresh (open_state demo_session) eq_refl eq_refl) _).
  exact (run_result (ud_ioctl 0 demo_linux UD_PREPARE ARGBUF) _ _ Hrun).
Qed.

Lemma demo_sole_facts :
  s_prepared (k_s demo_sole) = true /\ s_committed (k_s demo_sole) = false /\ contract_ok demo_sole_contract.
Proof.
  assert (Hp : s_prepared (k_s demo_sole) = true) by (vm_compute; reflexivity).
  split; [exact Hp|]. split; [vm_compute; reflexivity|]. unfold demo_sole_contract.
  exact (rc_contract _ _ (po_recorded _ (si_ready _ demo_sole_inv Hp))).
Qed.

Lemma demo_sole_published : owner_single_publish None demo_sole_asked = Some demo_sole_answer.
Proof.
  assert (Hc : ld_struct ud_contract demo_sole_asked 0 = demo_sole_contract) by (vm_compute; reflexivity).
  unfold owner_single_publish. rewrite Hc.
  assert (Hok : negb (ud_contract_valid demo_sole_contract) || nz (c_write_pa demo_sole_contract)
    || (c_nonce demo_sole_contract !=? ld64 demo_sole_asked PUB_REQUEST) = false) by (vm_compute; reflexivity).
  rewrite Hok. reflexivity.
Qed.

Lemma published_answer_commits_witness :
  exists k', ud_commit demo_linux demo_sole_waiting = (inl tt, k') /\ s_committed (k_s k') = true.
Proof.
  apply (published_answer_commits demo_linux demo_sole_waiting ["region"%string] (Some "b"%string) 64 (fun _ => None)
    demo_sole_owner "b"%string "region"%string None blank demo_sole_asked demo_sole_answer).
  - reflexivity.
  - reflexivity.
  - discriminate.
  - apply enter_inv; [apply demo_sole_inv|apply fresh_none, demo_sole_inv].
  - vm_compute. reflexivity.
  - vm_compute. reflexivity.
  - constructor; vm_compute; reflexivity.
  - vm_compute. reflexivity.
  - intros x Hx. unfold demo_sole_asked. destruct pub_offsets as (Oreq & _). unfold UD_REMOTE_META_OFFSET in Hx.
    rewrite st_out by (rewrite Oreq; lia). apply st_struct_out; [apply demo_sole_facts|].
    change (sizeof ud_contract) with 272. lia.
  - apply demo_sole_published.
  - apply demo_code_unmapped. vm_compute. reflexivity.
  - apply demo_shows; [vm_compute; reflexivity|reflexivity].
  - reflexivity.
Defined.
