(* ===== verification/ErpcUb.v ===== *)
(** * Data of the eRPC UB transport: src/transport_impl/ub/

    Constants of ub_config.h, the packet header of pkthdr.h, and the structures of
    ub_spsc_queue.h, ub_machine_layout.h, ub_shared_allocator.h and ub_transport.h
    that lie in a machine's shared region.  A structure is read and written whole:
    assigning a field is [upd_struct] with the record update of that field. *)

From S2P Require Import Prelude Monad CMem.

(** ** ub_config.h *)

Definition kMTU := 2048.
Definition kMaxRpcEndpoints := 64.
Definition kSpscQueueDepth := 64.
Definition kAllocationAlignment := 4 * 1024 * 1024.
Definition kRegionMagic := 0x55424552.
Definition kRegionVersion := 2.
Definition UINT8_MAX := 255.
Definition UINT16_MAX := 65535.
Definition UINT32_MAX := 4294967295.

Inductive ProcessMode := kSingle | kMulti.
Definition process_mode_value (m : ProcessMode) : Z := match m with kSingle => 1 | kMulti => 2 end.

(** ** Structures in memory *)

(** A structure whose every bit pattern is a value. *)
Class CPlain (A : Type) `{CStruct A} :=
  plain_ok : forall l, Forall2 field_in_range (widths A) l -> struct_ok (A := A) (of_fields l).

Definition upd_struct {A} `{CStruct A} (m : mem) (a : Z) (f : A -> A) : mem := st_struct m a (f (ld_struct A m a)).

Section plain.
Context {A : Type} `{CPlain A}.

Lemma dec_fields_range ws bs :
  length bs = sumw ws -> Forall (fun b => 0 <= b < 256) bs -> Forall2 field_in_range ws (dec_fields ws bs).
Proof.
  revert bs. induction ws as [|w ws IH]; intros bs Hl Hb; cbn [dec_fields]; [constructor|]. cbn [sumw] in Hl.
  constructor; [|apply IH; [rewrite length_drop; lia|by apply Forall_drop]].
  unfold field_in_range. replace (Z.of_nat w) with (Z.of_nat (length (take w bs))) by (rewrite length_take; lia).
  by apply le_value_range, Forall_take.
Qed.

Lemma ld_plain_ok m a : bytes_ok m -> struct_ok (ld_struct A m a).
Proof.
  intros Hm. apply plain_ok, dec_fields_range; [rewrite load_bytes_length; unfold sizeof; lia|by apply load_bytes_range].
Qed.

Lemma ld_upd_same m a (f : A -> A) : struct_ok (f (ld_struct A m a)) -> ld_struct A (upd_struct m a f) a = f (ld_struct A m a).
Proof. apply ld_st_struct. Qed.
Lemma upd_bytes_ok m a (f : A -> A) : bytes_ok m -> bytes_ok (upd_struct m a f).
Proof. apply st_struct_bytes_ok. Qed.
Lemma upd_out m a (f : A -> A) y :
  struct_ok (f (ld_struct A m a)) -> y < a \/ a + sizeof A <= y -> upd_struct m a f y = m y.
Proof. apply st_struct_out. Qed.
Lemma ld_upd_other {B} `{CStruct B} m a (f : A -> A) b :
  struct_ok (f (ld_struct A m a)) -> disjoint_ranges a (sizeof A) b (sizeof B) ->
  ld_struct B (upd_struct m a f) b = ld_struct B m b.
Proof. intros Hf Hd. apply ld_struct_ext. intros i Hi. apply upd_out; [done|]. unfold disjoint_ranges in Hd. lia. Qed.
End plain.

(** Take apart the list of the field values of a structure. *)
Ltac field_list H :=
  lazymatch type of H with
  | Forall2 ?P ?ws ?l => let ws' := eval hnf in ws in change (Forall2 P ws' l) in H
  end;
  lazymatch type of H with
  | Forall2 _ (_ :: _) _ => apply Forall2_cons_inv_l in H as (?&?&?&H&->); field_list H
  | Forall2 _ [] _ => apply Forall2_nil_inv_l in H as ->
  end.

Ltac fields_in_range := repeat (apply List.Forall2_cons; [first [assumption|unfold field_in_range in *; lia]|]); apply List.Forall2_nil.

(** ** pkthdr.h *)

(** [h_bits] packs [pkt_type_ : 2], [pkt_num_ : 13], [req_num_ : 44], [magic_ : 4] and
    [is_zerocopy_ : 1]. *)
Record pkthdr_t := mk_pkthdr {
  h_headroom : Z; h_req_type : Z; h_msg_size : Z; h_dest_session_num : Z; h_bits : Z }.
Definition sizeof_pkthdr := 16.
Definition set_zerocopy (h : pkthdr_t) : pkthdr_t :=
  mk_pkthdr (h_headroom h) (h_req_type h) (h_msg_size h) (h_dest_session_num h) (h_bits h .| (1 .<< 63)).

(** ** UBMessageDescriptor; [d_reserved] is [reserved[7]] and the 8 bytes of tail padding. *)
Record UBMessageDescriptor := mk_descriptor {
  d_pkthdr : pkthdr_t; d_machine_id : Z; d_block_offset : Z; d_payload_offset : Z;
  d_payload_length : Z; d_block_generation : Z; d_entry_type : Z; d_reserved : Z }.

Definition descriptor_widths : list nat := [2; 1; 3; 2; 8; 8; 8; 8; 4; 4; 1; 15]%nat.
Definition descriptor_fields (d : UBMessageDescriptor) : list Z :=
  let h := d_pkthdr d in
  [h_headroom h; h_req_type h; h_msg_size h; h_dest_session_num h; h_bits h; d_machine_id d; d_block_offset d;
   d_payload_offset d; d_payload_length d; d_block_generation d; d_entry_type d; d_reserved d].
Definition descriptor_of (l : list Z) : UBMessageDescriptor :=
  mk_descriptor (mk_pkthdr l.[0] l.[1] l.[2] l.[3] l.[4]) l.[5] l.[6] l.[7] l.[8] l.[9] l.[10] l.[11].

#[export, program] Instance CStruct_descriptor : CStruct UBMessageDescriptor := {|
  widths := descriptor_widths; fields := descriptor_fields; of_fields := descriptor_of;
  struct_ok d := Forall2 field_in_range descriptor_widths (descriptor_fields d) |}.
Next Obligation. done. Qed.
Next Obligation. by intros [[] ???????]. Qed.
#[export] Instance CPlain_descriptor : CPlain UBMessageDescriptor.
Proof.
  intros l Hl. field_list Hl. fields_in_range.
Qed.

(** ** ub_machine_layout.h *)

Record UBMachineRegionHeader := mk_machine_header {
  mh_magic : Z; mh_version : Z; mh_process_mode : Z; mh_reserved0 : Z; mh_max_endpoints : Z; mh_queue_depth : Z;
  mh_mtu : Z; mh_reserved1 : Z; mh_machine_id : Z; mh_allocation_flags : Z; mh_region_bytes : Z;
  mh_next_free_offset : Z; mh_manager_generation : Z }.
#[export] Instance eta_machine_header : Eta UBMachineRegionHeader := fun h =>
  mk_machine_header (mh_magic h) (mh_version h) (mh_process_mode h) (mh_reserved0 h) (mh_max_endpoints h)
    (mh_queue_depth h) (mh_mtu h) (mh_reserved1 h) (mh_machine_id h) (mh_allocation_flags h) (mh_region_bytes h)
    (mh_next_free_offset h) (mh_manager_generation h).
Definition machine_header_widths : list nat := [4; 2; 1; 1; 4; 4; 4; 4; 8; 8; 8; 8; 8]%nat.
Definition machine_header_fields (h : UBMachineRegionHeader) : list Z :=
  [mh_magic h; mh_version h; mh_process_mode h; mh_reserved0 h; mh_max_endpoints h; mh_queue_depth h; mh_mtu h;
   mh_reserved1 h; mh_machine_id h; mh_allocation_flags h; mh_region_bytes h; mh_next_free_offset h;
   mh_manager_generation h].
#[export, program] Instance CStruct_machine_header : CStruct UBMachineRegionHeader := {|
  widths := machine_header_widths; fields := machine_header_fields;
  of_fields l := mk_machine_header l.[0] l.[1] l.[2] l.[3] l.[4] l.[5] l.[6] l.[7] l.[8] l.[9] l.[10] l.[11] l.[12];
  struct_ok h := Forall2 field_in_range machine_header_widths (machine_header_fields h) |}.
Next Obligation. done. Qed.
Next Obligation. by intros []. Qed.
#[export] Instance CPlain_machine_header : CPlain UBMachineRegionHeader.
Proof.
  intros l Hl. field_list Hl. fields_in_range.
Qed.

(** [e_padding] is [padding[24]]. *)
Record UBEndpointRegistryEntry := mk_entry {
  e_state : Z; e_generation : Z; e_process_id : Z; e_sm_udp_port : Z; e_rpc_id : Z; e_reserved0 : Z;
  e_inbox_offset : Z; e_arena_offset : Z; e_arena_size : Z; e_padding : Z }.
#[export] Instance eta_entry : Eta UBEndpointRegistryEntry := fun e =>
  mk_entry (e_state e) (e_generation e) (e_process_id e) (e_sm_udp_port e) (e_rpc_id e) (e_reserved0 e)
    (e_inbox_offset e) (e_arena_offset e) (e_arena_size e) (e_padding e).
Definition entry_widths : list nat := [4; 4; 4; 2; 1; 1; 8; 8; 8; 24]%nat.
Definition entry_fields (e : UBEndpointRegistryEntry) : list Z :=
  [e_state e; e_generation e; e_process_id e; e_sm_udp_port e; e_rpc_id e; e_reserved0 e; e_inbox_offset e;
   e_arena_offset e; e_arena_size e; e_padding e].
#[export, program] Instance CStruct_entry : CStruct UBEndpointRegistryEntry := {|
  widths := entry_widths; fields := entry_fields;
  of_fields l := mk_entry l.[0] l.[1] l.[2] l.[3] l.[4] l.[5] l.[6] l.[7] l.[8] l.[9];
  struct_ok e := Forall2 field_in_range entry_widths (entry_fields e) |}.
Next Obligation. done. Qed.
Next Obligation. by intros []. Qed.
#[export] Instance CPlain_entry : CPlain UBEndpointRegistryEntry.
Proof. intros l Hl. field_list Hl. fields_in_range. Qed.

(** UBEndpointState *)
Definition kFree := 0.
Definition kActive := 1.

Definition registry_entry (slot : Z) : Z := 64 + 64 * slot.
Definition kUBMachineDataOffset := kAllocationAlignment.

Record UBEndpointHandle := mk_handle {
  eh_slot : Z; eh_rpc_id : Z; eh_generation : Z; eh_inbox_offset : Z; eh_arena_offset : Z; eh_arena_size : Z }.
Definition no_endpoint : UBEndpointHandle := mk_handle UINT8_MAX UINT8_MAX 0 0 0 0.
Definition handle_valid (e : UBEndpointHandle) : bool :=
  (eh_slot e <? kMaxRpcEndpoints) && (eh_rpc_id e <? kMaxRpcEndpoints) && nz (eh_inbox_offset e) &&
  nz (eh_arena_offset e) && nz (eh_arena_size e).

(** ** ub_shared_allocator.h *)

Definition kUBArenaMagic := 0x55424152.
Definition kUBBlockMagic := 0x5542424c.
Definition kUBAllocatorClassCount := 18.
(** UBBlockState *)
Definition kBlockFree := 0.
Definition kBlockAllocated := 1.

Record UBArenaHeader := mk_arena {
  ar_magic : Z; ar_version : Z; ar_class_count : Z; ar_machine_id : Z; ar_arena_offset : Z; ar_arena_size : Z;
  ar_bump_offset : Z; ar_active_blocks : Z; ar_free_heads : list Z; ar_class_locks : list Z; ar_padding : Z }.
#[export] Instance eta_arena : Eta UBArenaHeader := fun a =>
  mk_arena (ar_magic a) (ar_version a) (ar_class_count a) (ar_machine_id a) (ar_arena_offset a) (ar_arena_size a)
    (ar_bump_offset a) (ar_active_blocks a) (ar_free_heads a) (ar_class_locks a) (ar_padding a).

Definition arena_widths : list nat :=
  [4; 2; 2; 8; 8; 8; 8; 8]%nat ++ replicate 18 8%nat ++ replicate 18 4%nat ++ [56]%nat.
Definition arena_fields (a : UBArenaHeader) : list Z :=
  [ar_magic a; ar_version a; ar_class_count a; ar_machine_id a; ar_arena_offset a; ar_arena_size a; ar_bump_offset a;
   ar_active_blocks a] ++ ar_free_heads a ++ ar_class_locks a ++ [ar_padding a].
Definition arena_ok (a : UBArenaHeader) : Prop :=
  length (ar_free_heads a) = 18%nat /\ length (ar_class_locks a) = 18%nat /\
  Forall2 field_in_range arena_widths (arena_fields a).
Lemma array_range w n l : Forall2 field_in_range (replicate n w) l <-> length l = n /\ Forall (field_in_range w) l.
Proof.
  revert n. induction l as [|x l IH]; intros [|n]; simpl; split.
  1-5: by intros H; inversion H.
  - by intros [H _].
  - intros H. inversion H as [|????? H']; subst. apply IH in H' as [<- ?]. by split; [|constructor].
  - intros [H1 H2]. apply Forall_cons in H2 as [? ?]. constructor; [done|]. apply IH. by split; [lia|].
Qed.
Lemma arena_ok_spec h : arena_ok h <->
  (field_in_range 4 (ar_magic h) /\ field_in_range 2 (ar_version h) /\ field_in_range 2 (ar_class_count h) /\
   field_in_range 8 (ar_machine_id h) /\ field_in_range 8 (ar_arena_offset h) /\ field_in_range 8 (ar_arena_size h) /\
   field_in_range 8 (ar_bump_offset h) /\ field_in_range 8 (ar_active_blocks h)) /\
  (length (ar_free_heads h) = 18%nat /\ Forall (field_in_range 8) (ar_free_heads h)) /\
  (length (ar_class_locks h) = 18%nat /\ Forall (field_in_range 4) (ar_class_locks h)) /\ field_in_range 56 (ar_padding h).
Proof.
  unfold arena_ok, arena_widths, arena_fields. split.
  - intros (Hh&Hk&Hf). apply Forall2_app_inv in Hf as [Hs Hf]; [|done].
    apply Forall2_app_inv in Hf as [Hfh Hf]; [|by rewrite length_replicate].
    apply Forall2_app_inv in Hf as [Hfk Hp]; [|by rewrite length_replicate].
    apply array_range in Hfh, Hfk. split; [|split; [exact Hfh|split; [exact Hfk|]]].
    all: repeat match goal with H : Forall2 _ (_ :: _) _ |- _ => apply Forall2_cons_1 in H as [? H] end.
    + repeat (split; [assumption|]). assumption.
    + assumption.
  - intros (Hs&Hh&Hk&Hp). split; [apply Hh|]. split; [apply Hk|]. destruct Hs as (?&?&?&?&?&?&?&?).
    apply Forall2_app; [fields_in_range|]. apply Forall2_app; [by apply array_range|].
    apply Forall2_app; [by apply array_range|fields_in_range].
Qed.
(** [ar_padding] is [padding[48]] and the 8 bytes of tail padding. *)
#[export, program] Instance CStruct_arena : CStruct UBArenaHeader := {|
  widths := arena_widths; fields := arena_fields;
  of_fields l := mk_arena l.[0] l.[1] l.[2] l.[3] l.[4] l.[5] l.[6] l.[7] (take 18 (drop 8 l)) (take 18 (drop 26 l)) l.[44];
  struct_ok := arena_ok |}.
Next Obligation. by intros a (?&?&?). Qed.
Next Obligation.
  intros [? ? ? ? ? ? ? ? h k ?] (Hh&Hk&_). simpl in Hh, Hk.
  do 19 (destruct h as [|? h]; try done). do 19 (destruct k as [|? k]; try done).
Qed.
#[export] Instance CPlain_arena : CPlain UBArenaHeader.
Proof. intros l Hl. field_list Hl. split; [done|]. split; [done|]. fields_in_range. Qed.

Record UBBlockMetadata := mk_block {
  bm_magic : Z; bm_version : Z; bm_size_class : Z; bm_state : Z; bm_generation : Z; bm_ref_count : Z; bm_reserved : Z;
  bm_machine_id : Z; bm_arena_offset : Z; bm_block_offset : Z; bm_payload_capacity : Z; bm_next_free_offset : Z }.
#[export] Instance eta_block : Eta UBBlockMetadata := fun b =>
  mk_block (bm_magic b) (bm_version b) (bm_size_class b) (bm_state b) (bm_generation b) (bm_ref_count b)
    (bm_reserved b) (bm_machine_id b) (bm_arena_offset b) (bm_block_offset b) (bm_payload_capacity b)
    (bm_next_free_offset b).
Definition block_widths : list nat := [4; 2; 2; 4; 4; 4; 4; 8; 8; 8; 8; 8]%nat.
Definition block_fields (b : UBBlockMetadata) : list Z :=
  [bm_magic b; bm_version b; bm_size_class b; bm_state b; bm_generation b; bm_ref_count b; bm_reserved b;
   bm_machine_id b; bm_arena_offset b; bm_block_offset b; bm_payload_capacity b; bm_next_free_offset b].
#[export, program] Instance CStruct_block : CStruct UBBlockMetadata := {|
  widths := block_widths; fields := block_fields;
  of_fields l := mk_block l.[0] l.[1] l.[2] l.[3] l.[4] l.[5] l.[6] l.[7] l.[8] l.[9] l.[10] l.[11];
  struct_ok b := Forall2 field_in_range block_widths (block_fields b) |}.
Next Obligation. done. Qed.
Next Obligation. by intros []. Qed.
#[export] Instance CPlain_block : CPlain UBBlockMetadata.
Proof. intros l Hl. field_list Hl. fields_in_range. Qed.

Lemma block_ok_spec md : struct_ok md <->
  field_in_range 4 (bm_magic md) /\ field_in_range 2 (bm_version md) /\ field_in_range 2 (bm_size_class md) /\
  field_in_range 4 (bm_state md) /\ field_in_range 4 (bm_generation md) /\ field_in_range 4 (bm_ref_count md) /\
  field_in_range 4 (bm_reserved md) /\ field_in_range 8 (bm_machine_id md) /\ field_in_range 8 (bm_arena_offset md) /\
  field_in_range 8 (bm_block_offset md) /\ field_in_range 8 (bm_payload_capacity md) /\
  field_in_range 8 (bm_next_free_offset md).
Proof.
  split.
  - intros H. unfold struct_ok in H. cbn [CStruct_block] in H. unfold block_widths, block_fields in H.
    repeat (apply Forall2_cons_1 in H as [? H]). repeat (split; [assumption|]). assumption.
  - intros (?&?&?&?&?&?&?&?&?&?&?&?). unfold struct_ok. cbn [CStruct_block]. unfold block_widths, block_fields. fields_in_range.
Qed.

Lemma entry_ok_spec e : struct_ok e <->
  field_in_range 4 (e_state e) /\ field_in_range 4 (e_generation e) /\ field_in_range 4 (e_process_id e) /\
  field_in_range 2 (e_sm_udp_port e) /\ field_in_range 1 (e_rpc_id e) /\ field_in_range 1 (e_reserved0 e) /\
  field_in_range 8 (e_inbox_offset e) /\ field_in_range 8 (e_arena_offset e) /\ field_in_range 8 (e_arena_size e) /\
  field_in_range 24 (e_padding e).
Proof.
  split.
  - intros H. unfold struct_ok in H. cbn [CStruct_entry] in H. unfold entry_widths, entry_fields in H.
    repeat (apply Forall2_cons_1 in H as [? H]). repeat (split; [assumption|]). assumption.
  - intros (?&?&?&?&?&?&?&?&?&?). unfold struct_ok. cbn [CStruct_entry]. unfold entry_widths, entry_fields. fields_in_range.
Qed.

Lemma machine_header_ok_spec h : struct_ok h <->
  field_in_range 4 (mh_magic h) /\ field_in_range 2 (mh_version h) /\ field_in_range 1 (mh_process_mode h) /\
  field_in_range 1 (mh_reserved0 h) /\ field_in_range 4 (mh_max_endpoints h) /\ field_in_range 4 (mh_queue_depth h) /\
  field_in_range 4 (mh_mtu h) /\ field_in_range 4 (mh_reserved1 h) /\ field_in_range 8 (mh_machine_id h) /\
  field_in_range 8 (mh_allocation_flags h) /\ field_in_range 8 (mh_region_bytes h) /\ field_in_range 8 (mh_next_free_offset h) /\
  field_in_range 8 (mh_manager_generation h).
Proof.
  split.
  - intros H. unfold struct_ok in H. cbn [CStruct_machine_header] in H. unfold machine_header_widths, machine_header_fields in H.
    repeat (apply Forall2_cons_1 in H as [? H]). repeat (split; [assumption|]). assumption.
  - intros (?&?&?&?&?&?&?&?&?&?&?&?&?). unfold struct_ok. cbn [CStruct_machine_header]. unfold machine_header_widths, machine_header_fields. fields_in_range.
Qed.

Lemma field_u64 v : in_u64 v -> field_in_range 8 v.
Proof. unfold field_in_range, in_u64. by change (256 ^ Z.of_nat 8) with (2 ^ 64). Qed.
Lemma field_u32 v : in_u32 v -> field_in_range 4 v.
Proof. unfold field_in_range, in_u32. by change (256 ^ Z.of_nat 4) with (2 ^ 32). Qed.
