(* ===== verification/ErpcConfig.v ===== *)
(** * Configuration of the eRPC UB transport: ub_config.h, and the identity of a machine in ub_machine.cc

    [env] is [getenv].  Functions that can throw return [None] for the exception. *)

From Stdlib Require Import String Ascii.
From S2P Require Import Prelude CMem CString ErpcUb.

Definition kDefaultMachineRegionBytes := 256 * 1024 * 1024.
Definition kDefaultEndpointArenaBytes := 16 * 1024 * 1024.
Definition kDefaultShutdownTimeoutMs := 30000.
Definition kDefaultShutdownRetryIntervalMs := 500.

Section config.
Context (env : string -> option string).

Definition env_set (name : string) : option string :=
  match env name with Some text => if String.eqb text "" then None else Some text | None => None end.

Definition parse_u64_env (name : string) (default_value : Z) : Z :=
  match env_set name with
  | None => default_value
  | Some text =>
      let '(value, rest, _) := strtoull 0 text in
      if String.eqb rest text || negb (String.eqb rest "") then default_value else value
  end.

Definition region_prefix : string := default "erpc_ub_rx"%string (env_set "ERPC_UB_REGION_PREFIX").

Definition process_mode : option ProcessMode :=
  match env_set "ERPC_UB_PROCESS_MODE" with
  | None => Some kSingle
  | Some mode => if String.eqb mode "single" then Some kSingle else if String.eqb mode "multi" then Some kMulti else None
  end.

Definition manager_socket_path : string := default "/tmp/erpc_ub_manager.sock"%string (env_set "ERPC_UB_MANAGER_SOCKET").

Definition shutdown_timeout_ms : Z := parse_u64_env "ERPC_UB_SHUTDOWN_TIMEOUT_MS" kDefaultShutdownTimeoutMs.
Definition shutdown_retry_interval_ms : Z :=
  let configured := parse_u64_env "ERPC_UB_SHUTDOWN_RETRY_MS" kDefaultShutdownRetryIntervalMs in
  if configured =? 0 then 1 else configured.

Definition MB (n : Z) : Z := u64 (n * 1024 * 1024).

Definition machine_region_bytes : Z :=
  let bytes := MB (parse_u64_env "ERPC_UB_REGION_MB" (kDefaultMachineRegionBytes / (1024 * 1024))) in
  u64 (u64 (bytes + kAllocationAlignment - 1) / kAllocationAlignment * kAllocationAlignment).

Definition endpoint_arena_bytes : Z :=
  let bytes := MB (parse_u64_env "ERPC_UB_ARENA_MB" (kDefaultEndpointArenaBytes / (1024 * 1024))) in
  u64 (bytes + 63) .& (2 ^ 64 - 64).

(** Flags of the SDK's header. *)
Section flags.
Context (UBSM_FLAG_NONCACHE UBSM_FLAG_ONLY_IMPORT_NONCACHE UBSM_FLAG_WR_DELAY_COMP : Z).
Definition allocation_flags : option Z :=
  match env "ERPC_UB_MEMORY_MODE"%string with
  | None => Some (UBSM_FLAG_ONLY_IMPORT_NONCACHE .| UBSM_FLAG_WR_DELAY_COMP)
  | Some mode =>
      if String.eqb mode "nocache" then Some (UBSM_FLAG_NONCACHE .| UBSM_FLAG_WR_DELAY_COMP)
      else if String.eqb mode "" || String.eqb mode "one-sided" then Some (UBSM_FLAG_ONLY_IMPORT_NONCACHE .| UBSM_FLAG_WR_DELAY_COMP)
      else None
  end.
End flags.

Definition provider_socket : Z := u32 (parse_u64_env "ERPC_UB_PROVIDER_SOCKET" UINT32_MAX).
Definition provider_port : Z := u32 (parse_u64_env "ERPC_UB_PROVIDER_PORT" UINT32_MAX).
Definition provider_numa (constructor_numa_node : Z) : Z := u32 (parse_u64_env "ERPC_UB_PROVIDER_NUMA" constructor_numa_node).

(** ** The machine *)

(** [gethostname] gives [hostname], or fails; [host_max] is [MAX_HOST_NAME_DESC_LENGTH]: a
    name that fills the buffer is refused. *)
Context (hostname : option string) (host_max name_max : Z).
Definition text_length (s : string) : Z := Z.of_nat (String.length s).
Definition local_hostname : option string :=
  match hostname with Some h => if text_length h <? host_max then Some h else None | None => None end.

Definition provider_host : option string :=
  match env_set "ERPC_UB_PROVIDER_HOST" with Some h => Some h | None => local_hostname end.

Fixpoint fnv1a64_from (hash : Z) (text : string) : Z :=
  match text with
  | EmptyString => hash
  | String c r => fnv1a64_from (u64 (Z.lxor hash (Z.of_N (N_of_ascii c)) * 1099511628211)) r
  end.
Definition fnv1a64 (text : string) : Z := fnv1a64_from 1469598103934665603 text.

Definition ub_local_machine_id : option Z :=
  match env_set "ERPC_UB_MACHINE_ID" with
  | Some configured =>
      let '(value, rest, _) := strtoull 0 configured in
      if String.eqb rest configured || negb (String.eqb rest "") || (value =? 0) then None else Some value
  | None => match local_hostname with Some h => Some (fnv1a64 h) | None => None end
  end.

(** [std::hex << std::setw(16) << std::setfill('0')]: 16 digits, the least significant last. *)
Definition hex_digit (d : Z) : ascii := ascii_of_N (Z.to_N (if d <? 10 then 48 + d else 87 + d)).
Fixpoint hex_digits (n : nat) (v : Z) (rest : string) : string :=
  match n with O => rest | S n => hex_digits n (v / 16) (String (hex_digit (v mod 16)) rest) end.
Definition ub_machine_region_name (machine_id : Z) : option string :=
  let name := (region_prefix ++ "_" ++ hex_digits 16 machine_id "")%string in
  if text_length name >=? name_max then None else Some name.
End config.

(** ** The names tell machines apart *)

Fixpoint hex_value (s : string) : Z -> Z :=
  match s with
  | EmptyString => fun acc => acc
  | String c r => fun acc => hex_value r (16 * acc + default 0 (digit_in 16 c))
  end.

Lemma hex_digit_value d : 0 <= d < 16 -> digit_in 16 (hex_digit d) = Some d.
Proof.
  intros Hd. assert (Hall : forallb (fun d => bool_decide (digit_in 16 (hex_digit d) = Some d)) (seqZ 0 16) = true) by by vm_compute.
  rewrite forallb_forall in Hall. apply (bool_decide_eq_true_1 _). apply Hall. apply list_elem_of_In, elem_of_seqZ. lia.
Qed.
Lemma hex_digits_value n v rest acc :
  hex_value (hex_digits n v rest) acc = hex_value rest (acc * 16 ^ Z.of_nat n + v mod 16 ^ Z.of_nat n).
Proof.
  revert v rest. induction n as [|n IH]; intros v rest.
  - simpl. by rewrite Z.mod_1_r, Z.mul_1_r, Z.add_0_r.
  - cbn [hex_digits]. rewrite IH. cbn [hex_value]. rewrite hex_digit_value by (apply Z.mod_pos_bound; lia). cbn [default from_option id].
    f_equal. rewrite Nat2Z.inj_succ, Z.pow_succ_r by lia. rewrite (Z.rem_mul_r v 16) by (try lia; apply Z.pow_nonzero; lia). lia.
Qed.

Lemma string_app_inj (p a b : string) : (p ++ a)%string = (p ++ b)%string -> a = b.
Proof. induction p as [|c p IH]; simpl; [done|]. intros H. injection H as H. by apply IH. Qed.

(** C39. The region name of a machine determines its 64-bit identifier: with the same prefix, two machines that name the same
    region are the same machine. *)
Theorem region_name_identifies_machine env name_max a b name :
  in_u64 a -> in_u64 b -> ub_machine_region_name env name_max a = Some name ->
  ub_machine_region_name env name_max b = Some name -> a = b.
Proof.
  intros Ha Hb Hna Hnb. unfold ub_machine_region_name in *. cbv zeta in *. case_if_in Hna; [done|]. case_if_in Hnb; [done|].
  rewrite <- Hna in Hnb. apply (inj Some) in Hnb. apply string_app_inj, (string_app_inj "_") in Hnb.
  assert (Hv : hex_value (hex_digits 16 a "") 0 = hex_value (hex_digits 16 b "") 0) by congruence.
  rewrite !hex_digits_value in Hv. cbn [hex_value] in Hv. change (16 ^ Z.of_nat 16) with (2 ^ 64) in Hv.
  unfold in_u64 in *. rewrite !Z.mod_small in Hv by lia. lia.
Qed.
Lemma region_name_identifies_machine_witness :
  ub_machine_region_name (fun _ => None) 48 255 = Some "erpc_ub_rx_00000000000000ff"%string /\ 255 = 255.
Proof.
  split; [vm_compute; reflexivity|].
  apply (region_name_identifies_machine (fun _ => None) 48 255 255 "erpc_ub_rx_00000000000000ff"); unfold in_u64; vm_compute; repeat split; discriminate.
Defined.
