(* ===== verification/Spsc.v ===== *)
(** * The single-producer single-consumer queue: ub_spsc_queue.h

    [try_enqueue] and [try_dequeue] as functions on the region's memory, and the
    queue as two concurrent programs: the producer and the consumer take turns
    between any two accesses to shared memory, the 64-byte descriptors are copied a
    word at a time in any order, the rest of the region changes freely, and a new
    producer may attach to the counters it finds.  The
    queue refines a bounded FIFO: a descriptor arrives whole, once, and in order,
    and [false] is returned only when the FIFO is full or empty, also when the
    64-bit counters wrap. *)

From S2P Require Import Prelude Monad CMem ErpcUb.

Definition queue_head (q : Z) : Z := q.
Definition queue_tail (q : Z) : Z := q + 64.
Definition queue_slot (q i : Z) : Z := q + 128 + 64 * i.
Definition sizeof_queue := 128 + 64 * kSpscQueueDepth.

Definition queue_initialize (m : mem) (q : Z) : mem := st64 (st64 m (queue_head q) 0) (queue_tail q) 0.

(** The producer's side: [producer_tail] and [cached_consumer_head]. *)
Record producer := mk_producer { pr_tail : Z; pr_head : Z }.
#[export] Instance eta_producer : Eta producer := fun p => mk_producer (pr_tail p) (pr_head p).

Definition looks_full (p : producer) : bool := u64 (pr_tail p - pr_head p) >=? kSpscQueueDepth.
Definition slot_of (q counter : Z) : Z := queue_slot q (counter .& (kSpscQueueDepth - 1)).

Definition try_enqueue (q : Z) (d : UBMessageDescriptor) (p : producer) (m : mem) : bool * producer * mem :=
  let p := if looks_full p then p.{ pr_head := ld64 m (queue_head q) } else p in
  if looks_full p then (false, p, m) else
  let m := st_struct m (slot_of q (pr_tail p)) d in
  let p := p.{ pr_tail := u64 (pr_tail p + 1) } in
  (true, p, st64 m (queue_tail q) (pr_tail p)).

(** The result is the descriptor, [None] for [false]. *)
Definition try_dequeue (q : Z) (head : Z) (m : mem) : option UBMessageDescriptor * Z * mem :=
  let producer_tail := ld64 m (queue_tail q) in
  if head =? producer_tail then (None, head, m) else
  let d := ld_struct UBMessageDescriptor m (slot_of q head) in
  let head := u64 (head + 1) in
  (Some d, head, st64 m (queue_head q) head).

Lemma slot_in_queue q n : q + 128 <= slot_of q n <= q + 128 + 64 * 63.
Proof.
  unfold slot_of, queue_slot. change (kSpscQueueDepth - 1) with (Z.ones 6). rewrite Z.land_ones by lia.
  pose proof (Z.mod_pos_bound n (2 ^ 6) ltac:(lia)). lia.
Qed.

(** ** The two programs *)

Definition descriptor_bytes (d : UBMessageDescriptor) : list Z := enc_fields descriptor_widths (descriptor_fields d).
Definition word_bytes (bs : list Z) (i : Z) : list Z := take 8 (drop (Z.to_nat (8 * i)) bs).

Inductive producer_pc :=
  | PIdle
  | PRefresh (d : UBMessageDescriptor)                  (* about to load the head *)
  | PCopy (d : UBMessageDescriptor) (todo : list Z).    (* words of the slot left to write *)
Inductive consumer_pc :=
  | CIdle
  | CCopy (buf : mem) (todo : list Z).                  (* words of the slot left to read *)

Record qstate := mk_qstate { q_mem : mem; q_producer : producer; q_ppc : producer_pc; q_head : Z; q_cpc : consumer_pc }.
#[export] Instance eta_qstate : Eta qstate := fun s =>
  mk_qstate (q_mem s) (q_producer s) (q_ppc s) (q_head s) (q_cpc s).

(** What a call returns, at the access that decides it. *)
Inductive event := Enq (d : UBMessageDescriptor) | EnqFull | Deq (d : UBMessageDescriptor) | DeqEmpty.

Definition words : list Z := seqZ 0 8.
Definition outside (q : Z) (m n : mem) : Prop := forall x, q <= x < q + sizeof_queue -> m x = n x.

Inductive qstep (q : Z) : option event -> qstate -> qstate -> Prop :=
  | step_call s d :
      q_ppc s = PIdle -> struct_ok d ->
      qstep q None s s.{ q_ppc := if looks_full (q_producer s) then PRefresh d else PCopy d words }
  | step_refresh s d p :
      q_ppc s = PRefresh d -> p = (q_producer s).{ pr_head := ld64 (q_mem s) (queue_head q) } ->
      qstep q (if looks_full p then Some EnqFull else None) s
        s.{ q_producer := p }.{ q_ppc := if looks_full p then PIdle else PCopy d words }
  | step_write s d l i k :
      q_ppc s = PCopy d (l ++ i :: k) ->
      qstep q None s
        s.{ q_mem := store_bytes (q_mem s) (slot_of q (pr_tail (q_producer s)) + 8 * i) (word_bytes (descriptor_bytes d) i) }
         .{ q_ppc := PCopy d (l ++ k) }
  | step_publish s d t :
      q_ppc s = PCopy d [] -> t = u64 (pr_tail (q_producer s) + 1) ->
      qstep q (Some (Enq d)) s
        s.{ q_mem := st64 (q_mem s) (queue_tail q) t }.{ q_producer := (q_producer s).{ pr_tail := t } }.{ q_ppc := PIdle }
  | step_empty s :
      q_cpc s = CIdle -> q_head s = ld64 (q_mem s) (queue_tail q) -> qstep q (Some DeqEmpty) s s
  | step_fetch s buf :
      q_cpc s = CIdle -> q_head s <> ld64 (q_mem s) (queue_tail q) ->
      qstep q None s s.{ q_cpc := CCopy buf words }
  | step_read s buf l i k :
      q_cpc s = CCopy buf (l ++ i :: k) ->
      qstep q None s
        s.{ q_cpc := CCopy (store_bytes buf (8 * i) (load_bytes (q_mem s) (slot_of q (q_head s) + 8 * i) 8)) (l ++ k) }
  | step_consume s buf h :
      q_cpc s = CCopy buf [] -> h = u64 (q_head s + 1) ->
      qstep q (Some (Deq (ld_struct UBMessageDescriptor buf 0))) s
        s.{ q_mem := st64 (q_mem s) (queue_head q) h }.{ q_head := h }.{ q_cpc := CIdle }
  | step_attach s :
      q_ppc s = PIdle ->
      qstep q None s
        s.{ q_producer := mk_producer (ld64 (q_mem s) (queue_tail q)) (ld64 (q_mem s) (queue_head q)) }
  | step_rest s m :
      outside q m (q_mem s) -> qstep q None s s.{ q_mem := m }.

(** ** The specification: a FIFO of at most [kSpscQueueDepth] descriptors *)

Inductive fifo : event -> list UBMessageDescriptor -> list UBMessageDescriptor -> Prop :=
  | fifo_enq l d : Z.of_nat (length l) < kSpscQueueDepth -> fifo (Enq d) l (l ++ [d])
  | fifo_full l : Z.of_nat (length l) = kSpscQueueDepth -> fifo EnqFull l l
  | fifo_deq l d : fifo (Deq d) (d :: l) l
  | fifo_empty : fifo DeqEmpty [] [].

Inductive runs {S E : Type} (step : option E -> S -> S -> Prop) : list E -> S -> S -> Prop :=
  | runs_nil s : runs step [] s s
  | runs_quiet s t u es : step None s t -> runs step es t u -> runs step es s u
  | runs_event s t u e es : step (Some e) s t -> runs step es t u -> runs step (e :: es) s u.

Definition fifo_step (e : option event) (l k : list UBMessageDescriptor) : Prop :=
  match e with Some e => fifo e l k | None => l = k end.

(** A queue that [initialize] has set up, with both sides attached to it. *)
Definition attached (m : mem) (q : Z) : qstate := mk_qstate (queue_initialize m q) (mk_producer 0 0) PIdle 0 CIdle.

(** ** The invariant *)

Section invariant.
Context (q : Z).

(** [h] and [c] are the true and the cached number of consumed descriptors, [l] the
    queue's contents. *)
Definition slot_at (n : Z) : Z := queue_slot q (n mod kSpscQueueDepth).
Definition holds (m : mem) (a : Z) (bs : list Z) : Prop := forall k, 0 <= k < 64 -> m (a + k) = bs.[k].

Definition todo_ok (todo : list Z) : Prop := Forall (fun i => 0 <= i < 8) todo.
Definition producing (m : mem) (t c : Z) (pc : producer_pc) : Prop :=
  match pc with
  | PIdle => True
  | PRefresh d => struct_ok d
  | PCopy d todo => struct_ok d /\ todo_ok todo /\ t - c < kSpscQueueDepth /\
      forall k, 0 <= k < 64 -> k / 8 ∉ todo -> m (slot_at t + k) = (descriptor_bytes d).[k]
  end.
Definition consuming (m : mem) (h : Z) (l : list UBMessageDescriptor) (pc : consumer_pc) : Prop :=
  match pc with
  | CIdle => True
  | CCopy buf todo => l <> [] /\ todo_ok todo /\ forall k, 0 <= k < 64 -> k / 8 ∉ todo -> buf k = m (slot_at h + k)
  end.

Record queue_inv (s : qstate) (l : list UBMessageDescriptor) (h c : Z) : Prop := {
  qi_order : 0 <= c <= h;
  qi_room : h + Z.of_nat (length l) - c <= kSpscQueueDepth;
  qi_head : ld64 (q_mem s) (queue_head q) = u64 h;
  qi_tail : ld64 (q_mem s) (queue_tail q) = u64 (h + Z.of_nat (length l));
  qi_consumer : q_head s = u64 h;
  qi_producer : q_producer s = mk_producer (u64 (h + Z.of_nat (length l))) (u64 c);
  qi_slots : forall i d, l !! i = Some d -> struct_ok d /\ holds (q_mem s) (slot_at (h + Z.of_nat i)) (descriptor_bytes d);
  qi_producing : producing (q_mem s) (h + Z.of_nat (length l)) c (q_ppc s);
  qi_consuming : consuming (q_mem s) h l (q_cpc s) }.

(** *** Slots *)

Lemma depth_val : kSpscQueueDepth = 64.
Proof. reflexivity. Qed.

Lemma slot_of_counter n : slot_of q (u64 n) = slot_at n.
Proof.
  unfold slot_of, slot_at. f_equal. change (kSpscQueueDepth - 1) with (Z.ones 6).
  rewrite Z.land_ones by lia. unfold u64. change (2 ^ 64) with (2 ^ 6 * 2 ^ 58). change kSpscQueueDepth with (2 ^ 6).
  rewrite Z.rem_mul_r by lia. rewrite Z.mul_comm, Z.mod_add by lia. by rewrite Z.mod_mod by lia.
Qed.
Lemma slot_range n : q + 128 <= slot_at n <= q + sizeof_queue - 64.
Proof. unfold slot_at, queue_slot, sizeof_queue. rewrite depth_val. pose proof (Z.mod_pos_bound n 64). lia. Qed.
Lemma slots_apart n k : n <> k -> -64 < n - k < 64 -> disjoint_ranges (slot_at n) 64 (slot_at k) 64.
Proof.
  intros Hne Hd. unfold slot_at, queue_slot, disjoint_ranges. rewrite depth_val.
  assert (n mod 64 <> k mod 64); [|lia]. intros E. pose proof (Z.div_mod n 64). pose proof (Z.div_mod k 64). lia.
Qed.
Lemma counter_gap t c : 0 <= c <= t -> t - c <= 64 -> u64 (u64 t - u64 c) = t - c.
Proof. intros Hc Ht. unfold u64. rewrite <- Zminus_mod. apply Z.mod_small. lia. Qed.
Lemma u64_succ n : u64 (u64 n + 1) = u64 (n + 1).
Proof. unfold u64. by rewrite Zplus_mod_idemp_l. Qed.

Lemma descriptor_bytes_length d : struct_ok d -> length (descriptor_bytes d) = 64%nat.
Proof. intros Hd. apply Nat2Z.inj. apply (enc_struct_length d Hd). Qed.
Lemma word_bytes_length bs i : length bs = 64%nat -> 0 <= i < 8 -> length (word_bytes bs i) = 8%nat.
Proof. intros Hl Hi. unfold word_bytes. rewrite length_take, length_drop. lia. Qed.
Lemma word_bytes_nth bs i k : length bs = 64%nat -> 0 <= i < 8 -> 0 <= k < 8 -> (word_bytes bs i).[k] = bs.[8 * i + k].
Proof.
  intros Hl Hi Hk. unfold word_bytes. change 8%nat with (Z.to_nat 8). rewrite nthz_take by lia.
  unfold nthz. rewrite nth_skipn. f_equal. lia.
Qed.

(** Memory that keeps the counters and the published slots keeps the invariant of the other side. *)
Lemma holds_struct m d : struct_ok d -> holds m 0 (descriptor_bytes d) -> ld_struct UBMessageDescriptor m 0 = d.
Proof.
  intros Hd Hm. rewrite <- (ld_st_struct m 0 d Hd). apply ld_struct_ext. intros i Hi.
  rewrite (Hm i) by done. unfold st_struct. rewrite store_bytes_in; [by rewrite Z.add_simpl_l|].
  change (enc_fields _ _) with (descriptor_bytes d). rewrite descriptor_bytes_length by done. change (sizeof _) with 64 in Hi. lia.
Qed.

(** *** Steps *)

Definition kept (m m' : mem) (a n : Z) : Prop := forall k, 0 <= k < n -> m' (a + k) = m (a + k).
Lemma kept_ld m m' a : kept m m' a 8 -> ld64 m' a = ld64 m a.
Proof. intros Hk. unfold ld. f_equal. apply load_bytes_ext. intros i Hi. apply Hk. lia. Qed.

(** A write that spares the counters and the published slots. *)
Lemma inv_frame s l h c m pc :
  queue_inv s l h c -> kept (q_mem s) m (queue_head q) 8 -> kept (q_mem s) m (queue_tail q) 8 ->
  (forall i, h <= i < h + Z.of_nat (length l) -> kept (q_mem s) m (slot_at i) 64) ->
  producing m (h + Z.of_nat (length l)) c pc ->
  queue_inv s.{ q_mem := m }.{ q_ppc := pc } l h c.
Proof.
  intros [Ho Hr Hh Ht Hc Hp Hs _ Hcon] Kh Kt Ks Hpc. split; simpl; try done.
  - by rewrite (kept_ld _ _ _ Kh).
  - by rewrite (kept_ld _ _ _ Kt).
  - intros i d Hi. destruct (Hs i d Hi) as [Hd Hm]. split; [done|]. intros k Hk. rewrite Ks; [by apply Hm| |done].
    apply lookup_lt_Some in Hi. lia.
  - destruct (q_cpc s) as [|buf todo]; [done|]. destruct Hcon as (Hl&Hok&Hb). split; [done|]. split; [done|].
    intros k Hk Hn. rewrite Ks; [by apply Hb| |done]. destruct l; [done|]. simpl. lia.
Qed.

Lemma inv_producer s l h c p pc c' :
  queue_inv s l h c -> p = mk_producer (u64 (h + Z.of_nat (length l))) (u64 c') -> 0 <= c' <= h ->
  h + Z.of_nat (length l) - c' <= kSpscQueueDepth -> producing (q_mem s) (h + Z.of_nat (length l)) c' pc ->
  queue_inv s.{ q_producer := p }.{ q_ppc := pc } l h c'.
Proof. intros [] -> ???. by split. Qed.

Lemma looks_full_spec t c :
  0 <= c <= t -> t - c <= 64 -> looks_full (mk_producer (u64 t) (u64 c)) = (t - c =? 64).
Proof. intros Hc Ht. unfold looks_full. cbn [pr_tail pr_head]. rewrite counter_gap, depth_val by done. lia. Qed.

Lemma copy_starts m t c d : struct_ok d -> t - c < kSpscQueueDepth -> producing m t c (PCopy d words).
Proof.
  intros Hd Ht. split; [done|]. split; [by repeat constructor|]. split; [done|]. intros k Hk Hn. destruct Hn.
  apply elem_of_seqZ. pose proof (Z.div_lt_upper_bound k 8 8). pose proof (Z.div_pos k 8). lia.
Qed.

Lemma not_in_rest (l k : list Z) (i x : Z) : x ∉ l ++ k -> x <> i -> x ∉ l ++ i :: k.
Proof. set_solver. Qed.
Lemma todo_rest (l k : list Z) (i : Z) : todo_ok (l ++ i :: k) -> 0 <= i < 8 /\ todo_ok (l ++ k).
Proof. unfold todo_ok. rewrite !Forall_app, Forall_cons. tauto. Qed.

Lemma write_word s l h c d a i b :
  queue_inv s l h c -> q_ppc s = PCopy d (a ++ i :: b) ->
  queue_inv s.{ q_mem := store_bytes (q_mem s) (slot_of q (pr_tail (q_producer s)) + 8 * i) (word_bytes (descriptor_bytes d) i) }
             .{ q_ppc := PCopy d (a ++ b) } l h c.
Proof.
  intros HI Hpc. set (t := h + Z.of_nat (length l)). pose proof (qi_producing _ _ _ _ HI) as Hp. rewrite Hpc in Hp.
  destruct Hp as (Hd&Hok&Ht&Hm). apply todo_rest in Hok as [Hi Hok]. fold t in Hm, Ht. rewrite depth_val in Ht.
  rewrite (qi_producer _ _ _ _ HI). cbn [pr_tail]. rewrite slot_of_counter. fold t.
  pose proof (slot_range t). pose proof (descriptor_bytes_length d Hd) as Hlen.
  pose proof (word_bytes_length (descriptor_bytes d) i Hlen Hi) as Hw. pose proof (qi_order _ _ _ _ HI).
  apply inv_frame with (pc := PCopy d (a ++ b)); [done| | | |].
  - intros k Hk. apply store_bytes_out. unfold queue_head. lia.
  - intros k Hk. apply store_bytes_out. unfold queue_tail. lia.
  - intros n Hn k Hk. apply store_bytes_out. pose proof (slots_apart n t) as Hs. unfold disjoint_ranges in Hs. lia.
  - fold t. split; [done|]. split; [done|]. rewrite depth_val. split; [done|]. intros k Hk Hn.
    destruct (decide (k / 8 = i)) as [E|E].
    + pose proof (Z.div_mod k 8). pose proof (Z.mod_pos_bound k 8). rewrite store_bytes_in by lia.
      rewrite word_bytes_nth by lia. f_equal. lia.
    + pose proof (Z.div_mod k 8). pose proof (Z.mod_pos_bound k 8). rewrite store_bytes_out by lia. apply Hm; [done|]. by apply not_in_rest.
Qed.

Lemma publish s l h c d t :
  queue_inv s l h c -> q_ppc s = PCopy d [] -> t = u64 (pr_tail (q_producer s) + 1) ->
  Z.of_nat (length l) < kSpscQueueDepth /\
  queue_inv s.{ q_mem := st64 (q_mem s) (queue_tail q) t }.{ q_producer := (q_producer s).{ pr_tail := t } }.{ q_ppc := PIdle }
    (l ++ [d]) h c.
Proof.
  intros HI Hpc ->. pose proof (qi_producing _ _ _ _ HI) as Hp. rewrite Hpc in Hp. destruct Hp as (Hd&_&Ht&Hm).
  destruct HI as [Ho Hr Hh Htl Hc Hpr Hs _ Hcon]. rewrite Hpr. cbn [pr_tail]. rewrite u64_succ. rewrite depth_val in *.
  assert (Hframe : forall n k, 0 <= k < 64 -> st64 (q_mem s) (queue_tail q) (u64 (h + Z.of_nat (length l) + 1)) (slot_at n + k) = q_mem s (slot_at n + k)).
  { intros n k Hk. apply st_out. pose proof (slot_range n). unfold queue_tail. lia. }
  assert (Hlen : Z.of_nat (length (l ++ [d])) = Z.of_nat (length l) + 1) by (rewrite length_app; simpl; lia).
  split; [lia|]. split; simpl; rewrite ?Hlen, ?depth_val, ?Z.add_assoc; try done; try lia.
  - rewrite ld_st_other by (unfold disjoint_ranges, queue_head, queue_tail; lia). done.
  - rewrite ld_st_same. apply Z.mod_mod. done.
  - intros i x Hi. apply lookup_app_Some in Hi as [Hi|[Hi Hx]].
    + destruct (Hs i x Hi) as [Hx Hmx]. split; [done|]. intros k Hk. rewrite Hframe by done. by apply Hmx.
    + apply list_lookup_singleton_Some in Hx as [Hx ->]. split; [done|]. intros k Hk. rewrite Hframe by done.
      replace (h + Z.of_nat i) with (h + Z.of_nat (length l)) by lia. apply Hm; [done|apply not_elem_of_nil].
  - destruct (q_cpc s) as [|buf todo]; [done|]. destruct Hcon as (Hl&Hok&Hb). split; [by destruct l|]. split; [done|].
    intros k Hk Hn. rewrite Hframe by done. by apply Hb.
Qed.

Lemma read_word s l h c buf a i b :
  queue_inv s l h c -> q_cpc s = CCopy buf (a ++ i :: b) ->
  queue_inv s.{ q_cpc := CCopy (store_bytes buf (8 * i) (load_bytes (q_mem s) (slot_of q (q_head s) + 8 * i) 8)) (a ++ b) } l h c.
Proof.
  intros [Ho Hr Hh Ht Hc Hp Hs Hpr Hcon] Hpc. rewrite Hpc in Hcon. destruct Hcon as (Hl&Hok&Hb).
  apply todo_rest in Hok as [Hi Hok]. rewrite Hc, slot_of_counter. split; simpl; try done.
  split; [done|]. split; [done|]. intros k Hk Hn. pose proof (Z.div_mod k 8). pose proof (Z.mod_pos_bound k 8).
  destruct (decide (k / 8 = i)) as [E|E].
  - rewrite store_bytes_in by (rewrite load_bytes_length; lia). rewrite load_bytes_nth by lia. f_equal. lia.
  - rewrite store_bytes_out by (rewrite load_bytes_length; lia). apply Hb; [done|]. by apply not_in_rest.
Qed.

Lemma consume s l h c buf n :
  queue_inv s l h c -> q_cpc s = CCopy buf [] -> n = u64 (q_head s + 1) ->
  exists k, l = ld_struct UBMessageDescriptor buf 0 :: k /\
    queue_inv s.{ q_mem := st64 (q_mem s) (queue_head q) n }.{ q_head := n }.{ q_cpc := CIdle } k (h + 1) c.
Proof.
  intros [Ho Hr Hh Ht Hc Hp Hs Hpr Hcon] Hpc ->. rewrite Hpc in Hcon. destruct Hcon as (Hl&_&Hb).
  rewrite Hc, u64_succ. rewrite depth_val in *.
  assert (Hframe : forall i k, 0 <= k < 64 -> st64 (q_mem s) (queue_head q) (u64 (h + 1)) (slot_at i + k) = q_mem s (slot_at i + k)).
  { intros i k Hk. apply st_out. pose proof (slot_range i). unfold queue_head. lia. }
  destruct l as [|d l]; [done|]. destruct (Hs 0%nat d eq_refl) as [Hd Hm]. exists l. split.
  { f_equal. symmetry. apply holds_struct; [done|]. intros k Hk. rewrite Z.add_0_l, Hb by (done || apply not_elem_of_nil).
    rewrite <- (Z.add_0_r h). by apply Hm. }
  assert (Hlen : h + 1 + Z.of_nat (length l) = h + Z.of_nat (length (d :: l))) by (simpl; lia).
  split; cbn [q_mem q_head q_ppc q_cpc q_producer update]; rewrite ?Hlen, ?depth_val; try done; try lia.
  - rewrite ld_st_same. apply Z.mod_mod. done.
  - rewrite ld_st_other by (unfold disjoint_ranges, queue_head, queue_tail; lia). done.
  - intros i x Hi. destruct (Hs (S i) x Hi) as [Hx Hmx]. split; [done|]. intros k Hk.
    cbn [q_mem update]. rewrite Hframe by done. replace (h + 1 + Z.of_nat i) with (h + Z.of_nat (S i)) by lia. by apply Hmx.
  - destruct (q_ppc s) as [|d'|d' todo]; [done|done|]. destruct Hpr as (?&?&?&Hw). split; [done|]. split; [done|]. split; [done|].
    intros k Hk Hn. rewrite Hframe by done. by apply Hw.
Qed.

(** Equal counters mean an empty queue. *)
Lemma empty_counters s l h c : queue_inv s l h c -> q_head s = ld64 (q_mem s) (queue_tail q) -> l = [].
Proof.
  intros HI Ht. pose proof (qi_order _ _ _ _ HI). pose proof (qi_room _ _ _ _ HI) as Hr. rewrite depth_val in Hr.
  rewrite (qi_tail _ _ _ _ HI), (qi_consumer _ _ _ _ HI) in Ht. destruct l as [|d l]; [done|].
  assert (HG : u64 (u64 (h + Z.of_nat (length (d :: l))) - u64 h) = Z.of_nat (length (d :: l))) by (rewrite counter_gap; lia).
  rewrite <- Ht, Z.sub_diag in HG. simpl in HG. unfold u64 in HG. rewrite Z.mod_0_l in HG; lia.
Qed.

(** The rest of the region does not matter. *)
Lemma inv_outside s l h c m : queue_inv s l h c -> outside q m (q_mem s) -> queue_inv s.{ q_mem := m } l h c.
Proof.
  intros HI Hm.
  assert (Hk : forall a n, q <= a -> a + n <= q + sizeof_queue -> kept (q_mem s) m a n) by (intros a n Ha Hn k Hk; apply Hm; lia).
  assert (sizeof_queue = 4224) as Hsz by done.
  assert (HI' := inv_frame s l h c m (q_ppc s) HI). destruct s. simpl in *. apply HI'.
  - apply Hk; unfold queue_head; lia.
  - apply Hk; unfold queue_tail; lia.
  - intros i _. pose proof (slot_range i). apply Hk; lia.
  - pose proof (qi_producing _ _ _ _ HI) as Hpr. simpl in Hpr. destruct q_ppc0 as [|d|d todo]; [done|done|].
    destruct Hpr as (?&?&?&Hw). split; [done|]. split; [done|]. split; [done|]. intros k Hk' Hn. rewrite Hm; [by apply Hw|].
    pose proof (slot_range (h + Z.of_nat (length l))). lia.
Qed.
End invariant.

Lemma qstep_sim q e s s' l h c :
  queue_inv q s l h c -> qstep q e s s' -> exists l' h' c', fifo_step e l l' /\ queue_inv q s' l' h' c'.
Proof.
  intros HI Hst. pose proof (qi_order _ _ _ _ _ HI) as Ho. pose proof (qi_room _ _ _ _ _ HI) as Hr.
  pose proof (qi_producer _ _ _ _ _ HI) as Hp. rewrite depth_val in Hr.
  destruct Hst as [s d Hpc Hd|s d p Hpc ->|s d a i b Hpc|s d t Hpc Ht|s Hpc Ht|s buf Hpc Ht|s buf a i b Hpc|s buf n Hpc Hn|s Hpc|s m Hm].
  - exists l, h, c. split; [done|]. rewrite Hp, looks_full_spec by lia.
    destruct HI as [? ? ? ? ? ? ? _ ?]. split; try done. simpl. case_if; bprop; [done|]. apply copy_starts; [done|rewrite depth_val; lia].
  - rewrite Hp, (qi_head _ _ _ _ _ HI). unfold update. cbn [pr_tail pr_head]. rewrite looks_full_spec by lia.
    exists l, h, h. pose proof (qi_producing _ _ _ _ _ HI) as Hd. rewrite Hpc in Hd. split.
    + case_if; bprop; [|done]. constructor. rewrite depth_val. lia.
    + apply (inv_producer _ _ _ _ c); rewrite ?depth_val; try done; try lia. case_if; bprop; [done|]. apply copy_starts; [done|rewrite depth_val; lia].
  - exists l, h, c. split; [done|]. by apply write_word.
  - destruct (publish _ _ _ _ _ _ _ HI Hpc Ht) as [Hlen HI']. exists (l ++ [d]), h, c. by split; [constructor|].
  - rewrite (empty_counters _ _ _ _ _ HI Ht) in HI |- *. exists [], h, c. by split; [constructor|].
  - exists l, h, c. split; [done|]. destruct HI as [? ? Hh Htl Hc ? ? ? _]. split; try done. simpl. split.
    + intros ->. apply Ht. by rewrite Htl, Hc, Z.add_0_r.
    + split; [by repeat constructor|]. intros k Hk Hn. destruct Hn. apply elem_of_seqZ.
      pose proof (Z.div_lt_upper_bound k 8 8). pose proof (Z.div_pos k 8). lia.
  - exists l, h, c. split; [done|]. by apply read_word.
  - destruct (consume _ _ _ _ _ _ _ HI Hpc Hn) as (k&->&HI'). exists k, (h + 1), c. by split; [constructor|].
  - exists l, h, h. split; [done|]. rewrite (qi_head _ _ _ _ _ HI), (qi_tail _ _ _ _ _ HI).
    assert (HI' := inv_producer q s l h c (mk_producer (u64 (h + Z.of_nat (length l))) (u64 h)) PIdle h HI eq_refl).
    rewrite depth_val in HI'. destruct s. simpl in *. subst. apply HI'; [lia|lia|done].
  - exists l, h, c. split; [done|]. by apply inv_outside.
Qed.

(** ** Refinement *)

Definition enqueued (es : list event) : list UBMessageDescriptor := omap (fun e => match e with Enq d => Some d | _ => None end) es.
Definition dequeued (es : list event) : list UBMessageDescriptor := omap (fun e => match e with Deq d => Some d | _ => None end) es.

Lemma runs_sim q es s s' l h c :
  runs (qstep q) es s s' -> queue_inv q s l h c -> exists l' h' c', runs fifo_step es l l' /\ queue_inv q s' l' h' c'.
Proof.
  intros Hr. revert l h c. induction Hr as [s|s t u es Hs _ IH|s t u e es Hs _ IH]; intros l h c HI.
  - exists l, h, c. split; [constructor|done].
  - destruct (qstep_sim _ _ _ _ _ _ _ HI Hs) as (l'&h'&c'&Hf&HI'). simpl in Hf. subst l'. exact (IH _ _ _ HI').
  - destruct (qstep_sim _ _ _ _ _ _ _ HI Hs) as (l'&h'&c'&Hf&HI'). destruct (IH _ _ _ HI') as (k&?&?&Hk&?).
    exists k. do 2 eexists. split; [|done]. by apply (runs_event _ _ l').
Qed.

Lemma attached_inv m q : queue_inv q (attached m q) [] 0 0.
Proof.
  split; simpl; rewrite ?depth_val; try done.
  - unfold queue_initialize. rewrite ld_st_other by (unfold disjoint_ranges, queue_head, queue_tail; lia). by rewrite ld_st_same.
  - unfold queue_initialize. by rewrite ld_st_same.
Qed.

Lemma fifo_conserves es l k : runs fifo_step es l k -> l ++ enqueued es = dequeued es ++ k.
Proof.
  induction 1 as [l|l k u es Hs _ IH|l k u e es Hs _ IH]; simpl in *; [by rewrite app_nil_r|by subst|].
  destruct Hs; simpl; rewrite <- IH, <- ?app_assoc; done.
Qed.

(** C5. The UB message queue behaves as a FIFO of at most 64 descriptors under every interleaving of the producer's and
    the consumer's memory accesses and of the word-by-word copies of the descriptors, across counter wrap-around:
    descriptors come out whole, in order, none lost or repeated, and [try_enqueue] and [try_dequeue] return false only
    on a full, respectively empty, queue. *)
Theorem spsc_refines_fifo q m es s :
  runs (qstep q) es (attached m q) s ->
  exists l, runs fifo_step es [] l /\ enqueued es = dequeued es ++ l.
Proof.
  intros Hr. destruct (runs_sim _ _ _ _ _ _ _ Hr (attached_inv m q)) as (l&?&?&Hl&_).
  exists l. split; [done|]. by apply fifo_conserves in Hl.
Qed.

(** ** The functions are the uninterrupted runs *)

Definition copy_in (a : Z) (bs : list Z) (i : Z) (m : mem) : mem := store_bytes m (a + 8 * i) (word_bytes bs i).
Definition copy_out (m : mem) (a : Z) (i : Z) (buf : mem) : mem := store_bytes buf (8 * i) (load_bytes m (a + 8 * i) 8).

Lemma copy_in_all a bs m : length bs = 64%nat -> mem_eq (for_ 8 (copy_in a bs) m) (store_bytes m a bs).
Proof.
  intros Hl x.
  assert (HP : (a <= x < a + 8 * 8 -> for_ 8 (copy_in a bs) m x = bs.[x - a]) /\
               (~ a <= x < a + 8 * 8 -> for_ 8 (copy_in a bs) m x = m x)).
  { apply (for_invariant (fun n m' => (a <= x < a + 8 * n -> m' x = bs.[x - a]) /\ (~ a <= x < a + 8 * n -> m' x = m x)));
      [lia|split; [lia|done]|].
    intros i t Hi [Hin Hout]. unfold copy_in. destruct (decide (a + 8 * i <= x < a + 8 * i + 8)) as [Hx|Hx].
    - rewrite store_bytes_in, word_bytes_nth by (rewrite ?word_bytes_length; lia). split; [intros _; f_equal; lia|lia].
    - rewrite store_bytes_out by (rewrite word_bytes_length by lia; lia). split; intros Hx'; [apply Hin; lia|apply Hout; lia]. }
  destruct (decide (a <= x < a + 8 * 8)).
  - rewrite store_bytes_in by lia. by apply HP.
  - rewrite store_bytes_out by lia. by apply HP.
Qed.

Lemma copy_out_all m a buf k : 0 <= k < 64 -> for_ 8 (copy_out m a) buf k = m (a + k).
Proof.
  intros Hk. revert k Hk. change 64 with (8 * 8).
  apply (for_invariant (fun n buf => forall k, 0 <= k < 8 * n -> buf k = m (a + k))); [lia|lia|].
  intros i t Hi Ht k Hk. unfold copy_out. destruct (decide (8 * i <= k)).
  - rewrite store_bytes_in by (rewrite load_bytes_length; lia). rewrite load_bytes_nth by lia. f_equal. lia.
  - rewrite store_bytes_out by (rewrite load_bytes_length; lia). apply Ht. lia.
Qed.

Lemma run_writes q d todo s :
  q_ppc s = PCopy d todo ->
  runs (qstep q) [] s
    s.{ q_mem := fold_left (fun m i => copy_in (slot_of q (pr_tail (q_producer s))) (descriptor_bytes d) i m) todo (q_mem s) }
     .{ q_ppc := PCopy d [] }.
Proof.
  revert s. induction todo as [|i todo IH]; intros s Hpc.
  - destruct s. simpl in *. subst. constructor.
  - eapply runs_quiet; [exact (step_write q s d [] i todo Hpc)|].
    match goal with |- runs _ _ ?s _ => exact (IH s eq_refl) end.
Qed.

Lemma run_reads q todo s buf :
  q_cpc s = CCopy buf todo ->
  runs (qstep q) [] s s.{ q_cpc := CCopy (fold_left (fun b i => copy_out (q_mem s) (slot_of q (q_head s)) i b) todo buf) [] }.
Proof.
  revert s buf. induction todo as [|i todo IH]; intros s buf Hpc.
  - destruct s. simpl in *. subst. constructor.
  - eapply runs_quiet; [exact (step_read q s buf [] i todo Hpc)|].
    match goal with |- runs _ _ ?s _ => exact (IH s _ eq_refl) end.
Qed.

Lemma runs_app {S E : Type} (step : option E -> S -> S -> Prop) es fs s t u :
  runs step es s t -> runs step fs t u -> runs step (es ++ fs) s u.
Proof. induction 1; intros Hf; [done|eapply runs_quiet; eauto|simpl; eapply runs_event; eauto]. Qed.

(** What a run of [try_enqueue] and [try_dequeue] leaves behind. *)
Definition enqueue_run (q : Z) (d : UBMessageDescriptor) (s s' : qstate) : Prop :=
  let '(ok, p, m) := try_enqueue q d (q_producer s) (q_mem s) in
  runs (qstep q) [if ok : bool then Enq d else EnqFull] s s' /\
  q_producer s' = p /\ mem_eq (q_mem s') m /\ q_ppc s' = PIdle /\ q_head s' = q_head s /\ q_cpc s' = q_cpc s.
Definition dequeue_run (q : Z) (s s' : qstate) : Prop :=
  let '(r, h, m) := try_dequeue q (q_head s) (q_mem s) in
  runs (qstep q) [match r with Some d => Deq d | None => DeqEmpty end] s s' /\
  q_head s' = h /\ mem_eq (q_mem s') m /\ q_cpc s' = CIdle /\ q_producer s' = q_producer s /\ q_ppc s' = q_ppc s.

Lemma st_proper w m n a v : mem_eq m n -> mem_eq (st w m a v) (st w n a v).
Proof. intros H. unfold st. by rewrite H. Qed.

Lemma copy_and_publish q d s :
  q_ppc s = PCopy d words -> struct_ok d ->
  exists s', runs (qstep q) [Enq d] s s' /\
    q_producer s' = (q_producer s).{ pr_tail := u64 (pr_tail (q_producer s) + 1) } /\
    mem_eq (q_mem s') (st64 (st_struct (q_mem s) (slot_of q (pr_tail (q_producer s))) d) (queue_tail q)
                        (u64 (pr_tail (q_producer s) + 1))) /\
    q_ppc s' = PIdle /\ q_head s' = q_head s /\ q_cpc s' = q_cpc s.
Proof.
  intros Hpc Hd. pose proof (run_writes q d words s Hpc) as Hw.
  eexists. split; [eapply (runs_app _ [] [_]); [exact Hw|]; eapply runs_event; [by apply step_publish|constructor]|].
  split; [done|]. split; [|done]. simpl. apply st_proper, copy_in_all. by apply descriptor_bytes_length.
Qed.

Lemma try_enqueue_runs q d s : q_ppc s = PIdle -> struct_ok d -> exists s', enqueue_run q d s s'.
Proof.
  intros Hpc Hd. unfold enqueue_run, try_enqueue. pose proof (step_call q s d Hpc Hd) as Hcall.
  destruct (looks_full (q_producer s)) eqn:Hf.
  - set (s1 := s.{ q_ppc := PRefresh d }) in Hcall. pose proof (step_refresh q s1 d _ eq_refl eq_refl) as Href.
    change (q_producer s1) with (q_producer s) in Href. change (q_mem s1) with (q_mem s) in Href.
    set (p := (q_producer s).{ pr_head := ld64 (q_mem s) (queue_head q) }) in *. destruct (looks_full p) eqn:Hf'.
    + eexists. split; [eapply runs_quiet; [exact Hcall|]; eapply runs_event; [exact Href|constructor]|]. done.
    + set (s2 := s1.{ q_producer := p }.{ q_ppc := PCopy d words }) in Href.
      destruct (copy_and_publish q d s2 eq_refl Hd) as (s'&Hr&Hrest). exists s'.
      split; [|exact Hrest]. eapply runs_quiet; [exact Hcall|]. by eapply runs_quiet; [exact Href|].
  - rewrite Hf. set (s1 := s.{ q_ppc := PCopy d words }) in Hcall.
    destruct (copy_and_publish q d s1 eq_refl Hd) as (s'&Hr&Hrest). exists s'. split; [|exact Hrest]. by eapply runs_quiet; [exact Hcall|].
Qed.

Lemma try_dequeue_runs q s : q_cpc s = CIdle -> exists s', dequeue_run q s s'.
Proof.
  intros Hpc. unfold dequeue_run, try_dequeue. destruct (q_head s =? _) eqn:E; bprop.
  - exists s. split; [eapply runs_event; [by apply step_empty|constructor]|done].
  - set (s1 := s.{ q_cpc := CCopy (fun _ => 0) words }). pose proof (run_reads q words s1 _ eq_refl) as Hr.
    assert (Hd : ld_struct UBMessageDescriptor (for_ 8 (copy_out (q_mem s) (slot_of q (q_head s))) (fun _ => 0)) 0 =
                 ld_struct UBMessageDescriptor (q_mem s) (slot_of q (q_head s))).
    { apply ld_struct_ext. intros i Hi. by apply copy_out_all. }
    match type of Hr with runs _ _ _ ?s2 => pose proof (step_consume q s2 _ _ eq_refl eq_refl) as Hc end.
    eexists. split.
    { eapply runs_quiet; [by apply (step_fetch q s (fun _ => 0))|]. eapply (runs_app _ [] [_]); [exact Hr|].
      rewrite <- Hd. eapply runs_event; [exact Hc|constructor]. }
    done.
Qed.

(** C33. [try_enqueue] and [try_dequeue] are what the producer's, respectively the consumer's, accesses do when the other
    side does not interfere: from every idle state the steps of one call run to the end, with the function's result as
    their event, its counters, and its memory. *)
Theorem spsc_calls_are_runs q s :
  (q_ppc s = PIdle -> forall d, struct_ok d -> exists s', enqueue_run q d s s') /\
  (q_cpc s = CIdle -> exists s', dequeue_run q s s').
Proof. split; [intros Hp d Hd; by apply try_enqueue_runs|apply try_dequeue_runs]. Qed.

(** *** A run: the consumer finds the queue empty, the producer sends *)

Definition demo_descriptor : UBMessageDescriptor :=
  mk_descriptor (mk_pkthdr 0 2 100 7 0) 1 0x500000 0x500050 100 1 0 0.
Lemma demo_descriptor_ok : struct_ok demo_descriptor.
Proof. repeat (apply List.Forall2_cons; [unfold field_in_range; simpl; lia|]). apply List.Forall2_nil. Qed.

Lemma spsc_refines_fifo_witness :
  exists s l, runs (qstep 0) [DeqEmpty; Enq demo_descriptor] (attached (fun _ => 0) 0) s /\
    runs fifo_step [DeqEmpty; Enq demo_descriptor] [] l /\ [demo_descriptor] = l.
Proof.
  destruct (try_enqueue_runs 0 demo_descriptor (attached (fun _ => 0) 0) eq_refl demo_descriptor_ok) as (s&Hs&_).
  assert (Hr : runs (qstep 0) [DeqEmpty; Enq demo_descriptor] (attached (fun _ => 0) 0) s).
  { eapply runs_event; [apply step_empty; vm_compute; reflexivity|exact Hs]. }
  destruct (spsc_refines_fifo 0 (fun _ => 0) _ s Hr) as (l&Hl&He). exists s, l. split; [exact Hr|]. split; [exact Hl|exact He].
Defined.

Lemma spsc_calls_are_runs_witness :
  (exists s', enqueue_run 0 demo_descriptor (attached (fun _ => 0) 0) s') /\ (exists s', dequeue_run 0 (attached (fun _ => 0) 0) s').
Proof.
  destruct (spsc_calls_are_runs 0 (attached (fun _ => 0) 0)) as [He Hd].
  split; [exact (He eq_refl demo_descriptor demo_descriptor_ok)|exact (Hd eq_refl)].
Defined.
