(* ===== verification/Arena.v ===== *)
(** * The shared allocator: ub_shared_allocator.cc

    Blocks of a machine region, allocated by the endpoint that owns the arena and
    released by whoever drops the last reference.  A pointer into the region is its
    offset; [None] is the null pointer.  The operations run one at a time here: the
    class lock and the compare-and-swap on the bump offset make them atomic to each
    other, and [lock_class] on a lock that is taken is [SPINS]: the source's loop then
    waits until the holder gives it back.  ArenaSound.v shows that it does not occur
    while only these operations write the metadata. *)

From S2P Require Import Prelude Monad CMem ErpcUb.

Definition A : Type -> Type := MS mem.

(** The exceptions, by their messages. *)
Definition SPINS := 1.
Definition INVALID_ARENA := 2.
Definition NOT_INITIALIZED := 3.
Definition ADD_REF_INVALID := 4.
Definition REF_UNDERFLOW := 5.
Definition CORRUPT_ARENA := 6.
Definition ACTIVE_UNDERFLOW := 7.
Definition FREE_INVALID := 8.

Definition arena_at (a : Z) : A UBArenaHeader := m <- get ;; ret (ld_struct UBArenaHeader m a).
Definition set_arena (a : Z) (f : UBArenaHeader -> UBArenaHeader) : A unit := m <- get ;; put (upd_struct m a f).
Definition block_at (b : Z) : A UBBlockMetadata := m <- get ;; ret (ld_struct UBBlockMetadata m b).
Definition set_block (b : Z) (f : UBBlockMetadata -> UBBlockMetadata) : A unit := m <- get ;; put (upd_struct m b f).

Definition kMinClassCapacity := 64.
Definition kAllocatorVersion := 1.
Definition sizeof_arena := 320.
Definition sizeof_block := 64.
Definition align64 (value : Z) : Z := u64 (value + 63) .& (2 ^ 64 - 64).

Definition lock_class (a c : Z) : A unit :=
  h <- arena_at a ;;
  fail_if (nz (ar_class_locks h).[c]) SPINS ;;
  set_arena a (fun h => h.{ ar_class_locks := setz (ar_class_locks h) c 1 }).
Definition unlock_class (a c : Z) : A unit :=
  set_arena a (fun h => h.{ ar_class_locks := setz (ar_class_locks h) c 0 }).

Definition ub_initialize_arena (machine_id arena_offset arena_size : Z) : A unit :=
  fail_if (arena_size <=? sizeof_arena) INVALID_ARENA ;;
  m <- get ;; put (fill m arena_offset sizeof_arena 0) ;;
  set_arena arena_offset (fun h =>
    h.{ ar_version := kAllocatorVersion }.{ ar_class_count := kUBAllocatorClassCount }.{ ar_machine_id := machine_id }
     .{ ar_arena_offset := arena_offset }.{ ar_arena_size := arena_size }
     .{ ar_bump_offset := align64 (u64 (arena_offset + sizeof_arena)) }) ;;
  set_arena arena_offset (fun h => h.{ ar_magic := kUBArenaMagic }).

(** An allocator: the machine identifier of its context and its endpoint. *)
Record allocator := mk_allocator { al_machine_id : Z; al_endpoint : UBEndpointHandle }.

(** The constructor of UBSharedAllocator. *)
Definition UBSharedAllocator (machine_id : Z) (endpoint : UBEndpointHandle) : A allocator :=
  h <- arena_at (eh_arena_offset endpoint) ;;
  fail_if (negb (handle_valid endpoint) || (ar_magic h !=? kUBArenaMagic) || (ar_machine_id h !=? machine_id) ||
           (ar_arena_offset h !=? eh_arena_offset endpoint) || (ar_arena_size h !=? eh_arena_size endpoint)) NOT_INITIALIZED ;;
  ret (mk_allocator machine_id endpoint).

Definition class_capacity (index : Z) : Z := kMinClassCapacity .<< index.

(** [while (capacity < size && index + 1 < kUBAllocatorClassCount)]; the second test bounds
    the iterations. *)
Fixpoint class_loop (fuel : nat) (size capacity index : Z) : Z * Z :=
  match fuel with
  | O => (capacity, index)
  | S fuel =>
      if (capacity <? size) && (index + 1 <? kUBAllocatorClassCount)
      then class_loop fuel size (capacity .<< 1) (index + 1) else (capacity, index)
  end.
Definition class_for (size : Z) : Z :=
  let '(capacity, index) := class_loop (Z.to_nat kUBAllocatorClassCount) size kMinClassCapacity 0 in
  if capacity >=? size then index else kUBAllocatorClassCount.

(** A buffer: its address and its class size. *)
Record Buffer := mk_buffer { buf_ : option Z; class_size_ : Z }.
Definition no_buffer : Buffer := mk_buffer None 0.

Section allocator.
Context (al : allocator).
Let a : Z := eh_arena_offset (al_endpoint al).

(** The block on top of the class's free list, 0 if there is none. *)
Definition pop_free (c : Z) : A Z :=
  lock_class a c ;;
  h <- arena_at a ;;
  let block_offset := (ar_free_heads h).[c] in
  (if nz block_offset then
     md <- block_at block_offset ;;
     set_arena a (fun h => h.{ ar_free_heads := setz (ar_free_heads h) c (bm_next_free_offset md) })
   else ret tt) ;;
  unlock_class a c ;;
  ret block_offset.

Definition bump (capacity : Z) : A (option Z) :=
  let block_bytes := align64 (sizeof_block + capacity) in
  let arena_end := u64 (eh_arena_offset (al_endpoint al) + eh_arena_size (al_endpoint al)) in
  h <- arena_at a ;;
  let expected := ar_bump_offset h in
  if (expected >? arena_end) || (block_bytes >? arena_end - expected) then ret None else
  set_arena a (fun h => h.{ ar_bump_offset := u64 (expected + block_bytes) }) ;;
  ret (Some expected).

Definition next_generation (g : Z) : Z := let g := u32 (g + 1) in if g =? 0 then 1 else g.

Definition init_block (block_offset size_class capacity : Z) : A unit :=
  set_block block_offset (fun md =>
    md.{ bm_magic := kUBBlockMagic }.{ bm_version := kAllocatorVersion }.{ bm_size_class := size_class }
      .{ bm_generation := next_generation (bm_generation md) }.{ bm_ref_count := 1 }
      .{ bm_machine_id := al_machine_id al }.{ bm_arena_offset := eh_arena_offset (al_endpoint al) }
      .{ bm_block_offset := block_offset }.{ bm_payload_capacity := capacity }.{ bm_next_free_offset := 0 }) ;;
  set_arena a (fun h => h.{ ar_active_blocks := u64 (ar_active_blocks h + 1) }) ;;
  set_block block_offset (fun md => md.{ bm_state := kBlockAllocated }).

Definition alloc (size : Z) : A Buffer :=
  let size_class := class_for size in
  if (size =? 0) || (size_class =? kUBAllocatorClassCount) then ret no_buffer else
  popped <- pop_free size_class ;;
  let capacity := class_capacity size_class in
  taken <- (if popped =? 0 then bump capacity else ret (Some popped)) ;;
  match taken with
  | None => ret no_buffer
  | Some block_offset =>
      init_block block_offset size_class capacity ;;
      ret (mk_buffer (Some (block_offset + sizeof_block)) capacity)
  end.

Definition metadata_from_buffer (b : Buffer) : option Z := p ← buf_ b; Some (p - sizeof_block).

Definition add_ref (b : Buffer) : A unit :=
  match metadata_from_buffer b with
  | None => raise ADD_REF_INVALID
  | Some p =>
      md <- block_at p ;;
      fail_if ((bm_magic md !=? kUBBlockMagic) || (bm_state md !=? kBlockAllocated)) ADD_REF_INVALID ;;
      set_block p (fun md => md.{ bm_ref_count := u32 (bm_ref_count md + 1) })
  end.

(** The arena is found through the block's metadata, which is in shared memory: the source
    follows whatever offset is there. *)
Definition release_metadata (p : Z) : A unit :=
  md <- block_at p ;;
  let old := bm_ref_count md in
  set_block p (fun md => md.{ bm_ref_count := u32 (old - 1) }) ;;
  fail_if (old =? 0) REF_UNDERFLOW ;;
  if old !=? 1 then ret tt else
  let machine_base := p - bm_block_offset md in
  let arena := machine_base + bm_arena_offset md in
  let c := bm_size_class md in
  h <- arena_at arena ;;
  fail_if ((ar_magic h !=? kUBArenaMagic) || (c >=? kUBAllocatorClassCount)) CORRUPT_ARENA ;;
  set_block p (fun md => md.{ bm_state := kBlockFree }) ;;
  lock_class arena c ;;
  h <- arena_at arena ;;
  set_block p (fun md => md.{ bm_next_free_offset := (ar_free_heads h).[c] }) ;;
  set_arena arena (fun h => h.{ ar_free_heads := setz (ar_free_heads h) c (bm_block_offset md) }) ;;
  unlock_class arena c ;;
  h <- arena_at arena ;;
  set_arena arena (fun h => h.{ ar_active_blocks := u64 (ar_active_blocks h - 1) }) ;;
  fail_if (ar_active_blocks h =? 0) ACTIVE_UNDERFLOW.

Definition free (b : Buffer) : A unit :=
  match metadata_from_buffer b with
  | None => ret tt
  | Some p =>
      md <- block_at p ;;
      fail_if (bm_magic md !=? kUBBlockMagic) FREE_INVALID ;;
      release_metadata p
  end.

Definition release_remote_ref (b : Buffer) : A unit :=
  match metadata_from_buffer b with None => ret tt | Some p => release_metadata p end.

(** [local] says that the pointer is into the region of this machine. *)
Definition is_shared_ptr (local : bool) (p : option Z) : bool :=
  match p with
  | None => false
  | Some v => local && (v >=? eh_arena_offset (al_endpoint al)) && (v <? eh_arena_offset (al_endpoint al) + eh_arena_size (al_endpoint al))
  end.
Definition offset_of (local : bool) (p : option Z) : Z :=
  if is_shared_ptr local p then default 0 p else 0.
Definition generation_of (local : bool) (p : option Z) : A Z :=
  if is_shared_ptr local p then md <- block_at (default 0 p - sizeof_block) ;; ret (bm_generation md) else ret 0.
End allocator.

(** [mapped]: [machine_base] is not null. *)
Definition resolve_payload (region_size : Z) (mapped : bool) (block_offset payload_offset length : Z) : option Z :=
  let invalid_bounds :=
    negb mapped || (block_offset >? u64 (region_size - sizeof_block)) || (payload_offset >? region_size) ||
    (length >? u64 (region_size - payload_offset)) in
  if invalid_bounds then None else
  let invalid_coordinates := (payload_offset <? block_offset) || (payload_offset - block_offset <? sizeof_block) in
  if invalid_coordinates then None else Some payload_offset.
