(* ===== verification/ArenaSound.v ===== *)
(** * The allocator's guarantee

    Whatever allocations, references, releases and payload writes the holders of
    blocks make, in any order: no two live blocks overlap, a block stays live as
    long as a reference to it is held, the reference counts and the number of
    active blocks are exact, no operation of a holder throws or spins, and a block
    is refused only when neither the class's free list nor the rest of the arena
    has room. *)

From S2P Require Import Prelude Monad CMem ErpcUb Arena.

(** ** Sizes *)

Definition class_bytes (c : Z) : Z := sizeof_block + class_capacity c.

Lemma capacity_val c : 0 <= c -> class_capacity c = 64 * 2 ^ c.
Proof. intros Hc. unfold class_capacity, kMinClassCapacity. by rewrite Z.shiftl_mul_pow2. Qed.
Lemma capacity_bounds c : 0 <= c < 18 -> 64 <= class_capacity c <= 64 * 2 ^ 17 /\ class_capacity c mod 64 = 0.
Proof.
  intros Hc. rewrite capacity_val by lia. pose proof (Z.pow_le_mono_r 2 0 c). pose proof (Z.pow_le_mono_r 2 c 17).
  split; [lia|]. rewrite Z.mul_comm. by apply Z_mod_mult.
Qed.
Lemma align64_val v : 0 <= v <= 2 ^ 64 - 64 -> v mod 64 = 0 -> align64 v = v.
Proof.
  intros Hv Hm. unfold align64. rewrite u64_id by (unfold in_u64; lia). replace (2 ^ 64 - 64) with (Z.ldiff (Z.ones 64) (Z.ones 6)) by reflexivity.
  rewrite Z.ldiff_land, Z.land_assoc, Z.land_ones, <- Z.ldiff_land by lia. rewrite Z.mod_small by lia.
  rewrite Z.ldiff_ones_r by lia. rewrite Z.shiftr_div_pow2, Z.shiftl_mul_pow2 by lia. change (2 ^ 6) with 64.
  pose proof (Z.div_mod v 64). replace (v + 63) with (v / 64 * 64 + 63) by lia.
  rewrite Z.div_add_l by lia. change (63 / 64) with 0. lia.
Qed.

(** The size class: the least capacity that is enough. *)
Lemma class_loop_spec fuel size index :
  0 <= index < 18 -> (18 <= Z.of_nat fuel + index)  ->
  (0 < index -> class_capacity (index - 1) < size) ->
  let '(capacity, i) := class_loop fuel size (class_capacity index) index in
  0 <= i < 18 /\ capacity = class_capacity i /\ (0 < i -> class_capacity (i - 1) < size) /\ (capacity < size -> i = 17).
Proof.
  revert index. induction fuel as [|fuel IH]; intros index Hi Hf Hp; [lia|]. cbn [class_loop].
  change kUBAllocatorClassCount with 18. destruct (_ && _) eqn:E; bprop.
  - assert (Hs : Z.shiftl (class_capacity index) 1 = class_capacity (index + 1)).
    { rewrite !capacity_val, Z.shiftl_mul_pow2, Z.pow_add_r by lia. lia. }
    rewrite Hs. apply IH; [lia|lia|]. intros _. by replace (index + 1 - 1) with index by lia.
  - split; [lia|]. split; [done|]. split; [done|]. intros Hlt. destruct E as [E|E]; bprop; lia.
Qed.

Lemma class_for_spec size :
  (class_for size = kUBAllocatorClassCount <-> class_capacity 17 < size) /\
  (class_for size <> kUBAllocatorClassCount ->
     0 <= class_for size < kUBAllocatorClassCount /\ size <= class_capacity (class_for size) /\
     forall c, 0 <= c < class_for size -> class_capacity c < size).
Proof.
  pose proof (class_loop_spec 18 size 0 ltac:(lia) ltac:(lia) ltac:(lia)) as H.
  unfold class_for. change (Z.to_nat kUBAllocatorClassCount) with 18%nat. change kMinClassCapacity with (class_capacity 0).
  destruct (class_loop _ _ _ _) as [capacity i]. destruct H as (Hi&->&Hp&Hend). change kUBAllocatorClassCount with 18.
  destruct (size <=? class_capacity i) eqn:E; bprop.
  - split.
    + split; [lia|]. intros Hlt. rewrite !capacity_val in * by lia. pose proof (Z.pow_le_mono_r 2 i 17). lia.
    + intros _. split; [lia|]. split; [done|]. intros c Hc. specialize (Hp ltac:(lia)).
      rewrite !capacity_val in * by lia. pose proof (Z.pow_le_mono_r 2 c (i - 1)). lia.
  - split; [|lia]. split; [|done]. intros _. by rewrite (Hend E) in E.
Qed.

(** C40. The size class of a request is the least one whose capacity is enough, and no class exactly for a request above
    the largest capacity, 8 MiB; the loop that searches it stops before its bound. *)
Theorem class_for_is_least size :
  (class_for size = kUBAllocatorClassCount <-> class_capacity 17 < size) /\
  (class_for size <> kUBAllocatorClassCount ->
     0 <= class_for size < kUBAllocatorClassCount /\ size <= class_capacity (class_for size) /\
     forall c, 0 <= c < class_for size -> class_capacity c < size).
Proof. apply class_for_spec. Qed.

(** ** Blocks laid side by side *)

(** The blocks between [lo] and [hi], the last one first, with their classes. *)
Fixpoint tiled (lo hi : Z) (bs : list (Z * Z)) : Prop :=
  match bs with
  | [] => hi = lo
  | (b, c) :: bs => 0 <= c < 18 /\ hi = b + class_bytes c /\ tiled lo b bs
  end.

Lemma class_bytes_pos c : 0 <= c < 18 -> 128 <= class_bytes c <= 2 ^ 24 /\ class_bytes c mod 64 = 0.
Proof.
  intros Hc. destruct (capacity_bounds c Hc) as [? Hm]. unfold class_bytes, sizeof_block. split; [lia|].
  rewrite Zplus_mod, Hm. reflexivity.
Qed.
Lemma tiled_in lo hi bs b c :
  tiled lo hi bs -> (b, c) ∈ bs -> 0 <= c < 18 /\ lo <= b /\ b + class_bytes c <= hi.
Proof.
  revert hi. induction bs as [|[b' c'] bs IH]; intros hi Ht Hin; [by apply elem_of_nil in Hin|]. destruct Ht as (Hc&->&Ht).
  pose proof (class_bytes_pos c' Hc) as [? _]. apply elem_of_cons in Hin as [[= -> ->]|Hin].
  - split; [done|]. split; [|done]. clear IH. revert b' Ht. induction bs as [|[b'' c''] bs IH]; intros b' Ht; simpl in Ht; [lia|].
    destruct Ht as (Hc'&->&Ht). pose proof (class_bytes_pos c'' Hc') as [? _]. specialize (IH _ Ht). lia.
  - destruct (IH _ Ht Hin) as (?&?&?). split; [done|]. lia.
Qed.
Lemma tiled_mod lo hi bs b c : tiled lo hi bs -> lo mod 64 = 0 -> (b, c) ∈ bs -> b mod 64 = 0.
Proof.
  intros Ht Hlo. revert hi Ht. induction bs as [|[b' c'] bs IH]; intros hi Ht Hin; [by apply elem_of_nil in Hin|].
  destruct Ht as (Hc&->&Ht). apply elem_of_cons in Hin as [[= -> ->]|Hin]; [|by apply (IH b')].
  clear IH. destruct bs as [|[b'' c''] bs]; simpl in Ht; [by subst|]. destruct Ht as (Hc'&->&Ht).
  assert (Hb : b'' mod 64 = 0); [|rewrite Zplus_mod, Hb; by rewrite (proj2 (class_bytes_pos c'' Hc'))].
  clear Hc'. revert b'' Ht. induction bs as [|[x y] bs IH]; intros b'' Ht; simpl in Ht; [by subst|].
  destruct Ht as (Hy&->&Ht). rewrite Zplus_mod, (IH _ Ht). by rewrite (proj2 (class_bytes_pos y Hy)).
Qed.
Lemma tiled_apart lo hi bs b c b' c' :
  tiled lo hi bs -> (b, c) ∈ bs -> (b', c') ∈ bs ->
  (b, c) = (b', c') \/ b + class_bytes c <= b' \/ b' + class_bytes c' <= b.
Proof.
  revert hi. induction bs as [|[x y] bs IH]; intros hi Ht Hb Hb'; [by apply elem_of_nil in Hb|]. destruct Ht as (Hy&->&Ht).
  apply elem_of_cons in Hb as [[= -> ->]|Hb], Hb' as [[= -> ->]|Hb'].
  - by left.
  - destruct (tiled_in _ _ _ _ _ Ht Hb'). lia.
  - destruct (tiled_in _ _ _ _ _ Ht Hb). lia.
  - by apply (IH x).
Qed.

(** ** The arena as a header and blocks *)

(** What is known beside the memory: the blocks made so far, the free lists, and one entry per
    reference that somebody holds. *)
Record ghost := mk_ghost { g_blocks : list (Z * Z); g_free : Z -> list Z; g_held : list Z }.

Definition is_block (bs : list (Z * Z)) (b : Z) : Prop := exists c, (b, c) ∈ bs.
Definition live (g : ghost) : list (Z * Z) := filter (fun x => x.1 ∈ g_held g) (g_blocks g).
(** One more live block. *)
Lemma live_other (bs : list (Z * Z)) (held : list Z) b :
  (forall c, (b, c) ∉ bs) -> filter (fun x => x.1 ∈ b :: held) bs = filter (fun x => x.1 ∈ held) bs.
Proof.
  induction bs as [|[x y] bs IH]; intros Hb; [done|]. rewrite !filter_cons. simpl.
  rewrite IH by (intros c Hc; apply (Hb c); by right). assert (x <> b) by (intros ->; apply (Hb y); left).
  destruct (decide (x ∈ held)); [rewrite decide_True by by right|rewrite decide_False by set_solver]; done.
Qed.
Lemma live_more (bs : list (Z * Z)) (held : list Z) b c :
  NoDup bs -> (b, c) ∈ bs -> b ∉ held -> (forall c', (b, c') ∈ bs -> c' = c) ->
  length (filter (fun x => x.1 ∈ b :: held) bs) = S (length (filter (fun x => x.1 ∈ held) bs)).
Proof.
  induction bs as [|[x y] bs IH]; intros Hn Hin Hb Hkey; [by apply elem_of_nil in Hin|]. apply NoDup_cons in Hn as [Hx Hn].
  rewrite !filter_cons. simpl. destruct (decide (x = b)) as [->|Hne].
  - rewrite (decide_False (P := b ∈ held)) by done. rewrite (decide_True (P := b ∈ b :: held)) by left. simpl. f_equal.
    rewrite live_other; [done|]. intros c' Hc'. rewrite (Hkey c' ltac:(by right)) in Hc'. by rewrite (Hkey y ltac:(left)) in Hx.
  - apply elem_of_cons in Hin as [[= -> ->]|Hin]; [done|]. specialize (IH Hn Hin Hb ltac:(intros c' Hc'; apply Hkey; by right)).
    destruct (decide (x ∈ held)); [rewrite decide_True by by right|rewrite decide_False by set_solver]; simpl; lia.
Qed.

Section arena.
Context (al : allocator).
Notation mid := (al_machine_id al).
Notation a := (eh_arena_offset (al_endpoint al)).
Notation size := (eh_arena_size (al_endpoint al)).

(** The arena is cache-line aligned, has room for more than its header, and lies in the region. *)
Record placed : Prop := {
  pl_pos : 0 < a;
  pl_align : a mod 64 = 0;
  pl_room : sizeof_arena < size;
  pl_end : a + size <= 2 ^ 64 - 2 ^ 25;
  pl_machine : in_u64 mid }.

(** The memory [m] shows the header [h] and the blocks [B] at [D], and is [m0] elsewhere. *)
Record shown (m0 : mem) (D : Z -> Prop) (h : UBArenaHeader) (B : Z -> UBBlockMetadata) (m : mem) : Prop := {
  sh_bytes : bytes_ok m;
  sh_header : ld_struct UBArenaHeader m a = h;
  sh_block : forall b, D b -> ld_struct UBBlockMetadata m b = B b;
  sh_rest : forall x, ~ a <= x < a + sizeof_arena -> (forall b, D b -> ~ b <= x < b + sizeof_block) -> m x = m0 x }.

Definition apart (D : Z -> Prop) : Prop :=
  forall b, D b -> a + sizeof_arena <= b /\ forall b', D b' -> b <> b' -> disjoint_ranges b sizeof_block b' sizeof_block.

Lemma arena_size : sizeof UBArenaHeader = 320.
Proof. reflexivity. Qed.
Lemma block_size : sizeof UBBlockMetadata = 64.
Proof. reflexivity. Qed.

Lemma wp_arena_at m0 D h B m Q E : shown m0 D h B m -> Q h m -> wp (arena_at a) Q E m.
Proof. intros Hs HQ. unfold arena_at. repeat wp_step. by rewrite (sh_header _ _ _ _ _ Hs). Qed.
Lemma wp_block_at m0 D h B m b Q E : shown m0 D h B m -> D b -> Q (B b) m -> wp (block_at b) Q E m.
Proof. intros Hs Hb HQ. unfold block_at. repeat wp_step. by rewrite (sh_block _ _ _ _ _ Hs b Hb). Qed.

Lemma wp_set_arena m0 D h B m f (Q : unit -> mem -> Prop) E :
  shown m0 D h B m -> apart D -> arena_ok (f h) ->
  (forall m', shown m0 D (f h) B m' -> Q tt m') -> wp (set_arena a f) Q E m.
Proof.
  intros [Hb Hh HB Hr] HD Hok HQ. unfold set_arena. repeat wp_step. apply HQ. subst h.
  pose proof (upd_out m a f) as Hout. rewrite arena_size in Hout. split.
  - by apply upd_bytes_ok.
  - by apply ld_upd_same.
  - intros b Db. rewrite ld_upd_other; [by apply HB|done|]. destruct (HD b Db) as [Ha _]. rewrite arena_size, block_size.
    unfold disjoint_ranges, sizeof_arena in *. lia.
  - intros x Hx HxD. unfold sizeof_arena in Hx. rewrite Hout by (done || lia). by apply Hr.
Qed.

Lemma wp_set_block m0 D h B m b f (Q : unit -> mem -> Prop) E :
  shown m0 D h B m -> apart D -> D b -> struct_ok (f (B b)) ->
  (forall m', shown m0 D h (fn_set B b (f (B b))) m' -> Q tt m') -> wp (set_block b f) Q E m.
Proof.
  intros [Hb Hh HB Hr] HD Db Hok HQ. unfold set_block. repeat wp_step. apply HQ. rewrite <- (HB b Db) in Hok.
  pose proof (upd_out m b f) as Hout. rewrite block_size in Hout. destruct (HD b Db) as [Ha Hap]. split.
  - by apply upd_bytes_ok.
  - rewrite ld_upd_other; [done|done|]. rewrite arena_size, block_size. unfold disjoint_ranges, sizeof_arena in *. lia.
  - intros b' Db'. destruct (decide (b' = b)) as [->|Hne].
    + rewrite fn_set_eq, ld_upd_same by done. by rewrite HB.
    + rewrite fn_set_ne by done. rewrite ld_upd_other; [by apply HB|done|]. by apply Hap.
  - intros x Hx HxD. specialize (HxD b Db) as Hxb. unfold sizeof_block in Hxb. rewrite Hout by (done || lia). by apply Hr.
Qed.

(** The block metadata at a fresh address comes into view. *)
Lemma shown_more m0 D h B m b :
  shown m0 D h B m -> exists md, struct_ok md /\ shown m0 (fun x => D x \/ x = b) h (fn_set B b md) m.
Proof.
  intros [Hb Hh HB Hr]. exists (ld_struct UBBlockMetadata m b). split; [by apply ld_plain_ok|]. split; try done.
  - intros b' Hb'. destruct (decide (b' = b)) as [->|Hne]; [by rewrite fn_set_eq|]. rewrite fn_set_ne by done.
    destruct Hb' as [Hb'| ->]; [by apply HB|done].
  - intros x Hx HxD. apply Hr; [done|]. intros b' Db'. apply HxD. by left.
Qed.
Lemma shown_arena_ok m0 D h B m : shown m0 D h B m -> arena_ok h.
Proof. intros [Hb <- _ _]. exact (ld_plain_ok (A := UBArenaHeader) m a Hb). Qed.
Lemma shown_block_ok m0 D h B m b : shown m0 D h B m -> D b -> struct_ok (B b).
Proof. intros [Hb _ HB _] Db. rewrite <- (HB b Db). by apply ld_plain_ok. Qed.

(** ** The invariant *)

Fixpoint chain (B : Z -> UBBlockMetadata) (head : Z) (l : list Z) : Prop :=
  match l with
  | [] => head = 0
  | b :: l => head = b /\ chain B (bm_next_free_offset (B b)) l
  end.

Record block_live (md : UBBlockMetadata) (b c n : Z) : Prop := {
  bl_magic : bm_magic md = kUBBlockMagic;
  bl_state : bm_state md = kBlockAllocated;
  bl_class : bm_size_class md = c;
  bl_arena : bm_arena_offset md = a;
  bl_offset : bm_block_offset md = b;
  bl_capacity : bm_payload_capacity md = class_capacity c;
  bl_refs : bm_ref_count md = n }.

(** [x] is a block on its way between the free lists and its holders. *)
Record arena_inv (h : UBArenaHeader) (B : Z -> UBBlockMetadata) (g : ghost) (x : option Z) : Prop := {
  ai_magic : ar_magic h = kUBArenaMagic;
  ai_locks : forall c, 0 <= c < 18 -> (ar_class_locks h).[c] = 0;
  ai_tiled : tiled (a + sizeof_arena) (ar_bump_offset h) (g_blocks g);
  ai_end : ar_bump_offset h <= a + size;
  ai_chain : forall c, 0 <= c < 18 -> chain B (ar_free_heads h).[c] (g_free g c);
  ai_free : forall c b, b ∈ g_free g c -> (b, c) ∈ g_blocks g /\ b ∉ g_held g;
  ai_nodup : forall c, NoDup (g_free g c);
  ai_live : forall b, b ∈ g_held g -> exists c, (b, c) ∈ g_blocks g /\ block_live (B b) b c (count b (g_held g));
  ai_counts : forall b, count b (g_held g) < 2 ^ 32;
  ai_owned : forall b c, (b, c) ∈ g_blocks g -> b ∈ g_held g \/ b ∈ g_free g c \/ x = Some b;
  ai_transit : forall b, x = Some b -> b ∉ g_held g /\ forall c, b ∉ g_free g c;
  ai_active : ar_active_blocks h = Z.of_nat (length (live g)) }.

Definition arena_is (m0 : mem) (g : ghost) (m : mem) : Prop :=
  exists h B, shown m0 (is_block (g_blocks g)) h B m /\ arena_inv h B g None.

(** *** Counting *)

Lemma tiled_count lo hi bs : tiled lo hi bs -> 128 * Z.of_nat (length bs) <= hi - lo.
Proof.
  revert hi. induction bs as [|[b c] bs IH]; intros hi Ht; simpl in *; [lia|]. destruct Ht as (Hc&->&Ht).
  pose proof (class_bytes_pos c Hc) as [? _]. specialize (IH _ Ht). lia.
Qed.
Lemma tiled_key lo hi bs b c c' : tiled lo hi bs -> (b, c) ∈ bs -> (b, c') ∈ bs -> c = c'.
Proof.
  intros Ht Hb Hb'. destruct (tiled_in _ _ _ _ _ Ht Hb) as [Hc _]. destruct (tiled_in _ _ _ _ _ Ht Hb') as [Hc' _].
  pose proof (class_bytes_pos c Hc) as [? _]. pose proof (class_bytes_pos c' Hc') as [? _].
  destruct (tiled_apart _ _ _ _ _ _ _ Ht Hb Hb') as [[= ->]|?]; [done|lia].
Qed.
Lemma tiled_nodup lo hi bs : tiled lo hi bs -> NoDup bs.
Proof.
  revert hi. induction bs as [|[b c] bs IH]; intros hi Ht; [constructor|]. destruct Ht as (Hc&->&Ht). constructor; [|by apply (IH b)].
  intros Hin. destruct (tiled_in _ _ _ _ _ Ht Hin) as (_&_&?). pose proof (class_bytes_pos c Hc) as [? _]. lia.
Qed.

(** *** What the invariant says of addresses *)

Lemma blocks_apart hi bs : tiled (a + sizeof_arena) hi bs -> apart (is_block bs).
Proof.
  intros Ht b [c Hb]. destruct (tiled_in _ _ _ _ _ Ht Hb) as (Hc&?&?). split; [done|]. intros b' [c' Hb'] Hne.
  destruct (tiled_in _ _ _ _ _ Ht Hb') as (Hc'&_). pose proof (class_bytes_pos c Hc) as [? _].
  pose proof (class_bytes_pos c' Hc') as [? _]. unfold disjoint_ranges, sizeof_block.
  destruct (tiled_apart _ _ _ _ _ _ _ Ht Hb Hb') as [[= -> ->]|?]; [done|lia].
Qed.

(** *** Chains *)

Lemma chain_ext B B' head l :
  (forall b, b ∈ l -> bm_next_free_offset (B b) = bm_next_free_offset (B' b)) -> chain B head l -> chain B' head l.
Proof.
  revert head. induction l as [|b l IH]; intros head HB Hc; [done|]. destruct Hc as [-> Hc]. split; [done|].
  rewrite <- HB by left. apply IH; [|done]. intros b' Hb'. apply HB. by right.
Qed.
Lemma chain_set B b md head l : b ∉ l -> chain B head l -> chain (fn_set B b md) head l.
Proof. intros Hb. apply chain_ext. intros b' Hb'. rewrite fn_set_ne; [done|]. by intros ->. Qed.

(** *** The moves of a block *)

Section moves.
Context (Hpl : placed) (h : UBArenaHeader) (B : Z -> UBBlockMetadata) (g : ghost) (Hh : arena_ok h).

Lemma heads_length : Z.of_nat (length (ar_free_heads h)) = 18.
Proof. destruct Hh as [-> _]. reflexivity. Qed.
Lemma locks_length : Z.of_nat (length (ar_class_locks h)) = 18.
Proof. destruct Hh as (_&->&_). reflexivity. Qed.

Lemma free_block x c b : arena_inv h B g x -> b ∈ g_free g c -> (b, c) ∈ g_blocks g /\ 0 < b.
Proof.
  intros HI Hb. destruct (ai_free _ _ _ _ HI c b Hb) as [Hin _]. split; [done|].
  destruct (tiled_in _ _ _ _ _ (ai_tiled _ _ _ _ HI) Hin) as (_&?&_). pose proof (pl_pos Hpl). unfold sizeof_arena in *. lia.
Qed.

(** A block leaves its free list. *)
Lemma pop_inv c b l :
  arena_inv h B g None -> 0 <= c < 18 -> g_free g c = b :: l ->
  arena_inv h.{ ar_free_heads := setz (ar_free_heads h) c (bm_next_free_offset (B b)) } B
    (mk_ghost (g_blocks g) (fn_set (g_free g) c l) (g_held g)) (Some b).
Proof.
  intros HI Hc Hl. pose proof heads_length as Hlen.
  assert (Hb : b ∈ g_free g c) by (rewrite Hl; left). destruct (free_block _ _ _ HI Hb) as [Hin _].
  destruct HI as [Hm Hk Ht He Hch Hf Hn Hlv Hct Ho _ Ha].
  assert (Hsub : forall c' x, x ∈ fn_set (g_free g) c l c' -> x ∈ g_free g c' /\ x <> b).
  { intros c' x Hx. destruct (decide (c' = c)) as [->|Hne].
    - rewrite fn_set_eq in Hx. rewrite Hl. specialize (Hn c). rewrite Hl in Hn. apply NoDup_cons in Hn as [Hn _].
      split; [by right|]. by intros ->.
    - rewrite fn_set_ne in Hx by done. split; [done|]. intros ->. apply Hne.
      destruct (Hf c' b Hx) as [Hin' _]. by apply (tiled_key _ _ _ _ _ _ Ht Hin' Hin). }
  split; simpl; try done.
  - intros c' Hc'. specialize (Hch c' Hc'). destruct (decide (c' = c)) as [->|Hne].
    + rewrite nthz_setz_eq, fn_set_eq by lia. rewrite Hl in Hch. apply Hch.
    + by rewrite nthz_setz_ne, fn_set_ne by lia.
  - intros c' x Hx. apply Hf. by apply Hsub.
  - intros c'. destruct (decide (c' = c)) as [->|Hne]; [rewrite fn_set_eq|by rewrite fn_set_ne].
    specialize (Hn c). rewrite Hl in Hn. by apply NoDup_cons in Hn as [_ Hn].
  - intros x c' Hx. destruct (Ho x c' Hx) as [?|[Hfx|?]]; [by left| |done]. right.
    destruct (decide (x = b)) as [->|Hxb]; [by right|left]. destruct (decide (c' = c)) as [->|Hne]; [|by rewrite fn_set_ne].
    rewrite fn_set_eq. rewrite Hl in Hfx. by apply elem_of_cons in Hfx as [?|?].
  - intros x [= <-]. split; [by apply (Hf c)|]. intros c' Hx. by apply Hsub in Hx as [_ ?].
Qed.

(** A block is cut from the rest of the arena. *)
Lemma bump_inv c md :
  arena_inv h B g None -> 0 <= c < 18 -> ar_bump_offset h + class_bytes c <= a + size ->
  arena_inv h.{ ar_bump_offset := ar_bump_offset h + class_bytes c } (fn_set B (ar_bump_offset h) md)
    (mk_ghost ((ar_bump_offset h, c) :: g_blocks g) (g_free g) (g_held g)) (Some (ar_bump_offset h)).
Proof.
  intros [Hm Hk Ht He Hch Hf Hn Hlv Hct Ho _ Ha] Hc Hroom. set (b := ar_bump_offset h) in *.
  assert (Hnew : forall c', (b, c') ∉ g_blocks g).
  { intros c' Hin. destruct (tiled_in _ _ _ _ _ Ht Hin) as (Hc'&_&?). pose proof (class_bytes_pos c' Hc') as [? _]. lia. }
  assert (Hheld : b ∉ g_held g) by (intros Hb; destruct (Hlv b Hb) as (c'&Hin&_); by apply (Hnew c')).
  assert (Hfree : forall c', b ∉ g_free g c') by (intros c' Hb; apply (Hnew c'); by apply Hf).
  split; simpl; try done.
  - intros c' Hc'. apply chain_set; [apply Hfree|by apply Hch].
  - intros c' x Hx. destruct (Hf c' x Hx). by split; [right|].
  - intros x Hx. destruct (Hlv x Hx) as (c'&Hin&Hbl). exists c'. split; [by right|]. rewrite fn_set_ne; [done|]. by intros ->.
  - intros x c' Hx. apply elem_of_cons in Hx as [[= -> ->]|Hx]; [by right; right|]. destruct (Ho x c' Hx) as [?|[?|?]]; [by left|by right; left|done].
  - by intros x [= <-].
  - rewrite Ha. unfold live. simpl. by rewrite filter_cons_False.
Qed.

(** A block that nobody has gets its first holder. *)
Lemma claim_inv b c md :
  arena_inv h B g (Some b) -> (b, c) ∈ g_blocks g -> block_live md b c 1 ->
  arena_inv h.{ ar_active_blocks := ar_active_blocks h + 1 } (fn_set B b md)
    (mk_ghost (g_blocks g) (g_free g) (b :: g_held g)) None.
Proof.
  intros [Hm Hk Ht He Hch Hf Hn Hlv Hct Ho Htr Ha] Hin Hmd. destruct (Htr b eq_refl) as [Hh0 Hf0].
  assert (Hcb : count b (g_held g) = 0).
  { destruct (decide (0 < count b (g_held g))) as [?|?]; [by destruct Hh0; apply count_pos|]. pose proof (count_nonneg b (g_held g)). lia. }
  split; simpl; try done.
  - intros c' Hc'. apply chain_set; [apply Hf0|by apply Hch].
  - intros c' x Hx. destruct (Hf c' x Hx) as [? Hx']. split; [done|]. apply not_elem_of_cons. split; [|done].
    intros ->. by apply (Hf0 c').
  - intros x Hx. rewrite count_cons. destruct (decide (b = x)) as [<-|Hne].
    + exists c. split; [done|]. by rewrite fn_set_eq, Hcb.
    + apply elem_of_cons in Hx as [->|Hx]; [done|]. destruct (Hlv x Hx) as (c'&?&?). exists c'. split; [done|]. by rewrite fn_set_ne.
  - intros x. rewrite count_cons. destruct (decide (b = x)) as [<-|Hne]; [rewrite Hcb; lia|by apply Hct].
  - intros x c' Hx. destruct (Ho x c' Hx) as [?|[?|[= <-]]]; [left; by right|right; by left|left; by left].
  - rewrite Ha. unfold live. simpl. rewrite <- (Nat2Z.inj_add _ 1). f_equal. rewrite Nat.add_comm. symmetry.
    apply (live_more (g_blocks g) (g_held g) b c); [by apply (tiled_nodup _ _ _ Ht)|done|done|].
    intros c' Hc'. by apply (tiled_key _ _ _ _ _ _ Ht Hc' Hin).
Qed.

(** Another reference to a live block, or one less while others remain. *)
Lemma refs_inv b md held :
  arena_inv h B g None -> b ∈ g_held g -> b ∈ held -> (forall x, x <> b -> count x held = count x (g_held g)) ->
  count b held < 2 ^ 32 -> md = (B b).{ bm_ref_count := count b held } ->
  arena_inv h (fn_set B b md) (mk_ghost (g_blocks g) (g_free g) held) None.
Proof.
  intros [Hm Hk Ht He Hch Hf Hn Hlv Hct Ho _ Ha] Hb Hb' Hsame Hmax ->.
  assert (Hheld : forall x, x ∈ held <-> x ∈ g_held g).
  { intros x. destruct (decide (x = b)) as [->|Hne]; [done|]. by rewrite !count_pos, Hsame. }
  split; simpl; try done.
  - intros c Hc. apply chain_set; [|by apply Hch]. intros Hbf. by destruct (Hf c b Hbf).
  - intros c x Hx. destruct (Hf c x Hx). split; [done|]. by rewrite Hheld.
  - intros x Hx. rewrite Hheld in Hx. destruct (Hlv x Hx) as (c&Hin&Hbl). exists c. split; [done|].
    destruct (decide (x = b)) as [->|Hne]; [|by rewrite fn_set_ne, Hsame by done]. rewrite fn_set_eq. by destruct Hbl.
  - intros x. destruct (decide (x = b)) as [->|Hne]; [done|]. rewrite Hsame by done. by apply Hct.
  - intros x c Hx. rewrite Hheld. by apply Ho.
  - rewrite Ha. unfold live. simpl. do 2 f_equal. apply list_filter_iff. intros x. by rewrite Hheld.
Qed.

(** The last reference to a block goes. *)
Lemma unclaim_inv b held :
  arena_inv h B g None -> g_held g ≡ₚ b :: held -> b ∉ held ->
  arena_inv h.{ ar_active_blocks := ar_active_blocks h - 1 } B (mk_ghost (g_blocks g) (g_free g) held) (Some b).
Proof.
  intros [Hm Hk Ht He Hch Hf Hn Hlv Hct Ho _ Ha] Hp Hb.
  assert (Hbh : b ∈ g_held g) by (rewrite Hp; left). destruct (Hlv b Hbh) as (c&Hin&_).
  assert (Hcount : forall x, x <> b -> count x held = count x (g_held g)).
  { intros x Hx. rewrite (count_perm _ _ _ Hp), count_cons, decide_False by done. lia. }
  assert (Hheld : forall x, x ∈ g_held g <-> x = b \/ x ∈ held) by (intros x; by rewrite Hp, elem_of_cons).
  split; simpl; try done.
  - intros c' x Hx. destruct (Hf c' x Hx) as [? Hx']. split; [done|]. intros Hx''. apply Hx', Hheld. by right.
  - intros x Hx. assert (x <> b) by by intros ->. destruct (Hlv x) as (c'&?&?); [apply Hheld; by right|].
    exists c'. split; [done|]. by rewrite Hcount.
  - intros x. destruct (decide (x = b)) as [->|Hne]; [|by rewrite Hcount].
    assert (~ 0 < count b held) by by rewrite <- count_pos. lia.
  - intros x c' Hx. destruct (Ho x c' Hx) as [Hx'|[?|?]]; [|by right; left|done]. apply Hheld in Hx' as [->|?]; [by right; right|by left].
  - intros x [= <-]. split; [done|]. intros c' Hx. by destruct (Hf c' b Hx).
  - rewrite Ha. unfold live. simpl.
    assert (Hl : length (filter (fun x => x.1 ∈ g_held g) (g_blocks g)) = S (length (filter (fun x => x.1 ∈ held) (g_blocks g)))).
    { rewrite <- (live_more (g_blocks g) held b c); [|by apply (tiled_nodup _ _ _ Ht)|done|done|].
      - f_equal. apply list_filter_iff. intros x. rewrite Hheld. by rewrite elem_of_cons.
      - intros c' Hc'. by apply (tiled_key _ _ _ _ _ _ Ht Hc' Hin). }
    rewrite Hl. lia.
Qed.

(** A block that nobody has goes on its free list. *)
Lemma push_inv b c md :
  arena_inv h B g (Some b) -> 0 <= c < 18 -> (b, c) ∈ g_blocks g -> bm_next_free_offset md = (ar_free_heads h).[c] ->
  arena_inv h.{ ar_free_heads := setz (ar_free_heads h) c b } (fn_set B b md)
    (mk_ghost (g_blocks g) (fn_set (g_free g) c (b :: g_free g c)) (g_held g)) None.
Proof.
  intros [Hm Hk Ht He Hch Hf Hn Hlv Hct Ho Htr Ha] Hc Hin Hmd. destruct (Htr b eq_refl) as [Hh0 Hf0].
  pose proof heads_length as Hlen. split; simpl; try done.
  - intros c' Hc'. specialize (Hch c' Hc'). destruct (decide (c' = c)) as [->|Hne].
    + rewrite nthz_setz_eq, fn_set_eq by lia. split; [done|]. rewrite fn_set_eq, Hmd. by apply chain_set.
    + rewrite nthz_setz_ne, (fn_set_ne (g_free g)) by lia. by apply chain_set.
  - intros c' x Hx. destruct (decide (c' = c)) as [->|Hne]; [|rewrite fn_set_ne in Hx by done; by apply Hf].
    rewrite fn_set_eq in Hx. apply elem_of_cons in Hx as [->|Hx]; [done|by apply Hf].
  - intros c'. destruct (decide (c' = c)) as [->|Hne]; [|by rewrite fn_set_ne].
    rewrite fn_set_eq. apply NoDup_cons. split; [apply Hf0|apply Hn].
  - intros x Hx. destruct (Hlv x Hx) as (c'&?&?). exists c'. split; [done|]. rewrite fn_set_ne; [done|]. by intros ->.
  - intros x c' Hx. destruct (Ho x c' Hx) as [?|[Hfx|[= <-]]]; [by left| |].
    + right. left. destruct (decide (c' = c)) as [->|Hne]; [rewrite fn_set_eq; by right|by rewrite fn_set_ne].
    + right. left. rewrite (tiled_key _ _ _ _ _ _ Ht Hx Hin), fn_set_eq. left.
Qed.
End moves.

(** ** The operations *)

Lemma arena_ok_locks h c v : arena_ok h -> field_in_range 4 v -> arena_ok h.{ ar_class_locks := setz (ar_class_locks h) c v }.
Proof.
  rewrite !arena_ok_spec. intros (Hs&Hh&[Hl Hk]&Hp) Hv. split; [exact Hs|]. split; [exact Hh|]. split; [|exact Hp].
  simpl. rewrite setz_length. split; [exact Hl|by apply setz_Forall].
Qed.
Lemma arena_ok_heads h c v : arena_ok h -> field_in_range 8 v -> arena_ok h.{ ar_free_heads := setz (ar_free_heads h) c v }.
Proof.
  rewrite !arena_ok_spec. intros (Hs&[Hl Hh]&Hk&Hp) Hv. split; [exact Hs|]. split; [|split; [exact Hk|exact Hp]].
  simpl. rewrite setz_length. split; [exact Hl|by apply setz_Forall].
Qed.
Lemma arena_ok_bump h v : arena_ok h -> field_in_range 8 v -> arena_ok h.{ ar_bump_offset := v }.
Proof. rewrite !arena_ok_spec. intros ((?&?&?&?&?&?&?&?)&Hr) Hv. split; [|exact Hr]. simpl. repeat (split; [assumption|]). assumption. Qed.
Lemma arena_ok_active h v : arena_ok h -> field_in_range 8 v -> arena_ok h.{ ar_active_blocks := v }.
Proof. rewrite !arena_ok_spec. intros ((?&?&?&?&?&?&?&?)&Hr) Hv. split; [|exact Hr]. simpl. repeat (split; [assumption|]). assumption. Qed.

Section operations.
Context (Hpl : placed) (E : Z -> mem -> Prop).
Context (m0 : mem).

Lemma wp_lock D h B m c (Q : unit -> mem -> Prop) :
  shown m0 D h B m -> apart D -> (ar_class_locks h).[c] = 0 ->
  (forall m', shown m0 D h.{ ar_class_locks := setz (ar_class_locks h) c 1 } B m' -> Q tt m') -> wp (lock_class a c) Q E m.
Proof.
  intros Hs HD Hl HQ. unfold lock_class. wp_step. eapply wp_arena_at; [done|]. wp_step. wp_step.
  - rewrite Hl in *. done.
  - eapply wp_set_arena; [done|done| |done]. apply arena_ok_locks; [by eapply shown_arena_ok|by apply field_u32].
Qed.
(** The lock is released to what it was. *)
Lemma wp_unlock D h B m c (Q : unit -> mem -> Prop) :
  shown m0 D h B m -> apart D -> (forall m', shown m0 D h.{ ar_class_locks := setz (ar_class_locks h) c 0 } B m' -> Q tt m') ->
  wp (unlock_class a c) Q E m.
Proof.
  intros Hs HD HQ. unfold unlock_class. eapply wp_set_arena; [done|done| |done].
  apply arena_ok_locks; [by eapply shown_arena_ok|by apply field_u32].
Qed.
Lemma unlocked (l : list Z) c v : 0 <= c < Z.of_nat (length l) -> l.[c] = 0 -> setz (setz l c v) c 0 = l.
Proof. intros Hc Hl. rewrite setz_setz, <- Hl. by apply setz_same. Qed.
Lemma same_locks h : h.{ ar_class_locks := ar_class_locks h } = h.
Proof. by destruct h. Qed.

Lemma wp_pop_free g h B m c (Q : Z -> mem -> Prop) :
  shown m0 (is_block (g_blocks g)) h B m -> arena_inv h B g None -> 0 <= c < 18 ->
  (g_free g c = [] -> forall m', shown m0 (is_block (g_blocks g)) h B m' -> Q 0 m') ->
  (forall b l m', g_free g c = b :: l -> 0 < b ->
     shown m0 (is_block (g_blocks g)) h.{ ar_free_heads := setz (ar_free_heads h) c (bm_next_free_offset (B b)) } B m' -> Q b m') ->
  wp (pop_free al c) Q E m.
Proof.
  intros Hs HI Hc Hempty Hpop. pose proof (blocks_apart _ _ (ai_tiled _ _ _ _ HI)) as HD.
  pose proof (shown_arena_ok _ _ _ _ _ Hs) as Hok. pose proof (locks_length h Hok) as Hlen.
  pose proof (ai_locks _ _ _ _ HI c Hc) as Hlk. pose proof (ai_chain _ _ _ _ HI c Hc) as Hch.
  unfold pop_free. wp_step. eapply wp_lock; [done|done|done|]. intros m1 Hs1. wp_step. eapply wp_arena_at; [done|].
  wp_step. cbn [update ar_free_heads]. unfold update. cbn [ar_free_heads].
  destruct (g_free g c) as [|b l] eqn:Hl.
  - simpl in Hch. rewrite Hch. simpl. wp_step. wp_step. eapply wp_unlock; [done|done|]. intros m2 Hs2.
    wp_step. apply (Hempty eq_refl). unfold update in Hs2. cbn [ar_class_locks] in Hs2. rewrite unlocked in Hs2 by lia. by destruct h.
  - destruct Hch as [Hb _]. assert (Hbf : b ∈ g_free g c) by (rewrite Hl; left).
    destruct (free_block Hpl _ _ _ _ _ _ HI Hbf) as [Hin Hpos]. rewrite Hb. unfold nz. destruct (b =? 0) eqn:Ez; bprop; [lia|]. cbn [negb].
    assert (Db : is_block (g_blocks g) b) by by exists c.
    wp_step. eapply wp_block_at; [done|done|]. eapply wp_set_arena; [done|done| |].
    { apply arena_ok_heads; [by eapply shown_arena_ok|]. apply (shown_block_ok _ _ _ _ _ _ Hs) in Db. 
      by apply block_ok_spec in Db as (_&_&_&_&_&_&_&_&_&_&_&?). }
    intros m2 Hs2. wp_step. eapply wp_unlock; [done|done|]. intros m3 Hs3. wp_step.
    apply (Hpop b l m3 eq_refl Hpos). unfold update in Hs3. cbn [ar_class_locks ar_free_heads] in Hs3. by rewrite unlocked in Hs3 by lia.
Qed.

Lemma shown_iff D D' h B m : (forall b, D b <-> D' b) -> shown m0 D h B m -> shown m0 D' h B m.
Proof. intros HD [Hb Hh HB Hr]. split; [done|done| |]. - intros b Hb'. by apply HB, HD. - intros x Hx Hx'. apply Hr; [done|]. intros b Hb'. by apply Hx', HD. Qed.
Lemma shown_ext D h B B' m : (forall b, B b = B' b) -> shown m0 D h B m -> shown m0 D h B' m.
Proof. intros HB' [Hb Hh HB Hr]. split; try done. intros b Db. rewrite <- HB'. by apply HB. Qed.
Lemma fn_set_twice {X} (f : Z -> X) i x y j : fn_set (fn_set f i x) i y j = fn_set f i y j.
Proof. unfold fn_set. by destruct (decide _). Qed.

Lemma next_generation_range n : in_u32 (next_generation n) /\ 0 < next_generation n.
Proof. unfold next_generation. pose proof (u32_range (n + 1)) as Hr. unfold in_u32 in *. destruct (u32 (n + 1) =? 0) eqn:Ez; bprop; lia. Qed.

Lemma active_bound h B g x : arena_inv h B g x -> 0 <= ar_active_blocks h < 2 ^ 60.
Proof.
  intros HI. rewrite (ai_active _ _ _ _ HI). pose proof (tiled_count _ _ _ (ai_tiled _ _ _ _ HI)).
  pose proof (length_filter (fun x : Z * Z => x.1 ∈ g_held g) (g_blocks g)). pose proof (ai_end _ _ _ _ HI). pose proof (pl_end Hpl).
  pose proof (pl_pos Hpl). unfold live, sizeof_arena in *. lia.
Qed.

Lemma new_block_ok md b c s :
  struct_ok md -> 0 <= c < 18 -> 0 <= b < 2 ^ 64 -> 0 <= a < 2 ^ 64 -> field_in_range 4 s ->
  struct_ok (mk_block kUBBlockMagic kAllocatorVersion c s (next_generation (bm_generation md)) 1 (bm_reserved md) mid a b
               (class_capacity c) 0).
Proof.
  intros Hmd Hc Hb Ha Hs. apply block_ok_spec in Hmd as (_&_&_&_&_&_&Hr&_). apply block_ok_spec. simpl.
  pose proof (next_generation_range (bm_generation md)) as [Hg _]. pose proof (capacity_bounds c Hc) as [? _].
  split; [by apply field_u32|]. split; [done|]. split; [unfold field_in_range; change (256 ^ Z.of_nat 2) with 65536; lia|].
  split; [exact Hs|]. split; [by apply field_u32|]. split; [by apply field_u32|]. split; [exact Hr|].
  split; [apply field_u64, (pl_machine Hpl)|]. split; [by apply field_u64|]. split; [by apply field_u64|].
  split; [apply field_u64; unfold in_u64; lia|by apply field_u64].
Qed.

Lemma wp_init_block g h B m b c (Q : unit -> mem -> Prop) :
  shown m0 (is_block (g_blocks g)) h B m -> arena_inv h B g (Some b) -> (b, c) ∈ g_blocks g ->
  (forall m', arena_is m0 (mk_ghost (g_blocks g) (g_free g) (b :: g_held g)) m' -> Q tt m') ->
  wp (init_block al b c (class_capacity c)) Q E m.
Proof.
  intros Hs HI Hin HQ. pose proof (blocks_apart _ _ (ai_tiled _ _ _ _ HI)) as HD.
  assert (Db : is_block (g_blocks g) b) by by exists c. pose proof (active_bound _ _ _ _ HI) as Hact.
  pose proof (shown_block_ok _ _ _ _ _ _ Hs Db) as Hmd. destruct (tiled_in _ _ _ _ _ (ai_tiled _ _ _ _ HI) Hin) as (Hc&Hlo&Hhi).
  pose proof (ai_end _ _ _ _ HI). pose proof (pl_pos Hpl). pose proof (pl_end Hpl). pose proof (pl_room Hpl). pose proof (pl_machine Hpl) as Hmid.
  pose proof (capacity_bounds c Hc) as [? _]. pose proof (class_bytes_pos c Hc) as [? _]. unfold sizeof_arena, in_u64 in *.
  pose proof (next_generation_range (bm_generation (B b))) as [Hg _].
  assert (Hb64 : 0 <= b < 2 ^ 64) by lia. assert (Ha64 : 0 <= a < 2 ^ 64) by lia.
  unfold init_block. wp_step. eapply wp_set_block; [done|done|done| |].
  { apply (new_block_ok (B b) b c (bm_state (B b)) Hmd Hc Hb64 Ha64). by apply block_ok_spec in Hmd as (_&_&_&?&_). }
  intros m1 Hs1. wp_step. eapply wp_set_arena; [done|done| |].
  { apply arena_ok_active; [by eapply shown_arena_ok|]. apply field_u64, u64_range. }
  intros m2 Hs2. eapply wp_set_block; [done|done|done| |].
  { rewrite fn_set_eq. apply (new_block_ok (B b) b c kBlockAllocated Hmd Hc Hb64 Ha64). by apply field_u32. }
  intros m3 Hs3. apply HQ. rewrite fn_set_eq in Hs3.
  apply (shown_ext _ _ _ _ _ (fn_set_twice B b _ _)) in Hs3.
  rewrite u64_id in Hs3 by (unfold in_u64; lia).
  do 2 eexists. split; [exact Hs3|]. apply claim_inv with (c := c); [done|done|by split].
Qed.

(** What an allocation returns. *)
Record allocated (g g' : ghost) (b c : Z) : Prop := {
  nw_held : g_held g' = b :: g_held g;
  nw_fresh : b ∉ g_held g;
  nw_block : (b, c) ∈ g_blocks g';
  nw_blocks : forall x, x ∈ g_blocks g -> x ∈ g_blocks g' }.
Definition no_room (g : ghost) (n : Z) : Prop :=
  n = 0 \/ class_for n = kUBAllocatorClassCount \/
  (g_free g (class_for n) = [] /\ exists top, tiled (a + sizeof_arena) top (g_blocks g) /\ a + size < top + class_bytes (class_for n)).
Definition alloc_result (g : ghost) (n : Z) (r : Buffer) (m : mem) : Prop :=
  (r = no_buffer /\ arena_is m0 g m /\ no_room g n) \/
  exists b g', r = mk_buffer (Some (b + sizeof_block)) (class_capacity (class_for n)) /\
    allocated g g' b (class_for n) /\ arena_is m0 g' m.

Lemma wp_bump g h B m c (Q : option Z -> mem -> Prop) :
  shown m0 (is_block (g_blocks g)) h B m -> arena_inv h B g None -> 0 <= c < 18 ->
  (a + size < ar_bump_offset h + class_bytes c -> Q None m) ->
  (forall m' md, ar_bump_offset h + class_bytes c <= a + size ->
     shown m0 (is_block ((ar_bump_offset h, c) :: g_blocks g)) h.{ ar_bump_offset := ar_bump_offset h + class_bytes c }
       (fn_set B (ar_bump_offset h) md) m' -> Q (Some (ar_bump_offset h)) m') ->
  wp (bump al (class_capacity c)) Q E m.
Proof.
  intros Hs HI Hc Hnone Hsome. pose proof (blocks_apart _ _ (ai_tiled _ _ _ _ HI)) as HD. unfold bump. cbv zeta.
  pose proof (class_bytes_pos c Hc) as [Hsz Hmod]. pose proof (ai_end _ _ _ _ HI) as Hend. pose proof (pl_end Hpl). pose proof (pl_pos Hpl).
  pose proof (pl_room Hpl). unfold sizeof_arena in *.
  change (sizeof_block + class_capacity c) with (class_bytes c). rewrite align64_val by (done || lia).
  rewrite (u64_id (a + size)) by (unfold in_u64; lia). wp_step. eapply wp_arena_at; [done|]. wp_step.
  - wp_step. apply Hnone. bprop. destruct Heqb as [?|?]; bprop; lia.
  - assert (Hlo : a + 320 <= ar_bump_offset h).
    { pose proof (ai_tiled _ _ _ _ HI) as Ht. pose proof (tiled_count _ _ _ Ht). unfold sizeof_arena in *. lia. }
    bprop. wp_step. rewrite (u64_id (ar_bump_offset h + _)) by (unfold in_u64; lia). eapply wp_set_arena; [done|done| |].
    { apply arena_ok_bump; [by eapply shown_arena_ok|]. apply field_u64. unfold in_u64. lia. }
    intros m1 Hs1. wp_step. destruct (shown_more _ _ _ _ _ (ar_bump_offset h) Hs1) as (md&_&Hs2).
    apply (Hsome m1 md); [lia|]. revert Hs2. apply shown_iff. intros x. unfold is_block. split.
    + intros [[c' Hx]| ->]; [exists c'; by right|exists c; left].
    + intros [c' Hx]. apply elem_of_cons in Hx as [[= -> ->]|Hx]; [by right|left; by exists c'].
Qed.

Lemma wp_alloc g m n :
  arena_is m0 g m -> wp (alloc al n) (alloc_result g n) E m.
Proof.
  intros (h&B&Hs&HI). unfold alloc. cbv zeta. wp_step.
  { wp_step. left. split; [done|]. split; [by exists h, B|]. bprop. destruct Heqb as [?|?]; bprop; [by left|right; by left]. }
  bprop. destruct (class_for_spec n) as [_ Hcl]. destruct (Hcl ltac:(done)) as (Hc&_). change kUBAllocatorClassCount with 18 in Hc.
  wp_step. eapply wp_pop_free; [done|done|done| |].
  - intros Hempty m1 Hs1. wp_step. change (0 =? 0) with true. cbv iota. eapply wp_bump; [done|done|done| |].
    + intros Hfull. wp_step. left. split; [done|]. split; [by exists h, B|]. right. right. split; [done|].
      exists (ar_bump_offset h). split; [apply (ai_tiled _ _ _ _ HI)|lia].
    + intros m2 md Hroom Hs2. pose proof (bump_inv h B g (class_for n) md HI Hc Hroom) as HI2. wp_step.
      set (g2 := mk_ghost ((ar_bump_offset h, class_for n) :: g_blocks g) (g_free g) (g_held g)) in HI2.
      eapply (wp_init_block g2); [exact Hs2|exact HI2|left|]. intros m3 Hs3. wp_step. right.
      exists (ar_bump_offset h), (mk_ghost (g_blocks g2) (g_free g2) (ar_bump_offset h :: g_held g2)). split; [done|].
      split; [|done]. split; [done|by apply (ai_transit _ _ _ _ HI2)|left|]. intros x Hx. by right.
  - intros b l m1 Hl Hpos Hs1. wp_step. destruct (b =? 0) eqn:Ez; bprop; [lia|]. wp_step.
    pose proof (pop_inv Hpl h B g (shown_arena_ok _ _ _ _ _ Hs) _ b l HI Hc Hl) as HI1.
    destruct (ai_free _ _ _ _ HI (class_for n) b) as [Hin Hnew]; [rewrite Hl; left|]. wp_step.
    set (g1 := mk_ghost (g_blocks g) (fn_set (g_free g) (class_for n) l) (g_held g)) in HI1.
    eapply (wp_init_block g1); [exact Hs1|exact HI1|done|]. intros m2 Hs2. wp_step. right.
    exists b, (mk_ghost (g_blocks g1) (g_free g1) (b :: g_held g1)). split; [done|]. split; [|done]. by split.
Qed.

Lemma refs_ok h B g m b v :
  shown m0 (is_block (g_blocks g)) h B m -> is_block (g_blocks g) b -> in_u32 v -> struct_ok (B b).{ bm_ref_count := v }.
Proof.
  intros Hs Hb Hv. pose proof (shown_block_ok _ _ _ _ _ _ Hs Hb) as Hok. rewrite block_ok_spec in Hok |- *.
  destruct Hok as (?&?&?&?&?&?&Hr). do 5 (split; [assumption|]). split; [by apply field_u32|exact Hr].
Qed.

Lemma wp_add_ref g m b n :
  arena_is m0 g m -> b ∈ g_held g -> count b (g_held g) + 1 < 2 ^ 32 ->
  wp (add_ref (mk_buffer (Some (b + sizeof_block)) n))
    (fun _ => arena_is m0 (mk_ghost (g_blocks g) (g_free g) (b :: g_held g))) E m.
Proof.
  intros (h&B&Hs&HI) Hb Hmax. pose proof (blocks_apart _ _ (ai_tiled _ _ _ _ HI)) as HD.
  destruct (ai_live _ _ _ _ HI b Hb) as (c&Hin&Hbl). assert (Db : is_block (g_blocks g) b) by by exists c.
  unfold add_ref, metadata_from_buffer. cbn [buf_ mbind option_bind]. rewrite Z.add_simpl_r.
  wp_step. eapply wp_block_at; [done|done|]. wp_step. wp_step.
  { rewrite (bl_magic _ _ _ _ Hbl), (bl_state _ _ _ _ Hbl) in *. done. }
  pose proof (count_nonneg b (g_held g)).
  eapply wp_set_block; [done|done|done| |].
  - eapply refs_ok; [done|done|apply u32_range].
  - intros m' Hs'. exists h. eexists. split; [exact Hs'|]. rewrite (bl_refs _ _ _ _ Hbl), u32_id by (unfold in_u32; lia).
    apply refs_inv; try done.
    + left.
    + intros x Hx. by rewrite count_cons, decide_False.
    + rewrite count_cons, decide_True; lia.
    + by rewrite count_cons, decide_True, Z.add_comm.
Qed.

Lemma next_ok md v : struct_ok md -> in_u64 v -> struct_ok md.{ bm_next_free_offset := v }.
Proof.
  rewrite !block_ok_spec. intros (?&?&?&?&?&?&?&?&?&?&?&?) Hv. do 11 (split; [assumption|]). by apply field_u64.
Qed.
Lemma free_state_ok md : struct_ok md -> struct_ok md.{ bm_state := kBlockFree }.
Proof.
  rewrite !block_ok_spec. intros (?&?&?&?&Hr). do 3 (split; [assumption|]). split; [by apply field_u32|exact Hr].
Qed.

(** The last reference: the block goes back to its class. *)
Lemma wp_push_block g h B m b c md k (Q : unit -> mem -> Prop) :
  shown m0 (is_block (g_blocks g)) h (fn_set B b md) m -> arena_inv h B g None -> g_held g ≡ₚ b :: k -> b ∉ k ->
  (b, c) ∈ g_blocks g ->
  (forall m', arena_is m0 (mk_ghost (g_blocks g) (fn_set (g_free g) c (b :: g_free g c)) k) m' -> Q tt m') ->
  wp (set_block b (fun md => md.{ bm_state := kBlockFree }) ;;
      lock_class a c ;;
      h <- arena_at a ;;
      set_block b (fun md => md.{ bm_next_free_offset := (ar_free_heads h).[c] }) ;;
      set_arena a (fun h => h.{ ar_free_heads := setz (ar_free_heads h) c b }) ;;
      unlock_class a c ;;
      h <- arena_at a ;;
      set_arena a (fun h => h.{ ar_active_blocks := u64 (ar_active_blocks h - 1) }) ;;
      fail_if (ar_active_blocks h =? 0) ACTIVE_UNDERFLOW) Q E m.
Proof.
  intros Hs HI Hk Hb Hin HQ. pose proof (blocks_apart _ _ (ai_tiled _ _ _ _ HI)) as HD.
  assert (Db : is_block (g_blocks g) b) by by exists c. pose proof (active_bound _ _ _ _ HI) as Hact.
  destruct (tiled_in _ _ _ _ _ (ai_tiled _ _ _ _ HI) Hin) as (Hc&Hlo&Hhi). pose proof (class_bytes_pos c Hc) as [? _].
  pose proof (ai_end _ _ _ _ HI). pose proof (pl_pos Hpl). pose proof (pl_end Hpl). unfold sizeof_arena in *.
  assert (Hpos : 0 < ar_active_blocks h).
  { rewrite (ai_active _ _ _ _ HI). unfold live. destruct (filter _ _) eqn:Ef; [|simpl; lia].
    assert (Hx : (b, c) ∈ filter (fun x : Z * Z => x.1 ∈ g_held g) (g_blocks g)) by (apply list_elem_of_filter; split; [rewrite Hk; left|done]).
    rewrite Ef in Hx. by apply elem_of_nil in Hx. }
  assert (Hbu : in_u64 b) by (unfold in_u64; lia).
  pose proof (shown_arena_ok _ _ _ _ _ Hs) as Hok. pose proof (locks_length h Hok) as Hll.
  assert (Hhead : in_u64 (ar_free_heads h).[c]).
  { pose proof (ai_chain _ _ _ _ HI c Hc) as Hch. destruct (g_free g c) as [|x l] eqn:Hl; [simpl in Hch; rewrite Hch; done|].
    destruct Hch as [-> _]. destruct (ai_free _ _ _ _ HI c x) as [Hx _]; [rewrite Hl; left|].
    destruct (tiled_in _ _ _ _ _ (ai_tiled _ _ _ _ HI) Hx) as (?&?&?). unfold in_u64, sizeof_arena in *. lia. }
  wp_step. eapply wp_set_block; [done|done|done|apply free_state_ok; by eapply shown_block_ok|]. intros m1 Hs1.
  wp_step. eapply wp_lock; [done|done|by apply (ai_locks _ _ _ _ HI)|]. intros m2 Hs2. wp_step. eapply wp_arena_at; [done|].
  wp_step. eapply wp_set_block; [done|done|done|apply next_ok; [by eapply shown_block_ok|done]|]. intros m3 Hs3.
  wp_step. eapply wp_set_arena; [done|done| |].
  { apply arena_ok_heads; [by eapply shown_arena_ok|by apply field_u64]. }
  intros m4 Hs4. wp_step. eapply wp_unlock; [done|done|]. intros m5 Hs5. wp_step. eapply wp_arena_at; [done|].
  wp_step. eapply wp_set_arena; [done|done| |].
  { apply arena_ok_active; [by eapply shown_arena_ok|]. apply field_u64, u64_range. }
  intros m6 Hs6. wp_step. { unfold update in *. cbn [ar_active_blocks] in *. bprop. lia. }
  apply HQ. unfold update in Hs6. cbn [ar_class_locks ar_free_heads ar_active_blocks] in Hs6.
  rewrite unlocked, u64_id in Hs6; [|unfold in_u64; lia|lia|by apply (ai_locks _ _ _ _ HI)].
  pose proof (unclaim_inv h B g b k HI Hk Hb) as HI1.
  assert (Hok1 : arena_ok h.{ ar_active_blocks := ar_active_blocks h - 1 }) by (apply arena_ok_active; [done|apply field_u64; unfold in_u64; lia]).
  repeat match type of Hs6 with context [fn_set (fn_set ?f b ?x) b ?y] =>
    apply (shown_ext _ _ _ _ _ (fn_set_twice f b x y)) in Hs6 end.
  do 2 eexists. split; [exact Hs6|]. refine (push_inv _ B _ Hok1 b c _ HI1 Hc Hin _). reflexivity.
Qed.

Definition released (g : ghost) (b : Z) (k : list Z) (m : mem) : Prop :=
  exists free, arena_is m0 (mk_ghost (g_blocks g) free k) m.

Lemma wp_release_metadata g m b k :
  arena_is m0 g m -> g_held g ≡ₚ b :: k -> wp (release_metadata b) (fun _ => released g b k) E m.
Proof.
  intros (h&B&Hs&HI) Hk. pose proof (blocks_apart _ _ (ai_tiled _ _ _ _ HI)) as HD.
  assert (Hb : b ∈ g_held g) by (rewrite Hk; left). destruct (ai_live _ _ _ _ HI b Hb) as (c&Hin&Hbl).
  assert (Db : is_block (g_blocks g) b) by by exists c. destruct (tiled_in _ _ _ _ _ (ai_tiled _ _ _ _ HI) Hin) as (Hc&_).
  pose proof (ai_counts _ _ _ _ HI b) as Hmax. assert (Hpos : 0 < count b (g_held g)) by by apply count_pos.
  assert (Hck : count b k = count b (g_held g) - 1) by (rewrite (count_perm _ _ _ Hk), count_cons, decide_True by done; lia).
  unfold release_metadata. wp_step. eapply wp_block_at; [done|done|].
  rewrite (bl_refs _ _ _ _ Hbl), (bl_offset _ _ _ _ Hbl), (bl_arena _ _ _ _ Hbl), (bl_class _ _ _ _ Hbl).
  wp_step. eapply wp_set_block; [done|done|done|eapply refs_ok; [done|done|apply u32_range]|]. intros m1 Hs1.
  rewrite u32_id, <- Hck in Hs1 by (unfold in_u32; lia). wp_step. wp_step; [bprop; lia|]. wp_step.
  - wp_step. bprop. exists (g_free g), h. eexists. split; [exact Hs1|].
    apply refs_inv; try done; try lia; [apply count_pos; lia|].
    intros x Hx. rewrite (count_perm _ _ _ Hk), count_cons, decide_False by done. lia.
  - bprop. replace (b - b + a) with a by lia. wp_step. eapply wp_arena_at; [done|]. wp_step. wp_step.
    { rewrite (ai_magic _ _ _ _ HI) in *. change kUBAllocatorClassCount with 18 in *. bprop.
      match goal with H : _ \/ _ |- _ => destruct H; bprop; [done|lia] end. }
    eapply wp_push_block; [exact Hs1|exact HI|exact Hk| |exact Hin|].
    + rewrite count_pos. lia.
    + intros m' Hm'. by exists (fn_set (g_free g) c (b :: g_free g c)).
Qed.

Lemma wp_free g m b k n :
  arena_is m0 g m -> g_held g ≡ₚ b :: k ->
  wp (free (mk_buffer (Some (b + sizeof_block)) n)) (fun _ => released g b k) E m.
Proof.
  intros HA Hk. pose proof HA as (h&B&Hs&HI). assert (Hb : b ∈ g_held g) by (rewrite Hk; left).
  destruct (ai_live _ _ _ _ HI b Hb) as (c&Hin&Hbl). unfold free, metadata_from_buffer. cbn [buf_ mbind option_bind].
  rewrite Z.add_simpl_r. wp_step. eapply wp_block_at; [done|by exists c|]. wp_step. wp_step.
  { rewrite (bl_magic _ _ _ _ Hbl) in *. done. }
  by apply wp_release_metadata.
Qed.
Lemma wp_release_remote_ref g m b k n :
  arena_is m0 g m -> g_held g ≡ₚ b :: k ->
  wp (release_remote_ref (mk_buffer (Some (b + sizeof_block)) n)) (fun _ => released g b k) E m.
Proof.
  intros HA Hk. unfold release_remote_ref, metadata_from_buffer. cbn [buf_ mbind option_bind].
  rewrite Z.add_simpl_r. by apply wp_release_metadata.
Qed.
End operations.

(** ** Initialization *)

Definition no_blocks : ghost := mk_ghost [] (fun _ => []) [].
Definition zero_arena : UBArenaHeader := mk_arena 0 0 0 0 0 0 0 0 (replicate 18 0) (replicate 18 0) 0.

Lemma ld_zero_arena m k : 320 <= k -> ld_struct UBArenaHeader (fill m a k 0) a = zero_arena.
Proof. intros Hk. unfold ld_struct. rewrite load_fill_zero by (rewrite ?arena_size; lia). by vm_compute. Qed.

Lemma wp_initialize_arena E m :
  placed -> bytes_ok m -> wp (ub_initialize_arena mid a size) (fun _ => arena_is m no_blocks) E m.
Proof.
  intros Hpl Hm. pose proof (pl_pos Hpl). pose proof (pl_end Hpl). pose proof (pl_room Hpl). pose proof (pl_align Hpl) as Hal.
  pose proof (pl_machine Hpl) as Hmid. unfold sizeof_arena in *. unfold ub_initialize_arena. wp_step. wp_step; [bprop; unfold sizeof_arena in *; lia|].
  assert (Hz : shown m (is_block []) zero_arena (fun _ => mk_block 0 0 0 0 0 0 0 0 0 0 0 0) (fill m a sizeof_arena 0)).
  { split.
    - by apply fill_ok.
    - by apply ld_zero_arena.
    - intros b [c Hb]. by apply elem_of_nil in Hb.
    - intros x Hx _. apply fill_out. lia. }
  assert (HD : apart (is_block [])) by (intros b [c Hb]; by apply elem_of_nil in Hb).
  assert (Hal' : align64 (u64 (a + sizeof_arena)) = a + sizeof_arena).
  { unfold sizeof_arena. rewrite u64_id by (unfold in_u64; lia). apply align64_val; [lia|]. rewrite Zplus_mod, Hal. reflexivity. }
  assert (Hzero : arena_ok zero_arena) by (eapply shown_arena_ok; exact Hz).
  assert (Hok : forall v, field_in_range 4 v -> arena_ok (mk_arena v 1 18 mid a size (a + sizeof_arena) 0 (replicate 18 0) (replicate 18 0) 0)).
  { intros v Hv. rewrite arena_ok_spec in Hzero |- *. destruct Hzero as [_ Hrest]. split; [|exact Hrest]. simpl.
    assert (field_in_range 8 mid) by by apply field_u64. unfold sizeof_arena.
    split; [exact Hv|]. split; [done|]. split; [done|]. split; [done|].
    repeat (split; [apply field_u64; unfold in_u64; lia|]). by apply field_u64. }
  wp_step. wp_step. wp_step. wp_step. wp_step. eapply wp_set_arena; [exact Hz|done| |].
  { rewrite Hal'. by apply (Hok 0), field_u32. }
  intros m1 Hs1. rewrite Hal' in Hs1. eapply wp_set_arena; [exact Hs1|done| |].
  { by apply (Hok kUBArenaMagic), field_u32. }
  intros m2 Hs2. do 2 eexists. split; [exact Hs2|].
  assert (Hzl : forall c, 0 <= c < 18 -> (replicate 18 0).[c] = 0) by (intros c _; apply replicate_nthz).
  split; simpl; try done.
  - unfold sizeof_arena. lia.
  - intros b c Hb. by apply elem_of_nil in Hb.
  - intros _. constructor.
  - intros b Hb. by apply elem_of_nil in Hb.
  - intros b c Hb. by apply elem_of_nil in Hb.
Qed.

(** ** The holders *)

(** The buffer of the block at [b]; its length does not matter to the allocator. *)
Definition buffer_of (b n : Z) : Buffer := mk_buffer (Some (b + sizeof_block)) n.
Definition payload (m : mem) (b x : Z) : Prop :=
  b + sizeof_block <= x < b + sizeof_block + bm_payload_capacity (ld_struct UBBlockMetadata m b).

(** The memory and one entry per reference held. *)
Record holders := mk_holders { ho_mem : mem; ho_held : list Z }.

Inductive holder_step : holders -> holders -> Prop :=
  | hold_alloc m held n b k m' :
      alloc al n m = (inl (buffer_of b k), m') -> holder_step (mk_holders m held) (mk_holders m' (b :: held))
  | hold_refused m held n m' :
      alloc al n m = (inl no_buffer, m') -> holder_step (mk_holders m held) (mk_holders m' held)
  | hold_ref m held b n m' :
      b ∈ held -> count b held + 1 < 2 ^ 32 -> add_ref (buffer_of b n) m = (inl tt, m') ->
      holder_step (mk_holders m held) (mk_holders m' (b :: held))
  | hold_free m held b n k m' :
      held ≡ₚ b :: k -> free (buffer_of b n) m = (inl tt, m') -> holder_step (mk_holders m held) (mk_holders m' k)
  | hold_release m held b n k m' :
      held ≡ₚ b :: k -> release_remote_ref (buffer_of b n) m = (inl tt, m') -> holder_step (mk_holders m held) (mk_holders m' k)
  | hold_write m held m' :
      bytes_ok m' -> (forall x, (forall b, b ∈ held -> ~ payload m b x) -> m' x = m x) ->
      holder_step (mk_holders m held) (mk_holders m' held).

(** What holds at every moment. *)
Definition holds_ok (s : holders) : Prop := exists g m0, arena_is m0 g (ho_mem s) /\ g_held g = ho_held s.

Lemma rebase m0 g m : arena_is m0 g m -> arena_is m g m.
Proof. intros (h&B&[Hb Hh HB _]&HI). exists h, B. by split. Qed.

(** Only the bytes of the arena matter. *)
Lemma arena_elsewhere m0 g m m' :
  placed -> arena_is m0 g m -> bytes_ok m' -> (forall x, a <= x < a + size -> m' x = m x) -> arena_is m' g m'.
Proof.
  intros Hpl (h&B&[Hb Hh HB _]&HI) Hb' Hm. pose proof (ai_tiled _ _ _ _ HI) as Ht. pose proof (ai_end _ _ _ _ HI). pose proof (pl_room Hpl).
  exists h, B. split; [|done]. unfold sizeof_arena in *. split; [done| | |done].
  - rewrite <- Hh. apply ld_struct_ext. intros i Hi. rewrite arena_size in Hi. apply Hm. lia.
  - intros b [c Hbc]. rewrite <- (HB b) by by exists c. apply ld_struct_ext. intros i Hi. rewrite block_size in Hi. apply Hm.
    destruct (tiled_in _ _ _ _ _ Ht Hbc) as (Hc&?&?). pose proof (class_bytes_pos c Hc) as [? _]. lia.
Qed.

Lemma write_inv m0 g m m' :
  arena_is m0 g m -> bytes_ok m' -> (forall x, (forall b, b ∈ g_held g -> ~ payload m b x) -> m' x = m x) -> arena_is m' g m'.
Proof.
  intros (h&B&[Hb Hh HB _]&HI) Hb' Hw. exists h, B. split; [|done].
  pose proof (ai_tiled _ _ _ _ HI) as Ht.
  assert (Hcap : forall b, b ∈ g_held g -> exists c, (b, c) ∈ g_blocks g /\ bm_payload_capacity (ld_struct UBBlockMetadata m b) = class_capacity c).
  { intros b Hbh. destruct (ai_live _ _ _ _ HI b Hbh) as (c&Hin&Hbl). exists c. split; [done|].
    rewrite (HB b) by by exists c. apply (bl_capacity _ _ _ _ Hbl). }
  split; [done| | |done].
  - rewrite <- Hh. apply ld_struct_ext. intros i Hi. apply Hw. intros b Hbh. destruct (Hcap b Hbh) as (c&Hin&Hc).
    destruct (tiled_in _ _ _ _ _ Ht Hin) as (_&Hlo&_). rewrite arena_size in Hi. unfold payload, sizeof_block, sizeof_arena in *. lia.
  - intros b' [c' Hb'']. rewrite <- (HB b') by by exists c'. apply ld_struct_ext. intros i Hi. apply Hw. intros b Hbh.
    destruct (Hcap b Hbh) as (c&Hin&Hc). destruct (tiled_in _ _ _ _ _ Ht Hin) as (Hcr&_). destruct (tiled_in _ _ _ _ _ Ht Hb'') as (Hcr'&_).
    pose proof (class_bytes_pos c' Hcr') as [? _]. pose proof (class_bytes_pos c Hcr) as [? _]. rewrite block_size in Hi.
    unfold payload. rewrite Hc. pose proof (tiled_apart _ _ _ _ _ _ _ Ht Hin Hb'') as Hap. unfold class_bytes, sizeof_block in *.
    destruct Hap as [[= -> ->]|?]; lia.
Qed.

Lemma holder_step_ok s s' : placed -> holds_ok s -> holder_step s s' -> holds_ok s'.
Proof.
  intros Hpl (g&m0&HA&Hg) Hst. destruct Hst as [m held n b k m' Hop|m held n m' Hop|m held b n m' Hb Hmax Hop|m held b n k m' Hk Hop|m held b n k m' Hk Hop|m held m' Hb' Hw];
    simpl in *; subst held.
  - pose proof (wp_run _ _ _ _ _ _ (wp_alloc Hpl (fun _ _ => False) m0 g m n HA) Hop) as Hr. cbv beta iota in Hr.
    destruct Hr as [(?&_&_)|(b'&g'&Hb&Hnew&HA')]; [done|]. injection Hb as Hb _.
    exists g', m0. split; [done|]. simpl. rewrite (nw_held _ _ _ _ Hnew). f_equal. lia.
  - pose proof (wp_run _ _ _ _ _ _ (wp_alloc Hpl (fun _ _ => False) m0 g m n HA) Hop) as Hr. cbv beta iota in Hr.
    destruct Hr as [(_&HA'&_)|(b'&g'&Hb&_)]; [|done]. by exists g, m0.
  - pose proof (wp_run _ _ _ _ _ _ (wp_add_ref (fun _ _ => False) m0 g m b n HA Hb Hmax) Hop) as HA'. eexists _, m0. by split; [exact HA'|].
  - pose proof (wp_run _ _ _ _ _ _ (wp_free Hpl (fun _ _ => False) m0 g m b k n HA Hk) Hop) as [free' HA']. eexists _, m0. by split; [exact HA'|].
  - pose proof (wp_run _ _ _ _ _ _ (wp_release_remote_ref Hpl (fun _ _ => False) m0 g m b k n HA Hk) Hop) as [free' HA']. eexists _, m0. by split; [exact HA'|].
  - exists g, m'. split; [|done]. by apply (write_inv m0 g m m').
Qed.

(** A run from a freshly initialized arena. *)
Definition reaches (m : mem) (s : holders) : Prop :=
  exists m1, ub_initialize_arena mid a size m = (inl tt, m1) /\ rtc holder_step (mk_holders m1 []) s.

Lemma reaches_ok m s : placed -> bytes_ok m -> reaches m s -> holds_ok s.
Proof.
  intros Hpl Hm (m1&Hinit&Hr).
  pose proof (wp_run _ _ _ _ _ _ (wp_initialize_arena (fun _ _ => False) m Hpl Hm) Hinit) as HA.
  refine (rtc_invariant holder_step holds_ok _ _ _ Hr _).
  - intros x y Hx. by apply holder_step_ok.
  - by exists no_blocks, m.
Qed.

(** What a state of the allocator promises to the holders of its blocks. *)
Record holders_safe (s : holders) : Prop := {
  hs_inside : forall b x, b ∈ ho_held s -> payload (ho_mem s) b x -> a + sizeof_arena <= x < a + size;
  hs_apart : forall b b' x, b ∈ ho_held s -> b' ∈ ho_held s -> b <> b' ->
    payload (ho_mem s) b x -> ~ (b' <= x < b' + sizeof_block) /\ ~ payload (ho_mem s) b' x;
  hs_counts : forall b, b ∈ ho_held s ->
    bm_state (ld_struct UBBlockMetadata (ho_mem s) b) = kBlockAllocated /\
    bm_ref_count (ld_struct UBBlockMetadata (ho_mem s) b) = count b (ho_held s);
  hs_active : ar_active_blocks (ld_struct UBArenaHeader (ho_mem s) a) = Z.of_nat (length (remove_dups (ho_held s))) }.

Lemma live_distinct h B g : arena_inv h B g None -> length (live g) = length (remove_dups (g_held g)).
Proof.
  intros HI. pose proof (ai_tiled _ _ _ _ HI) as Ht. rewrite <- (length_fmap fst (live g)). apply Permutation_length.
  apply NoDup_Permutation.
  - unfold live. pose proof (tiled_nodup _ _ _ Ht) as Hn. apply NoDup_fmap_fst; [|by apply NoDup_filter].
    intros b c c' Hc Hc'. apply list_elem_of_filter in Hc as [_ Hc], Hc' as [_ Hc']. by apply (tiled_key _ _ _ _ _ _ Ht Hc Hc').
  - apply NoDup_remove_dups.
  - intros b. rewrite elem_of_remove_dups, list_elem_of_fmap. split.
    + intros ([b' c]&->&Hb). by apply list_elem_of_filter in Hb as [Hb _].
    + intros Hb. destruct (ai_live _ _ _ _ HI b Hb) as (c&Hin&_). exists (b, c). split; [done|]. by apply list_elem_of_filter.
Qed.

Lemma holds_safe s : holds_ok s -> holders_safe s.
Proof.
  intros (g&m0&(h&B&Hs&HI)&Hg). destruct s as [m held]. simpl in *. subst held. destruct Hs as [Hb Hh HB _].
  pose proof (ai_tiled _ _ _ _ HI) as Ht. pose proof (ai_end _ _ _ _ HI).
  assert (Hinfo : forall b, b ∈ g_held g -> exists c, (b, c) ∈ g_blocks g /\ block_live (ld_struct UBBlockMetadata m b) b c (count b (g_held g))).
  { intros b Hbh. destruct (ai_live _ _ _ _ HI b Hbh) as (c&Hin&Hbl). exists c. split; [done|]. by rewrite HB by by exists c. }
  split; cbn [ho_mem ho_held].
  - intros b x Hbh Hx. destruct (Hinfo b Hbh) as (c&Hin&Hbl). destruct (tiled_in _ _ _ _ _ Ht Hin) as (Hc&?&?).
    unfold payload in Hx. rewrite (bl_capacity _ _ _ _ Hbl) in Hx. unfold class_bytes, sizeof_block in *. lia.
  - intros b b' x Hbh Hbh' Hne Hx. destruct (Hinfo b Hbh) as (c&Hin&Hbl). destruct (Hinfo b' Hbh') as (c'&Hin'&Hbl').
    unfold payload in *. rewrite (bl_capacity _ _ _ _ Hbl) in Hx. rewrite (bl_capacity _ _ _ _ Hbl').
    destruct (tiled_in _ _ _ _ _ Ht Hin') as (Hc'&_). pose proof (class_bytes_pos c' Hc') as [? _].
    pose proof (tiled_apart _ _ _ _ _ _ _ Ht Hin Hin') as Hap. unfold class_bytes, sizeof_block in *.
    destruct Hap as [[= -> ->]|?]; [done|lia].
  - intros b Hbh. destruct (Hinfo b Hbh) as (c&_&Hbl). by destruct Hbl.
  - rewrite Hh, (ai_active _ _ _ _ HI). by rewrite (live_distinct _ _ _ HI).
Qed.

(** C8. From an initialized arena, whatever allocations, references, releases by owner or receiver, and payload writes are
    made in whatever order, the payloads of held blocks lie inside the arena, apart from each other and from all
    metadata, the reference count of each block is the number of references held, and the number of active blocks is
    the number of distinct blocks held, so that it is zero exactly when every reference has been dropped. *)
Theorem allocator_is_safe m s : placed -> bytes_ok m -> reaches m s -> holders_safe s.
Proof. intros Hpl Hm Hr. by apply holds_safe, (reaches_ok m). Qed.

(** What the operations answer to those who hold references. *)
Record answers (s : holders) : Prop := {
  an_alloc : forall n, exists r m', alloc al n (ho_mem s) = (inl r, m') /\
    forall p, buf_ r = Some p -> p - sizeof_block ∉ ho_held s /\ n <= class_size_ r /\
      payload m' (p - sizeof_block) p /\ bm_payload_capacity (ld_struct UBBlockMetadata m' (p - sizeof_block)) = class_size_ r;
  an_ref : forall b n, b ∈ ho_held s -> count b (ho_held s) + 1 < 2 ^ 32 -> exists m', add_ref (buffer_of b n) (ho_mem s) = (inl tt, m');
  an_free : forall b n, b ∈ ho_held s -> exists m', free (buffer_of b n) (ho_mem s) = (inl tt, m');
  an_release : forall b n, b ∈ ho_held s -> exists m', release_remote_ref (buffer_of b n) (ho_mem s) = (inl tt, m') }.

(** C26. In every such state no operation of a holder throws or spins: allocation always returns, with a null buffer or with
    a block nobody holds whose payload is the returned capacity, at least the size asked for, and referencing or
    releasing a held block always succeeds. *)
Theorem allocator_never_fails m s : placed -> bytes_ok m -> reaches m s -> answers s.
Proof.
  intros Hpl Hm Hr. destruct (reaches_ok m s Hpl Hm Hr) as (g&m0&HA&Hg). destruct s as [k held]. simpl in *. subst held. split; cbn [ho_mem ho_held].
  - intros n. destruct (wp_total _ _ _ (wp_alloc Hpl (fun _ _ => False) m0 g k n HA)) as (r&m'&Hop&Hres). exists r, m'. split; [done|].
    intros p Hp. destruct Hres as [(->&_)|(b&g'&->&Hnew&(h&B&Hs&HI))]; [done|]. simpl in Hp. injection Hp as <-. rewrite Z.add_simpl_r.
    destruct (class_for_spec n) as [_ Hcl].
    assert (Hc : 0 <= class_for n < 18) by (apply (tiled_in _ _ _ _ _ (ai_tiled _ _ _ _ HI) (nw_block _ _ _ _ Hnew))).
    destruct (Hcl ltac:(change kUBAllocatorClassCount with 18; lia)) as (_&Hle&_).
    destruct (ai_live _ _ _ _ HI b) as (c&Hin&Hbl); [rewrite (nw_held _ _ _ _ Hnew); left|].
    rewrite (tiled_key _ _ _ _ _ _ (ai_tiled _ _ _ _ HI) Hin (nw_block _ _ _ _ Hnew)) in Hbl.
    unfold payload. rewrite (sh_block _ _ _ _ _ Hs b) by by exists c. rewrite (bl_capacity _ _ _ _ Hbl).
    pose proof (capacity_bounds _ Hc) as [? _]. split; [apply (nw_fresh _ _ _ _ Hnew)|]. split; [done|]. split; [unfold sizeof_block; lia|done].
  - intros b n Hb Hmax. destruct (wp_total _ _ _ (wp_add_ref (fun _ _ => False) m0 g k b n HA Hb Hmax)) as ([]&m'&Hop&_). by exists m'.
  - intros b n Hb. apply elem_of_Permutation in Hb as [l Hl].
    destruct (wp_total _ _ _ (wp_free Hpl (fun _ _ => False) m0 g k b l n HA Hl)) as ([]&m'&Hop&_). by exists m'.
  - intros b n Hb. apply elem_of_Permutation in Hb as [l Hl].
    destruct (wp_total _ _ _ (wp_release_remote_ref Hpl (fun _ _ => False) m0 g k b l n HA Hl)) as ([]&m'&Hop&_). by exists m'.
Qed.
End arena.

(** ** A run: two blocks, one of them shared, then released *)

Definition demo_allocator : allocator := mk_allocator 1 (mk_handle 0 0 1 0x400000 0x442000 0x10000).
Lemma demo_placed : placed demo_allocator.
Proof. split; unfold in_u64; vm_compute; split || done; done. Qed.
Definition demo_arena : mem := (ub_initialize_arena 1 0x442000 0x10000 (fun _ => 0)).2.
Definition demo_one_block : mem := (alloc demo_allocator 100 demo_arena).2.
Definition demo_shared : mem := (add_ref (buffer_of 0x442140 128) demo_one_block).2.

Lemma step_result {S R} (f : MS S R) k r : (f k).1 = r -> f k = (r, (f k).2).
Proof. intros <-. by destruct (f k). Qed.

Lemma demo_alloc_result : (alloc demo_allocator 100 demo_arena).1 = inl (buffer_of 0x442140 128).
Proof. vm_compute. reflexivity. Qed.
Lemma demo_ref_result : (add_ref (buffer_of 0x442140 128) demo_one_block).1 = inl tt.
Proof. vm_compute. reflexivity. Qed.

Lemma demo_reaches : reaches demo_allocator (fun _ => 0) (mk_holders demo_shared [0x442140; 0x442140]).
Proof.
  exists demo_arena. split; [apply step_result; vm_compute; reflexivity|].
  apply (rtc_l _ _ (mk_holders demo_one_block [0x442140])).
  - exact (hold_alloc demo_allocator _ _ 100 0x442140 128 demo_one_block (step_result _ _ _ demo_alloc_result)).
  - apply rtc_once.
    refine (hold_ref demo_allocator _ _ 0x442140 128 demo_shared _ _ (step_result _ _ _ demo_ref_result)); [left|vm_compute; reflexivity].
Qed.

Lemma allocator_is_safe_witness : holders_safe demo_allocator (mk_holders demo_shared [0x442140; 0x442140]).
Proof.
  apply (allocator_is_safe demo_allocator (fun _ => 0)); [exact demo_placed|intros x; lia|exact demo_reaches].
Defined.
Lemma allocator_never_fails_witness : answers demo_allocator (mk_holders demo_shared [0x442140; 0x442140]).
Proof.
  apply (allocator_never_fails demo_allocator (fun _ => 0)); [exact demo_placed|intros x; lia|exact demo_reaches].
Defined.
