(* ===== verification/Machine.v ===== *)
(** * The machine region: UBMachineRegionOwner and the checks of UBMachineContext in ub_machine.cc

    The region's metadata (header and endpoint registry) and the storage of its
    endpoints, as operations on the bytes of the region.  The owner serializes them
    with a mutex.  [fail] is an error of the monad. *)

From S2P Require Import Prelude Monad CMem ErpcUb Spsc Arena.

Definition RPC_ID_RANGE := 10.
Definition RPC_ID_TAKEN := 11.
Definition REGISTRY_FULL := 12.
Definition NO_SPACE := 13.
Definition INVALID_MAPPING := 14.
Definition METADATA_MISMATCH := 15.

Definition sizeof_inbox := kMaxRpcEndpoints * sizeof_queue.
Definition inbox_queue (inbox source : Z) : Z := inbox + source * sizeof_queue.

Definition ub_initialize_inbox (inbox : Z) (m : mem) : mem :=
  for_ kMaxRpcEndpoints (fun source m => queue_initialize m (inbox_queue inbox source)) (fill m inbox sizeof_inbox 0).

Definition header_at : A UBMachineRegionHeader := m <- get ;; ret (ld_struct UBMachineRegionHeader m 0).
Definition set_header (f : UBMachineRegionHeader -> UBMachineRegionHeader) : A unit := m <- get ;; put (upd_struct m 0 f).
Definition entry_at (slot : Z) : A UBEndpointRegistryEntry := m <- get ;; ret (ld_struct UBEndpointRegistryEntry m (registry_entry slot)).
Definition set_entry (slot : Z) (f : UBEndpointRegistryEntry -> UBEndpointRegistryEntry) : A unit :=
  m <- get ;; put (upd_struct m (registry_entry slot) f).

(** The owner of a region: [mode_], [region_bytes_], [machine_id_], the allocation flags and
    the configured arena size. *)
Record region_owner := mk_region_owner {
  ro_mode : ProcessMode; ro_region_bytes : Z; ro_machine_id : Z; ro_flags : Z; ro_arena_bytes : Z }.

Section owner.
Context (o : region_owner).

(** The metadata the constructor writes once the region is mapped. *)
Definition initialize_region : A unit :=
  m <- get ;; put (fill m 0 kUBMachineDataOffset 0) ;;
  set_header (fun h =>
    h.{ mh_version := kRegionVersion }.{ mh_process_mode := process_mode_value (ro_mode o) }
     .{ mh_max_endpoints := kMaxRpcEndpoints }.{ mh_queue_depth := kSpscQueueDepth }.{ mh_mtu := kMTU }
     .{ mh_machine_id := ro_machine_id o }.{ mh_allocation_flags := ro_flags o }.{ mh_region_bytes := ro_region_bytes o }
     .{ mh_next_free_offset := kUBMachineDataOffset }.{ mh_manager_generation := 1 }) ;;
  set_header (fun h => h.{ mh_magic := kRegionMagic }).

(** The scan of the registry: the first free slot, [kMaxRpcEndpoints] if there is none, or
    the refusal of an identifier that is in use. *)
Definition scan_slot (rpc_id slot : Z) (e : UBEndpointRegistryEntry) (free_slot : Z) : option Z :=
  if (e_state e =? kActive) && (e_rpc_id e =? rpc_id) then None
  else if (e_state e =? kFree) && (free_slot =? kMaxRpcEndpoints) then Some slot else Some free_slot.
Fixpoint scan_registry (slots : list Z) (rpc_id : Z) (m : mem) (free_slot : Z) : option Z :=
  match slots with
  | [] => Some free_slot
  | slot :: slots =>
      match scan_slot rpc_id slot (ld_struct UBEndpointRegistryEntry m (registry_entry slot)) free_slot with
      | None => None
      | Some free_slot => scan_registry slots rpc_id m free_slot
      end
  end.
Definition find_free_slot (rpc_id : Z) : A Z :=
  m <- get ;;
  match scan_registry (seqZ 0 kMaxRpcEndpoints) rpc_id m kMaxRpcEndpoints with
  | None => raise RPC_ID_TAKEN
  | Some free_slot => fail_if (free_slot =? kMaxRpcEndpoints) REGISTRY_FULL ;; ret free_slot
  end.

(** The storage of a slot: what it has from before, or the next free part of the region. *)
Definition assign_storage (slot : Z) : A (Z * Z * Z) :=
  e <- entry_at slot ;;
  if e_inbox_offset e =? 0 then
    h <- header_at ;;
    let inbox_offset := mh_next_free_offset h in
    let arena_offset := u64 (inbox_offset + sizeof_inbox + 63) .& (2 ^ 64 - 64) in
    let arena_size := ro_arena_bytes o in
    let next_offset := u64 (arena_offset + arena_size) in
    fail_if (next_offset >? ro_region_bytes o) NO_SPACE ;;
    set_header (fun h => h.{ mh_next_free_offset := next_offset }) ;;
    set_entry slot (fun e => e.{ e_inbox_offset := inbox_offset }.{ e_arena_offset := arena_offset }.{ e_arena_size := arena_size }) ;;
    ret (inbox_offset, arena_offset, arena_size)
  else ret (e_inbox_offset e, e_arena_offset e, e_arena_size e).

(** The arena's bytes are zeroed once; later registrations keep the generations in them. *)
Definition initialize_storage (newly_assigned : bool) (inbox_offset arena_offset arena_size : Z) : A unit :=
  m <- get ;; put (ub_initialize_inbox inbox_offset m) ;;
  (if newly_assigned then m <- get ;; put (fill m arena_offset arena_size 0) else ret tt) ;;
  ub_initialize_arena (ro_machine_id o) arena_offset arena_size.

Definition register_endpoint (process_id sm_udp_port rpc_id : Z) : A UBEndpointHandle :=
  fail_if (rpc_id >=? kMaxRpcEndpoints) RPC_ID_RANGE ;;
  free_slot <- find_free_slot rpc_id ;;
  old <- entry_at free_slot ;;
  '(inbox_offset, arena_offset, arena_size) <- assign_storage free_slot ;;
  initialize_storage (e_inbox_offset old =? 0) inbox_offset arena_offset arena_size ;;
  e <- entry_at free_slot ;;
  let generation := next_generation (e_generation e) in
  set_entry free_slot (fun e =>
    e.{ e_generation := generation }.{ e_process_id := process_id }.{ e_sm_udp_port := sm_udp_port }.{ e_rpc_id := rpc_id }) ;;
  set_entry free_slot (fun e => e.{ e_state := kActive }) ;;
  ret (mk_handle free_slot rpc_id generation inbox_offset arena_offset arena_size).

(** The state of the entry is not tested. *)
Definition unregister_endpoint (h : UBEndpointHandle) (process_id : Z) : A bool :=
  if negb (handle_valid h) then ret false else
  e <- entry_at (eh_slot h) ;;
  if (e_process_id e !=? process_id) || (e_generation e !=? eh_generation h) || (e_inbox_offset e !=? eh_inbox_offset h) ||
     (e_arena_offset e !=? eh_arena_offset h) || (e_arena_size e !=? eh_arena_size h) then ret false else
  ar <- arena_at (e_arena_offset e) ;;
  if ar_active_blocks ar !=? 0 then ret false else
  set_entry (eh_slot h) (fun e => e.{ e_state := kFree }) ;; ret true.

(** ** UBMachineContext *)

(** [flags] is [allocation_flags()] of the process, [region_bytes] its [region_bytes_]. *)
Definition region_matches (region_bytes flags expected_machine_id : Z) (m : mem) : bool :=
  let h := ld_struct UBMachineRegionHeader m 0 in
  negb ((mh_magic h !=? kRegionMagic) || (mh_version h !=? kRegionVersion) || (mh_machine_id h !=? expected_machine_id) ||
        (mh_max_endpoints h !=? kMaxRpcEndpoints) || (mh_queue_depth h !=? kSpscQueueDepth) || (mh_mtu h !=? kMTU) ||
        (mh_region_bytes h !=? region_bytes) || (mh_allocation_flags h !=? flags)).
(** [mapped]: the base is neither null nor [MAP_FAILED]. *)
Definition validate_region (region_bytes flags : Z) (mapped : bool) (expected_machine_id : Z) : A unit :=
  fail_if (negb mapped) INVALID_MAPPING ;;
  m <- get ;;
  fail_if (negb (region_matches region_bytes flags expected_machine_id m)) METADATA_MISMATCH.

Definition validate_endpoint (region_bytes : Z) (mapped : bool) (machine_id : Z) (h : UBEndpointHandle) (m : mem) : bool :=
  if negb mapped || negb (handle_valid h) then false else
  let hd := ld_struct UBMachineRegionHeader m 0 in
  let inbox_in_range :=
    (eh_inbox_offset h >=? kUBMachineDataOffset) && (eh_inbox_offset h <=? region_bytes) &&
    (sizeof_inbox <=? region_bytes - eh_inbox_offset h) in
  let arena_in_range :=
    (eh_arena_offset h >=? kUBMachineDataOffset) && (eh_arena_offset h <=? region_bytes) &&
    (eh_arena_size h >=? sizeof_arena) && (eh_arena_size h <=? region_bytes - eh_arena_offset h) in
  if (mh_machine_id hd !=? machine_id) || negb inbox_in_range || negb arena_in_range ||
     nz (eh_inbox_offset h mod 64) || nz (eh_arena_offset h mod 64) ||
     (eh_arena_offset h <? u64 (eh_inbox_offset h + sizeof_inbox)) then false else
  let e := ld_struct UBEndpointRegistryEntry m (registry_entry (eh_slot h)) in
  (e_state e =? kActive) && (e_generation e =? eh_generation h) && (e_rpc_id e =? eh_rpc_id h) &&
  (e_inbox_offset e =? eh_inbox_offset h) && (e_arena_offset e =? eh_arena_offset h) && (e_arena_size e =? eh_arena_size h).
End owner.

(** ** ub_manager: one request of a worker process *)

Definition kUBManagerProtocolMagic := 0x55424d47.
Definition kUBManagerProtocolVersion := 2.
Definition kRegisterEndpoint := 1.
Definition kUnregisterEndpoint := 2.

Record UBManagerRequest := mk_request {
  rq_magic : Z; rq_version : Z; rq_operation : Z; rq_process_id : Z; rq_sm_udp_port : Z; rq_rpc_id : Z; rq_slot : Z;
  rq_generation : Z; rq_inbox_offset : Z; rq_arena_offset : Z; rq_arena_size : Z }.
Record UBManagerResponse := mk_response {
  rs_magic : Z; rs_version : Z; rs_status : Z; rs_machine_id : Z; rs_region_bytes : Z; rs_allocation_flags : Z;
  rs_endpoint : UBEndpointHandle }.

(** [try { ... } catch (...) { status = -5 }]: the memory keeps what was done before. *)
Definition handle_request (o : region_owner) (r : UBManagerRequest) : A UBManagerResponse := fun m =>
  let answer status endpoint :=
    mk_response kUBManagerProtocolMagic kUBManagerProtocolVersion status (ro_machine_id o) (ro_region_bytes o) (ro_flags o) endpoint in
  if (rq_magic r !=? kUBManagerProtocolMagic) || (rq_version r !=? kUBManagerProtocolVersion) then (inl (answer (-2) no_endpoint), m)
  else if rq_operation r =? kRegisterEndpoint then
    match register_endpoint o (rq_process_id r) (rq_sm_udp_port r) (rq_rpc_id r) m with
    | (inl h, m') => (inl (answer 0 h), m')
    | (inr _, m') => (inl (answer (-5) no_endpoint), m')
    end
  else if rq_operation r =? kUnregisterEndpoint then
    let h := mk_handle (rq_slot r) (rq_rpc_id r) (rq_generation r) (rq_inbox_offset r) (rq_arena_offset r) (rq_arena_size r) in
    match unregister_endpoint h (rq_process_id r) m with
    | (inl ok, m') => (inl (answer (if ok then 0 else -3) no_endpoint), m')
    | (inr _, m') => (inl (answer (-5) no_endpoint), m')
    end
  else (inl (answer (-4) no_endpoint), m).
