(* ===== verification/MachineSound.v ===== *)
(** * The registry's guarantee

    Endpoint storage never overlaps and never leaves the region, active endpoints
    have different identifiers, a registration hands out an empty inbox and an empty
    arena whose handle every later check accepts, and a handle of an earlier
    registration is refused. *)

From Stdlib Require Import String.
From S2P Require Import Prelude Monad CMem ErpcUb ErpcConfig Spsc Arena ArenaSound Machine.

Definition metadata_bytes := 64 + 64 * kMaxRpcEndpoints.
Definition slot_ok (s : Z) : Prop := 0 <= s < 64.

Section registry.
Context (o : region_owner).

(** The configured sizes are far from the end of the 64-bit range, as the source adds them without a check, and an arena
    is larger than its header, which the source checks only after it has assigned the storage.  See the end of this
    file for sizes outside these bounds. *)
Record configured : Prop := {
  cf_region : kUBMachineDataOffset <= ro_region_bytes o <= 2 ^ 62;
  cf_region_align : ro_region_bytes o mod 64 = 0;
  cf_arena : sizeof_arena < ro_arena_bytes o <= 2 ^ 62;
  cf_arena_align : ro_arena_bytes o mod 64 = 0;
  cf_machine : in_u64 (ro_machine_id o);
  cf_flags : in_u64 (ro_flags o) }.

(** The memory [m] shows the header [h] and the registry [R], and is [m0] outside them and outside [W]. *)
Record registry_is (W : Z -> Prop) (m0 : mem) (h : UBMachineRegionHeader) (R : Z -> UBEndpointRegistryEntry) (m : mem) : Prop := {
  rg_bytes : bytes_ok m;
  rg_header : ld_struct UBMachineRegionHeader m 0 = h;
  rg_entry : forall s, slot_ok s -> ld_struct UBEndpointRegistryEntry m (registry_entry s) = R s;
  rg_rest : forall x, ~ 0 <= x < metadata_bytes -> ~ W x -> m x = m0 x }.

Lemma header_size : sizeof UBMachineRegionHeader = 64.
Proof. reflexivity. Qed.
Lemma entry_size : sizeof UBEndpointRegistryEntry = 64.
Proof. reflexivity. Qed.

Section rules.
Context (W : Z -> Prop) (m0 : mem) (E : Z -> mem -> Prop).

Lemma wp_header_at h R m (Q : UBMachineRegionHeader -> mem -> Prop) : registry_is W m0 h R m -> Q h m -> wp header_at Q E m.
Proof. intros Hs HQ. unfold header_at. repeat wp_step. by rewrite (rg_header _ _ _ _ _ Hs). Qed.
Lemma wp_entry_at h R m s (Q : UBEndpointRegistryEntry -> mem -> Prop) :
  registry_is W m0 h R m -> slot_ok s -> Q (R s) m -> wp (entry_at s) Q E m.
Proof. intros Hs Hok HQ. unfold entry_at. repeat wp_step. by rewrite (rg_entry _ _ _ _ _ Hs s Hok). Qed.
Lemma wp_set_header h R m f (Q : unit -> mem -> Prop) :
  registry_is W m0 h R m -> struct_ok (f h) -> (forall m', registry_is W m0 (f h) R m' -> Q tt m') -> wp (set_header f) Q E m.
Proof.
  intros [Hb Hh HR Hr] Hok HQ. unfold set_header. repeat wp_step. apply HQ. rewrite <- Hh in Hok.
  pose proof (fun y => upd_out m 0 f y Hok) as Hout. rewrite header_size in Hout. split.
  - by apply upd_bytes_ok.
  - by rewrite ld_upd_same, Hh.
  - intros s Hs. rewrite ld_upd_other; [by apply HR|done|]. rewrite header_size, entry_size.
    unfold disjoint_ranges, registry_entry, slot_ok in *. lia.
  - intros x Hx HW. unfold metadata_bytes in Hx. change kMaxRpcEndpoints with 64 in Hx. rewrite Hout by lia. by apply Hr.
Qed.
Lemma wp_set_entry h R m s f (Q : unit -> mem -> Prop) :
  registry_is W m0 h R m -> slot_ok s -> struct_ok (f (R s)) ->
  (forall m', registry_is W m0 h (fn_set R s (f (R s))) m' -> Q tt m') -> wp (set_entry s f) Q E m.
Proof.
  intros [Hb Hh HR Hr] Hs Hok HQ. unfold set_entry. repeat wp_step. apply HQ. rewrite <- (HR s Hs) in Hok.
  pose proof (fun y => upd_out m (registry_entry s) f y Hok) as Hout. rewrite entry_size in Hout. split.
  - by apply upd_bytes_ok.
  - rewrite ld_upd_other; [done|done|]. rewrite header_size, entry_size. unfold disjoint_ranges, registry_entry, slot_ok in *. lia.
  - intros s' Hs'. destruct (decide (s' = s)) as [->|Hne]; [by rewrite fn_set_eq, ld_upd_same, HR|].
    rewrite fn_set_ne, ld_upd_other by done || (rewrite entry_size; unfold disjoint_ranges, registry_entry, slot_ok in *; lia). by apply HR.
  - intros x Hx HW. unfold metadata_bytes, slot_ok, registry_entry in *. change kMaxRpcEndpoints with 64 in Hx. rewrite Hout by lia. by apply Hr.
Qed.
Lemma registry_ext h R R' m : (forall s, R s = R' s) -> registry_is W m0 h R m -> registry_is W m0 h R' m.
Proof. intros HR [Hb Hh He Hr]. split; try done. intros s Hs. rewrite <- HR. by apply He. Qed.
(** A write to the storage [W]. *)
Lemma registry_write h R m m' :
  registry_is W m0 h R m -> bytes_ok m' -> (forall x, W x -> metadata_bytes <= x) -> (forall x, ~ W x -> m' x = m x) ->
  registry_is W m0 h R m'.
Proof.
  intros [Hb Hh HR Hr] Hb' HW Hm. unfold metadata_bytes in *. change kMaxRpcEndpoints with 64 in *. split; [done| | |].
  - rewrite <- Hh. apply ld_struct_ext. intros i Hi. rewrite header_size in Hi. apply Hm. intros Hx. specialize (HW _ Hx). lia.
  - intros s Hs. rewrite <- (HR s Hs). apply ld_struct_ext. intros i Hi. rewrite entry_size in Hi. apply Hm. intros Hx. specialize (HW _ Hx).
    unfold registry_entry, slot_ok in *. lia.
  - intros x Hx HWx. rewrite Hm by done. by apply Hr.
Qed.
End rules.

(** ** The invariant *)

Definition storage_end (e : UBEndpointRegistryEntry) : Z := e_arena_offset e + e_arena_size e.
Record storage_ok (top : Z) (e : UBEndpointRegistryEntry) : Prop := {
  st_lo : kUBMachineDataOffset <= e_inbox_offset e;
  st_align : e_inbox_offset e mod 64 = 0;
  st_arena : e_arena_offset e = e_inbox_offset e + sizeof_inbox;
  st_size : e_arena_size e = ro_arena_bytes o;
  st_top : storage_end e <= top }.

Record registry_inv (h : UBMachineRegionHeader) (R : Z -> UBEndpointRegistryEntry) : Prop := {
  ri_header : h = mk_machine_header kRegionMagic kRegionVersion (process_mode_value (ro_mode o)) 0 kMaxRpcEndpoints
    kSpscQueueDepth kMTU 0 (ro_machine_id o) (ro_flags o) (ro_region_bytes o) (mh_next_free_offset h) 1;
  ri_top : kUBMachineDataOffset <= mh_next_free_offset h <= ro_region_bytes o;
  ri_top_align : mh_next_free_offset h mod 64 = 0;
  ri_slot : forall s, slot_ok s ->
    (e_inbox_offset (R s) = 0 /\ e_state (R s) = kFree) \/
    (storage_ok (mh_next_free_offset h) (R s) /\ (e_state (R s) = kFree \/ e_state (R s) = kActive));
  ri_apart : forall s s', slot_ok s -> slot_ok s' -> s <> s' -> e_inbox_offset (R s) <> 0 -> e_inbox_offset (R s') <> 0 ->
    storage_end (R s) <= e_inbox_offset (R s') \/ storage_end (R s') <= e_inbox_offset (R s);
  ri_ids : forall s s', slot_ok s -> slot_ok s' -> e_state (R s) = kActive -> e_state (R s') = kActive ->
    e_rpc_id (R s) = e_rpc_id (R s') -> s = s';
  ri_id_range : forall s, slot_ok s -> e_state (R s) = kActive -> 0 <= e_rpc_id (R s) < kMaxRpcEndpoints }.

Lemma sizeof_inbox_val : sizeof_inbox = 270336.
Proof. reflexivity. Qed.
Lemma data_offset_val : kUBMachineDataOffset = 4194304.
Proof. reflexivity. Qed.
Lemma metadata_val : metadata_bytes = 4160.
Proof. reflexivity. Qed.

(** ** Registration *)

(** *** The scan *)
Lemma scan_spec slots rpc_id m f0 f :
  scan_registry slots rpc_id m f0 = Some f ->
  (forall s, s ∈ slots -> ~ (e_state (ld_struct UBEndpointRegistryEntry m (registry_entry s)) = kActive /\
                             e_rpc_id (ld_struct UBEndpointRegistryEntry m (registry_entry s)) = rpc_id)) /\
  (f = f0 \/ (f ∈ slots /\ e_state (ld_struct UBEndpointRegistryEntry m (registry_entry f)) = kFree)).
Proof.
  revert f0. induction slots as [|s slots IH]; intros f0 H; cbn [scan_registry] in H.
  - injection H as ->. split; [intros s Hs; by apply elem_of_nil in Hs|by left].
  - set (e := ld_struct UBEndpointRegistryEntry m (registry_entry s)) in *. destruct (scan_slot rpc_id s e f0) as [f1|] eqn:Es; [|done].
    unfold scan_slot in Es. destruct (_ && _) eqn:Ea; [done|]. destruct (IH _ H) as [Hno Hf]. split.
    + intros s' Hs'. apply elem_of_cons in Hs' as [->|Hs']; [|by apply Hno]. intros [H1 H2]. fold e in H1, H2.
      rewrite H1, H2, !Z.eqb_refl in Ea. done.
    + destruct Hf as [->|[Hin Hst]]; [|right; split; [by right|done]].
      destruct ((e_state e =? kFree) && _) eqn:Ef; injection Es as <-; [|by left]. right. bprop. split; [left|done].
Qed.

Lemma wp_find_free_slot W m0 h R m rpc_id (Q : Z -> mem -> Prop) E :
  registry_is W m0 h R m ->
  (forall e, e = RPC_ID_TAKEN \/ e = REGISTRY_FULL -> E e m) ->
  (forall f, slot_ok f -> e_state (R f) = kFree ->
     (forall s, slot_ok s -> ~ (e_state (R s) = kActive /\ e_rpc_id (R s) = rpc_id)) -> Q f m) ->
  wp (find_free_slot rpc_id) Q E m.
Proof.
  intros Hs HE HQ. unfold find_free_slot. wp_step. wp_step. destruct (scan_registry _ _ _ _) as [f|] eqn:Hsc; [|wp_step; apply HE; by left].
  wp_step. wp_step; [apply HE; by right|]. wp_step. bprop. apply scan_spec in Hsc as [Hno Hf]. change kMaxRpcEndpoints with 64 in *.
  destruct Hf as [?|[Hin Hst]]; [done|]. apply elem_of_seqZ in Hin. assert (Hfo : slot_ok f) by (unfold slot_ok; lia).
  rewrite (rg_entry _ _ _ _ _ Hs f Hfo) in Hst. apply HQ; [done|done|]. intros s Hs'. rewrite <- (rg_entry _ _ _ _ _ Hs s Hs').
  apply Hno, elem_of_seqZ. unfold slot_ok in Hs'. lia.
Qed.

(** *** Storage *)

Lemma registry_header_ok W m0 h R m : registry_is W m0 h R m -> struct_ok h.
Proof. intros [Hb <- _ _]. exact (ld_plain_ok (A := UBMachineRegionHeader) m 0 Hb). Qed.
Lemma registry_entry_ok W m0 h R m s : registry_is W m0 h R m -> slot_ok s -> struct_ok (R s).
Proof. intros [Hb _ HR _] Hs. rewrite <- (HR s Hs). exact (ld_plain_ok (A := UBEndpointRegistryEntry) m _ Hb). Qed.

Definition with_storage (e : UBEndpointRegistryEntry) (i a n : Z) : UBEndpointRegistryEntry :=
  e.{ e_inbox_offset := i }.{ e_arena_offset := a }.{ e_arena_size := n }.

(** A new part of the region for the slot [f]. *)
Lemma new_storage_inv h R f :
  configured -> registry_inv h R -> slot_ok f -> e_inbox_offset (R f) = 0 ->
  mh_next_free_offset h + sizeof_inbox + ro_arena_bytes o <= ro_region_bytes o ->
  let a := mh_next_free_offset h + sizeof_inbox in
  registry_inv h.{ mh_next_free_offset := a + ro_arena_bytes o }
    (fn_set R f (with_storage (R f) (mh_next_free_offset h) a (ro_arena_bytes o))).
Proof.
  intros Hcf [Hh Htop Hal Hsl Hap Hid Hrg] Hf Hz Hroom a. pose proof (cf_arena Hcf). pose proof (cf_arena_align Hcf) as Haa.
  rewrite sizeof_inbox_val, data_offset_val in *. unfold sizeof_arena in *.
  assert (Hkeep : forall s, e_state (fn_set R f (with_storage (R f) (mh_next_free_offset h) a (ro_arena_bytes o)) s) = e_state (R s) /\
                            e_rpc_id (fn_set R f (with_storage (R f) (mh_next_free_offset h) a (ro_arena_bytes o)) s) = e_rpc_id (R s)).
  { intros s. unfold fn_set. by destruct (decide (s = f)) as [->|]. }
  split.
  - rewrite Hh. done.
  - simpl. subst a. rewrite sizeof_inbox_val, data_offset_val. lia.
  - simpl. subst a. rewrite sizeof_inbox_val, Zplus_mod, (Zplus_mod (mh_next_free_offset h)), Hal, Haa. reflexivity.
  - intros s Hs. rewrite (proj1 (Hkeep s)). destruct (decide (s = f)) as [->|Hne].
    + right. rewrite fn_set_eq. split; [|destruct (Hsl f Hs) as [[_ ->]|[_ ?]]; [by left|done]].
      split; simpl; rewrite ?data_offset_val; try done; try lia.
    + rewrite fn_set_ne by done. destruct (Hsl s Hs) as [?|[[] ?]]; [by left|]. right. split; [|done]. split; try done.
      simpl. subst a. rewrite sizeof_inbox_val. lia.
  - intros s s' Hs Hs' Hne. assert (Hold : forall s, slot_ok s -> e_inbox_offset (R s) <> 0 -> storage_end (R s) <= mh_next_free_offset h).
    { intros t Ht Hnz. destruct (Hsl t Ht) as [[? _]|[[] _]]; [done|lia]. }
    destruct (decide (s = f)) as [->|Hsf], (decide (s' = f)) as [->|Hsf']; [done| | |].
    + rewrite fn_set_eq, fn_set_ne by done. simpl. intros _ Hnz. right. by apply Hold.
    + rewrite fn_set_eq, fn_set_ne by done. simpl. intros Hnz _. left. by apply Hold.
    + rewrite !fn_set_ne by done. by apply Hap.
  - intros s s' Hs Hs'. rewrite !(proj1 (Hkeep _)), !(proj2 (Hkeep _)). by apply Hid.
  - intros s Hs. rewrite (proj1 (Hkeep s)), (proj2 (Hkeep s)). by apply Hrg.
Qed.

(** What the slot [f] has after its storage is assigned. *)
Record stored (h : UBMachineRegionHeader) (R : Z -> UBEndpointRegistryEntry) (f : Z) (h' : UBMachineRegionHeader)
    (R' : Z -> UBEndpointRegistryEntry) (i a n : Z) : Prop := {
  sd_inv : registry_inv h' R';
  sd_others : forall s, s <> f -> R' s = R s;
  sd_entry : R' f = with_storage (R f) i a n;
  sd_ok : storage_ok (mh_next_free_offset h') (R' f);
  sd_nonzero : i <> 0 }.

Lemma same_storage e : with_storage e (e_inbox_offset e) (e_arena_offset e) (e_arena_size e) = e.
Proof. by destruct e. Qed.

Lemma wp_assign_storage m0 h R m f (Q : Z * Z * Z -> mem -> Prop) E :
  configured -> registry_is (fun _ => False) m0 h R m -> registry_inv h R -> slot_ok f ->
  E NO_SPACE m ->
  (forall h' R' i a n m', stored h R f h' R' i a n -> registry_is (fun _ => False) m0 h' R' m' -> Q (i, a, n) m') ->
  wp (assign_storage o f) Q E m.
Proof.
  intros Hcf Hs HI Hf HE HQ. pose proof (cf_region Hcf) as Hrg. pose proof (cf_arena Hcf) as Har. pose proof (ri_top _ _ HI) as Htop.
  pose proof (ri_top_align _ _ HI) as Hal. rewrite data_offset_val in *. unfold sizeof_arena in *.
  unfold assign_storage. wp_step. eapply wp_entry_at; [done|done|]. destruct (e_inbox_offset (R f) =? 0) eqn:Ez; bprop.
  - wp_step. eapply wp_header_at; [done|]. cbv zeta.
    assert (Ha : u64 (mh_next_free_offset h + sizeof_inbox + 63) .& (2 ^ 64 - 64) = mh_next_free_offset h + sizeof_inbox).
    { apply (align64_val (mh_next_free_offset h + sizeof_inbox)); rewrite sizeof_inbox_val; [lia|]. rewrite Zplus_mod, Hal. reflexivity. }
    rewrite Ha. set (a := mh_next_free_offset h + sizeof_inbox). wp_step. wp_step; [done|]. bprop.
    assert (Hroom : a + ro_arena_bytes o <= ro_region_bytes o /\ u64 (a + ro_arena_bytes o) = a + ro_arena_bytes o).
    { subst a. rewrite sizeof_inbox_val in *. rewrite u64_id in * by (unfold in_u64; lia). done. }
    destruct Hroom as [Hroom Hu]. rewrite Hu. wp_step. eapply wp_set_header; [done| |].
    { pose proof (registry_header_ok _ _ _ _ _ Hs) as Hok. rewrite machine_header_ok_spec in Hok |- *. destruct Hok as (?&?&?&?&?&?&?&?&?&?&?&?&?).
      do 11 (split; [assumption|]). split; [apply field_u64; simpl; subst a; rewrite sizeof_inbox_val in *; unfold in_u64; lia|assumption]. }
    intros m1 Hs1. wp_step. eapply wp_set_entry; [done|done| |].
    { pose proof (registry_entry_ok _ _ _ _ _ _ Hs Hf) as Hok. rewrite entry_ok_spec in Hok |- *. destruct Hok as (?&?&?&?&?&?&?&?&?&?).
      do 6 (split; [assumption|]). simpl. subst a. rewrite sizeof_inbox_val in *.
      repeat (split; [apply field_u64; unfold in_u64; lia|]). assumption. }
    intros m2 Hs2. wp_step. pose proof (new_storage_inv h R f Hcf HI Hf Ez Hroom) as HI2. eapply HQ; [|exact Hs2].
    split; [exact HI2| | | |lia].
    + intros s Hne. by rewrite fn_set_ne.
    + by rewrite fn_set_eq.
    + destruct (ri_slot _ _ HI2 f Hf) as [[Hz _]|[? _]]; [|done]. rewrite fn_set_eq in Hz. simpl in Hz. lia.
  - wp_step. eapply (HQ h R); [|done]. split; [done|done| | |done]; [by rewrite same_storage|].
    destruct (ri_slot _ _ HI f Hf) as [[? _]|[? _]]; done.
Qed.

(** *** The inbox *)

Lemma inbox_bytes i m x :
  (i <= x < i + sizeof_inbox -> ub_initialize_inbox i m x = 0) /\
  (~ i <= x < i + sizeof_inbox -> ub_initialize_inbox i m x = m x).
Proof.
  unfold ub_initialize_inbox. rewrite sizeof_inbox_val.
  apply (for_invariant (fun _ t => (i <= x < i + 270336 -> t x = 0) /\ (~ i <= x < i + 270336 -> t x = m x))); [done| |].
  - split; intros Hx; [by apply fill_in|apply fill_out; lia].
  - intros s t Hs [Hin Hout]. change kMaxRpcEndpoints with 64 in Hs.
    assert (Hq : i <= inbox_queue i s /\ inbox_queue i s + 128 <= i + 270336).
    { unfold inbox_queue. change sizeof_queue with 4224. lia. }
    assert (Hst : forall t a, st64 t a 0 x = if decide (a <= x < a + 8) then 0 else t x).
    { intros t' a. destruct (decide _) as [Hx|Hx]; [|by rewrite st_out by lia]. unfold st. rewrite store_bytes_in by (rewrite le_bytes_length; lia).
      change (le_bytes 8 0) with (replicate 8 0). apply replicate_nthz. }
    unfold queue_initialize. rewrite !Hst. unfold queue_head, queue_tail. split; intros Hx.
    + by repeat destruct (decide _); [done|done|apply Hin].
    + repeat (rewrite decide_False by lia). by apply Hout.
Qed.
Lemma inbox_ok i m : bytes_ok m -> bytes_ok (ub_initialize_inbox i m).
Proof.
  intros Hm x. destruct (decide (i <= x < i + sizeof_inbox)) as [Hx|Hx].
  - by rewrite (proj1 (inbox_bytes i m x) Hx).
  - rewrite (proj2 (inbox_bytes i m x) Hx). apply Hm.
Qed.
(** A queue of zero bytes is empty, for a producer and a consumer that start at 0. *)
Lemma zero_queue m q : (forall x, q <= x < q + sizeof_queue -> m x = 0) -> queue_inv q (mk_qstate m (mk_producer 0 0) PIdle 0 CIdle) [] 0 0.
Proof.
  intros Hz. change sizeof_queue with 4224 in Hz.
  assert (Hld : forall a, q <= a -> a + 8 <= q + 4224 -> ld64 m a = 0).
  { intros a Ha Ha'. unfold ld. rewrite (load_bytes_ext m (fun _ => 0) a 0); [by vm_compute|]. intros k Hk. apply Hz. lia. }
  split; simpl; rewrite ?depth_val; try done; apply Hld; unfold queue_head, queue_tail; lia.
Qed.

(** *** Activation *)

Definition activated (e : UBEndpointRegistryEntry) (generation process_id port rpc_id : Z) : UBEndpointRegistryEntry :=
  e.{ e_generation := generation }.{ e_process_id := process_id }.{ e_sm_udp_port := port }.{ e_rpc_id := rpc_id }.{ e_state := kActive }.

Lemma activate_inv h R f gen pid port rpc_id :
  registry_inv h R -> slot_ok f -> storage_ok (mh_next_free_offset h) (R f) -> 0 <= rpc_id < kMaxRpcEndpoints ->
  (forall s, slot_ok s -> ~ (e_state (R s) = kActive /\ e_rpc_id (R s) = rpc_id)) ->
  registry_inv h (fn_set R f (activated (R f) gen pid port rpc_id)).
Proof.
  intros [Hh Htop Hal Hsl Hap Hid Hrg] Hf Hst Hid' Hno.
  assert (Hstore : forall s, e_inbox_offset (fn_set R f (activated (R f) gen pid port rpc_id) s) = e_inbox_offset (R s) /\
            storage_end (fn_set R f (activated (R f) gen pid port rpc_id) s) = storage_end (R s)).
  { intros s. unfold fn_set. by destruct (decide (s = f)) as [->|]. }
  split; try done.
  - intros s Hs. destruct (decide (s = f)) as [->|Hne]; [|rewrite fn_set_ne by done; by apply Hsl].
    rewrite fn_set_eq. right. split; [by destruct Hst|by right].
  - intros s s' Hs Hs'. rewrite !(proj1 (Hstore _)), !(proj2 (Hstore _)). by apply Hap.
  - intros s s' Hs Hs'. destruct (decide (s = f)) as [->|Hne], (decide (s' = f)) as [->|Hne']; rewrite ?fn_set_eq, ?fn_set_ne by done; simpl.
    + done.
    + intros _ Ha Hr. by destruct (Hno s' Hs').
    + intros Ha _ Hr. by destruct (Hno s Hs).
    + by apply Hid.
  - intros s Hs. destruct (decide (s = f)) as [->|Hne]; [by rewrite fn_set_eq|]. rewrite fn_set_ne by done. by apply Hrg.
Qed.

(** ** What a registration gives *)

Definition region_ok (m : mem) : Prop := exists h R, registry_is (fun _ => False) m h R m /\ registry_inv h R.
Definition entry_of (m : mem) (s : Z) : UBEndpointRegistryEntry := ld_struct UBEndpointRegistryEntry m (registry_entry s).
Definition storage (e : UBEndpointHandle) (x : Z) : Prop := eh_inbox_offset e <= x < eh_arena_offset e + eh_arena_size e.

Record registered (m : mem) (rpc_id : Z) (e : UBEndpointHandle) (m' : mem) : Prop := {
  rd_region : region_ok m';
  rd_slot : slot_ok (eh_slot e) /\ e_state (entry_of m (eh_slot e)) = kFree;
  rd_others : forall s, slot_ok s -> s <> eh_slot e -> entry_of m' s = entry_of m s;
  rd_rpc_id : eh_rpc_id e = rpc_id;
  rd_generation : eh_generation e = next_generation (e_generation (entry_of m (eh_slot e)));
  rd_valid : validate_endpoint (ro_region_bytes o) true (ro_machine_id o) e m' = true;
  rd_rest : forall x, metadata_bytes <= x -> ~ storage e x -> m' x = m x;
  rd_inbox : forall q, slot_ok q ->
    queue_inv (inbox_queue (eh_inbox_offset e) q) (mk_qstate m' (mk_producer 0 0) PIdle 0 CIdle) [] 0 0;
  rd_placed : placed (mk_allocator (ro_machine_id o) e);
  rd_arena : arena_is (mk_allocator (ro_machine_id o) e) m' no_blocks m' }.

Lemma validate_spec h R m e :
  registry_is (fun _ => False) m h R m -> registry_inv h R -> configured ->
  slot_ok (eh_slot e) -> eh_rpc_id e < 64 ->
  storage_ok (mh_next_free_offset h) (R (eh_slot e)) ->
  e_state (R (eh_slot e)) = kActive -> e_generation (R (eh_slot e)) = eh_generation e -> e_rpc_id (R (eh_slot e)) = eh_rpc_id e ->
  e_inbox_offset (R (eh_slot e)) = eh_inbox_offset e -> e_arena_offset (R (eh_slot e)) = eh_arena_offset e ->
  e_arena_size (R (eh_slot e)) = eh_arena_size e ->
  validate_endpoint (ro_region_bytes o) true (ro_machine_id o) e m = true.
Proof.
  intros Hs HI Hcf Hsl Hr Hst Ea Eg Er Ei Eo Ez. pose proof (ri_top _ _ HI). pose proof (cf_region Hcf). pose proof (cf_arena Hcf).
  destruct Hst as [Hlo Hal Har Hsz Htop]. unfold storage_end in Htop. rewrite Ei, Eo, Ez in *. rewrite data_offset_val, sizeof_inbox_val in *. unfold sizeof_arena, slot_ok in *.
  unfold validate_endpoint, handle_valid, nz. rewrite (rg_header _ _ _ _ _ Hs), (rg_entry _ _ _ _ _ Hs (eh_slot e) Hsl), (ri_header _ _ HI).
  cbn [mh_machine_id]. rewrite Ea, Eg, Er, Ei, Eo, Ez. rewrite data_offset_val, sizeof_inbox_val. unfold sizeof_arena. change kMaxRpcEndpoints with 64.
  assert (Hoal : eh_arena_offset e mod 64 = 0) by (rewrite Har, Zplus_mod, Hal; reflexivity).
  rewrite Hal, Hoal, (u64_id (eh_inbox_offset e + 270336)) by (unfold in_u64; lia). rewrite !Z.eqb_refl. simpl.
  repeat match goal with |- context [?x <? ?y] => (replace (x <? y) with true by lia) || (replace (x <? y) with false by lia) end.
  repeat match goal with |- context [?x <=? ?y] => (replace (x <=? y) with true by lia) || (replace (x <=? y) with false by lia) end.
  repeat match goal with |- context [?x =? 0] => replace (x =? 0) with false by lia end. reflexivity.
Qed.

Lemma stored_bounds h R f h' R' i a n :
  configured -> stored h R f h' R' i a n ->
  4194304 <= i /\ i mod 64 = 0 /\ a = i + 270336 /\ n = ro_arena_bytes o /\ a + n <= ro_region_bytes o /\ 320 < n /\ a mod 64 = 0.
Proof.
  intros Hcf [HI _ He [Hlo Hal Har Hsz Htop] _]. pose proof (ri_top _ _ HI) as [_ Ht]. pose proof (cf_arena Hcf). unfold storage_end in Htop.
  rewrite He in Hlo, Hal, Har, Hsz, Htop. change (e_inbox_offset (with_storage (R f) i a n)) with i in *.
  change (e_arena_offset (with_storage (R f) i a n)) with a in *. change (e_arena_size (with_storage (R f) i a n)) with n in *.
  rewrite data_offset_val, sizeof_inbox_val in *. unfold sizeof_arena in *.
  split_and!; try lia. rewrite Har, Zplus_mod, Hal. reflexivity.
Qed.

(** Writing the storage: the inbox, the arena's bytes when they are new, and the arena's header. *)
Lemma wp_fill_storage m0 h R m i a n (zero : bool) e (Q : unit -> mem -> Prop) E :
  registry_is (fun _ => False) m0 h R m -> placed (mk_allocator (ro_machine_id o) e) -> eh_arena_offset e = a -> eh_arena_size e = n ->
  metadata_bytes <= i -> a = i + sizeof_inbox ->
  (forall m', registry_is (fun x => i <= x < a + n) m0 h R m' -> (forall x, i <= x < a -> m' x = 0) ->
     arena_is (mk_allocator (ro_machine_id o) e) m' no_blocks m' -> Q tt m') ->
  wp (initialize_storage o zero i a n) Q E m.
Proof.
  intros Hs Hpl Ea En Hi Ha HQ. pose proof (pl_room _ Hpl) as Hroom. cbn [al_endpoint] in Hroom. rewrite En in Hroom. unfold sizeof_arena in Hroom.
  assert (Hs0 : registry_is (fun x => i <= x < a + n) m0 h R m).
  { destruct Hs as [? ? ? Hr]. split; try done. intros x Hx _. apply Hr; [done|by intros []]. }
  assert (HW : forall x, i <= x < a + n -> metadata_bytes <= x) by lia.
  unfold initialize_storage. do 2 wp_step. wp_step. wp_step. set (m1 := ub_initialize_inbox i m).
  assert (Hs1 : registry_is (fun x => i <= x < a + n) m0 h R m1).
  { eapply registry_write; [exact Hs0|apply inbox_ok, (rg_bytes _ _ _ _ _ Hs)|done|].
    intros x Hx. apply (proj2 (inbox_bytes i m x)). lia. }
  wp_step. set (m2 := if zero then fill m1 a n 0 else m1).
  assert (Hs2 : registry_is (fun x => i <= x < a + n) m0 h R m2).
  { subst m2. destruct zero; [|exact Hs1]. eapply registry_write; [exact Hs1|apply fill_ok; [apply (rg_bytes _ _ _ _ _ Hs1)|done]|done|].
    intros x Hx. apply fill_out. rewrite sizeof_inbox_val in Ha. lia. }
  assert (Hz : forall x, i <= x < a -> m2 x = 0).
  { intros x Hx. assert (m1 x = 0) by (apply (proj1 (inbox_bytes i m x)); lia). subst m2. destruct zero; [|done]. rewrite fill_out by lia. done. }
  assert (Hwp : wp (ub_initialize_arena (ro_machine_id o) a n) Q E m2).
  { assert (Hb2 : bytes_ok m2) by apply (rg_bytes _ _ _ _ _ Hs2).
    pose proof (wp_initialize_arena (mk_allocator (ro_machine_id o) e) E m2 Hpl Hb2) as Hwi. cbn [al_machine_id al_endpoint] in Hwi.
    rewrite Ea, En in Hwi. eapply wp_mono; [exact Hwi| |done]. intros [] m3 HA.
    assert (Hout : forall x, ~ a <= x < a + 320 -> m3 x = m2 x).
    { intros x Hx. destruct HA as (h3&B3&Hs3&_). apply (sh_rest _ _ _ _ _ _ Hs3); [cbn [al_endpoint]; by rewrite Ea|].
      intros b [c Hb]. by apply elem_of_nil in Hb. }
    assert (Hb3 : bytes_ok m3) by (destruct HA as (h3&B3&Hs3&_); apply (sh_bytes _ _ _ _ _ _ Hs3)).
    apply HQ; [|intros x Hx; rewrite Hout by lia; by apply Hz|by apply (rebase _ m2)].
    eapply registry_write; [exact Hs2|done|done|]. intros x Hx. apply Hout. rewrite sizeof_inbox_val in Ha. lia. }
  destruct zero; [do 2 wp_step; wp_step; exact Hwp|wp_step; exact Hwp].
Qed.

(** The facts of a registration, from the memory after the storage was written. *)
Lemma registered_intro m h R f h1 R1 i a n m2 m' gen pid port rpc_id :
  let e := mk_handle f rpc_id gen i a n in
  let e' := activated (R1 f) gen pid port rpc_id in
  configured -> registry_is (fun _ => False) m h R m -> slot_ok f -> e_state (R f) = kFree -> 0 <= rpc_id < 64 ->
  (forall s, slot_ok s -> ~ (e_state (R s) = kActive /\ e_rpc_id (R s) = rpc_id)) ->
  stored h R f h1 R1 i a n -> gen = next_generation (e_generation (R f)) -> placed (mk_allocator (ro_machine_id o) e) ->
  registry_is (fun x => i <= x < a + n) m h1 R1 m2 -> (forall x, i <= x < a -> m2 x = 0) ->
  arena_is (mk_allocator (ro_machine_id o) e) m2 no_blocks m2 ->
  registry_is (fun _ => False) m2 h1 (fn_set R1 f e') m' -> registered m rpc_id e m'.
Proof.
  intros e e' Hcf Hs Hf Hfree Hrpc Hno Hst Hgen Hpl Hs2 Hz HA Hs'.
  destruct (stored_bounds _ _ _ _ _ _ _ _ Hcf Hst) as (Hi&_&Ha&_&_&Hbig&_).
  assert (Hno1 : forall s, slot_ok s -> ~ (e_state (R1 s) = kActive /\ e_rpc_id (R1 s) = rpc_id)).
  { intros s Hs0. destruct (decide (s = f)) as [->|Hne]; [|rewrite (sd_others _ _ _ _ _ _ _ _ Hst s Hne); by apply Hno].
    rewrite (sd_entry _ _ _ _ _ _ _ _ Hst). change (e_state (with_storage (R f) i a n)) with (e_state (R f)). rewrite Hfree. by intros [? _]. }
  pose proof (activate_inv h1 R1 f gen pid port rpc_id (sd_inv _ _ _ _ _ _ _ _ Hst) Hf (sd_ok _ _ _ _ _ _ _ _ Hst) Hrpc Hno1) as HI'.
  fold e' in HI'. pose proof (sd_entry _ _ _ _ _ _ _ _ Hst) as He1. pose proof metadata_val as Hmv.
  assert (Hsame : forall x, metadata_bytes <= x -> m' x = m2 x) by (intros x Hx; apply (rg_rest _ _ _ _ _ Hs'); [lia|by intros []]).
  assert (Hs'' : registry_is (fun _ => False) m' h1 (fn_set R1 f e') m') by (by destruct Hs'; split).
  assert (Hstok : storage_ok (mh_next_free_offset h1) e') by (destruct (sd_ok _ _ _ _ _ _ _ _ Hst); by split).
  split; try done.
  - by exists h1, (fn_set R1 f e').
  - split; [done|]. unfold entry_of. cbn [eh_slot e]. by rewrite (rg_entry _ _ _ _ _ Hs f Hf).
  - intros s Hs0 Hne. cbn [eh_slot e] in Hne. unfold entry_of.
    by rewrite (rg_entry _ _ _ _ _ Hs s Hs0), (rg_entry _ _ _ _ _ Hs' s Hs0), fn_set_ne, (sd_others _ _ _ _ _ _ _ _ Hst).
  - unfold entry_of. cbn [eh_slot e eh_generation]. by rewrite (rg_entry _ _ _ _ _ Hs f Hf).
  - apply (validate_spec h1 (fn_set R1 f e') m' e); cbn [eh_slot e]; rewrite ?fn_set_eq; try done; unfold e'; try (by rewrite He1). apply Hrpc.
  - intros x Hx Hns. rewrite Hsame by done. unfold storage in Hns. cbn [e eh_inbox_offset eh_arena_offset eh_arena_size] in Hns.
    apply (rg_rest _ _ _ _ _ Hs2); [lia|done].
  - intros q Hq. apply zero_queue. unfold slot_ok in Hq. change sizeof_queue with 4224. intros x Hx. unfold inbox_queue in Hx. cbn [e eh_inbox_offset] in Hx.
    change sizeof_queue with 4224 in Hx. rewrite Hsame by lia. apply Hz. lia.
  - apply (arena_elsewhere _ m2 _ m2); [done|done|apply (rg_bytes _ _ _ _ _ Hs')|]. intros x Hx. cbn [al_endpoint e eh_arena_offset eh_arena_size] in Hx.
    apply Hsame. lia.
Qed.

(** An error that leaves the region as it was. *)
Definition untouched (m : mem) (errors : list Z) : Z -> mem -> Prop := fun e m' => e ∈ errors /\ m' = m.

Lemma wp_register m pid port rpc_id :
  configured -> region_ok m -> in_u32 pid -> 0 <= port < 65536 -> 0 <= rpc_id ->
  wp (register_endpoint o pid port rpc_id) (registered m rpc_id)
    (untouched m [RPC_ID_RANGE; RPC_ID_TAKEN; REGISTRY_FULL; NO_SPACE]) m.
Proof.
  intros Hcf (h&R&Hs&HI) Hpid Hport Hrpc. unfold register_endpoint. wp_step. wp_step; [split; [left|done]|]. bprop. change kMaxRpcEndpoints with 64 in *.
  wp_step. eapply wp_find_free_slot; [exact Hs| |].
  { intros e [-> | ->]; (split; [|done]); [right; left|right; right; left]. }
  intros f Hf Hfree Hno. wp_step. eapply wp_entry_at; [exact Hs|done|]. wp_step. eapply wp_assign_storage; [done|exact Hs|exact HI|done| |].
  { split; [right; right; right; left|done]. }
  intros h1 R1 i a n m1 Hst Hs1. destruct (stored_bounds _ _ _ _ _ _ _ _ Hcf Hst) as (Hi&Hia&Ha&Hn&Hend&Hbig&Haa).
  set (gen := next_generation (e_generation (R f))). set (e := mk_handle f rpc_id gen i a n).
  pose proof (cf_region Hcf). pose proof (cf_arena Hcf).
  assert (Hpl : placed (mk_allocator (ro_machine_id o) e)).
  { split; simpl; unfold sizeof_arena; try lia. apply (cf_machine Hcf). }
  rewrite <- sizeof_inbox_val in Ha.
  wp_step. eapply (wp_fill_storage m h1 R1 m1 i a n _ e); [exact Hs1|done|done|done|rewrite metadata_val; lia|done|].
  intros m2 Hs2 Hz HA2. wp_step. eapply wp_entry_at; [exact Hs2|done|].
  assert (Hgen : e_generation (R1 f) = e_generation (R f)) by by rewrite (sd_entry _ _ _ _ _ _ _ _ Hst).
  rewrite Hgen. fold gen. pose proof (next_generation_range (e_generation (R f))) as [Hg _]. fold gen in Hg.
  assert (Hs3 : registry_is (fun _ => False) m2 h1 R1 m2) by (by destruct Hs2; split).
  pose proof (registry_entry_ok _ _ _ _ _ _ Hs3 Hf) as Heok.
  assert (Hok : forall s, in_u32 s -> struct_ok (R1 f).{ e_generation := gen }.{ e_process_id := pid }.{ e_sm_udp_port := port }.{ e_rpc_id := rpc_id }.{ e_state := s }).
  { intros s Hsr. rewrite entry_ok_spec in Heok |- *. destruct Heok as (?&?&?&?&?&Hr). split; [by apply field_u32|]. split; [by apply field_u32|].
    split; [by apply field_u32|]. split; [done|]. split; [unfold field_in_range; simpl; change (256 ^ Z.of_nat 1) with 256; lia|exact Hr]. }
  wp_step. eapply wp_set_entry; [exact Hs3|done| |].
  { apply (Hok (e_state (R1 f))). rewrite entry_ok_spec in Heok. apply Heok. }
  intros m3 Hs4. wp_step. eapply wp_set_entry; [exact Hs4|done| |].
  { rewrite fn_set_eq. by apply (Hok kActive). }
  intros m4 Hs5. rewrite fn_set_eq in Hs5. wp_step.
  apply (registered_intro m h R f h1 R1 i a n m2 m4 gen pid port rpc_id); try done.
  revert Hs5. apply registry_ext. intros s. by rewrite fn_set_twice.
Qed.

(** ** Unregistration *)

Lemma free_inv h R s : registry_inv h R -> registry_inv h (fn_set R s (R s).{ e_state := kFree }).
Proof.
  intros [Hh Htop Hal Hsl Hap Hid Hrg].
  assert (Hk : forall t, let e := fn_set R s (R s).{ e_state := kFree } t in
            e_inbox_offset e = e_inbox_offset (R t) /\ storage_end e = storage_end (R t) /\ e_rpc_id e = e_rpc_id (R t) /\
            (e_state e = kActive -> e_state (R t) = kActive)).
  { intros t. unfold fn_set. destruct (decide (t = s)) as [->|]; [|done]. split_and!; [done..|]. intros H. discriminate H. }
  split; try done.
  - intros t Ht. unfold fn_set. destruct (decide (t = s)) as [->|]; [|by apply Hsl].
    destruct (Hsl s Ht) as [[? _]|[[] _]]; [by left|right]. by split; [split|left].
  - intros t t' Ht Ht'. rewrite !(proj1 (Hk _)), !(proj1 (proj2 (Hk _))). by apply Hap.
  - intros t t' Ht Ht' Ha Ha'. rewrite !(proj1 (proj2 (proj2 (Hk _)))). apply Hid; try done; by apply (proj2 (proj2 (proj2 (Hk _)))).
  - intros t Ht Ha. rewrite (proj1 (proj2 (proj2 (Hk _)))). apply Hrg; [done|]. by apply (proj2 (proj2 (proj2 (Hk _)))).
Qed.

Record unregistered (m : mem) (e : UBEndpointHandle) (m' : mem) : Prop := {
  ur_region : region_ok m';
  ur_idle : ar_active_blocks (ld_struct UBArenaHeader m (eh_arena_offset e)) = 0;
  ur_current : e_generation (entry_of m (eh_slot e)) = eh_generation e;
  ur_slot : slot_ok (eh_slot e);
  ur_free : entry_of m' (eh_slot e) = (entry_of m (eh_slot e)).{ e_state := kFree };
  ur_invalid : validate_endpoint (ro_region_bytes o) true (ro_machine_id o) e m' = false;
  ur_others : forall s, slot_ok s -> s <> eh_slot e -> entry_of m' s = entry_of m s;
  ur_rest : forall x, metadata_bytes <= x -> m' x = m x }.

Lemma wp_unregister m e pid E :
  region_ok m -> 0 <= eh_slot e ->
  wp (unregister_endpoint e pid) (fun ok m' => (ok = false /\ m' = m) \/ (ok = true /\ unregistered m e m')) E m.
Proof.
  intros (h&R&Hs&HI) Hlo. unfold unregister_endpoint. wp_step; [wp_step; by left|].
  assert (Hsl : slot_ok (eh_slot e)) by (unfold handle_valid, slot_ok in *; change kMaxRpcEndpoints with 64 in *; bprop; lia).
  wp_step. eapply wp_entry_at; [exact Hs|done|]. wp_step; [wp_step; by left|]. wp_step. unfold arena_at. wp_step. wp_step. wp_step. wp_step; [wp_step; by left|].
  wp_step. eapply wp_set_entry; [exact Hs|done| |].
  { pose proof (registry_entry_ok _ _ _ _ _ _ Hs Hsl) as Hok. rewrite entry_ok_spec in Hok |- *. destruct Hok as [_ Hr]. split; [by apply field_u32|exact Hr]. }
  intros m' Hs'. wp_step. right. split; [done|]. bprop. pose proof (free_inv h R (eh_slot e) HI) as HI'.
  assert (Hnew : entry_of m' (eh_slot e) = (R (eh_slot e)).{ e_state := kFree }) by (unfold entry_of; by rewrite (rg_entry _ _ _ _ _ Hs' _ Hsl), fn_set_eq).
  split.
  - eexists h, _. split; [|exact HI']. by destruct Hs'; split.
  - match goal with H : e_arena_offset _ = _ |- _ => rewrite <- H end. done.
  - unfold entry_of. by rewrite (rg_entry _ _ _ _ _ Hs _ Hsl).
  - done.
  - rewrite Hnew. unfold entry_of. by rewrite (rg_entry _ _ _ _ _ Hs _ Hsl).
  - unfold validate_endpoint. fold (entry_of m' (eh_slot e)). rewrite Hnew. by repeat case_if.
  - intros s Hs0 Hne. unfold entry_of. by rewrite (rg_entry _ _ _ _ _ Hs' _ Hs0), (rg_entry _ _ _ _ _ Hs _ Hs0), fn_set_ne.
  - intros x Hx. apply (rg_rest _ _ _ _ _ Hs'); [rewrite metadata_val in *; lia|by intros []].
Qed.

(** ** The life of a region *)

Lemma wp_initialize_region m E : configured -> bytes_ok m -> wp (initialize_region o) (fun _ => region_ok) E m.
Proof.
  intros Hcf Hm. pose proof (cf_machine Hcf) as Hmid. pose proof (cf_flags Hcf) as Hfl. pose proof (cf_region Hcf) as Hrg. rewrite data_offset_val in Hrg.
  set (h0 := mk_machine_header 0 0 0 0 0 0 0 0 0 0 0 0 0). set (e0 := mk_entry 0 0 0 0 0 0 0 0 0 0).
  assert (Hz : registry_is (fun _ => True) m h0 (fun _ => e0) (fill m 0 kUBMachineDataOffset 0)).
  { split; [by apply fill_ok| | |].
    - unfold ld_struct. rewrite load_fill_zero by (rewrite ?header_size, ?data_offset_val; lia). by vm_compute.
    - intros s Hs. unfold ld_struct. rewrite load_fill_zero by (rewrite ?entry_size, ?data_offset_val; unfold registry_entry, slot_ok in *; lia). by vm_compute.
    - intros x _ Hx. by destruct Hx. }
  set (h1 := mk_machine_header 0 kRegionVersion (process_mode_value (ro_mode o)) 0 kMaxRpcEndpoints kSpscQueueDepth kMTU 0
               (ro_machine_id o) (ro_flags o) (ro_region_bytes o) kUBMachineDataOffset 1).
  assert (Hok : forall v, in_u32 v -> struct_ok h1.{ mh_magic := v }).
  { intros v Hv. rewrite machine_header_ok_spec. split; [by apply field_u32|]. split; [done|]. split; [by destruct (ro_mode o)|].
    do 5 (split; [done|]). split; [by apply field_u64|]. split; [by apply field_u64|].
    split; [apply field_u64; simpl; unfold in_u64; lia|]. by split. }
  unfold initialize_region. do 5 wp_step. eapply wp_set_header; [exact Hz|by apply (Hok 0)|].
  intros m1 Hs1. eapply wp_set_header; [exact Hs1|by apply (Hok kRegionMagic)|].
  intros m2 [Hb2 Hh2 HR2 _]. eexists (h1.{ mh_magic := kRegionMagic }), (fun _ => e0). split; [by split|]. split; try done.
  - simpl. rewrite data_offset_val. lia.
  - intros s _. by left.
Qed.

Inductive region_step : mem -> mem -> Prop :=
  | region_register m m' pid port rpc_id e :
      in_u32 pid -> 0 <= port < 65536 -> 0 <= rpc_id -> register_endpoint o pid port rpc_id m = (inl e, m') -> region_step m m'
  | region_refuse m m' pid port rpc_id err :
      in_u32 pid -> 0 <= port < 65536 -> 0 <= rpc_id -> register_endpoint o pid port rpc_id m = (inr err, m') -> region_step m m'
  | region_unregister m m' e pid ok : 0 <= eh_slot e -> unregister_endpoint e pid m = (inl ok, m') -> region_step m m'
  | region_traffic m m' : bytes_ok m' -> (forall x, 0 <= x < metadata_bytes -> m' x = m x) -> region_step m m'.

Lemma region_step_ok m m' : configured -> region_ok m -> region_step m m' -> region_ok m'.
Proof.
  intros Hcf Hm Hst. destruct Hst as [m m' pid port r e Hp Hpo Hr Hop|m m' pid port r err Hp Hpo Hr Hop|m m' e pid ok Hsl Hop|m m' Hb Hsame].
  - exact (rd_region _ _ _ _ (wp_run _ _ _ _ _ _ (wp_register m pid port r Hcf Hm Hp Hpo Hr) Hop)).
  - destruct (wp_run _ _ _ _ _ _ (wp_register m pid port r Hcf Hm Hp Hpo Hr) Hop) as [_ ->]. done.
  - destruct (wp_run _ _ _ _ _ _ (wp_unregister m e pid (fun _ _ => False) Hm Hsl) Hop) as [[_ ->]|[_ Hu]]; [done|apply Hu].
  - destruct Hm as (h&R&[_ Hh HR _]&HI). exists h, R. split; [|done]. rewrite metadata_val in Hsame. split; [done| | |done].
    + rewrite <- Hh. apply ld_struct_ext. intros i Hi. rewrite header_size in Hi. apply Hsame. lia.
    + intros s Hs. rewrite <- (HR s Hs). apply ld_struct_ext. intros i Hi. rewrite entry_size in Hi. apply Hsame. unfold registry_entry, slot_ok in *. lia.
Qed.

(** A region its owner has set up, after any registrations, unregistrations and traffic. *)
Definition region_reached (m : mem) : Prop :=
  exists m0 m1, bytes_ok m0 /\ initialize_region o m0 = (inl tt, m1) /\ rtc region_step m1 m.

Lemma reached_ok m : configured -> region_reached m -> region_ok m.
Proof.
  intros Hcf (m0&m1&Hb&Hinit&Hr). refine (rtc_invariant region_step region_ok _ _ _ Hr _).
  - intros x y. by apply region_step_ok.
  - exact (wp_run _ _ _ _ _ _ (wp_initialize_region m0 (fun _ _ => False) Hcf Hb) Hinit).
Qed.

(** What the registry promises to the endpoints of the machine. *)
Record region_safe (m : mem) : Prop := {
  rs_ids : forall s s', slot_ok s -> slot_ok s' -> e_state (entry_of m s) = kActive -> e_state (entry_of m s') = kActive ->
    e_rpc_id (entry_of m s) = e_rpc_id (entry_of m s') -> s = s';
  rs_inside : forall s, slot_ok s -> e_state (entry_of m s) = kActive ->
    kUBMachineDataOffset <= e_inbox_offset (entry_of m s) /\
    e_inbox_offset (entry_of m s) + sizeof_inbox <= e_arena_offset (entry_of m s) /\
    storage_end (entry_of m s) <= ro_region_bytes o;
  rs_apart : forall s s', slot_ok s -> slot_ok s' -> s <> s' -> e_state (entry_of m s) = kActive -> e_state (entry_of m s') = kActive ->
    storage_end (entry_of m s) <= e_inbox_offset (entry_of m s') \/ storage_end (entry_of m s') <= e_inbox_offset (entry_of m s);
  rs_matches : region_matches (ro_region_bytes o) (ro_flags o) (ro_machine_id o) m = true }.

(** C9. In a machine region, whatever registrations and unregistrations its owner serves and whatever is written to the
    endpoints' storage, active endpoints have different identifiers, their inboxes and arenas lie behind the metadata
    and inside the region, no two of them overlap, and the header passes the checks of every importing process. *)
Theorem registry_is_safe m : configured -> region_reached m -> region_safe m.
Proof.
  intros Hcf Hr. destruct (reached_ok m Hcf Hr) as (h&R&Hs&HI). pose proof (ri_top _ _ HI) as [_ Htop].
  assert (He : forall s, slot_ok s -> entry_of m s = R s) by apply (rg_entry _ _ _ _ _ Hs).
  assert (Hst : forall s, slot_ok s -> e_state (R s) = kActive -> storage_ok (mh_next_free_offset h) (R s)).
  { intros s Hsl Ha. destruct (ri_slot _ _ HI s Hsl) as [[_ Hf]|[? _]]; [|done]. by rewrite Ha in Hf. }
  split.
  - intros s s' Hsl Hsl'. rewrite !He by done. by apply (ri_ids _ _ HI).
  - intros s Hsl. rewrite He by done. intros Ha. destruct (Hst s Hsl Ha). split; [done|]. split; lia.
  - intros s s' Hsl Hsl' Hne. rewrite !He by done. intros Ha Ha'.
    apply (ri_apart _ _ HI); try done; [destruct (Hst s Hsl Ha)|destruct (Hst s' Hsl' Ha')]; rewrite data_offset_val in *; lia.
  - unfold region_matches. rewrite (rg_header _ _ _ _ _ Hs), (ri_header _ _ HI). simpl. by rewrite !Z.eqb_refl.
Qed.

(** C27. With sizes below 2^62 and arenas larger than the 320 bytes of their header ([configured]), a registration either leaves
    the region as it was and reports why, or takes a free slot, leaves every other endpoint's entry and storage alone, and
    returns a handle that every importer's check accepts, with a new generation, 64 empty queues, and an arena in which
    nothing is allocated. *)
Theorem registration_is_complete m pid port rpc_id :
  configured -> region_reached m -> in_u32 pid -> 0 <= port < 65536 -> 0 <= rpc_id ->
  match register_endpoint o pid port rpc_id m with
  | (inl e, m') => registered m rpc_id e m'
  | (inr err, m') => m' = m /\ err ∈ [RPC_ID_RANGE; RPC_ID_TAKEN; REGISTRY_FULL; NO_SPACE]
  end.
Proof.
  intros Hcf Hr Hp Hpo Hrpc. pose proof (wp_register m pid port rpc_id Hcf (reached_ok m Hcf Hr) Hp Hpo Hrpc) as Hw. unfold wp in Hw.
  destruct (register_endpoint o pid port rpc_id m) as [[e|err] m']; [done|]. by destruct Hw.
Qed.




End registry.

(** ** A region of 8 MiB with arenas of 1 MiB *)

Definition demo_owner : region_owner := mk_region_owner kMulti 8388608 1 0 1048576.
Definition demo_region : mem := (initialize_region demo_owner (fun _ => 0)).2.
Definition demo_handle : UBEndpointHandle := mk_handle 0 3 1 4194304 4464640 1048576.

Lemma demo_configured : configured demo_owner.
Proof. by split. Qed.
Lemma demo_initialized : region_reached demo_owner demo_region.
Proof. exists (fun _ => 0), demo_region. split; [done|]. split; [reflexivity|constructor]. Qed.
Lemma result_of {S A} (f : MS S A) s r : (f s).1 = r -> exists s', f s = (r, s').
Proof. intros <-. exists (f s).2. by destruct (f s). Qed.

(** An endpoint is registered, unregistered, and its slot registered again. *)
Lemma demo_run : exists m m1 m2,
  register_endpoint demo_owner 7 31850 3 demo_region = (inl demo_handle, m) /\
  unregister_endpoint demo_handle 7 m = (inl true, m1) /\
  register_endpoint demo_owner 8 31851 5 m1 = (inl (mk_handle 0 5 2 4194304 4464640 1048576), m2).
Proof.
  assert (H : match register_endpoint demo_owner 7 31850 3 demo_region with
    | (inl e, m) => e = demo_handle /\ match unregister_endpoint demo_handle 7 m with
      | (inl true, m1) => (register_endpoint demo_owner 8 31851 5 m1).1 = inl (mk_handle 0 5 2 4194304 4464640 1048576)
      | _ => False end
    | _ => False end) by (vm_compute; done).
  destruct (register_endpoint demo_owner 7 31850 3 demo_region) as [[e|] m]; [|done]. destruct H as [-> H]. exists m.
  destruct (unregister_endpoint demo_handle 7 m) as [[[]|] m1]; try done. exists m1.
  destruct (result_of _ _ _ H) as [m2 Hm2]. by exists m2.
Qed.
Lemma demo_reached m : register_endpoint demo_owner 7 31850 3 demo_region = (inl demo_handle, m) -> region_reached demo_owner m.
Proof.
  intros Hm. destruct demo_initialized as (m0&m1&Hb&Hi&Hr). exists m0, m1. split; [exact Hb|]. split; [exact Hi|].
  eapply rtc_r; [exact Hr|]. exact (region_register demo_owner demo_region m 7 31850 3 demo_handle ltac:(clear; done) ltac:(clear; done) ltac:(clear; done) Hm).
Qed.

Lemma registry_is_safe_witness : exists m, region_reached demo_owner m /\ region_safe demo_owner m.
Proof.
  destruct demo_run as (m&_&_&Hm&_). exists m. pose proof (demo_reached m Hm) as Hr. split; [exact Hr|].
  exact (registry_is_safe demo_owner m demo_configured Hr).
Defined.

Lemma registration_is_complete_witness : exists m, registered demo_owner demo_region 3 demo_handle m.
Proof.
  destruct demo_run as (m&_&_&Hm&_). exists m.
  generalize (registration_is_complete demo_owner demo_region 7 31850 3 demo_configured demo_initialized ltac:(clear; done) ltac:(clear; done) ltac:(clear; done)).
  rewrite Hm. exact (fun H => H).
Defined.


(** ** Sizes outside [configured] *)

(** The source adds the sizes without a check: an arena of 2^64 - 2^20 bytes, which ERPC_UB_ARENA_MB can ask for, passes the
    owner's minimum-size check and the check for space, in a region of 256 MiB. *)
Definition huge_arena (name : string) : option string :=
  if String.eqb name "ERPC_UB_ARENA_MB" then Some "17592186044415"%string else None.
Definition huge_owner : region_owner := mk_region_owner kMulti (machine_region_bytes huge_arena) 1 0 (endpoint_arena_bytes huge_arena).
Lemma storage_outside_the_region_is_assigned :
  ro_region_bytes huge_owner = 2 ^ 28 /\
  (ro_region_bytes huge_owner <? u64 (kUBMachineDataOffset + sizeof_inbox + ro_arena_bytes huge_owner)) = false /\
  (assign_storage huge_owner 0 (initialize_region huge_owner (fun _ => 0)).2).1 = inl (4194304, 4464640, 2 ^ 64 - 2 ^ 20).
Proof. by vm_compute. Qed.

(** With ERPC_UB_ARENA_MB=0 a registration throws, but only after it has taken the space of an inbox and stored the empty
    arena in the entry; every later registration in the slot throws in the same way. *)
Definition no_arena (name : string) : option string := if String.eqb name "ERPC_UB_ARENA_MB" then Some "0"%string else None.
Definition no_arena_owner : region_owner := mk_region_owner kMulti (machine_region_bytes no_arena) 1 0 (endpoint_arena_bytes no_arena).
Definition no_arena_region : mem := (initialize_region no_arena_owner (fun _ => 0)).2.
Lemma empty_arena_is_refused_late :
  let '(r, m) := register_endpoint no_arena_owner 7 31850 3 no_arena_region in
  r = inr INVALID_ARENA /\ mh_next_free_offset (ld_struct UBMachineRegionHeader no_arena_region 0) = 4194304 /\
  mh_next_free_offset (ld_struct UBMachineRegionHeader m 0) = 4464640 /\ e_inbox_offset (entry_of m 0) = 4194304 /\
  (register_endpoint no_arena_owner 7 31850 3 m).1 = inr INVALID_ARENA.
Proof. by vm_compute. Qed.
