(* ===== verification/Context.v ===== *)
(** * A process's view of the machine regions: UBMachineContext and UBMachineRegionOwner in ub_machine.cc

    The process maps its own machine's region and the regions of the machines it
    talks to, shares each remote mapping among its users with a reference count, and
    registers endpoints with the region's owner: itself in a single process, the
    manager otherwise.  The UBSM library is outside the repository: [sdk] holds what
    its functions return, by the number of the call.  A mapping is named by the call
    that made it, and an access through a name that is not mapped is [SEGV]. *)

From stdpp Require Import gmap strings.
From S2P Require Import Prelude Monad CMem ErpcUb ErpcConfig Spsc Arena Machine.

Definition SEGV := 20.
Definition SDK_FAILED := 21.
Definition REGION_TOO_SMALL := 22.
Definition BAD_PROVIDER := 23.
Definition NAME_TOO_LONG := 24.
Definition MANAGER_UNREACHABLE := 25.
Definition MANAGER_REJECTED := 26.
Definition MANAGER_MISMATCH := 27.
Definition NOT_MANAGER_REGION := 28.
Definition OUT_OF_TIME := 29.
Definition OUT_OF_BOUNDS := 30.

(** What happens to a request to the manager: it is not sent, it is served and the answer
    lost, or the answer arrives. *)
Inductive manager_outcome := NotSent | AnswerLost | Answered.
#[export] Instance manager_outcome_eq_dec : EqDecision manager_outcome.
Proof. solve_decision. Defined.

(** [s_ok] and [s_in_using] are UBSM_OK and UBSM_ERR_IN_USING. *)
Record sdk := mk_sdk {
  s_ok : Z; s_in_using : Z;
  s_initialize : Z -> Z; s_allocate : Z -> Z; s_unmap : Z -> Z; s_deallocate : Z -> Z;
  s_map : Z -> bool;                  (* success and a valid address *)
  s_expired : Z -> bool;              (* the clock has reached the deadline *)
  s_manager : Z -> manager_outcome }.

(** The configuration the constructors read, the process and the manager's region owner. *)
Record context_config := mk_context_config {
  cc_mode : ProcessMode; cc_region_bytes : Z; cc_machine_id : Z; cc_flags : Z; cc_arena_bytes : Z;
  cc_env : string -> option string; cc_name_max : Z; cc_host : option string; cc_host_max : Z;
  cc_pid : Z; cc_manager : region_owner }.

Record RemoteMapping := mk_mapping { rm_machine_id : Z; rm_base : Z; rm_references : Z }.
#[export] Instance eta_mapping : Eta RemoteMapping := fun r => mk_mapping (rm_machine_id r) (rm_base r) (rm_references r).
#[export] Instance RemoteMapping_eq_dec : EqDecision RemoteMapping.
Proof. solve_decision. Defined.

(** UBMachineRegionOwner: [mapping_] and [allocated_]. *)
Record owner_object := mk_owner_object { ow_mapping : option Z; ow_allocated : bool }.
#[export] Instance eta_owner_object : Eta owner_object := fun w => mk_owner_object (ow_mapping w) (ow_allocated w).

(** Bytes behind a mapping that an operation accesses. *)
Record span := mk_span { sp_base : Z; sp_offset : Z; sp_bytes : Z }.

(** The regions by machine, the mappings of the process and their machines, the calls made,
    whether the library is initialized; then [g_context], [g_context_references] and the
    context's [single_owner_], [local_base_] and [remote_mappings_].  [c_touched] records the
    spans accessed; the code does not read it. *)
Record cstate := mk_cstate {
  c_regions : Z -> mem; c_live : gmap Z Z; c_calls : Z; c_sdk : bool;
  c_context : bool; c_references : Z;
  c_owner : option owner_object; c_local : option Z; c_mappings : list RemoteMapping; c_touched : list span }.
#[export] Instance eta_cstate : Eta cstate := fun k =>
  mk_cstate (c_regions k) (c_live k) (c_calls k) (c_sdk k) (c_context k) (c_references k) (c_owner k) (c_local k) (c_mappings k)
    (c_touched k).

Definition C : Type -> Type := MS cstate.

Definition SIZE_MAX := 2 ^ 64 - 1.

(** [in_region] runs an operation on the region behind a mapping.  The contents of a region
    are defined at every offset: that an offset is inside the region is not tested here but
    recorded, by [at_span], for the accesses whose place this process computes. *)
Definition region_of (base : Z) : C Z :=
  k <- get ;; match c_live k !! base with None => raise SEGV | Some machine => ret machine end.
Definition in_region {X} (base : Z) (op : A X) : C X :=
  machine <- region_of base ;;
  k <- get ;;
  let '(r, m) := op (c_regions k machine) in
  put k.{ c_regions := fn_set (c_regions k) machine m } ;;
  match r with inl x => ret x | inr e => raise e end.
Definition read_region {X} (base : Z) (f : mem -> X) : C X := machine <- region_of base ;; k <- get ;; ret (f (c_regions k machine)).
Definition touch (base offset bytes : Z) : C unit := k <- get ;; put k.{ c_touched := c_touched k ++ [mk_span base offset bytes] }.
Definition at_span {X} (base offset bytes : Z) (op : A X) : C X := touch base offset bytes ;; in_region base op.
Definition read_span {X} (base offset bytes : Z) (f : mem -> X) : C X := touch base offset bytes ;; read_region base f.

(** An access through a name that is not mapped or outside an array and a loop that does not
    end are faults and not exceptions.  Waiting for a lock is not a fault, and no handler
    catches it either. *)
Definition fault (e : Z) : bool := (e =? SEGV) || (e =? OUT_OF_BOUNDS) || (e =? OUT_OF_TIME).
Definition caught (e : Z) : bool := negb (fault e || (e =? SPINS)).
(** [try { m } catch (...) { }] *)
Definition try_catch {S A} (m : MS S A) : MS S (option A) := fun k =>
  match m k with
  | (inl a, k') => (inl (Some a), k')
  | (inr e, k') => if caught e then (inl None, k') else (inr e, k')
  end.

Section context.
Context (V : sdk) (cfg : context_config).

Definition sdk_call : C Z := k <- get ;; put k.{ c_calls := c_calls k + 1 } ;; ret (c_calls k).
Definition check_ub (answer : Z -> Z) : C unit := n <- sdk_call ;; fail_if (answer n !=? s_ok V) SDK_FAILED.

Definition ub_sdk_initialize : C unit :=
  check_ub (s_initialize V) ;; check_ub (s_initialize V) ;; check_ub (s_initialize V) ;;
  k <- get ;; put k.{ c_sdk := true }.
Definition ub_sdk_finalize_noexcept : C unit := _ <- sdk_call ;; k <- get ;; put k.{ c_sdk := false }.

(** The mapping of a machine's region, [None] on failure. *)
Definition ubsmem_shmem_map (machine : Z) : C (option Z) :=
  n <- sdk_call ;;
  if s_map V n then k <- get ;; put k.{ c_live := <[n := machine]> (c_live k) } ;; ret (Some n) else ret None.
Definition ubsmem_shmem_unmap (base : Z) : C Z :=
  n <- sdk_call ;;
  (if s_unmap V n =? s_ok V then k <- get ;; put k.{ c_live := delete base (c_live k) } else ret tt) ;;
  ret (s_unmap V n).

Definition region_name (machine : Z) : C unit :=
  match ub_machine_region_name (cc_env cfg) (cc_name_max cfg) machine with None => raise NAME_TOO_LONG | Some _ => ret tt end.

(** ** UBMachineRegionOwner *)

Definition owner_config : region_owner :=
  mk_region_owner (cc_mode cfg) (cc_region_bytes cfg) (cc_machine_id cfg) (cc_flags cfg) (cc_arena_bytes cfg).
Definition provider_ok : bool :=
  match cc_host cfg with None => false | Some host => Z.of_nat (String.length host) <? cc_host_max cfg end.

Definition UBMachineRegionOwner : C Z :=
  region_name (cc_machine_id cfg) ;;
  fail_if (cc_region_bytes cfg <? u64 (kUBMachineDataOffset + sizeof_inbox + cc_arena_bytes cfg)) REGION_TOO_SMALL ;;
  fail_if (negb provider_ok) BAD_PROVIDER ;;
  check_ub (s_allocate V) ;;
  mapping <- ubsmem_shmem_map (cc_machine_id cfg) ;;
  match mapping with
  | None => _ <- sdk_call ;; raise SDK_FAILED
  | Some base =>
      in_region base (initialize_region owner_config) ;;
      k <- get ;; put k.{ c_owner := Some (mk_owner_object (Some base) true) } ;;
      ret base
  end.

(** The retries of the deallocation while the region is in use. *)
Fixpoint deallocate_loop (fuel : nat) (timeout_ms : Z) (w : owner_object) : C bool :=
  match fuel with
  | O => raise OUT_OF_TIME
  | S fuel =>
      n <- sdk_call ;;
      let result := s_deallocate V n in
      if result =? s_ok V then k <- get ;; put k.{ c_owner := Some w.{ ow_allocated := false } } ;; ret true
      else if result !=? s_in_using V then ret false
      else if (timeout_ms =? 0) || s_expired V n then ret false
      else deallocate_loop fuel timeout_ms w
  end.
Definition shutdown (fuel : nat) (timeout_ms : Z) (w : owner_object) : C bool :=
  unmapped <- match ow_mapping w with
    | None => ret true
    | Some base =>
        result <- ubsmem_shmem_unmap base ;;
        if result !=? s_ok V then ret false
        else k <- get ;; put k.{ c_owner := Some w.{ ow_mapping := None } } ;; ret true
    end ;;
  if negb unmapped then ret false else
  if negb (ow_allocated w) then ret true else
  deallocate_loop fuel timeout_ms w.{ ow_mapping := None }.

(** ** UBMachineContext *)

Definition validate_mapping (base expected_machine_id : Z) : C unit :=
  at_span base 0 (sizeof UBMachineRegionHeader) (validate_region (cc_region_bytes cfg) (cc_flags cfg) true expected_machine_id).

Definition map_local_manager_region : C unit :=
  region_name (cc_machine_id cfg) ;;
  mapping <- ubsmem_shmem_map (cc_machine_id cfg) ;;
  match mapping with
  | None => raise SDK_FAILED
  | Some base =>
      on_fail
        (validate_mapping base (cc_machine_id cfg) ;;
         h <- read_span base 0 (sizeof UBMachineRegionHeader) (fun m => ld_struct UBMachineRegionHeader m 0) ;;
         fail_if (mh_process_mode h !=? process_mode_value kMulti) NOT_MANAGER_REGION)
        (_ <- ubsmem_shmem_unmap base ;; ret tt) ;;
      k <- get ;; put k.{ c_local := Some base }
  end.

Definition UBMachineContext : C unit :=
  ub_sdk_initialize ;;
  on_fail
    (match cc_mode cfg with
     | kSingle => base <- UBMachineRegionOwner ;; k <- get ;; put k.{ c_local := Some base }
     | kMulti => map_local_manager_region
     end)
    ub_sdk_finalize_noexcept.

Definition unmap_remote (local : option Z) (r : RemoteMapping) : C unit :=
  if decide (Some (rm_base r) = local) then ret tt else _ <- ubsmem_shmem_unmap (rm_base r) ;; ret tt.
Definition destroy_context : C unit :=
  k <- get ;;
  each (c_mappings k) (unmap_remote (c_local k)) ;;
  k <- get ;; put k.{ c_mappings := [] } ;;
  (match cc_mode cfg, c_local k with
   | kMulti, Some base => _ <- ubsmem_shmem_unmap base ;; ret tt
   | _, _ => ret tt
   end) ;;
  k <- get ;; put k.{ c_local := None } ;;
  (match c_owner k with
   | None => ret tt
   | Some w => _ <- shutdown 1 0 w ;; k <- get ;; put k.{ c_owner := None }
   end) ;;
  ub_sdk_finalize_noexcept.

Definition context_acquire : C unit :=
  k <- get ;;
  (if c_context k then ret tt else UBMachineContext ;; k <- get ;; put k.{ c_context := true }) ;;
  k <- get ;; put k.{ c_references := c_references k + 1 }.
(** [held]: the pointer passed is [g_context]. *)
Definition context_release (held : bool) : C unit :=
  k <- get ;;
  if negb (held && c_context k) || (c_references k =? 0) then ret tt else
  put k.{ c_references := c_references k - 1 } ;;
  if c_references k - 1 =? 0 then destroy_context ;; k <- get ;; put k.{ c_context := false } else ret tt.

(** *** Endpoints *)

Definition local_base : C Z := k <- get ;; match c_local k with None => raise SEGV | Some base => ret base end.

(** [manager_request]: the manager's process serves the request in the region it owns. *)
Definition manager_request (r : UBManagerRequest) : C UBManagerResponse :=
  n <- sdk_call ;;
  let outcome := s_manager V n in
  fail_if (bool_decide (outcome = NotSent)) MANAGER_UNREACHABLE ;;
  base <- local_base ;;
  a <- in_region base (handle_request (cc_manager cfg) r) ;;
  fail_if (bool_decide (outcome = AnswerLost) || (rs_magic a !=? kUBManagerProtocolMagic) ||
           (rs_version a !=? kUBManagerProtocolVersion)) MANAGER_UNREACHABLE ;;
  ret a.

Definition worker_request (operation sm_udp_port : Z) (h : UBEndpointHandle) : UBManagerRequest :=
  mk_request kUBManagerProtocolMagic kUBManagerProtocolVersion operation (cc_pid cfg) sm_udp_port (eh_rpc_id h) (eh_slot h)
    (eh_generation h) (eh_inbox_offset h) (eh_arena_offset h) (eh_arena_size h).
Definition manager_unregister (h : UBEndpointHandle) : C unit :=
  _ <- try_catch (manager_request (worker_request kUnregisterEndpoint 0 h)) ;; ret tt.
Definition manager_register (sm_udp_port rpc_id : Z) : C UBEndpointHandle :=
  a <- manager_request (worker_request kRegisterEndpoint sm_udp_port (mk_handle 0 rpc_id 0 0 0 0)) ;;
  fail_if ((rs_status a !=? 0) || negb (handle_valid (rs_endpoint a))) MANAGER_REJECTED ;;
  (if (rs_machine_id a !=? cc_machine_id cfg) || (rs_region_bytes a !=? cc_region_bytes cfg) ||
      (rs_allocation_flags a !=? cc_flags cfg)
   then manager_unregister (rs_endpoint a) ;; raise MANAGER_MISMATCH
   else ret tt) ;;
  ret (rs_endpoint a).

Definition context_register_endpoint (sm_udp_port rpc_id : Z) : C UBEndpointHandle :=
  match cc_mode cfg with
  | kSingle => base <- local_base ;; in_region base (register_endpoint owner_config (cc_pid cfg) sm_udp_port rpc_id)
  | kMulti => manager_register sm_udp_port rpc_id
  end.
Definition context_unregister_endpoint (h : UBEndpointHandle) : C unit :=
  if negb (handle_valid h) then ret tt else
  match cc_mode cfg with
  | kSingle => base <- local_base ;; _ <- in_region base (unregister_endpoint h (cc_pid cfg)) ;; ret tt
  | kMulti => manager_unregister h
  end.

(** *** The regions of other machines *)

Fixpoint find_mapping (machine : Z) (l : list RemoteMapping) : option RemoteMapping :=
  match l with
  | [] => None
  | r :: l => if rm_machine_id r =? machine then Some r else find_mapping machine l
  end.
(** The first entry of the machine, replaced or erased. *)
Fixpoint alter_mapping (machine : Z) (f : RemoteMapping -> option RemoteMapping) (l : list RemoteMapping) : list RemoteMapping :=
  match l with
  | [] => []
  | r :: l => if rm_machine_id r =? machine then match f r with Some r => r :: l | None => l end else r :: alter_mapping machine f l
  end.
Definition set_mapping (machine : Z) (f : RemoteMapping -> option RemoteMapping) : C unit :=
  k <- get ;; put k.{ c_mappings := alter_mapping machine f (c_mappings k) }.

Definition acquire_remote_machine (machine : Z) : C (option Z) :=
  k <- get ;;
  if machine =? cc_machine_id cfg then ret (c_local k) else
  match find_mapping machine (c_mappings k) with
  | Some r =>
      if rm_references r =? SIZE_MAX then ret None else
      set_mapping machine (fun r => Some r.{ rm_references := rm_references r + 1 }) ;;
      ret (Some (rm_base r))
  | None =>
      region_name machine ;;
      mapping <- ubsmem_shmem_map machine ;;
      match mapping with
      | None => ret None
      | Some base =>
          valid <- try_catch (validate_mapping base machine) ;;
          match valid with
          | None => _ <- ubsmem_shmem_unmap base ;; ret None
          | Some _ =>
              k <- get ;; put k.{ c_mappings := c_mappings k ++ [mk_mapping machine base 1] } ;;
              ret (Some base)
          end
      end
  end.

Definition release_remote_machine (machine : Z) : C unit :=
  k <- get ;;
  if machine =? cc_machine_id cfg then ret tt else
  match find_mapping machine (c_mappings k) with
  | None => ret tt
  | Some r =>
      if rm_references r =? 0 then ret tt else
      set_mapping machine (fun r => Some r.{ rm_references := rm_references r - 1 }) ;;
      if rm_references r - 1 !=? 0 then ret tt else
      result <- (if decide (Some (rm_base r) = c_local k) then ret (s_ok V) else ubsmem_shmem_unmap (rm_base r)) ;;
      if result !=? s_ok V then ret tt else set_mapping machine (fun _ => None)
  end.

(** The registry entry is recorded as accessed also when the tests before it refuse. *)
Definition context_validate_endpoint (base : option Z) (machine : Z) (h : UBEndpointHandle) : C bool :=
  match base with
  | None => ret false
  | Some base =>
      if negb (handle_valid h) then ret false else
      touch base (registry_entry (eh_slot h)) (sizeof UBEndpointRegistryEntry) ;;
      read_span base 0 (sizeof UBMachineRegionHeader) (validate_endpoint (cc_region_bytes cfg) true machine h)
  end.
End context.
