(* ===== verification/ContextSound.v ===== *)
(** * The mappings of a process are shared and returned correctly

    [ctx_ok hs k]: [hs] are the machines of the references that users of the context
    hold.  Every remote mapping is counted, live and unique; acquiring a machine gives
    a live mapping of its region, and releasing keeps the mappings that others hold. *)

From stdpp Require Import gmap.
From S2P Require Import Prelude Monad CMem ErpcUb ErpcConfig Spsc Arena Machine Context.

(** Operations on a region fail only with the exceptions of its own code. *)
Definition plain_error (e : Z) : Prop := 1 <= e < 20.
Definition plain {X} (op : A X) : Prop := forall m, wp op (fun _ _ => True) (fun e _ => plain_error e) m.
Lemma plain_bind {X Y} (op : A X) (f : X -> A Y) : plain op -> (forall x, plain (f x)) -> plain (bind op f).
Proof. intros H Hf m. wp_step. eapply wp_mono; [apply H| |done]. intros x m' _. apply Hf. Qed.
Lemma plain_ret {X} (x : X) : plain (ret x).
Proof. intros m. by wp_step. Qed.
Lemma plain_raise {X} e : plain_error e -> plain (raise (A := X) e).
Proof. intros He m. by wp_step. Qed.
Lemma plain_get : plain get.
Proof. intros m. by wp_step. Qed.
Lemma plain_put m : plain (put m).
Proof. intros m'. by wp_step. Qed.
Lemma plain_fail_if b e : plain_error e -> plain (fail_if b e).
Proof. intros He m. by wp_step. Qed.
#[export] Hint Extern 1 (plain_error _) => unfold plain_error; vm_compute; split; congruence : plain.
Ltac plain := repeat (intros; first [apply plain_bind | apply plain_ret | apply plain_get | apply plain_put |
  apply plain_raise; by auto with plain | apply plain_fail_if; by auto with plain | case_match]).

Lemma plain_add_ref b : plain (add_ref b).
Proof. unfold add_ref, block_at, set_block. plain. Qed.
Lemma plain_release_metadata p : plain (release_metadata p).
Proof. unfold release_metadata, block_at, set_block, arena_at, set_arena, lock_class, unlock_class, arena_at, set_arena. plain. Qed.
Lemma plain_free b : plain (free b).
Proof. unfold free, block_at. repeat (plain; try apply plain_release_metadata). Qed.
Lemma plain_release_remote_ref b : plain (release_remote_ref b).
Proof. unfold release_remote_ref. plain; apply plain_release_metadata. Qed.
Lemma plain_generation_of al l p : plain (generation_of al l p).
Proof. unfold generation_of, block_at. plain. Qed.
Lemma plain_alloc al n : plain (alloc al n).
Proof.
  unfold alloc, pop_free, bump, init_block, lock_class, unlock_class, block_at, set_block, arena_at, set_arena. plain.
Qed.
Lemma plain_allocator i e : plain (UBSharedAllocator i e).
Proof. unfold UBSharedAllocator, arena_at. plain. Qed.
Lemma plain_register o pid port r : plain (register_endpoint o pid port r).
Proof.
  unfold register_endpoint, find_free_slot, assign_storage, initialize_storage, ub_initialize_arena, set_arena, entry_at, set_entry, header_at, set_header. plain.
Qed.
Lemma plain_handle_request o r : plain (handle_request o r).
Proof.
  intros m. unfold wp, handle_request. repeat case_if; try done.
  - by destruct (register_endpoint _ _ _ _ _) as [[]].
  - by destruct (unregister_endpoint _ _ _) as [[]].
Qed.
Lemma plain_initialize_region o : plain (initialize_region o).
Proof. unfold initialize_region, set_header. plain. Qed.

Lemma plain_not_fault e : plain_error e -> fault e = false.
Proof. unfold plain_error, fault, SEGV, OUT_OF_BOUNDS, OUT_OF_TIME. intros He. repeat (destruct (_ =? _) eqn:?; bprop; [lia|]). done. Qed.

Section context_sound.
Context (V : sdk) (cfg : context_config).
Local Notation own := (cc_machine_id cfg).

Record ctx_ok (hs : list Z) (k : cstate) : Prop := {
  co_local : exists b, c_local k = Some b /\ c_live k !! b = Some own;
  co_map : forall r, r ∈ c_mappings k -> c_live k !! rm_base r = Some (rm_machine_id r) /\ rm_machine_id r <> own /\
             rm_references r = count (rm_machine_id r) hs;
  co_once : NoDup (rm_machine_id <$> c_mappings k);
  co_held : forall m, m ∈ hs -> m <> own -> exists r, r ∈ c_mappings k /\ rm_machine_id r = m;
  co_fresh : forall b m, c_live k !! b = Some m -> b < c_calls k }.

(** The mapping [b] is the one the context has of a machine. *)
Definition maps (k : cstate) (m b : Z) : Prop :=
  c_live k !! b = Some m /\ ((m = own /\ c_local k = Some b) \/ exists r, r ∈ c_mappings k /\ rm_machine_id r = m /\ rm_base r = b).
(** All mappings of [k] are mappings of [k'], for the machines in [P]. *)
Definition keeps (P : Z -> Prop) (k k' : cstate) : Prop :=
  c_local k' = c_local k /\ c_regions k' = c_regions k /\ forall m b, P m -> maps k m b -> maps k' m b.

Lemma ctx_ok_perm hs hs' k : hs ≡ₚ hs' -> ctx_ok hs k -> ctx_ok hs' k.
Proof.
  intros Hp [Hl Hm Ho Hh Hf]. split; try done.
  - intros r Hr. by rewrite <- (count_perm _ _ _ Hp); apply Hm.
  - intros m Hin. apply Hh. by rewrite Hp.
Qed.
(** Nothing but the contents of the regions and the number of calls is different. *)
Definition rest_same (k k' : cstate) : Prop :=
  c_live k' = c_live k /\ c_local k' = c_local k /\ c_mappings k' = c_mappings k /\ c_context k' = c_context k /\
  c_references k' = c_references k /\ c_calls k <= c_calls k'.
Lemma rest_same_refl k : rest_same k k.
Proof. by repeat split. Qed.
Lemma rest_same_trans k k1 k2 : rest_same k k1 -> rest_same k1 k2 -> rest_same k k2.
Proof. unfold rest_same. intuition (congruence || lia). Qed.
Lemma ctx_ok_same hs k k' : rest_same k k' -> ctx_ok hs k -> ctx_ok hs k'.
Proof.
  intros (El&Eo&Em&_&_&Hc) [Hl Hm Hn Hh Hf]. split; rewrite ?El, ?Eo, ?Em; try done. intros b m Hb. specialize (Hf b m Hb). lia.
Qed.
Lemma maps_same k k' m b : rest_same k k' -> maps k m b -> maps k' m b.
Proof. intros (El&Eo&Em&_). unfold maps. by rewrite El, Eo, Em. Qed.
Lemma maps_live hs k m b : ctx_ok hs k -> maps k m b -> c_live k !! b = Some m.
Proof. by intros _ [? _]. Qed.

Lemma find_mapping_spec m l :
  match find_mapping m l with
  | Some r => r ∈ l /\ rm_machine_id r = m
  | None => forall r, r ∈ l -> rm_machine_id r <> m
  end.
Proof.
  induction l as [|r l IH]; simpl; [by intros ? ?%elem_of_nil|]. destruct (rm_machine_id r =? m) eqn:E; bprop.
  - split; [left|done].
  - destruct (find_mapping m l) as [r'|]; [destruct IH; split; [by right|done]|]. intros r' [->|?]%elem_of_cons; [done|by apply IH].
Qed.

(** With every machine listed once, altering touches exactly the machine's entry. *)
Lemma alter_mapping_spec m f l r :
  NoDup (rm_machine_id <$> l) ->
  r ∈ alter_mapping m f l <-> (r ∈ l /\ rm_machine_id r <> m) \/ (exists r0, r0 ∈ l /\ rm_machine_id r0 = m /\ f r0 = Some r).
Proof.
  induction l as [|x l IH]; simpl; [intros _; split; [by intros ?%elem_of_nil|intros [[?%elem_of_nil _]|(?&?%elem_of_nil&_)]; done]|].
  intros [Hx Hl]%NoDup_cons. destruct (rm_machine_id x =? m) eqn:E; bprop.
  - assert (Hc : r ∈ match f x with Some r => r :: l | None => l end <-> f x = Some r \/ r ∈ l).
    { destruct (f x) as [y|]; [rewrite elem_of_cons; naive_solver|naive_solver]. }
    rewrite Hc. split.
    + intros [Hf|Hr]; [right; exists x; split; [left|done]|]. left. split; [by right|]. intros <-. apply Hx. rewrite E. apply list_elem_of_fmap. by exists r.
    + intros [[[->|Hr]%elem_of_cons Hne]|(r0&[->|Hr]%elem_of_cons&Hm&Hf)]; [done|by right|by left|].
      destruct Hx. rewrite E, <- Hm. apply list_elem_of_fmap. by exists r0.
  - rewrite elem_of_cons, IH by done. split.
    + intros [->|[[? ?]|(r0&?&?&?)]]; [left; split; [left|done]|left; split; [by right|done]|right; exists r0; split; [by right|done]].
    + intros [[[->|Hr]%elem_of_cons Hne]|(r0&[->|Hr]%elem_of_cons&Hm&Hf)]; [by left|by right; left|done|right; right; by exists r0].
Qed.
Lemma alter_mapping_nodup m f l :
  (forall r r', f r = Some r' -> rm_machine_id r' = rm_machine_id r) ->
  NoDup (rm_machine_id <$> l) -> NoDup (rm_machine_id <$> alter_mapping m f l).
Proof.
  intros Hf. induction l as [|x l IH]; simpl; [done|]. intros [Hx Hl]%NoDup_cons. destruct (rm_machine_id x =? m) eqn:E.
  - destruct (f x) as [r'|] eqn:Ef; simpl; [|done]. rewrite (Hf _ _ Ef). by apply NoDup_cons.
  - simpl. apply NoDup_cons. split; [|by apply IH]. intros (r&Er&Hr)%list_elem_of_fmap. apply Hx, list_elem_of_fmap.
    apply alter_mapping_spec in Hr as [[Hr _]|(r0&Hr0&_&Hfr)]; [by exists r| |done]. exists r0. by rewrite <- (Hf _ _ Hfr).
Qed.

(** ** Steps *)

Lemma wp_in_region_with {X} (F : Z -> Prop) base machine (op : A X) (Q : X -> cstate -> Prop) E k :
  c_live k !! base = Some machine -> (forall m, wp op (fun _ _ => True) (fun e _ => F e) m) ->
  (forall x k', rest_same k k' -> c_owner k' = c_owner k -> c_sdk k' = c_sdk k -> Q x k') ->
  (forall e k', F e -> rest_same k k' -> c_owner k' = c_owner k -> c_sdk k' = c_sdk k -> E e k') -> wp (in_region base op) Q E k.
Proof.
  intros Hb Hop HQ HE. unfold in_region, region_of. do 3 wp_step. rewrite Hb. do 3 wp_step.
  specialize (Hop (c_regions k machine)). unfold wp in Hop. destruct (op (c_regions k machine)) as [r m']. do 2 wp_step.
  destruct r as [x|e]; wp_step; [apply HQ|apply HE]; done || by repeat split.
Qed.
Lemma wp_in_region {X} base machine (op : A X) (Q : X -> cstate -> Prop) E k :
  c_live k !! base = Some machine -> plain op ->
  (forall x k', rest_same k k' -> c_owner k' = c_owner k -> c_sdk k' = c_sdk k -> Q x k') ->
  (forall e k', plain_error e -> rest_same k k' -> c_owner k' = c_owner k -> c_sdk k' = c_sdk k -> E e k') -> wp (in_region base op) Q E k.
Proof. apply (wp_in_region_with plain_error). Qed.
Lemma touched_same k base o n : rest_same k k.{ c_touched := c_touched k ++ [mk_span base o n] }.
Proof. by repeat split. Qed.
Lemma wp_touch base o n (Q : unit -> cstate -> Prop) E k :
  (forall k', rest_same k k' -> c_owner k' = c_owner k -> c_sdk k' = c_sdk k -> c_regions k' = c_regions k -> Q tt k') -> wp (touch base o n) Q E k.
Proof. intros HQ. unfold touch. repeat wp_step. by apply HQ; [apply touched_same|..]. Qed.
Lemma wp_at_span_with {X} (F : Z -> Prop) base machine o n (op : A X) (Q : X -> cstate -> Prop) E k :
  c_live k !! base = Some machine -> (forall m, wp op (fun _ _ => True) (fun e _ => F e) m) ->
  (forall x k', rest_same k k' -> c_owner k' = c_owner k -> c_sdk k' = c_sdk k -> Q x k') ->
  (forall e k', F e -> rest_same k k' -> c_owner k' = c_owner k -> c_sdk k' = c_sdk k -> E e k') -> wp (at_span base o n op) Q E k.
Proof.
  intros Hb Hop HQ HE. unfold at_span. wp_step. apply wp_touch. intros k1 Hs Ho Hd _. eapply wp_in_region_with; [destruct Hs as (->&_); exact Hb|exact Hop|..].
  - intros x k2 Hs2 Ho2 Hd2. apply HQ; [by eapply rest_same_trans|congruence..].
  - intros e k2 He Hs2 Ho2 Hd2. apply HE; [done|by eapply rest_same_trans|congruence..].
Qed.
Lemma wp_at_span {X} base machine o n (op : A X) (Q : X -> cstate -> Prop) E k :
  c_live k !! base = Some machine -> plain op ->
  (forall x k', rest_same k k' -> c_owner k' = c_owner k -> c_sdk k' = c_sdk k -> Q x k') ->
  (forall e k', plain_error e -> rest_same k k' -> c_owner k' = c_owner k -> c_sdk k' = c_sdk k -> E e k') -> wp (at_span base o n op) Q E k.
Proof. apply (wp_at_span_with plain_error). Qed.
Lemma wp_touch_if {X} (b : bool) base machine o n (op : A X) (Q : X -> cstate -> Prop) E k :
  c_live k !! base = Some machine -> plain op ->
  (forall x k', rest_same k k' -> c_owner k' = c_owner k -> c_sdk k' = c_sdk k -> Q x k') ->
  (forall e k', plain_error e -> rest_same k k' -> c_owner k' = c_owner k -> c_sdk k' = c_sdk k -> E e k') ->
  wp ((if b then touch base o n else ret tt) ;; in_region base op) Q E k.
Proof. intros Hb Hop HQ HE. destruct b; [by apply (wp_at_span base machine)|]. do 2 wp_step. by apply (wp_in_region base machine). Qed.
Lemma wp_validate_mapping base machine i (Q : unit -> cstate -> Prop) E k :
  c_live k !! base = Some machine -> (forall k', rest_same k k' -> Q tt k') ->
  (forall e k', caught e = true -> rest_same k k' -> E e k') -> wp (validate_mapping cfg base i) Q E k.
Proof.
  intros Hb HQ HE. apply (wp_at_span_with (fun e => caught e = true) _ machine); [done| |by intros [] k' ? _ _; apply HQ|by intros; apply HE].
  intros m. unfold validate_region. by repeat wp_step.
Qed.
Lemma wp_read_region {X} base machine (f : mem -> X) (Q : X -> cstate -> Prop) E k :
  c_live k !! base = Some machine -> Q (f (c_regions k machine)) k -> wp (read_region base f) Q E k.
Proof. intros Hb HQ. unfold read_region, region_of. do 3 wp_step. rewrite Hb. by repeat wp_step. Qed.
Lemma wp_read_span {X} base machine o n (f : mem -> X) (Q : X -> cstate -> Prop) E k :
  c_live k !! base = Some machine ->
  (forall k', rest_same k k' -> c_owner k' = c_owner k -> Q (f (c_regions k machine)) k') -> wp (read_span base o n f) Q E k.
Proof.
  intros Hb HQ. unfold read_span. wp_step. apply wp_touch. intros k1 Hs Ho _ Hr. eapply wp_read_region; [destruct Hs as (->&_); exact Hb|].
  rewrite Hr. by apply HQ.
Qed.

Definition called (k : cstate) : cstate := k.{ c_calls := c_calls k + 1 }.
Lemma called_same k : rest_same k (called k).
Proof. repeat split. simpl. lia. Qed.
Lemma wp_sdk_call Q E k : Q (c_calls k) (called k) -> wp sdk_call Q E k.
Proof. intros HQ. unfold sdk_call. by repeat wp_step. Qed.

(** A mapping gets a name of its own. *)
Lemma wp_map machine (Q : option Z -> cstate -> Prop) E k :
  Q None (called k) -> Q (Some (c_calls k)) (called k).{ c_live := <[c_calls k := machine]> (c_live k) } ->
  wp (ubsmem_shmem_map V machine) Q E k.
Proof. intros H0 H1. unfold ubsmem_shmem_map. wp_step. apply wp_sdk_call. wp_step; by repeat wp_step. Qed.
Lemma wp_unmap base (Q : Z -> cstate -> Prop) E k :
  (forall r, r <> s_ok V -> Q r (called k)) -> Q (s_ok V) (called k).{ c_live := delete base (c_live k) } ->
  wp (ubsmem_shmem_unmap V base) Q E k.
Proof.
  intros H0 H1. unfold ubsmem_shmem_unmap. wp_step. apply wp_sdk_call. do 2 wp_step; repeat wp_step; bprop; [|by apply H0].
  match goal with H : _ = s_ok V |- _ => rewrite H end. done.
Qed.

Lemma with_new_mapping hs k machine :
  ctx_ok hs k -> machine <> own -> find_mapping machine (c_mappings k) = None ->
  let k1 := (called k).{ c_live := <[c_calls k := machine]> (c_live k) } in
  let k2 := k1.{ c_mappings := c_mappings k ++ [mk_mapping machine (c_calls k) 1] } in
  (forall k', rest_same k1 k' -> ctx_ok hs k' /\ forall m b, maps k m b -> maps k' m b) /\
  (forall k', rest_same k2 k' -> ctx_ok (machine :: hs) k' /\ maps k' machine (c_calls k) /\ forall m b, maps k m b -> maps k' m b).
Proof.
  intros Hok Hne Hfind k1 k2. pose proof (find_mapping_spec machine (c_mappings k)) as Hnone. rewrite Hfind in Hnone.
  destruct Hok as [(b0&Hl&Hlv) Hm Hn Hh Hf].
  assert (Hin : forall b m, c_live k !! b = Some m -> <[c_calls k := machine]> (c_live k) !! b = Some m).
  { intros b m Hb. rewrite lookup_insert_ne; [done|]. intros <-. specialize (Hf _ _ Hb). lia. }
  assert (Hfresh : forall b m, <[c_calls k := machine]> (c_live k) !! b = Some m -> b < c_calls k + 1).
  { intros b m [[<- _]|[_ Hb]]%lookup_insert_Some; [lia|]. specialize (Hf _ _ Hb). lia. }
  split; intros k' Hs.
  - split; [apply (ctx_ok_same _ k1 _ Hs)|intros m b Hmb; apply (maps_same k1 _ _ _ Hs)].
    + split; simpl; [exists b0; auto|intros r Hr; destruct (Hm r Hr) as (?&?&?); auto|done|done|done].
    + destruct Hmb as [Hb Hor]. split; [by apply Hin|exact Hor].
  - assert (Hc : count machine hs = 0).
    { pose proof (count_nonneg machine hs). destruct (decide (0 < count machine hs)) as [Hp|]; [|lia].
      apply count_pos in Hp. destruct (Hh _ Hp Hne) as (r&Hr&Er). by destruct (Hnone r Hr). }
    split; [apply (ctx_ok_same _ k2 _ Hs)|split; [|intros m b Hmb]; apply (maps_same k2 _ _ _ Hs)].
    + split; simpl.
      * exists b0. auto.
      * intros r [Hr| ->%list_elem_of_singleton]%elem_of_app.
        -- destruct (Hm r Hr) as (?&?&Hc'). rewrite count_cons, decide_False; [auto|]. intros Heq. by destruct (Hnone r Hr).
        -- simpl. rewrite lookup_insert_eq, count_cons, decide_True, Hc by done. auto.
      * rewrite fmap_app. simpl. apply NoDup_app. split; [done|]. split; [|apply NoDup_singleton].
        intros x (r&->&Hr)%list_elem_of_fmap ?%list_elem_of_singleton. by destruct (Hnone r Hr).
      * intros m [->|Hi]%elem_of_cons Hmo.
        -- eexists. split; [apply elem_of_app; right; by left|done].
        -- destruct (Hh m Hi Hmo) as (r&?&?). exists r. split; [apply elem_of_app; by left|done].
      * done.
    + split; simpl; [by rewrite lookup_insert_eq|]. right. eexists. split; [apply elem_of_app; right; by left|done].
    + destruct Hmb as [Hb [?|(r&?&?&?)]]; (split; [by apply Hin|]); [by left|right; exists r; split; [apply elem_of_app; by left|done]].
Qed.

Lemma wp_try {S X} (m : MS S X) (Q : option X -> S -> Prop) E k :
  wp m (fun x => Q (Some x)) (fun e k' => if caught e then Q None k' else E e k') k -> wp (try_catch m) Q E k.
Proof. unfold wp, try_catch. destruct (m k) as [[x|e] k']; [done|]. by destruct (caught e). Qed.

(** What stays the same in the context around an operation on its mappings. *)
Definition frame (k k' : cstate) : Prop :=
  c_local k' = c_local k /\ c_context k' = c_context k /\ c_references k' = c_references k.
Lemma frame_refl k : frame k k.
Proof. done. Qed.
Lemma frame_trans k k1 k2 : frame k k1 -> frame k1 k2 -> frame k k2.
Proof. unfold frame. intuition congruence. Qed.
Lemma rest_same_frame k k' : rest_same k k' -> frame k k'.
Proof. unfold rest_same, frame. tauto. Qed.

(** Dropping a mapping that nobody has listed. *)
Lemma ctx_ok_drop hs k b m :
  ctx_ok hs k -> c_live k !! b = Some m -> c_local k <> Some b -> (forall r, r ∈ c_mappings k -> rm_base r <> b) ->
  ctx_ok hs k.{ c_live := delete b (c_live k) } /\ forall m' b', maps k m' b' -> maps k.{ c_live := delete b (c_live k) } m' b'.
Proof.
  intros [(b0&Hl&Hlv) Hm Hn Hh Hf] Hb Hnl Hnm. split; [split; simpl|].
  - exists b0. split; [done|]. rewrite lookup_delete_ne; [done|]. congruence.
  - intros r Hr. rewrite lookup_delete_ne; [by apply Hm|]. intros Hb'. by apply (Hnm r Hr).
  - done.
  - done.
  - intros b' m' [_ Hb']%lookup_delete_Some. by apply (Hf b' m').
  - intros m' b' [Hb' Hor]. split; [|exact Hor]. simpl. rewrite lookup_delete_ne; [done|]. intros <-.
    destruct Hor as [[_ ?]|(r&Hr&_&Er)]; [done|by apply (Hnm r Hr)].
Qed.

Definition mapped_more (hs : list Z) (k : cstate) (m : Z) (r : option Z) (k' : cstate) : Prop :=
  frame k k' /\ (forall m' b, maps k m' b -> maps k' m' b) /\
  match r with
  | Some b => ctx_ok (m :: hs) k' /\ maps k' m b
  | None => ctx_ok hs k' /\ m <> own /\ find_mapping m (c_mappings k') = None
  end.

Lemma wp_acquire_known hs k m r (Q : option Z -> cstate -> Prop) E :
  ctx_ok hs k -> m <> own -> find_mapping m (c_mappings k) = Some r -> Z.of_nat (length hs) < SIZE_MAX ->
  (forall k', mapped_more hs k m (Some (rm_base r)) k' -> Q (Some (rm_base r)) k') ->
  wp (if rm_references r =? SIZE_MAX then ret None else
      set_mapping m (fun r => Some r.{ rm_references := rm_references r + 1 }) ;; ret (Some (rm_base r))) Q E k.
Proof.
  intros Hok Hne Hf Hlen HQ. pose proof (find_mapping_spec m (c_mappings k)) as Hr. rewrite Hf in Hr. destruct Hr as [Hr Em].
  pose proof Hok as Hok0. destruct Hok as [(b0&Hl&Hlv) Hm Hn Hh Hfr]. destruct (Hm r Hr) as (Hlive&_&Hc). wp_step; bprop.
  { assert (count (rm_machine_id r) hs <= Z.of_nat (length hs)) by (unfold count; apply inj_le, length_filter). lia. }
  unfold set_mapping. repeat wp_step. apply HQ.
  set (f := fun r => Some r.{ rm_references := rm_references r + 1 }).
  assert (Hmaps : forall m' b, maps k m' b -> maps k.{ c_mappings := alter_mapping m f (c_mappings k) } m' b).
  { intros m' b [Hb Hor]. split; [done|]. destruct Hor as [?|(r'&Hr'&Er'&Eb)]; [by left|right]. simpl.
    destruct (decide (rm_machine_id r' = m)) as [Heq|Hneq].
    - eexists. split; [apply alter_mapping_spec; [done|right]; eexists; split; [exact Hr'|]; split; [exact Heq|reflexivity]|]. by simpl.
    - exists r'. split; [apply alter_mapping_spec; [done|]; by left|done]. }
  split; [done|]. split; [exact Hmaps|]. split.
  - split; simpl.
    + by exists b0.
    + intros r' [[Hr' Hm']|(r0&Hr0&Em0&[= <-])]%alter_mapping_spec; [|simpl|done].
      * rewrite count_cons, decide_False by done. by apply Hm.
      * destruct (Hm r0 Hr0) as (?&?&->). rewrite count_cons, decide_True by done. split; [done|]. split; [done|]. lia.
    + apply alter_mapping_nodup; [|done]. by intros ? ? [= <-].
    + intros m' [->|Hi]%elem_of_cons Hmo.
      * eexists. split; [apply alter_mapping_spec; [done|right]; eexists; split; [exact Hr|]; split; [exact Em|reflexivity]|]. by simpl.
      * destruct (Hh m' Hi Hmo) as (r'&Hr'&Er'). destruct (decide (m' = m)) as [->|Hmm].
        -- eexists. split; [apply alter_mapping_spec; [done|right]; eexists; split; [exact Hr'|]; split; [exact Er'|reflexivity]|]. by simpl.
        -- exists r'. split; [apply alter_mapping_spec; [done|]; left; split; [done|congruence]|done].
    + done.
  - apply Hmaps. split; [by rewrite <- Em|]. right. by exists r.
Qed.

Lemma wp_acquire_remote hs k m (Q : option Z -> cstate -> Prop) E :
  ctx_ok hs k -> Z.of_nat (length hs) < SIZE_MAX ->
  (forall r k', mapped_more hs k m r k' -> Q r k') -> E NAME_TOO_LONG k ->
  wp (acquire_remote_machine V cfg m) Q E k.
Proof.
  intros Hok Hlen HQ HE. unfold acquire_remote_machine. do 2 wp_step. wp_step; bprop.
  { subst m. wp_step. pose proof Hok as Hok0. destruct Hok as [(b0&Hl&Hlv) Hm Hn Hh Hfr]. rewrite Hl. apply HQ. split; [done|]. split; [done|].
    split; [|by split; [done|left]]. split; try done; [by exists b0| |].
    - intros r Hr. rewrite count_cons, decide_False by (by apply not_eq_sym, Hm). by apply Hm.
    - intros m' [->|?]%elem_of_cons ?; [done|by apply Hh]. }
  destruct (find_mapping m (c_mappings k)) as [r|] eqn:Ef; [apply (wp_acquire_known hs); [done..|]; intros k1 Hk1; by apply HQ|].
  unfold region_name. wp_step. case_match; [|by wp_step]. wp_step. wp_step.
  destruct (with_new_mapping hs k m Hok ltac:(done) Ef) as [H1 H2]. cbv zeta in H1, H2. set (k1 := (called k).{ c_live := <[c_calls k := m]> (c_live k) }) in *.
  apply wp_map; [wp_step; apply HQ; split; [done|]; split; [intros m' b; apply maps_same, called_same|]; split; [by apply (ctx_ok_same _ k _ (called_same k))|done]|].
  fold k1. assert (Hlive : c_live k1 !! c_calls k = Some m) by apply lookup_insert_eq.
  wp_step. apply wp_try. eapply wp_validate_mapping; [exact Hlive| |].
  - intros k' Hs. do 4 wp_step. apply HQ. destruct (H2 k'.{ c_mappings := c_mappings k' ++ [mk_mapping m (c_calls k) 1] }) as (Ha&Hb&Hc).
    { destruct Hs as (E1&E2&E3&E4&E5&E6). repeat split; simpl; try done. by rewrite E3. }
    split; [by destruct Hs as (_&?&_&?&?&_)|]. split; [exact Hc|]. by split.
  - intros e k' -> Hs. wp_step. destruct (H1 k' Hs) as [Hok' Hmp'].
    destruct Hs as (E1&E2&E3&E4&E5&E6). assert (Hlive' : c_live k' !! c_calls k = Some m) by by rewrite E1.
    assert (Hnone : find_mapping m (c_mappings k') = None) by by rewrite E3.
    destruct (ctx_ok_drop hs k' (c_calls k) m Hok' Hlive') as [Hd Hdm].
    { rewrite E2. intros Hloc. destruct (co_local _ _ Hok) as (b0&Hb0&Hl0). simpl in Hloc. assert (b0 = c_calls k) as -> by congruence.
      pose proof (co_fresh _ _ Hok _ _ Hl0). lia. }
    { intros r Hr Hb. rewrite E3 in Hr. destruct (co_map _ _ Hok r Hr) as (Hl0&_). rewrite Hb in Hl0. pose proof (co_fresh _ _ Hok _ _ Hl0). lia. }
    apply wp_unmap; [intros r _|]; wp_step; apply HQ; (split; [by split|]); (split; [intros m' b Hmb|split; [|by split]]).
    + by apply (maps_same k' _ _ _ (called_same k')), Hmp'.
    + by apply (ctx_ok_same _ k' _ (called_same k')).
    + apply (maps_same k'.{ c_live := delete (c_calls k) (c_live k') }); [|by apply Hdm, Hmp'].
      repeat split. simpl. lia.
    + eapply ctx_ok_same; [|exact Hd]. repeat split. simpl. lia.
Qed.

(** A reference is gone from the count of its machine. *)
Lemma ctx_ok_less hs k m r :
  ctx_ok (m :: hs) k -> m <> own -> find_mapping m (c_mappings k) = Some r ->
  let k' := k.{ c_mappings := alter_mapping m (fun r => Some r.{ rm_references := rm_references r - 1 }) (c_mappings k) } in
  ctx_ok hs k' /\ (forall m' b, maps k m' b -> maps k' m' b) /\ rm_references r = count m hs + 1 /\
  mk_mapping m (rm_base r) (count m hs) ∈ c_mappings k'.
Proof.
  intros [(b0&Hl&Hlv) Hm Hn Hh Hfr] Hne Hf. pose proof (find_mapping_spec m (c_mappings k)) as Hr. rewrite Hf in Hr. destruct Hr as [Hr Em].
  set (f := fun r => Some r.{ rm_references := rm_references r - 1 }). cbv zeta.
  assert (Hc : rm_references r = count m hs + 1).
  { destruct (Hm r Hr) as (_&_&->). rewrite Em, count_cons, decide_True by done. lia. }
  assert (Hkeep : forall r', r' ∈ c_mappings k -> exists r'', r'' ∈ alter_mapping m f (c_mappings k) /\ rm_machine_id r'' = rm_machine_id r' /\ rm_base r'' = rm_base r').
  { intros r' Hr'. destruct (decide (rm_machine_id r' = m)) as [Heq|Hneq].
    - eexists. split; [apply alter_mapping_spec; [done|right]; eexists; split; [exact Hr'|]; split; [exact Heq|reflexivity]|]. done.
    - exists r'. split; [apply alter_mapping_spec; [done|]; by left|done]. }
  split; [split; simpl|split; [|split; [done|]]].
  - by exists b0.
  - intros r' [[Hr' Hm']|(r0&Hr0&Em0&[= <-])]%alter_mapping_spec; [|simpl|done].
    + destruct (Hm r' Hr') as (?&?&Hc'). rewrite count_cons, decide_False in Hc' by done. by rewrite Hc'.
    + destruct (Hm r0 Hr0) as (?&?&->). rewrite count_cons, decide_True by done. split; [done|]. split; [done|]. lia.
  - apply alter_mapping_nodup; [|done]. by intros ? ? [= <-].
  - intros m' Hi Hmo. destruct (Hh m') as (r'&Hr'&<-); [by right|done|]. destruct (Hkeep r' Hr') as (r''&?&?&_). by exists r''.
  - done.
  - intros m' b [Hb Hor]. split; [done|]. destruct Hor as [?|(r'&Hr'&<-&<-)]; [by left|right]. destruct (Hkeep r' Hr') as (r''&?&?&?). by exists r''.
  - simpl. apply alter_mapping_spec; [done|right]. exists r. split; [done|]. split; [done|]. unfold f. f_equal. destruct r as [rm rb rr]. simpl in Em, Hc |- *. subst rm.
    assert (rr - 1 = count m hs) as <- by lia. done.
Qed.

(** The last reference of a machine is gone and its mapping with it. *)
Lemma ctx_ok_unmapped hs k m b n :
  ctx_ok hs k -> mk_mapping m b n ∈ c_mappings k -> m ∉ hs ->
  let k' := k.{ c_live := delete b (c_live k) }.{ c_mappings := alter_mapping m (fun _ => None) (c_mappings k) } in
  ctx_ok hs k' /\ forall m' b', m' <> m -> maps k m' b' -> maps k' m' b'.
Proof.
  intros [(b0&Hl&Hlv) Hm Hn Hh Hfr] Hr Hno. cbv zeta. destruct (Hm _ Hr) as (Hlb&Hne&_). simpl in Hlb, Hne.
  assert (Hother : forall b' m', c_live k !! b' = Some m' -> m' <> m -> delete b (c_live k) !! b' = Some m').
  { intros b' m' Hb' Hm'. rewrite lookup_delete_ne; [done|]. congruence. }
  assert (Hin : forall r, r ∈ alter_mapping m (fun _ => None) (c_mappings k) <-> r ∈ c_mappings k /\ rm_machine_id r <> m).
  { intros r. rewrite alter_mapping_spec by done. split; [intros [?|(?&_&_&?)]; done|by left]. }
  split; [split; simpl|].
  - exists b0. split; [done|]. by apply Hother.
  - intros r [Hr' Hm']%Hin. destruct (Hm r Hr') as (?&?&?). auto.
  - by apply alter_mapping_nodup.
  - intros m' Hi Hmo. destruct (Hh m' Hi Hmo) as (r'&Hr'&<-). exists r'. rewrite Hin. split; [split; [done|]|done]. congruence.
  - intros b' m' [_ Hb']%lookup_delete_Some. by apply (Hfr b' m').
  - intros m' b' Hm' [Hb' Hor]. split; [by apply Hother|]. destruct Hor as [?|(r'&Hr'&<-&<-)]; [by left|right]. exists r'. simpl. by rewrite Hin.
Qed.

Lemma wp_release_remote hs k m (Q : unit -> cstate -> Prop) E :
  ctx_ok (m :: hs) k ->
  (forall k', ctx_ok hs k' -> frame k k' -> (forall m' b, m' ∈ hs \/ m' = own -> maps k m' b -> maps k' m' b) -> Q tt k') ->
  wp (release_remote_machine V cfg m) Q E k.
Proof.
  intros Hok HQ. unfold release_remote_machine. do 2 wp_step. wp_step; bprop.
  { subst m. wp_step. apply HQ; [|done|done]. destruct Hok as [? Hm ? Hh ?]. split; try done.
    - intros r Hr. destruct (Hm r Hr) as (?&?&Hc). rewrite count_cons, decide_False in Hc by congruence. auto.
    - intros m Hi. apply Hh. by right. }
  destruct (find_mapping m (c_mappings k)) as [r|] eqn:Ef.
  2:{ destruct (co_held _ _ Hok m) as (r&Hr&Er); [by left|done|]. pose proof (find_mapping_spec m (c_mappings k)) as Hn. rewrite Ef in Hn. by destruct (Hn r Hr). }
  destruct (ctx_ok_less hs k m r Hok ltac:(done) Ef) as (Hok1&Hm1&Hc&Hin). cbv zeta in *. pose proof (count_nonneg m hs).
  wp_step; bprop; [lia|]. wp_step. unfold set_mapping. do 4 wp_step.
  - wp_step. by apply HQ; [..|intros m' b _; apply Hm1].
  - bprop. assert (Hz : count m hs = 0) by lia. assert (Hno : m ∉ hs) by (rewrite count_pos; lia).
    destruct (co_map _ _ Hok1 _ Hin) as (Hlb&_). simpl in Hlb.
    wp_step. case_match.
    { destruct (co_local _ _ Hok) as (b0&Hl&Hlv). congruence. }
    apply wp_unmap.
    + intros e He. rewrite (proj2 (Z.eqb_neq _ _) He). simpl. wp_step. apply HQ; [|done|].
      * eapply ctx_ok_same; [apply called_same|exact Hok1].
      * intros m' b _ Hmb. eapply maps_same; [apply called_same|by apply Hm1].
    + rewrite Z.eqb_refl. simpl. do 3 wp_step. destruct (ctx_ok_unmapped hs _ m _ _ Hok1 Hin Hno) as [Hok2 Hm2]. cbv zeta in *.
      apply HQ; [|done|].
      * eapply ctx_ok_same; [|exact Hok2]. repeat split. simpl. lia.
      * intros m' b Hor Hmb. eapply maps_same; [|apply Hm2; [|by apply Hm1]]; [repeat split; simpl; lia|]. intros ->. by destruct Hor.
Qed.
Lemma wp_release_unknown k m (Q : unit -> cstate -> Prop) E :
  m <> own -> find_mapping m (c_mappings k) = None -> Q tt k -> wp (release_remote_machine V cfg m) Q E k.
Proof.
  intros Hne Hf HQ. unfold release_remote_machine. do 2 wp_step. rewrite (proj2 (Z.eqb_neq _ _) Hne), Hf. by wp_step.
Qed.
Lemma wp_validate k b m h (Q : bool -> cstate -> Prop) E :
  maps k m b -> (forall v k', rest_same k k' -> Q v k') -> wp (context_validate_endpoint cfg (Some b) m h) Q E k.
Proof.
  intros [Hb _] HQ. unfold context_validate_endpoint. wp_step; [wp_step; apply HQ, rest_same_refl|]. wp_step. apply wp_touch. intros k1 Hs _ _ _.
  eapply wp_read_span; [destruct Hs as (->&_); exact Hb|]. intros k2 Hs2 _. apply HQ. by eapply rest_same_trans.
Qed.

(** ** Endpoints and the life of the context *)

Definition exception (e : Z) : Prop := fault e = false.
Lemma wp_local_base k (Q : Z -> cstate -> Prop) E : (exists hs, ctx_ok hs k) -> (forall b, c_local k = Some b -> c_live k !! b = Some own -> Q b k) -> wp local_base Q E k.
Proof.
  intros (hs&Hok) HQ. destruct (co_local _ _ Hok) as (b&Hl&Hlv). unfold local_base. do 2 wp_step. rewrite Hl. wp_step. by apply HQ.
Qed.
Lemma ctx_some_same k k' : rest_same k k' -> (exists hs, ctx_ok hs k) -> exists hs, ctx_ok hs k'.
Proof. intros Hs (hs&Hok). exists hs. by eapply ctx_ok_same. Qed.

Lemma wp_manager_request k r (Q : UBManagerResponse -> cstate -> Prop) E :
  (exists hs, ctx_ok hs k) -> (forall a k', rest_same k k' -> Q a k') -> (forall e k', exception e -> rest_same k k' -> E e k') ->
  wp (manager_request V cfg r) Q E k.
Proof.
  intros Hok HQ HE. unfold manager_request. wp_step. apply wp_sdk_call. pose proof (called_same k) as Hc.
  wp_step. wp_step; [by apply HE|]. wp_step. apply wp_local_base; [by eapply ctx_some_same|]. intros b Hl Hlv. wp_step.
  eapply wp_in_region; [exact Hlv|apply plain_handle_request| |].
  - intros a k' Hs _ _. assert (rest_same k k') by by eapply rest_same_trans. repeat wp_step; [by apply HE|by apply HQ].
  - intros e k' He%plain_not_fault Hs _ _. apply HE; [done|]. by eapply rest_same_trans.
Qed.
Lemma wp_manager_unregister k h (Q : unit -> cstate -> Prop) E :
  (exists hs, ctx_ok hs k) -> (forall k', rest_same k k' -> Q tt k') -> (forall k', rest_same k k' -> E SPINS k') ->
  wp (manager_unregister V cfg h) Q E k.
Proof.
  intros Hok HQ HE. unfold manager_unregister. wp_step. apply wp_try. apply wp_manager_request; [done| |].
  - intros a k' Hs. wp_step. by apply HQ.
  - intros e k' He Hs. unfold caught. rewrite He. simpl. destruct (e =? SPINS) eqn:Ee; simpl; bprop; [subst; by apply HE|]. wp_step. by apply HQ.
Qed.
Lemma wp_context_register k port r (Q : UBEndpointHandle -> cstate -> Prop) E :
  (exists hs, ctx_ok hs k) -> (forall h k', rest_same k k' -> Q h k') -> (forall e k', exception e -> rest_same k k' -> E e k') ->
  wp (context_register_endpoint V cfg port r) Q E k.
Proof.
  intros Hok HQ HE. unfold context_register_endpoint. wp_step.
  - wp_step. apply wp_local_base; [done|]. intros b Hl Hlv. eapply wp_in_region; [exact Hlv|apply plain_register|by intros; apply HQ|].
    intros e k' He%plain_not_fault Hs _ _. by apply HE.
  - unfold manager_register. wp_step. apply wp_manager_request; [done| |done]. intros a k' Hs. wp_step. wp_step; [by apply HE|]. wp_step. wp_step; [|repeat wp_step; by apply HQ].
    wp_step. apply wp_manager_unregister; [by eapply ctx_some_same| |].
    + intros k2 Hs2. wp_step. apply HE; [done|]. by eapply rest_same_trans.
    + intros k2 Hs2. apply HE; [done|]. by eapply rest_same_trans.
Qed.
Lemma wp_context_unregister k h (Q : unit -> cstate -> Prop) E :
  (exists hs, ctx_ok hs k) -> (forall k', rest_same k k' -> Q tt k') -> (forall k', rest_same k k' -> E SPINS k') ->
  wp (context_unregister_endpoint V cfg h) Q E k.
Proof.
  intros Hok HQ HE. unfold context_unregister_endpoint. wp_step; [wp_step; apply HQ, rest_same_refl|]. wp_step.
  - wp_step. apply wp_local_base; [done|]. intros b Hl Hlv. wp_step. eapply (wp_in_region_with (fun _ => False)); [exact Hlv| | |done].
    + intros m. unfold unregister_endpoint, arena_at, entry_at, set_entry. by repeat wp_step.
    + intros _ k' Hs _ _. wp_step. by apply HQ.
  - by apply wp_manager_unregister.
Qed.

(** No context: nothing is listed; a mapping may be left that the library refused to unmap. *)
Record blank (k : cstate) : Prop := {
  bk_context : c_context k = false; bk_references : c_references k = 0; bk_local : c_local k = None;
  bk_mappings : c_mappings k = []; bk_owner : c_owner k = None; bk_fresh : forall b m, c_live k !! b = Some m -> b < c_calls k }.

Lemma wp_check_ub answer k (Q : unit -> cstate -> Prop) E :
  Q tt (called k) -> E SDK_FAILED (called k) -> wp (check_ub V answer) Q E k.
Proof. intros HQ HE. unfold check_ub. wp_step. apply wp_sdk_call. by wp_step. Qed.
Lemma wp_region_name m k (Q : unit -> cstate -> Prop) E : Q tt k -> E NAME_TOO_LONG k -> wp (region_name cfg m) Q E k.
Proof. intros HQ HE. unfold region_name. case_match; by wp_step. Qed.

(** A new mapping of this machine's region, and the context with it as [local_base_]. *)
Definition opened (k : cstate) (b : Z) (k' : cstate) : Prop :=
  c_live k' !! b = Some own /\ c_mappings k' = [] /\ c_context k' = false /\ c_references k' = 0 /\
  (forall b m, c_live k' !! b = Some m -> b < c_calls k').
Lemma opened_new k : blank k -> opened k (c_calls k) (called k).{ c_live := <[c_calls k := own]> (c_live k) }.
Proof.
  intros []. split; [apply lookup_insert_eq|]. repeat split; try done. simpl. intros b m [[<- _]|[_ Hb]]%lookup_insert_Some; [lia|].
  specialize (bk_fresh0 _ _ Hb). lia.
Qed.
Lemma opened_same k b k1 k2 : rest_same k1 k2 -> opened k b k1 -> opened k b k2.
Proof.
  intros (E1&E2&E3&E4&E5&E6) (Hl&Hm&Hc&Hr&Hf). unfold opened. rewrite E1, E3, E4, E5. repeat split; try done. intros b' m' Hb. specialize (Hf _ _ Hb). lia.
Qed.
Lemma blank_called k : blank k -> blank (called k).
Proof. intros []. split; try done. simpl. intros b m Hb. specialize (bk_fresh0 _ _ Hb). lia. Qed.
Lemma blank_delete k b : blank k -> blank k.{ c_live := delete b (c_live k) }.
Proof. intros []. split; try done. simpl. intros b' m [_ Hb]%lookup_delete_Some. by eapply bk_fresh0. Qed.
Lemma blank_insert k : blank k -> blank (called k).{ c_live := <[c_calls k := own]> (c_live k) }.
Proof.
  intros Hb. destruct (opened_new k Hb) as (_&_&_&_&Hf). by destruct Hb; split.
Qed.
Lemma blank_same k k' : blank k -> rest_same k k' -> c_owner k' = c_owner k -> blank k'.
Proof.
  intros [? ? ? ? ? Hf] (E1&E2&E3&E4&E5&E6) Eo. split; try congruence. rewrite E1. intros b m Hb. specialize (Hf _ _ Hb). lia.
Qed.
#[local] Hint Resolve blank_called blank_delete : core.

Definition built (k' : cstate) : Prop :=
  ctx_ok [] k' /\ c_mappings k' = [] /\ c_context k' = false /\ c_references k' = 0.
Lemma built_of k b k' k'' : opened k b k' -> rest_same k' k'' \/ k'' = k' -> built k''.{ c_local := Some b }.
Proof.
  intros Ho Hs. assert (Ho2 : opened k b k'') by (destruct Hs as [Hs| ->]; [by eapply opened_same|done]).
  destruct Ho2 as (Hl&Hm&Hc&Hr&Hf). split; [|done]. split; simpl; [by exists b|rewrite Hm; by intros ? ?%elem_of_nil|by rewrite Hm; constructor|by intros ? ?%elem_of_nil|done].
Qed.

Lemma wp_region_owner k (Q : Z -> cstate -> Prop) E :
  blank k -> (forall b k', opened k b k' -> c_owner k' <> None -> Q b k') -> (forall e k', exception e -> blank k' -> E e k') ->
  wp (UBMachineRegionOwner V cfg) Q E k.
Proof.
  intros Hb HQ HE. unfold UBMachineRegionOwner. wp_step. apply wp_region_name; [|by apply HE]. wp_step. wp_step; [by apply HE|]. wp_step. wp_step; [by apply HE|].
  wp_step. apply wp_check_ub; [|apply HE; [done|auto]]. wp_step. apply wp_map.
  - wp_step. apply wp_sdk_call. wp_step. apply HE; [done|auto].
  - wp_step. eapply wp_in_region; [apply lookup_insert_eq|apply plain_initialize_region| |].
    + intros _ k' Hs Ho _. do 4 wp_step. apply HQ; [|done]. eapply opened_same in Hs; [|apply opened_new; by apply blank_called].
      destruct Hs as (?&?&?&?&?). by repeat split.
    + intros e k' He%plain_not_fault Hs Ho _. apply HE; [done|]. eapply blank_same; [|exact Hs|exact Ho]. apply blank_insert. auto.
Qed.
Lemma wp_map_local k (Q : unit -> cstate -> Prop) E :
  blank k -> (forall k', built k' -> Q tt k') -> (forall e k', exception e -> blank k' -> E e k') ->
  wp (map_local_manager_region V cfg) Q E k.
Proof.
  intros Hb HQ HE. unfold map_local_manager_region. wp_step. apply wp_region_name; [|by apply HE]. wp_step. apply wp_map; [wp_step; apply HE; [done|auto]|].
  set (k1 := (called k).{ c_live := <[c_calls k := own]> (c_live k) }). pose proof (opened_new k Hb) as Ho. pose proof (blank_insert k Hb) as Hb1. fold k1 in Ho, Hb1.
  assert (Hlive : c_live k1 !! c_calls k = Some own) by apply lookup_insert_eq.
  assert (Hundo : forall e k', exception e -> rest_same k1 k' -> c_owner k' = None ->
    E e ((_ <- ubsmem_shmem_unmap V (c_calls k) ;; ret tt) k').2).
  { intros e k' He Hs How. assert (blank k') by (eapply blank_same; [exact Hb1|exact Hs|]; rewrite How; by destruct Hb).
    assert (Hw : wp (_ <- ubsmem_shmem_unmap V (c_calls k) ;; ret tt) (fun _ k2 => E e k2) (fun _ k2 => E e k2) k').
    { wp_step. apply wp_unmap; [intros r _|]; (wp_step; apply HE; [done|]); [auto|]. apply (blank_delete (called k')). auto. }
    unfold wp in Hw. by destruct (bind _ _ k') as [[] ?]. }
  wp_step. apply wp_on_fail. wp_step.
  eapply wp_at_span_with with (F := fun e => exception e); [exact Hlive| | |].
  - intros m. unfold validate_region. by repeat wp_step.
  - intros _ k0 Hs0 How0 _. wp_step. eapply wp_read_span; [destruct Hs0 as (->&_); exact Hlive|]. intros k' Hs How.
    apply (rest_same_trans _ _ _ Hs0) in Hs. rewrite How0 in How. wp_step.
    + apply Hundo; [done|done|]. rewrite How. by destruct Hb.
    + do 3 wp_step. apply HQ. eapply built_of; [exact Ho|by left].
  - intros e k' He Hs How _. apply Hundo; [done|done|]. rewrite How. by destruct Hb.
Qed.

Lemma wp_machine_context k (Q : unit -> cstate -> Prop) E :
  blank k -> (forall k', built k' -> Q tt k') -> (forall e k', exception e -> blank k' -> E e k') -> wp (UBMachineContext V cfg) Q E k.
Proof.
  intros Hb HQ HE. unfold UBMachineContext, ub_sdk_initialize. wp_step. wp_step. apply wp_check_ub; [|apply HE; [done|auto]]. wp_step.
  apply wp_check_ub; [|apply HE; [done|auto]]. wp_step. apply wp_check_ub; [|apply HE; [done|auto]]. do 3 wp_step. apply wp_on_fail.
  set (k1 := (called (called (called k))).{ c_sdk := true }). assert (Hb1 : blank k1) by (destruct (blank_called _ (blank_called _ (blank_called _ Hb))); by split).
  assert (Hfin : forall e k', exception e -> blank k' -> E e (ub_sdk_finalize_noexcept k').2).
  { intros e k' He Hb'. apply HE; [done|]. destruct (blank_called _ Hb'). by split. }
  wp_step.
  - wp_step. apply wp_region_owner; [done| |done]. intros b k' Ho _. repeat wp_step. apply HQ. eapply built_of; [exact Ho|by right].
  - by apply wp_map_local.
Qed.

(** Acquiring the process's context, new or shared. *)
Lemma wp_context_acquire hs k (Q : unit -> cstate -> Prop) E :
  (blank k /\ hs = []) \/ (ctx_ok hs k /\ c_context k = true) ->
  (forall k', ctx_ok hs k' -> c_context k' = true -> c_references k' = c_references k + 1 -> Q tt k') ->
  (forall e k', exception e -> blank k' -> blank k -> E e k') -> wp (context_acquire V cfg) Q E k.
Proof.
  intros Hk HQ HE. unfold context_acquire. do 3 wp_step. wp_step.
  - wp_step. repeat wp_step. destruct Hk as [[[] _]|[Hok Hc]]; [congruence|]. apply HQ; try done. destruct Hok; by split.
  - destruct Hk as [[Hb ->]|[_ ?]]; [|congruence]. wp_step. apply wp_machine_context; [done| |by intros; apply HE]. intros k' (Hok&Hm&Hc&Hr). repeat wp_step.
    apply HQ; [|done|]. 
    + destruct Hok; by split.
    + simpl. rewrite Hr. by destruct Hb as [_ -> _ _ _ _].
Qed.

(** [k'] has made more calls than [k], dropped some mappings, and may have changed its owner. *)
Definition dropped_some (k k' : cstate) : Prop :=
  c_context k' = c_context k /\ c_references k' = c_references k /\ c_local k' = c_local k /\ c_mappings k' = c_mappings k /\
  c_calls k <= c_calls k' /\ forall b m, c_live k' !! b = Some m -> c_live k !! b = Some m.
Lemma dropped_refl k : dropped_some k k.
Proof. by repeat split. Qed.
Lemma dropped_trans k k1 k2 : dropped_some k k1 -> dropped_some k1 k2 -> dropped_some k k2.
Proof. intros (?&?&?&?&?&Hk1) (?&?&?&?&?&Hk2). repeat split; try congruence; [lia|]. intros b m Hb. by apply Hk1, Hk2. Qed.
Lemma dropped_called k : dropped_some k (called k).
Proof. repeat split; simpl; [lia|done]. Qed.
Lemma dropped_delete k b : dropped_some k (called k).{ c_live := delete b (c_live k) }.
Proof. repeat split; simpl; [lia|]. by intros b' m [_ ?]%lookup_delete_Some. Qed.
#[local] Hint Resolve dropped_refl dropped_called dropped_delete : core.

Lemma wp_deallocate_once k w (Q : bool -> cstate -> Prop) E :
  (forall r k', dropped_some k k' -> Q r k') -> wp (deallocate_loop V 1 0 w) Q E k.
Proof.
  intros HQ. cbn [deallocate_loop Z.eqb orb]. wp_step. apply wp_sdk_call. wp_step; [|wp_step; wp_step; by apply HQ].
  repeat wp_step. apply HQ. repeat split; simpl; [lia|done].
Qed.
Lemma wp_shutdown_now k w (Q : bool -> cstate -> Prop) E :
  (forall r k', dropped_some k k' -> Q r k') -> wp (shutdown V 1 0 w) Q E k.
Proof.
  intros HQ. assert (Hrest : forall k1 (u : bool), dropped_some k k1 ->
    wp (if negb u then ret false else if negb (ow_allocated w) then ret true else deallocate_loop V 1 0 w.{ ow_mapping := None }) Q E k1).
  { intros k1 u Hd. repeat (case_if; [by wp_step; apply HQ|]). apply wp_deallocate_once. intros r k' Hd'. apply HQ. by eapply dropped_trans. }
  unfold shutdown. wp_step. destruct (ow_mapping w) as [base|]; [|wp_step; by apply Hrest].
  wp_step. apply wp_unmap.
  - intros r Hr. rewrite (proj2 (Z.eqb_neq _ _) Hr). simpl. wp_step. by apply Hrest.
  - rewrite Z.eqb_refl. simpl. do 5 wp_step. apply (Hrest _ true). eapply dropped_trans; [apply (dropped_delete k base)|by repeat split].
Qed.

Lemma wp_unmap_all l local k (Q : unit -> cstate -> Prop) E :
  (forall k', dropped_some k k' -> Q tt k') -> wp (each l (unmap_remote V local)) Q E k.
Proof.
  revert k. induction l as [|r l IH]; intros k HQ; simpl; [wp_step; by apply HQ|]. wp_step. unfold unmap_remote. case_match.
  - wp_step. by apply IH.
  - wp_step. apply wp_unmap; [intros x _|]; wp_step; apply IH; intros k' Hd; apply HQ; (eapply dropped_trans; [|exact Hd]); auto.
Qed.

Lemma dropped_fresh k k' :
  dropped_some k k' -> (forall b m, c_live k !! b = Some m -> b < c_calls k) -> forall b m, c_live k' !! b = Some m -> b < c_calls k'.
Proof. intros (_&_&_&_&Hc&Hd) Hf b m Hb. specialize (Hf _ _ (Hd _ _ Hb)). lia. Qed.

Lemma wp_destroy_context hs k (Q : unit -> cstate -> Prop) E :
  ctx_ok hs k -> c_references k = 0 -> (forall k', blank k'.{ c_context := false } -> Q tt k') -> wp (destroy_context V cfg) Q E k.
Proof.
  intros Hok Hr HQ. unfold destroy_context. do 3 wp_step. apply wp_unmap_all. intros k1 Hd1. do 4 wp_step.
  pose proof (dropped_fresh _ _ Hd1 (co_fresh _ _ Hok)) as Hf1. assert (Hr1 : c_references k1 = 0) by (destruct Hd1 as (_&->&_); done).
  assert (Hend : forall k2, c_references k2 = 0 -> c_mappings k2 = [] -> c_local k2 = None -> c_owner k2 = None ->
    (forall b m, c_live k2 !! b = Some m -> b < c_calls k2) -> wp ub_sdk_finalize_noexcept Q E k2).
  { intros k2 ????? . unfold ub_sdk_finalize_noexcept. wp_step. apply wp_sdk_call. repeat wp_step. apply HQ. split; try done. simpl. intros b m Hb.
    match goal with H : forall b m, _ -> b < c_calls k2 |- _ => specialize (H _ _ Hb) end. lia. }
  assert (Howner : forall k2, c_references k2 = 0 -> c_mappings k2 = [] -> (forall b m, c_live k2 !! b = Some m -> b < c_calls k2) ->
    wp (k <- get ;; put k.{ c_local := None } ;;
        (match c_owner k with None => ret tt | Some w => _ <- shutdown V 1 0 w ;; k <- get ;; put k.{ c_owner := None } end) ;;
        ub_sdk_finalize_noexcept) Q E k2).
  { intros k2 Hr2 Hm2 Hf2. do 5 wp_step. destruct (c_owner k2) eqn:Eo; [|wp_step; by apply Hend]. wp_step. apply wp_shutdown_now.
    intros _ k3 Hd3. repeat wp_step. pose proof (dropped_fresh _ _ Hd3 Hf2). destruct Hd3 as (?&E2&E3&E4&_). apply Hend; try done; simpl; [by rewrite E2|by rewrite E4]. }
  wp_step. case_match; [wp_step; by apply Howner|]. simpl. case_match; [|wp_step; by apply Howner].
  wp_step. apply wp_unmap; [intros r _|]; wp_step; apply Howner; try done.
  - simpl. intros b m Hb. specialize (Hf1 _ _ Hb). lia.
  - simpl. intros b m [_ Hb]%lookup_delete_Some. specialize (Hf1 _ _ Hb). lia.
Qed.

Lemma wp_context_release hs k (Q : unit -> cstate -> Prop) E :
  ctx_ok hs k -> c_context k = true -> 0 < c_references k ->
  (forall k', ctx_ok hs k' -> c_context k' = true -> c_references k' = c_references k - 1 -> 0 < c_references k' -> Q tt k') ->
  (forall k', blank k' -> Q tt k') -> wp (context_release V cfg true) Q E k.
Proof.
  intros Hok Hc Hr H1 H2. unfold context_release. do 2 wp_step. rewrite Hc. simpl. destruct (c_references k =? 0) eqn:E0; bprop; [lia|].
  do 2 wp_step. assert (Hok' : ctx_ok hs k.{ c_references := c_references k - 1 }) by (destruct Hok; by split). wp_step; bprop.
  - wp_step. eapply wp_destroy_context; [exact Hok'|done|]. intros k' Hb. repeat wp_step. by apply H2.
  - wp_step. apply H1; try done. simpl. lia.
Qed.
End context_sound.
