(* ===== verification/Transport.v ===== *)
(** * UBTransport: ub_transport.cc

    The transport of one endpoint: the cached remote endpoints with their queues of
    descriptors that wait for room, the round-robin over the sources, and the two
    bursts.  A pointer into shared memory is a mapping and an offset.  The arrays are
    functions of the index with every access checked: [OUT_OF_BOUNDS], like [SEGV], is a
    fault and not an exception, and the accesses to shared memory are recorded with
    [at_span], [read_span] and [touch].  [t_history] records what [tx_burst] accepted and what
    became of it; the code does not read it.  The timestamps of ERPC_UB_PROFILE are left
    out. *)

From stdpp Require Import gmap.
From S2P Require Import Prelude Monad CMem ErpcUb Spsc Arena Machine Context.

Definition TX_ASSERT := 31.
Definition RX_ASSERT := 32.
Definition PEER_ASSERT := 33.
Definition BAD_OBJECT := 34.

(** ** Routing information *)

Record UBRoutingInfo := mk_route {
  ri_magic : Z; ri_version : Z; ri_rpc_id : Z; ri_endpoint_slot : Z; ri_endpoint_generation : Z; ri_reserved : Z;
  ri_machine_id : Z; ri_inbox_offset : Z; ri_arena_offset : Z; ri_arena_size : Z }.
Definition route_widths : list nat := [4; 2; 1; 1; 4; 4; 8; 8; 8; 8]%nat.
Definition route_fields (r : UBRoutingInfo) : list Z :=
  [ri_magic r; ri_version r; ri_rpc_id r; ri_endpoint_slot r; ri_endpoint_generation r; ri_reserved r; ri_machine_id r;
   ri_inbox_offset r; ri_arena_offset r; ri_arena_size r].
Definition route_of (l : list Z) : UBRoutingInfo := mk_route l.[0] l.[1] l.[2] l.[3] l.[4] l.[5] l.[6] l.[7] l.[8] l.[9].

Definition kMaxRoutingInfoSize := 48.
(** The [kMaxRoutingInfoSize] bytes of a routing_info_t. *)
Definition decode_routing_info (buf : list Z) : UBRoutingInfo := route_of (dec_fields route_widths buf).
Definition endpoint_from_route (r : UBRoutingInfo) : UBEndpointHandle :=
  mk_handle (ri_endpoint_slot r) (ri_rpc_id r) (ri_endpoint_generation r) (ri_inbox_offset r) (ri_arena_offset r) (ri_arena_size r).
Definition local_route (machine_id rpc_id : Z) (e : UBEndpointHandle) : UBRoutingInfo :=
  mk_route kRegionMagic kRegionVersion rpc_id (eh_slot e) (eh_generation e) 0 machine_id (eh_inbox_offset e) (eh_arena_offset e)
    (eh_arena_size e).
Definition fill_local_routing_info (machine_id rpc_id : Z) (e : UBEndpointHandle) : list Z :=
  enc_fields route_widths (route_fields (local_route machine_id rpc_id e)).

(** ** The state *)

Definition kPostlist := 32.
Definition kNumRxRingEntries := 4096.
Definition kMaxPendingTxPerEndpoint := kSpscQueueDepth.

Definition ptr : Type := Z * Z.
(** A Buffer at a pointer. *)
Record tbuffer := mk_tbuffer { tb_buf : option ptr; tb_class_size : Z }.
Record PendingTx := mk_pending { pt_descriptor : UBMessageDescriptor; pt_backing_buffer : tbuffer }.

Record RemoteEndpoint := mk_remote {
  re_machine_base : option Z; re_endpoint : UBEndpointHandle; re_inbox : option ptr; re_machine_id : Z;
  re_producer : producer; re_pending_tx : list PendingTx }.
#[export] Instance eta_remote : Eta RemoteEndpoint := fun r =>
  mk_remote (re_machine_base r) (re_endpoint r) (re_inbox r) (re_machine_id r) (re_producer r) (re_pending_tx r).
Definition no_remote : RemoteEndpoint := mk_remote None no_endpoint None 0 (mk_producer 0 0) [].

Inductive tx_event :=
  | Accepted (peer : Z) (d : UBMessageDescriptor)
  | Published (peer : Z) (d : UBMessageDescriptor)
  | Released (peer : Z) (d : UBMessageDescriptor).

Record tstate := mk_tstate {
  t_cx : cstate; t_context : bool; t_allocator : option allocator; t_local_endpoint : UBEndpointHandle; t_local_inbox : option ptr;
  t_remotes : Z -> RemoteEndpoint; t_consumer_heads : Z -> Z; t_rx_refs : Z -> Z;
  t_active : Z -> Z; t_active_count : Z; t_next_poll : Z;
  t_pending_count : Z; t_pending_endpoint_count : Z; t_pending_endpoints : Z -> Z; t_pending_positions : Z -> Z;
  t_rx_ring : bool; t_rx_pkthdrs : Z -> pkthdr_t; t_rx_payloads : Z -> option ptr; t_rx_head : Z;
  t_history : list tx_event }.
#[export] Instance eta_tstate : Eta tstate := fun t =>
  mk_tstate (t_cx t) (t_context t) (t_allocator t) (t_local_endpoint t) (t_local_inbox t) (t_remotes t) (t_consumer_heads t) (t_rx_refs t)
    (t_active t) (t_active_count t) (t_next_poll t) (t_pending_count t) (t_pending_endpoint_count t) (t_pending_endpoints t)
    (t_pending_positions t) (t_rx_ring t) (t_rx_pkthdrs t) (t_rx_payloads t) (t_rx_head t) (t_history t).

Definition T : Type -> Type := MS tstate.

Definition cx {X} (m : C X) : T X := fun t => let '(r, k) := m (t_cx t) in (r, t.{ t_cx := k }).
Definition check_index (i : Z) : T unit := fail_if (negb ((0 <=? i) && (i <? kMaxRpcEndpoints))) OUT_OF_BOUNDS.
Definition remote_at (peer : Z) : T RemoteEndpoint := check_index peer ;; t <- get ;; ret (t_remotes t peer).
Definition set_remote (peer : Z) (f : RemoteEndpoint -> RemoteEndpoint) : T unit :=
  check_index peer ;; t <- get ;; put t.{ t_remotes := fn_set (t_remotes t) peer (f (t_remotes t peer)) }.
Definition emit (e : tx_event) : T unit := t <- get ;; put t.{ t_history := t_history t ++ [e] }.
Definition the_allocator : T allocator := t <- get ;; match t_allocator t with None => raise SEGV | Some al => ret al end.

Section transport.
Context (V : sdk) (cfg : context_config) (rpc_id_ : Z).

(** ** Buffers and objects *)

Definition is_local (local : option Z) (p : option ptr) : bool :=
  match p, local with Some (b, _), Some base => b =? base | _, _ => false end.
Definition is_shared (al : allocator) (local : option Z) (p : option ptr) : bool := is_shared_ptr al (is_local local p) (snd <$> p).
Definition buffer_at (p : option ptr) (class_size : Z) : Buffer := mk_buffer (snd <$> p) class_size.
(** An allocator operation on the region that a buffer is in, through the block's metadata.  What
    the allocator reaches from there, through references that are in shared memory, is not in
    the record of accesses. *)
Definition on_buffer {X} (b : tbuffer) (op : Buffer -> A X) (if_null : X) : T X :=
  match tb_buf b with
  | None => ret if_null
  | Some (base, off) => cx (at_span base (off - sizeof_block) sizeof_block (op (mk_buffer (Some off) (tb_class_size b))))
  end.
Definition local_base_t : T Z := cx local_base.

Definition alloc_shared_buffer (size : Z) : T tbuffer :=
  al <- the_allocator ;;
  base <- local_base_t ;;
  b <- cx (at_span base (eh_arena_offset (al_endpoint al)) sizeof_arena (alloc al size)) ;;
  ret (mk_tbuffer ((fun off => (base, off)) <$> buf_ b) (class_size_ b)).
Definition retain_shared_buffer (b : tbuffer) : T unit := on_buffer b add_ref tt.
Definition alloc_shared_object (size : Z) : T tbuffer := alloc_shared_buffer size.
Definition retain_shared_object (b : tbuffer) : T unit := retain_shared_buffer b.
Definition free_shared_buffer (b : tbuffer) : T unit :=
  al <- the_allocator ;;
  t <- get ;;
  if is_shared al (c_local (t_cx t)) (tb_buf b) then on_buffer b free tt else on_buffer b release_remote_ref tt.

Record UBSharedObjectHandle := mk_object {
  oh_machine_id : Z; oh_block_offset : Z; oh_payload_offset : Z; oh_payload_length : Z }.
Record UBImportedObject := mk_imported { io_buffer : tbuffer; io_machine_id : Z }.

Definition describe_shared_object (b : tbuffer) (payload_length : Z) : T UBSharedObjectHandle :=
  al <- the_allocator ;;
  t <- get ;;
  let local := is_local (c_local (t_cx t)) (tb_buf b) in
  fail_if (negb (is_shared al (c_local (t_cx t)) (tb_buf b)) || (payload_length =? 0) || (payload_length >? tb_class_size b)) BAD_OBJECT ;;
  let payload_offset := offset_of al local (snd <$> tb_buf b) in
  fail_if (payload_offset <? sizeof_block) BAD_OBJECT ;;
  ret (mk_object (cc_machine_id cfg) (payload_offset - sizeof_block) payload_offset payload_length).

Definition import_shared_object (h : UBSharedObjectHandle) : T UBImportedObject :=
  fail_if ((oh_machine_id h =? 0) || (oh_block_offset h =? 0) || (oh_payload_offset h =? 0) || (oh_payload_length h =? 0) ||
           (oh_payload_length h >? SIZE_MAX) || (oh_payload_offset h <? oh_block_offset h) ||
           (oh_payload_offset h - oh_block_offset h !=? sizeof_block)) BAD_OBJECT ;;
  machine_base <- cx (acquire_remote_machine V cfg (oh_machine_id h)) ;;
  match machine_base, resolve_payload (cc_region_bytes cfg) (bool_decide (is_Some machine_base)) (oh_block_offset h)
                        (oh_payload_offset h) (oh_payload_length h) with
  | Some base, Some payload => ret (mk_imported (mk_tbuffer (Some (base, payload)) (oh_payload_length h)) (oh_machine_id h))
  | _, _ => cx (release_remote_machine V cfg (oh_machine_id h)) ;; raise BAD_OBJECT
  end.
Definition release_imported_object (o : UBImportedObject) : T unit :=
  on_fail (on_buffer (io_buffer o) release_remote_ref tt) (cx (release_remote_machine V cfg (io_machine_id o))) ;;
  cx (release_remote_machine V cfg (io_machine_id o)).

(** ** Remote endpoints *)

Definition same_endpoint (e e' : UBEndpointHandle) : bool :=
  (eh_rpc_id e =? eh_rpc_id e') && (eh_generation e =? eh_generation e') && (eh_slot e =? eh_slot e') &&
  (eh_inbox_offset e =? eh_inbox_offset e') && (eh_arena_offset e =? eh_arena_offset e') && (eh_arena_size e =? eh_arena_size e').
(** The queue of this endpoint in the inbox at a pointer. *)
Definition own_queue (inbox : ptr) : Z := inbox_queue inbox.2 rpc_id_.

Definition ensure_remote_endpoint (route : UBRoutingInfo) : T bool :=
  if (ri_magic route !=? kRegionMagic) || (ri_version route !=? kRegionVersion) || (ri_rpc_id route >=? kMaxRpcEndpoints)
  then ret false else
  let endpoint := endpoint_from_route route in
  remote <- remote_at (ri_rpc_id route) ;;
  if bool_decide (is_Some (re_inbox remote)) && (re_machine_id remote =? ri_machine_id route) && same_endpoint (re_endpoint remote) endpoint
  then ret true else
  if negb (bool_decide (re_pending_tx remote = [])) then ret false else
  machine_base <- cx (acquire_remote_machine V cfg (ri_machine_id route)) ;;
  valid <- cx (context_validate_endpoint cfg machine_base (ri_machine_id route) endpoint) ;;
  match machine_base, valid with
  | Some base, true =>
      let inbox := (base, eh_inbox_offset endpoint) in
      tail <- cx (read_span base (queue_tail (own_queue inbox)) 8 (fun m => ld64 m (queue_tail (own_queue inbox)))) ;;
      head <- cx (read_span base (queue_head (own_queue inbox)) 8 (fun m => ld64 m (queue_head (own_queue inbox)))) ;;
      set_remote (ri_rpc_id route) (fun r =>
        mk_remote (Some base) endpoint (Some inbox) (ri_machine_id route) (mk_producer tail head) (re_pending_tx r)) ;;
      (if bool_decide (is_Some (re_machine_base remote)) then cx (release_remote_machine V cfg (re_machine_id remote)) else ret tt) ;;
      ret true
  | Some _, false => cx (release_remote_machine V cfg (ri_machine_id route)) ;; ret false
  | None, _ => ret false
  end.
Definition resolve_remote_routing_info (routing_info : option (list Z)) : T bool :=
  match routing_info with None => ret false | Some buf => ensure_remote_endpoint (decode_routing_info buf) end.

(** ** Descriptors that wait *)

Definition add_pending_endpoint (peer : Z) : T unit :=
  check_index peer ;;
  t <- get ;;
  if t_pending_positions t peer !=? kMaxRpcEndpoints then ret tt else
  let n := t_pending_endpoint_count t in
  check_index n ;;
  put t.{ t_pending_positions := fn_set (t_pending_positions t) peer n }
       .{ t_pending_endpoints := fn_set (t_pending_endpoints t) n peer }
       .{ t_pending_endpoint_count := n + 1 }.

Definition remove_pending_endpoint (peer : Z) : T unit :=
  check_index peer ;;
  t <- get ;;
  let position := t_pending_positions t peer in
  if position =? kMaxRpcEndpoints then ret tt else
  let last := t_pending_endpoint_count t - 1 in
  check_index last ;; check_index position ;;
  let moved := t_pending_endpoints t last in
  check_index moved ;;
  put t.{ t_pending_endpoints := fn_set (fn_set (t_pending_endpoints t) position moved) last UINT8_MAX }
       .{ t_pending_positions := fn_set (fn_set (t_pending_positions t) moved position) peer kMaxRpcEndpoints }
       .{ t_pending_endpoint_count := last }.

Definition enqueue_pending (peer : Z) (d : UBMessageDescriptor) (b : tbuffer) : T unit :=
  remote <- remote_at peer ;;
  set_remote peer (fun r => r.{ re_pending_tx := re_pending_tx r ++ [mk_pending d b] }) ;;
  t <- get ;; put t.{ t_pending_count := t_pending_count t + 1 } ;;
  if bool_decide (re_pending_tx remote = []) then add_pending_endpoint peer else ret tt.

(** [try_enqueue] on this endpoint's queue at the remote endpoint. *)
Definition send_descriptor (peer : Z) (d : UBMessageDescriptor) : T bool :=
  remote <- remote_at peer ;;
  match re_inbox remote with
  | None => raise SEGV
  | Some inbox =>
      '(ok, p) <- cx (at_span inbox.1 (own_queue inbox) sizeof_queue (fun m =>
        let '(ok, p, m') := try_enqueue (own_queue inbox) d (re_producer remote) m in (inl (ok, p), m'))) ;;
      set_remote peer (fun r => r.{ re_producer := p }) ;;
      (if ok then emit (Published peer d) else ret tt) ;;
      ret ok
  end.

(** The front of the waiting descriptors is gone, [noexcept] code does not count below 0. *)
Definition pop_pending (peer : Z) : T unit :=
  set_remote peer (fun r => r.{ re_pending_tx := tail (re_pending_tx r) }) ;;
  t <- get ;; put t.{ t_pending_count := if t_pending_count t >? 0 then t_pending_count t - 1 else t_pending_count t }.

Definition release_one (peer : Z) (p : PendingTx) : T unit :=
  pop_pending peer ;;
  emit (Released peer (pt_descriptor p)) ;;
  t <- get ;;
  match t_allocator t with
  | None => ret tt
  | Some _ => _ <- try_catch (on_buffer (pt_backing_buffer p) free tt) ;; ret tt
  end.
Definition release_pending_noexcept (peer : Z) : T unit :=
  remote <- remote_at peer ;;
  each (re_pending_tx remote) (release_one peer) ;;
  remove_pending_endpoint peer.

(** Sends from the front until the queue is full; says whether all were sent. *)
Fixpoint drain_loop (peer : Z) (l : list PendingTx) : T bool :=
  match l with
  | [] => ret true
  | p :: l =>
      ok <- send_descriptor peer (pt_descriptor p) ;;
      if negb ok then ret false else
      set_remote peer (fun r => r.{ re_pending_tx := tail (re_pending_tx r) }) ;;
      t <- get ;; put t.{ t_pending_count := t_pending_count t - 1 } ;;
      drain_loop peer l
  end.
Definition drain_pending (peer : Z) : T unit :=
  remote <- remote_at peer ;;
  if bool_decide (re_inbox remote = None) || bool_decide (re_pending_tx remote = []) then ret tt else
  valid <- cx (context_validate_endpoint cfg (re_machine_base remote) (re_machine_id remote) (re_endpoint remote)) ;;
  if negb valid then
    release_pending_noexcept peer ;;
    set_remote peer (fun r => r.{ re_inbox := None })
  else
    all <- drain_loop peer (re_pending_tx remote) ;;
    if all then remove_pending_endpoint peer else ret tt.

(** [while (pending_index < pending_tx_endpoint_count_)]; see TransportSound.v for the number
    of iterations. *)
Fixpoint drain_from (fuel : nat) (pending_index : Z) : T unit :=
  t <- get ;;
  if negb (pending_index <? t_pending_endpoint_count t) then ret tt else
  match fuel with
  | O => raise OUT_OF_TIME
  | S fuel =>
      check_index pending_index ;;
      let peer := t_pending_endpoints t pending_index in
      drain_pending peer ;;
      t <- get ;;
      drain_from fuel (if t_pending_positions t peer !=? kMaxRpcEndpoints then pending_index + 1 else pending_index)
  end.
Definition drain_all_pending : T unit :=
  t <- get ;;
  if t_pending_count t =? 0 then ret tt else drain_from (Z.to_nat kMaxRpcEndpoints) 0.

Definition release_remote_endpoint_noexcept (peer : Z) : T unit :=
  release_pending_noexcept peer ;;
  remote <- remote_at peer ;;
  set_remote peer (fun _ => no_remote) ;;
  t <- get ;;
  if bool_decide (is_Some (re_machine_base remote)) && t_context t then cx (release_remote_machine V cfg (re_machine_id remote)) else ret tt.

(** ** Sources *)

Definition register_rx_peer (peer : Z) : T unit :=
  fail_if (peer >=? kMaxRpcEndpoints) PEER_ASSERT ;;
  check_index peer ;;
  t <- get ;;
  let references := t_rx_refs t peer in
  fail_if (references =? UINT16_MAX) PEER_ASSERT ;;
  put t.{ t_rx_refs := fn_set (t_rx_refs t) peer (references + 1) } ;;
  if references !=? 0 then ret tt else
  t <- get ;;
  fail_if (t_active_count t >=? kMaxRpcEndpoints) PEER_ASSERT ;;
  check_index (t_active_count t) ;;
  put t.{ t_active := fn_set (t_active t) (t_active_count t) peer }.{ t_active_count := t_active_count t + 1 }.

Definition prepare_disconnect (peer : Z) : T unit :=
  fail_if (peer >=? kMaxRpcEndpoints) PEER_ASSERT ;;
  check_index peer ;;
  t <- get ;;
  fail_if (t_rx_refs t peer <=? 0) PEER_ASSERT ;;
  if t_rx_refs t peer !=? 1 then ret tt else release_remote_endpoint_noexcept peer.

(** The position of a source in the first entries of the array, the number of entries if
    it is not there. *)
Fixpoint active_index (fuel : nat) (active : Z -> Z) (peer index : Z) : Z :=
  match fuel with
  | O => index
  | S fuel => if active index =? peer then index else active_index fuel active peer (index + 1)
  end.

Definition unregister_rx_peer (peer : Z) : T unit :=
  fail_if (peer >=? kMaxRpcEndpoints) PEER_ASSERT ;;
  check_index peer ;;
  t <- get ;;
  fail_if (t_rx_refs t peer <=? 0) PEER_ASSERT ;;
  let references := t_rx_refs t peer - 1 in
  put t.{ t_rx_refs := fn_set (t_rx_refs t) peer references } ;;
  if references !=? 0 then ret tt else
  t <- get ;;
  let index := active_index (Z.to_nat (t_active_count t)) (t_active t) peer 0 in
  fail_if (index >=? t_active_count t) PEER_ASSERT ;;
  let last := t_active_count t - 1 in
  check_index index ;; check_index last ;;
  put t.{ t_active := fn_set (fn_set (t_active t) index (t_active t last)) last UINT8_MAX }
       .{ t_active_count := last }
       .{ t_next_poll := if last =? 0 then 0 else t_next_poll t mod last } ;;
  release_remote_endpoint_noexcept peer.

(** ** Sending *)

(** A MsgBuffer: [buf_], [buffer_] and the header that [get_pkthdr_n(0)] points to. *)
Record msg_buffer := mk_msg { mb_buf : option ptr; mb_buffer : tbuffer; mb_pkthdr : pkthdr_t }.
(** [kTesting] is off, so [drop_] is not looked at. *)
Record tx_burst_item_t := mk_item { ti_routing_info : option (list Z); ti_msg_buffer : option msg_buffer; ti_pkt_idx : Z }.

Definition before (p : option ptr) (n : Z) : option ptr := (fun '(base, off) => (base, off - n)) <$> p.

Definition make_descriptor (al : allocator) (local : option Z) (mb : msg_buffer) : T (UBMessageDescriptor * tbuffer) :=
  let h := mb_pkthdr mb in
  let data_size := h_msg_size h in
  if data_size >? 0 then
    let block_payload := before (mb_buf mb) sizeof_pkthdr in
    let payload_offset := offset_of al (is_local local (mb_buf mb)) (snd <$> mb_buf mb) in
    let block_offset := u64 (offset_of al (is_local local block_payload) (snd <$> block_payload) - sizeof_block) in
    base <- local_base_t ;;
    generation <- cx ((if is_shared al local block_payload then touch base block_offset sizeof_block else ret tt) ;;
                      in_region base (generation_of al (is_local local block_payload) (snd <$> block_payload))) ;;
    on_buffer (mb_buffer mb) add_ref tt ;;
    (if bool_decide (tb_buf (mb_buffer mb) = None) then raise ADD_REF_INVALID else ret tt) ;;
    ret (mk_descriptor (set_zerocopy h) (cc_machine_id cfg) block_offset payload_offset data_size generation 0 0, mb_buffer mb)
  else ret (mk_descriptor h (cc_machine_id cfg) 0 0 data_size 0 0 0, mk_tbuffer None 0).

Definition tx_one (item : tx_burst_item_t) : T unit :=
  match ti_routing_info item, ti_msg_buffer item with
  | Some routing_info, Some mb =>
      fail_if (ti_pkt_idx item !=? 0) TX_ASSERT ;;
      let route := decode_routing_info routing_info in
      endpoint_available <- ensure_remote_endpoint route ;;
      fail_if (negb endpoint_available) TX_ASSERT ;;
      let peer := ri_rpc_id route in
      remote <- remote_at peer ;;
      if Z.of_nat (length (re_pending_tx remote)) >=? kMaxPendingTxPerEndpoint then ret tt else
      al <- the_allocator ;;
      t <- get ;;
      let local := c_local (t_cx t) in
      fail_if (negb ((h_msg_size (mb_pkthdr mb) =? 0) || is_shared al local (mb_buf mb))) TX_ASSERT ;;
      '(d, b) <- make_descriptor al local mb ;;
      emit (Accepted peer d) ;;
      if negb (bool_decide (re_pending_tx remote = [])) then enqueue_pending peer d b else
      sent <- send_descriptor peer d ;;
      if sent then ret tt else enqueue_pending peer d b
  | _, _ => raise TX_ASSERT
  end.
Definition tx_burst (items : list tx_burst_item_t) : T unit :=
  fail_if (Z.of_nat (length items) >? kPostlist) TX_ASSERT ;;
  drain_all_pending ;;
  each items tx_one.
Definition tx_flush : T unit := drain_all_pending.

(** ** Receiving *)

Definition discard_descriptor_noexcept (machine_base : Z) (d : UBMessageDescriptor) : T unit :=
  t <- get ;;
  if bool_decide (t_allocator t = None) || (d_block_offset d =? 0) || (d_payload_offset d =? 0) || (d_block_generation d =? 0) then ret tt else
  if (d_payload_offset d <? d_block_offset d) || (d_payload_offset d - d_block_offset d !=? sizeof_block + sizeof_pkthdr) then ret tt else
  match resolve_payload (cc_region_bytes cfg) true (d_block_offset d) (d_payload_offset d) 0 with
  | None => ret tt
  | Some payload =>
      _ <- try_catch (on_buffer (mk_tbuffer (Some (machine_base, payload - sizeof_pkthdr)) sizeof_pkthdr) free tt) ;; ret tt
  end.

Definition inconsistent (d : UBMessageDescriptor) (remote : RemoteEndpoint) : bool :=
  let zero_length_coordinates := (d_block_offset d =? 0) && (d_payload_offset d =? 0) && (d_block_generation d =? 0) in
  let invalid_payload_coordinates :=
    (d_payload_length d >? 0) &&
    ((d_payload_offset d <? d_block_offset d) || (d_payload_offset d - d_block_offset d !=? sizeof_block + sizeof_pkthdr)) in
  (d_payload_length d !=? h_msg_size (d_pkthdr d)) || ((d_payload_length d =? 0) && negb zero_length_coordinates) ||
  invalid_payload_coordinates || bool_decide (re_machine_base remote = None) || (d_machine_id d !=? re_machine_id remote).

(** [try_dequeue] on a source's queue of the local inbox. *)
Definition receive_descriptor (source : Z) : T (option UBMessageDescriptor) :=
  check_index source ;;
  t <- get ;;
  match t_local_inbox t with
  | None => raise SEGV
  | Some inbox =>
      '(d, head) <- cx (at_span inbox.1 (inbox_queue inbox.2 source) sizeof_queue (fun m =>
        let '(d, head, m') := try_dequeue (inbox_queue inbox.2 source) (t_consumer_heads t source) m in (inl (d, head), m'))) ;;
      t <- get ;; put t.{ t_consumer_heads := fn_set (t_consumer_heads t) source head } ;;
      ret d
  end.

(** One descriptor taken from a source: whether it was delivered to the RX ring. *)
Definition deliver (active_index : Z) (remote : RemoteEndpoint) (d : UBMessageDescriptor) : T bool :=
  if inconsistent d remote then
    (match re_machine_base remote with
     | Some base => if d_machine_id d =? re_machine_id remote then discard_descriptor_noexcept base d else ret tt
     | None => ret tt
     end) ;;
    ret false
  else
    payload <- (if d_payload_length d >? 0 then
        match re_machine_base remote, resolve_payload (cc_region_bytes cfg) (bool_decide (is_Some (re_machine_base remote)))
                 (d_block_offset d) (d_payload_offset d) (d_payload_length d) with
        | Some base, Some off => ret (Some (base, off))
        | _, _ => raise RX_ASSERT
        end
      else ret None) ;;
    t <- get ;;
    fail_if (negb ((0 <=? t_rx_head t) && (t_rx_head t <? kNumRxRingEntries))) OUT_OF_BOUNDS ;;
    put t.{ t_rx_pkthdrs := fn_set (t_rx_pkthdrs t) (t_rx_head t) (d_pkthdr d) }
         .{ t_rx_payloads := fn_set (t_rx_payloads t) (t_rx_head t) payload }
         .{ t_rx_head := (t_rx_head t + 1) mod kNumRxRingEntries }
         .{ t_next_poll := (active_index + 1) mod t_active_count t } ;;
    ret true.

(** One pass over the sources from [n] on, until one delivers. *)
Fixpoint poll_sources (fuel : nat) (n : Z) : T bool :=
  match fuel with
  | O => ret false
  | S fuel =>
      t <- get ;;
      let index := (t_next_poll t + n) mod t_active_count t in
      check_index index ;;
      let source := t_active t index in
      remote <- remote_at source ;;
      d <- receive_descriptor source ;;
      match d with
      | None => poll_sources fuel (n + 1)
      | Some d => found <- deliver index remote d ;; if found then ret true else poll_sources fuel (n + 1)
      end
  end.
Fixpoint rx_loop (fuel : nat) (received : Z) : T Z :=
  match fuel with
  | O => ret received
  | S fuel =>
      t <- get ;;
      found <- poll_sources (Z.to_nat (t_active_count t)) 0 ;;
      if found then rx_loop fuel (received + 1) else ret received
  end.
Definition rx_burst : T Z :=
  t <- get ;;
  fail_if (negb (t_rx_ring t)) RX_ASSERT ;;
  fail_if (bool_decide (t_local_inbox t = None)) RX_ASSERT ;;
  drain_all_pending ;;
  rx_loop (Z.to_nat kPostlist) 0.

(** The header is an entry of the ring, by its index; [None] is any other address. *)
Definition get_rx_payload (entry : option Z) : T (option ptr) :=
  t <- get ;;
  ret (match entry with
       | Some i => if (0 <=? i) && (i <? kNumRxRingEntries) then t_rx_payloads t i else None
       | None => None
       end).

(** ** Construction and destruction *)

Definition init_hugepage_structures : T unit :=
  t <- get ;; put t.{ t_rx_ring := true }.{ t_rx_payloads := fun _ => None }.

Definition cleanup_noexcept : T unit :=
  drain_all_pending ;;
  each (seqZ 0 kMaxRpcEndpoints) release_remote_endpoint_noexcept ;;
  t <- get ;; put t.{ t_allocator := None }.{ t_local_inbox := None } ;;
  if t_context t then
    cx (context_unregister_endpoint V cfg (t_local_endpoint t)) ;;
    t <- get ;; put t.{ t_local_endpoint := no_endpoint } ;;
    cx (context_release V cfg true) ;;
    t <- get ;; put t.{ t_context := false }
  else ret tt.

(** The members as the constructor initializes them. *)
Definition new_transport (k : cstate) (pkthdrs : Z -> pkthdr_t) : tstate :=
  mk_tstate k false None no_endpoint None (fun _ => no_remote) (fun _ => 0) (fun _ => 0) (fun _ => UINT8_MAX) 0 0
    0 0 (fun _ => UINT8_MAX) (fun _ => kMaxRpcEndpoints) false pkthdrs (fun _ => None) 0 [].
Definition UBTransport (sm_udp_port : Z) : T unit :=
  fail_if (rpc_id_ >=? kMaxRpcEndpoints) TX_ASSERT ;;
  on_fail
    (cx (context_acquire V cfg) ;;
     t <- get ;; put t.{ t_context := true } ;;
     endpoint <- cx (context_register_endpoint V cfg sm_udp_port rpc_id_) ;;
     t <- get ;; put t.{ t_local_endpoint := endpoint } ;;
     base <- local_base_t ;;
     t <- get ;; put t.{ t_local_inbox := Some (base, eh_inbox_offset endpoint) } ;;
     al <- cx (at_span base (eh_arena_offset endpoint) sizeof_arena (UBSharedAllocator (cc_machine_id cfg) endpoint)) ;;
     t <- get ;; put t.{ t_allocator := Some al })
    cleanup_noexcept.
End transport.
