(* ===== verification/TransportSound.v ===== *)
(** * UBTransport keeps its books and its order

    The invariant of a transport between calls: which remote mappings it holds, the
    compact lists of waiting and active peers, the number of waiting descriptors, and
    the order of what it accepted.  Every operation keeps it, whatever the library
    answers, whatever other processes write to the regions, and also when an
    exception is thrown. *)

From stdpp Require Import gmap.
From S2P Require Import Prelude Monad CMem ErpcUb Spsc Arena Machine Context ContextSound Transport.

Definition peer_ok (p : Z) : Prop := 0 <= p < kMaxRpcEndpoints.

(** ** Arrays over the peers *)

Lemma seqZ_split n p : 0 <= p < n -> seqZ 0 n = seqZ 0 p ++ p :: seqZ (p + 1) (n - p - 1).
Proof.
  intros Hp. replace n with (p + (n - p)) at 1 by lia. rewrite seqZ_app by lia. f_equal. rewrite Z.add_0_l. rewrite seqZ_cons by lia.
  f_equal; lia.
Qed.
(** [n] different numbers below [b] are at most [b]. *)
Lemma pigeonhole b n (f : Z -> Z) :
  0 <= b -> (forall i, 0 <= i < n -> 0 <= f i < b) -> (forall i j, 0 <= i < n -> 0 <= j < n -> f i = f j -> i = j) -> n <= b.
Proof.
  intros Hb Hr Hinj. destruct (decide (n <= 0)); [lia|].
  assert (Hs : (f <$> seqZ 0 n) ⊆+ seqZ 0 b).
  { apply NoDup_submseteq.
    - apply NoDup_fmap_2_strong; [|apply NoDup_seqZ]. intros i j Hi%elem_of_seqZ Hj%elem_of_seqZ. apply Hinj; lia.
    - intros x (i&->&Hi%elem_of_seqZ)%list_elem_of_fmap. apply elem_of_seqZ. specialize (Hr i). lia. }
  apply submseteq_length in Hs. rewrite length_fmap, !length_seqZ in Hs. lia.
Qed.

(** The compact list of the peers in [W] with their positions. *)
Record index_ok (n : Z) (E P : Z -> Z) (W : Z -> Prop) : Prop := {
  ix_n : 0 <= n;
  ix_in : forall i, 0 <= i < n -> peer_ok (E i) /\ P (E i) = i;
  ix_out : forall p, peer_ok p -> (W p /\ 0 <= P p < n /\ E (P p) = p) \/ (~ W p /\ P p = kMaxRpcEndpoints) }.

Lemma index_ext n E P W W' : (forall p, peer_ok p -> W p <-> W' p) -> index_ok n E P W -> index_ok n E P W'.
Proof. intros HW [? ? Ho]. split; try done. intros p Hp. rewrite <- HW by done. by apply Ho. Qed.
Lemma index_bound n E P W : index_ok n E P W -> n <= kMaxRpcEndpoints.
Proof.
  intros [Hn Hi _]. apply (pigeonhole _ _ E); [done|by intros i Hi'; apply Hi|].
  intros i j Hi' Hj' Heq. destruct (Hi i Hi') as [_ <-], (Hi j Hj') as [_ <-]. by rewrite Heq.
Qed.
Lemma index_add n E P W p :
  index_ok n E P W -> peer_ok p -> ~ W p ->
  n < kMaxRpcEndpoints /\ index_ok (n + 1) (fn_set E n p) (fn_set P p n) (fun q => W q \/ q = p).
Proof.
  intros Hix Hp Hw. pose proof Hix as [Hn Hi Ho].
  assert (Hnew : index_ok (n + 1) (fn_set E n p) (fn_set P p n) (fun q => W q \/ q = p)).
  { split; [lia| |].
    - intros i Hi'. destruct (decide (i = n)) as [->|Hne]; [rewrite !fn_set_eq; done|].
      rewrite fn_set_ne by done. destruct (Hi i ltac:(lia)) as [Hpi HP]. split; [done|]. rewrite fn_set_ne; [done|].
      intros ->. destruct (Ho (E i) Hpi) as [[? _]|[_ HP']]; [done|]. rewrite HP in HP'. pose proof (index_bound _ _ _ _ Hix). lia.
    - intros q Hq. destruct (decide (q = p)) as [->|Hne].
      + left. rewrite !fn_set_eq. split; [by right|]. split; [lia|done].
      + rewrite (fn_set_ne P) by done. destruct (Ho q Hq) as [(?&?&Hq')|[? ?]]; [left|right; naive_solver].
        split; [by left|]. split; [lia|]. rewrite fn_set_ne by lia. done. }
  split; [|done]. pose proof (index_bound _ _ _ _ Hnew). lia.
Qed.
Lemma index_remove n E P W p :
  index_ok n E P W -> peer_ok p -> W p ->
  let last := n - 1 in let moved := E last in let position := P p in
  peer_ok last /\ peer_ok position /\ peer_ok moved /\
  index_ok last (fn_set (fn_set E position moved) last UINT8_MAX) (fn_set (fn_set P moved position) p kMaxRpcEndpoints) (fun q => W q /\ q <> p).
Proof.
  intros Hix Hp Hw. pose proof Hix as [Hn Hi Ho]. pose proof (index_bound _ _ _ _ Hix) as Hb. cbv zeta.
  destruct (Ho p Hp) as [(_&HPp&HEp)|[? _]]; [|done]. destruct (Hi (n - 1) ltac:(lia)) as [Hm HPm].
  split; [unfold peer_ok; lia|]. split; [unfold peer_ok; lia|]. split; [done|]. split; [lia| |].
  - intros i Hi'. rewrite (fn_set_ne _ (n - 1)) by lia. destruct (decide (i = P p)) as [->|Hne].
    + rewrite fn_set_eq. split; [done|]. rewrite fn_set_ne, fn_set_eq; [done|]. intros Heq. rewrite <- Heq in HPm. lia.
    + rewrite fn_set_ne by done. destruct (Hi i ltac:(lia)) as [? HPi]. split; [done|].
      rewrite !fn_set_ne; [done| |]; intros Heq; [rewrite <- Heq, HPm in HPi; lia|]. apply Hne. by rewrite <- HPi, <- Heq.
  - intros q Hq. destruct (decide (q = p)) as [->|Hne]; [right; rewrite fn_set_eq; naive_solver|]. rewrite (fn_set_ne _ p) by done.
    destruct (Ho q Hq) as [(Hwq&HPq&HEq)|[? HPq]].
    + left. split; [done|]. destruct (decide (q = E (n - 1))) as [->|Hne'].
      * rewrite fn_set_eq. destruct (decide (P p = n - 1)) as [Heq|]; [by rewrite <- Heq, HEp in Hne|]. split; [lia|]. rewrite fn_set_ne, fn_set_eq by lia. done.
      * rewrite fn_set_ne by done. assert (P q <> n - 1) by (intros Heq; by rewrite <- Heq, HEq in Hne'). split; [lia|].
        rewrite !fn_set_ne; [done| |lia]. intros Heq. by rewrite <- HEp, Heq, HEq in Hne.
    + right. split; [naive_solver|]. rewrite fn_set_ne; [done|]. intros <-. rewrite HPm in HPq. lia.
Qed.

(** Sums over the peers and the references they hold. *)
Definition total (f : Z -> Z) : Z := foldr Z.add 0 (f <$> seqZ 0 kMaxRpcEndpoints).
Lemma foldr_sum_app (l k : list Z) : foldr Z.add 0 (l ++ k) = foldr Z.add 0 l + foldr Z.add 0 k.
Proof. induction l as [|x l IH]; simpl; lia. Qed.
Lemma fmap_fn_set {X} (f : Z -> X) p x (l : list Z) : p ∉ l -> fn_set f p x <$> l = f <$> l.
Proof. intros Hp. apply list_fmap_ext. intros i y Hy. apply fn_set_ne. intros ->. apply Hp. by apply list_elem_of_lookup_2 in Hy. Qed.
Lemma peers_apart p : peer_ok p -> p ∉ seqZ 0 p /\ p ∉ seqZ (p + 1) (kMaxRpcEndpoints - p - 1).
Proof. intros Hp. rewrite !elem_of_seqZ. unfold peer_ok in Hp. lia. Qed.
Lemma total_set f p v : peer_ok p -> total (fn_set f p v) = total f - f p + v.
Proof.
  intros Hp. destruct (peers_apart p Hp). unfold total. rewrite (seqZ_split _ _ Hp), !fmap_app, !fmap_cons, !foldr_sum_app.
  rewrite !fmap_fn_set, fn_set_eq by done. simpl. lia.
Qed.
Lemma total_ext f g : (forall p, peer_ok p -> f p = g p) -> total f = total g.
Proof. intros H. unfold total. f_equal. apply list_fmap_ext. intros i x Hx%list_elem_of_lookup_2%elem_of_seqZ. apply H. unfold peer_ok. lia. Qed.
Lemma total_ge f p : (forall q, peer_ok q -> 0 <= f q) -> peer_ok p -> f p <= total f.
Proof.
  intros Hf Hp. unfold total. rewrite (seqZ_split _ _ Hp), fmap_app, fmap_cons, foldr_sum_app. simpl.
  assert (Hpos : forall l, (forall q, q ∈ l -> peer_ok q) -> 0 <= foldr Z.add 0 (f <$> l)).
  { induction l as [|q l IH]; intros Hl; [done|]. rewrite fmap_cons. cbn [foldr]. pose proof (Hf q (Hl q ltac:(by left))). pose proof (IH (fun q Hq => Hl q ltac:(by right))). lia. }
  assert (0 <= foldr Z.add 0 (f <$> seqZ 0 p)) by (apply Hpos; intros q Hq%elem_of_seqZ; unfold peer_ok in *; lia).
  assert (0 <= foldr Z.add 0 (f <$> seqZ (p + 1) (kMaxRpcEndpoints - p - 1))) by (apply Hpos; intros q Hq%elem_of_seqZ; unfold peer_ok in *; lia). lia.
Qed.

Definition hold (r : RemoteEndpoint) : list Z := match re_machine_base r with Some _ => [re_machine_id r] | None => [] end.
Definition held (R : Z -> RemoteEndpoint) : list Z := concat (hold ∘ R <$> seqZ 0 kMaxRpcEndpoints).
Definition held_rest (R : Z -> RemoteEndpoint) (p : Z) : list Z :=
  concat (hold ∘ R <$> seqZ 0 p) ++ concat (hold ∘ R <$> seqZ (p + 1) (kMaxRpcEndpoints - p - 1)).
Lemma held_at R p : peer_ok p -> held R ≡ₚ hold (R p) ++ held_rest R p.
Proof.
  intros Hp. unfold held, held_rest. rewrite (seqZ_split _ _ Hp), fmap_app, fmap_cons, concat_app. simpl. by rewrite Permutation_app_swap_app.
Qed.
Lemma held_rest_set R p r : peer_ok p -> held_rest (fn_set R p r) p = held_rest R p.
Proof.
  intros Hp. destruct (peers_apart p Hp) as [H1 H2]. unfold held_rest. rewrite <- (fmap_fn_set (hold ∘ R) p (hold r) _ H1), <- (fmap_fn_set (hold ∘ R) p (hold r) _ H2).
  f_equal; f_equal; apply list_fmap_ext; intros i x _; simpl; unfold fn_set; by case_decide.
Qed.
Lemma held_set R p r : peer_ok p -> held (fn_set R p r) ≡ₚ hold r ++ held_rest R p.
Proof. intros Hp. by rewrite (held_at _ p Hp), fn_set_eq, held_rest_set. Qed.
Lemma held_length R : (length (held R) <= 64)%nat.
Proof.
  unfold held. assert (H : forall l, (length (concat (hold ∘ R <$> l)) <= length l)%nat).
  { induction l as [|p l IH]; [simpl; lia|]. rewrite fmap_cons. cbn [concat length]. rewrite length_app. assert (length ((hold ∘ R) p) <= 1)%nat by (simpl; unfold hold; case_match; simpl; lia). lia. }
  specialize (H (seqZ 0 kMaxRpcEndpoints)). by rewrite length_seqZ in H.
Qed.
Lemma held_has R p b : peer_ok p -> re_machine_base (R p) = Some b -> re_machine_id (R p) ∈ held R.
Proof. intros Hp Hb. rewrite (held_at R p Hp). unfold hold. rewrite Hb. left. Qed.

(** The sources with a reference. *)
Record active_ok (n : Z) (A refs : Z -> Z) : Prop := {
  ac_n : 0 <= n;
  ac_in : forall i, 0 <= i < n -> peer_ok (A i) /\ 0 < refs (A i);
  ac_inj : forall i j, 0 <= i < n -> 0 <= j < n -> A i = A j -> i = j;
  ac_all : forall p, peer_ok p -> 0 < refs p -> exists i, 0 <= i < n /\ A i = p;
  ac_refs : forall p, peer_ok p -> 0 <= refs p <= UINT16_MAX }.
Lemma active_peer_bound n A refs : active_ok n A refs -> n <= kMaxRpcEndpoints.
Proof. intros [? Hi Hj _ _]. apply (pigeonhole _ _ A); [done|by intros i Hi'; apply Hi|done]. Qed.
Lemma active_more n A refs p v :
  active_ok n A refs -> peer_ok p -> 0 < refs p -> 0 < v <= UINT16_MAX -> active_ok n A (fn_set refs p v).
Proof.
  intros [? Hi Hj Ha Hr] Hp Hpos Hv.
  assert (Hs : forall q, 0 < refs q <-> 0 < fn_set refs p v q).
  { intros q. unfold fn_set. case_decide as Hq; [subst; lia|done]. }
  split; try done.
  - intros i Hi'. rewrite <- Hs. by apply Hi.
  - intros q Hq. rewrite <- Hs. by apply Ha.
  - intros q Hq. unfold fn_set. case_decide; [lia|by apply Hr].
Qed.
Lemma active_add n A refs p :
  active_ok n A refs -> peer_ok p -> refs p = 0 ->
  n < kMaxRpcEndpoints /\ active_ok (n + 1) (fn_set A n p) (fn_set refs p 1).
Proof.
  intros [Hn Hi Hj Ha Hr] Hp Hz.
  assert (Hnew : active_ok (n + 1) (fn_set A n p) (fn_set refs p 1)).
  { assert (Hnot : forall i, 0 <= i < n -> A i <> p) by (intros i Hi' <-; destruct (Hi i Hi'); lia).
    split; [lia| | | |].
    - intros i Hi'. destruct (decide (i = n)) as [->|]; [rewrite !fn_set_eq; split; [done|lia]|]. rewrite fn_set_ne by done.
      destruct (Hi i ltac:(lia)). rewrite fn_set_ne; [done|]. intros ->. by apply (Hnot i ltac:(lia)).
    - intros i j Hi' Hj'. unfold fn_set. repeat case_decide; subst; try done; intros Heq.
      + by destruct (Hnot j ltac:(lia)).
      + by destruct (Hnot i ltac:(lia)).
      + apply Hj; (lia || done).
    - intros q Hq. destruct (decide (q = p)) as [->|Hne]; [exists n; rewrite fn_set_eq; split; [lia|done]|]. rewrite fn_set_ne by done.
      intros Hpos. destruct (Ha q Hq Hpos) as (i&?&?). exists i. rewrite fn_set_ne by lia. split; [lia|done].
    - intros q Hq. unfold fn_set. case_decide; [split; [lia|done]|by apply Hr]. }
  split; [|done]. pose proof (active_peer_bound _ _ _ Hnew). lia.
Qed.
Lemma active_index_spec n A p i :
  0 <= i -> let r := active_index n A p i in
  i <= r <= i + Z.of_nat n /\ (r < i + Z.of_nat n -> A r = p) /\ forall j, i <= j < r -> A j <> p.
Proof.
  revert i. induction n as [|n IH]; intros i Hi; cbn [active_index]; [split; [lia|]; split; [lia|]; intros; lia|].
  destruct (A i =? p) eqn:E; bprop; [split; [lia|]; split; [done|]; intros; lia|].
  destruct (IH (i + 1) ltac:(lia)) as (H1&H2&H3). cbv zeta in *. split; [lia|]. split; [intros; apply H2; lia|].
  intros j Hj. destruct (decide (j = i)) as [->|]; [done|]. apply H3. lia.
Qed.
Lemma active_remove n A refs p :
  active_ok n A refs -> peer_ok p -> 0 < refs p ->
  let i := active_index (Z.to_nat n) A p 0 in
  0 <= i < n /\ active_ok (n - 1) (fn_set (fn_set A i (A (n - 1))) (n - 1) UINT8_MAX) (fn_set refs p 0).
Proof.
  intros Hac Hp Hpos. pose proof (active_peer_bound _ _ _ Hac) as Hb. destruct Hac as [Hn Hi Hj Ha Hr]. cbv zeta.
  destruct (active_index_spec (Z.to_nat n) A p 0 ltac:(lia)) as (H1&H2&H3). cbv zeta in *. set (i := active_index (Z.to_nat n) A p 0) in *.
  destruct (Ha p Hp Hpos) as (i0&Hi0&Ei0). assert (Hin : i < n). { destruct (decide (i < n)); [done|]. destruct (H3 i0); [lia|done]. }
  assert (Ei : A i = p) by (apply H2; lia). split; [lia|].
  assert (Hval : forall j, 0 <= j < n - 1 -> exists j', 0 <= j' < n /\ j' <> i /\ fn_set (fn_set A i (A (n - 1))) (n - 1) UINT8_MAX j = A j' /\ (j' = j \/ (j = i /\ j' = n - 1))).
  { intros j Hj'. rewrite fn_set_ne by lia. destruct (decide (j = i)) as [->|Hne].
    - exists (n - 1). rewrite fn_set_eq. split; [lia|]. split; [lia|]. split; [done|]. right. done.
    - exists j. rewrite fn_set_ne by done. split; [lia|]. split; [done|]. split; [done|]. by left. }
  split; [lia| | | |].
  - intros j Hj'. destruct (Hval j Hj') as (j'&?&Hji&->&_). destruct (Hi j' ltac:(done)) as [? ?]. split; [done|]. rewrite fn_set_ne; [done|].
    intros Heq. apply Hji, Hj; [done|lia|]. by rewrite Ei, Heq.
  - intros j k Hj' Hk'. destruct (Hval j Hj') as (j'&?&?&->&Hoj), (Hval k Hk') as (k'&?&?&->&Hok). intros Heq%Hj; [|done|done]. lia.
  - intros q Hq. destruct (decide (q = p)) as [->|Hne]; [rewrite fn_set_eq; lia|]. rewrite fn_set_ne by done. intros Hq0.
    destruct (Ha q Hq Hq0) as (j&Hj'&Ej). destruct (decide (j = n - 1)) as [->|Hjn].
    + exists i. assert (i <> n - 1) by congruence. rewrite fn_set_ne, fn_set_eq by lia. split; [lia|done].
    + exists j. rewrite !fn_set_ne; [split; [lia|done]| |lia]. congruence.
  - intros q Hq. unfold fn_set. case_decide; [split; [lia|done]|by apply Hr].
Qed.

(** ** The invariant *)

(** What was accepted for a peer, and what is no longer waiting, in order. *)
Definition accepted_by (p : Z) (h : list tx_event) : list UBMessageDescriptor :=
  omap (fun e => match e with Accepted q d => if q =? p then Some d else None | _ => None end) h.
Definition settled_by (p : Z) (h : list tx_event) : list UBMessageDescriptor :=
  omap (fun e => match e with Published q d | Released q d => if q =? p then Some d else None | _ => None end) h.

Section sound.
(** [L] is the mapping of this machine's region. *)
Context (V : sdk) (cfg : context_config) (rpc_id_ L : Z).
Local Notation maps := (maps cfg).
Local Notation ctx_ok := (ctx_ok cfg).

Definition local_buffer (b : tbuffer) : Prop := forall base off, tb_buf b = Some (base, off) -> base = L.
Record remote_ok (k : cstate) (r : RemoteEndpoint) : Prop := {
  ro_maps : forall b, re_machine_base r = Some b -> maps k (re_machine_id r) b;
  ro_inbox : forall b off, re_inbox r = Some (b, off) -> re_machine_base r = Some b;
  ro_waiting : re_pending_tx r <> [] -> re_inbox r <> None;
  ro_length : Z.of_nat (length (re_pending_tx r)) <= kMaxPendingTxPerEndpoint;
  ro_buffers : Forall (fun p => local_buffer (pt_backing_buffer p)) (re_pending_tx r) }.

(** The references are those of the remote endpoints and those held elsewhere in the process. *)
Record core_ok (others : list Z) (t : tstate) : Prop := {
  co_ctx : ctx_ok (held (t_remotes t) ++ others) (t_cx t);
  co_others : Z.of_nat (length others) < 2 ^ 63;
  co_context : t_context t = true;
  co_alloc : t_allocator t <> None;
  co_base : c_local (t_cx t) = Some L;
  co_exists : c_context (t_cx t) = true /\ 0 < c_references (t_cx t);
  co_local_inbox : exists off, t_local_inbox t = Some (L, off);
  co_remotes : forall p, peer_ok p -> remote_ok (t_cx t) (t_remotes t p) }.

Definition waiting (t : tstate) (p : Z) : Prop := re_pending_tx (t_remotes t p) <> [].
Definition lengths (R : Z -> RemoteEndpoint) (p : Z) : Z := Z.of_nat (length (re_pending_tx (R p))).
Definition descriptors (r : RemoteEndpoint) : list UBMessageDescriptor := pt_descriptor <$> re_pending_tx r.

(** [W] are the peers of the index, [X] what is accepted and in no queue yet. *)
Record books_ok (W : Z -> Prop) (X : Z -> list UBMessageDescriptor) (t : tstate) : Prop := {
  bo_index : index_ok (t_pending_endpoint_count t) (t_pending_endpoints t) (t_pending_positions t) W;
  bo_count : t_pending_count t = total (lengths (t_remotes t));
  bo_order : forall p, peer_ok p -> accepted_by p (t_history t) = settled_by p (t_history t) ++ descriptors (t_remotes t p) ++ X p;
  bo_active : active_ok (t_active_count t) (t_active t) (t_rx_refs t);
  bo_poll : 0 <= t_next_poll t;
  bo_head : 0 <= t_rx_head t < kNumRxRingEntries }.

Definition nothing (_ : Z) : list UBMessageDescriptor := [].
Definition tinv (others : list Z) (t : tstate) : Prop := core_ok others t /\ books_ok (waiting t) nothing t.

(** ** Rules *)

Lemma wp_cx {X} (m : C X) (Q : X -> tstate -> Prop) E t :
  wp m (fun x k => Q x t.{ t_cx := k }) (fun e k => E e t.{ t_cx := k }) (t_cx t) -> wp (cx m) Q E t.
Proof. unfold wp, cx. by destruct (m (t_cx t)) as [[] k]. Qed.
Lemma wp_check_index i (Q : unit -> tstate -> Prop) E t : peer_ok i -> Q tt t -> wp (check_index i) Q E t.
Proof. intros Hi HQ. unfold check_index. wp_step; [|done]. bprop. unfold peer_ok in Hi. destruct H; bprop; lia. Qed.
Lemma wp_remote_at p (Q : RemoteEndpoint -> tstate -> Prop) E t : peer_ok p -> Q (t_remotes t p) t -> wp (remote_at p) Q E t.
Proof. intros Hp HQ. unfold remote_at. wp_step. apply wp_check_index; [done|]. by repeat wp_step. Qed.
Lemma wp_set_remote p f (Q : unit -> tstate -> Prop) E t :
  peer_ok p -> Q tt t.{ t_remotes := fn_set (t_remotes t) p (f (t_remotes t p)) } -> wp (set_remote p f) Q E t.
Proof. intros Hp HQ. unfold set_remote. wp_step. apply wp_check_index; [done|]. by repeat wp_step. Qed.
Lemma wp_emit e (Q : unit -> tstate -> Prop) E t : Q tt t.{ t_history := t_history t ++ [e] } -> wp (emit e) Q E t.
Proof. intros HQ. unfold emit. by repeat wp_step. Qed.

Lemma remote_ok_same k k' r :
  (forall m b, m ∈ hold r -> maps k m b -> maps k' m b) -> remote_ok k r -> remote_ok k' r.
Proof.
  intros Hm [H1 H2 H3 H4 H5]. split; try done. intros b Hb. apply Hm; [unfold hold; rewrite Hb; left|by apply H1].
Qed.
(** The regions changed, nothing else. *)
Lemma core_ok_same others t k : rest_same (t_cx t) k -> core_ok others t -> core_ok others t.{ t_cx := k }.
Proof.
  intros Hs [Hc Ho Hx Ha Hl He Hi Hr]. split; simpl; try done.
  - by eapply ctx_ok_same.
  - by destruct Hs as (_&->&_).
  - by destruct Hs as (_&_&_&->&->&_).
  - intros p Hp. eapply remote_ok_same; [|by apply Hr]. intros m b' _. by apply maps_same.
Qed.
Lemma core_ok_set_remote others t p r :
  peer_ok p -> hold r = hold (t_remotes t p) -> remote_ok (t_cx t) r ->
  core_ok others t -> core_ok others t.{ t_remotes := fn_set (t_remotes t) p r }.
Proof.
  intros Hp Hh Hr [Hc Ho Hx Ha Hl He Hi Hrs]. split; simpl; try done.
  - eapply ctx_ok_perm; [|exact Hc]. by rewrite (held_set _ _ _ Hp), (held_at _ _ Hp), Hh.
  - intros q Hq. unfold fn_set. case_decide; [done|by apply Hrs].
Qed.

Lemma omap_snoc {X Y} (f : X -> option Y) l x : omap f (l ++ [x]) = omap f l ++ match f x with Some y => [y] | None => [] end.
Proof. by rewrite omap_app. Qed.

Lemma wp_remove_pending p (Q : unit -> tstate -> Prop) E t W X :
  peer_ok p -> books_ok W X t -> forall Hd : Decision (W p),
  (forall n e ps, n = t_pending_endpoint_count t - (if Hd then 1 else 0) -> books_ok (fun q => W q /\ q <> p) X t.{ t_pending_endpoints := e }.{ t_pending_positions := ps }.{ t_pending_endpoint_count := n } ->
     Q tt t.{ t_pending_endpoints := e }.{ t_pending_positions := ps }.{ t_pending_endpoint_count := n }) ->
  wp (remove_pending_endpoint p) Q E t.
Proof.
  intros Hp Hb Hd HQ. destruct Hb as [Hix Hc Ho Ha Hpo Hh]. unfold remove_pending_endpoint. wp_step. apply wp_check_index; [done|]. do 3 wp_step.
  - wp_step. bprop. destruct (ix_out _ _ _ _ Hix p Hp) as [(_&Hpos&_)|[Hw _]].
    { pose proof (index_bound _ _ _ _ Hix). lia. }
    specialize (HQ (t_pending_endpoint_count t) (t_pending_endpoints t) (t_pending_positions t)). destruct t. apply HQ; [destruct Hd; [done|lia]|]. split; try done.
    eapply index_ext; [|exact Hix]. intros q _. split; [|tauto]. intros Hq. split; [done|]. by intros ->.
  - bprop. destruct (ix_out _ _ _ _ Hix p Hp) as [(Hw&Hpos&_)|[_ Hbad]]; [|done].
    destruct (index_remove _ _ _ _ p Hix Hp Hw) as (Hl&Hps&Hm&Hix'). cbv zeta in *.
    wp_step. apply wp_check_index; [done|]. wp_step. apply wp_check_index; [done|]. wp_step. apply wp_check_index; [done|]. wp_step. apply HQ; [by destruct Hd|]. by split.
Qed.

(** The books see of the remote endpoints only what waits for them. *)
Lemma books_ok_remotes W X t k R :
  (forall p, peer_ok p -> re_pending_tx (R p) = re_pending_tx (t_remotes t p)) -> books_ok W X t -> books_ok W X t.{ t_cx := k }.{ t_remotes := R }.
Proof.
  intros HR [Hix Hc Ho Ha Hp Hh]. split; simpl; try done.
  - rewrite Hc. apply total_ext. intros p Hp'. unfold lengths. by rewrite HR.
  - intros p Hp'. rewrite Ho by done. unfold descriptors. by rewrite HR.
Qed.
Lemma books_ok_cx W X t k : books_ok W X t -> books_ok W X t.{ t_cx := k }.
Proof. intros [Hix Hc Ho Ha Hp Hh]. by split. Qed.

Definition outcome_of (p : Z) (d : UBMessageDescriptor) (e : tx_event) : Prop := e = Published p d \/ e = Released p d.
Lemma outcome_order p d e h q : outcome_of p d e ->
  accepted_by q (h ++ [e]) = accepted_by q h /\ settled_by q (h ++ [e]) = settled_by q h ++ (if p =? q then [d] else []).
Proof. unfold accepted_by, settled_by. rewrite !omap_snoc. intros [->| ->]; rewrite app_nil_r; (split; [done|]); by destruct (p =? q). Qed.

(** The first waiting descriptor is sent or released. *)
Lemma books_ok_pop W X t p d l r e :
  peer_ok p -> books_ok W X t -> re_pending_tx (t_remotes t p) = d :: l -> re_pending_tx r = l -> outcome_of p (pt_descriptor d) e ->
  books_ok W X t.{ t_remotes := fn_set (t_remotes t) p r }.{ t_pending_count := t_pending_count t - 1 }.{ t_history := t_history t ++ [e] }.
Proof.
  intros Hp [Hix Hc Ho Ha Hpo Hh] Hpend Hr He. split; simpl; try done.
  - rewrite (total_ext _ (fn_set (lengths (t_remotes t)) p (Z.of_nat (length l)))).
    + rewrite total_set by done. unfold lengths at 2. rewrite Hpend. simpl length. lia.
    + intros q _. unfold lengths, fn_set. case_decide; [by rewrite Hr|done].
  - intros q Hq. destruct (outcome_order p (pt_descriptor d) e (t_history t) q He) as [-> ->]. rewrite Ho by done. unfold fn_set, descriptors.
    case_decide as Hqp; [subst q; rewrite Z.eqb_refl, Hpend, Hr; by rewrite <- !app_assoc|].
    destruct (p =? q) eqn:Eq; bprop; [done|]. by rewrite app_nil_r.
Qed.
Lemma count_positive W X t p : peer_ok p -> books_ok W X t -> re_pending_tx (t_remotes t p) <> [] -> 0 < t_pending_count t.
Proof.
  intros Hp Hb Hw. rewrite (bo_count _ _ _ Hb). pose proof (total_ge (lengths (t_remotes t)) p ltac:(intros; unfold lengths; lia) Hp).
  assert (0 < lengths (t_remotes t) p) by (unfold lengths; destruct (re_pending_tx (t_remotes t p)); [done|simpl; lia]). lia.
Qed.

Lemma wp_on_local_buffer {X} (b : tbuffer) (op : Buffer -> A X) x0 (Q : X -> tstate -> Prop) E others t :
  core_ok others t -> local_buffer b -> (forall b, plain (op b)) ->
  (forall x k, rest_same (t_cx t) k -> Q x t.{ t_cx := k }) -> (forall e k, plain_error e -> rest_same (t_cx t) k -> E e t.{ t_cx := k }) ->
  wp (on_buffer b op x0) Q E t.
Proof.
  intros Hc Hb Hop HQ HE. unfold on_buffer. destruct (tb_buf b) as [[base off]|] eqn:Eb.
  - apply wp_cx. destruct (co_local _ _ _ (co_ctx _ _ Hc)) as (b0&Hl&Hlv). rewrite (Hb _ _ Eb). rewrite (co_base _ _ Hc) in Hl. injection Hl as <-.
    eapply wp_at_span; [exact Hlv|apply Hop|by intros; apply HQ|by intros; apply HE].
  - wp_step. specialize (HQ x0 (t_cx t) (rest_same_refl _)). by destruct t.
Qed.

(** Nothing of the remote endpoint but its queue differs. *)
Definition same_but_pending (r r' : RemoteEndpoint) : Prop :=
  re_machine_base r' = re_machine_base r /\ re_machine_id r' = re_machine_id r /\ re_inbox r' = re_inbox r /\ re_endpoint r' = re_endpoint r.
Lemma same_but_hold r r' : same_but_pending r r' -> hold r' = hold r.
Proof. intros (Hb&Hi&_). unfold hold. by rewrite Hb, Hi. Qed.
Lemma remote_ok_pop k r r' d l :
  remote_ok k r -> same_but_pending r r' -> re_pending_tx r = d :: l -> re_pending_tx r' = l -> remote_ok k r'.
Proof.
  intros [H1 H2 H3 H4 H5] (E1&E2&E3&_) Hp Hp'. rewrite Hp in H3, H4, H5. split; rewrite ?E1, ?E2, ?E3, ?Hp'; try done.
  - intros _. by apply H3.
  - simpl length in H4. lia.
  - by apply Forall_cons in H5 as [_ ?].
Qed.

Lemma wp_release_all p others W X (Q : unit -> tstate -> Prop) E l t :
  peer_ok p -> core_ok others t -> books_ok W X t -> re_pending_tx (t_remotes t p) = l -> (forall t, E SPINS t) ->
  (forall t', core_ok others t' -> books_ok W X t' -> re_pending_tx (t_remotes t' p) = [] -> same_but_pending (t_remotes t p) (t_remotes t' p) ->
     (forall q, q <> p -> t_remotes t' q = t_remotes t q) -> t_pending_endpoint_count t' = t_pending_endpoint_count t -> Q tt t') ->
  wp (each l (release_one p)) Q E t.
Proof.
  intros Hp. revert t. induction l as [|d l IH]; intros t Hc Hb Hl HE HQ; simpl; [wp_step; by apply HQ|].
  wp_step. unfold release_one, pop_pending. do 2 wp_step. apply wp_set_remote; [done|]. do 4 wp_step. apply wp_emit. do 2 wp_step.
  assert (Hpos : 0 < t_pending_count t) by (eapply count_positive; [done|done|by rewrite Hl]).
  assert (Ht : t_pending_count t >? 0 = true) by (apply Z.ltb_lt; lia).
  set (r := (t_remotes t p).{ re_pending_tx := tail (re_pending_tx (t_remotes t p)) }).
  assert (Hr : re_pending_tx r = l) by (simpl; by rewrite Hl).
  set (t1 := t.{ t_remotes := fn_set (t_remotes t) p r }.{ t_pending_count := t_pending_count t - 1 }.{ t_history := t_history t ++ [Released p (pt_descriptor d)] }).
  assert (Hb1 : books_ok W X t1) by (apply (books_ok_pop W X t p d l r); [done|done|done|done|by right]).
  assert (Hc1 : core_ok others t1).
  { pose proof (core_ok_set_remote others t p r Hp) as Hset. destruct Hset as [? ? ? ? ? ? ? ?]; [done| |done|by split].
    eapply remote_ok_pop; [by apply (co_remotes _ _ Hc p)|done|exact Hl|done]. }
  assert (Hgo : forall k, rest_same (t_cx t1) k -> wp (each l (release_one p)) Q E t1.{ t_cx := k }).
  { intros k Hs. apply IH; [by apply core_ok_same|by apply books_ok_cx|by simpl; rewrite fn_set_eq|done|]. simpl. rewrite fn_set_eq.
    intros t' ? ? ? Hsb Ho Hn. apply HQ; try done. intros q Hq. rewrite Ho by done. by rewrite fn_set_ne. }
  match goal with |- wp (match t_allocator ?u with _ => _ end) _ _ ?v => change u with v; replace v with t1 by (unfold t1; simpl; by rewrite Ht) end.
  destruct (t_allocator t1); [|wp_step; specialize (Hgo (t_cx t1) (rest_same_refl _)); by destruct t1].
  wp_step. apply wp_try. eapply wp_on_local_buffer; [exact Hc1| |apply plain_free| |].
  - pose proof (ro_buffers _ _ (co_remotes _ _ Hc p Hp)) as Hbf. rewrite Hl in Hbf. by apply Forall_cons in Hbf as [? _].
  - intros _ k Hs. wp_step. by apply Hgo.
  - intros e k He Hs. unfold caught. rewrite plain_not_fault by done. simpl. destruct (e =? SPINS) eqn:Ee; bprop; simpl; [subst; apply HE|]. wp_step. by apply Hgo.
Qed.

#[local] Instance waiting_dec t p : Decision (waiting t p).
Proof. unfold waiting. destruct (re_pending_tx (t_remotes t p)); [right|left]; by intros ?. Defined.
Definition one_if (t : tstate) (p : Z) : Z := if decide (waiting t p) then 1 else 0.

(** What became of a peer whose queue was emptied. *)
Record emptied (others : list Z) (X : Z -> list UBMessageDescriptor) (p : Z) (t t' : tstate) : Prop := {
  em_core : core_ok others t';
  em_books : books_ok (waiting t') X t';
  em_empty : re_pending_tx (t_remotes t' p) = [];
  em_same : same_but_pending (t_remotes t p) (t_remotes t' p);
  em_others : forall q, q <> p -> t_remotes t' q = t_remotes t q;
  em_count : t_pending_endpoint_count t' = t_pending_endpoint_count t - one_if t p }.

(** The peers in the index before the queue of [p] was emptied are those of [t]. *)
Lemma wp_remove_emptied p others X (Q : unit -> tstate -> Prop) E t t1 :
  peer_ok p -> core_ok others t1 -> books_ok (waiting t) X t1 -> re_pending_tx (t_remotes t1 p) = [] ->
  same_but_pending (t_remotes t p) (t_remotes t1 p) -> (forall q, q <> p -> t_remotes t1 q = t_remotes t q) ->
  t_pending_endpoint_count t1 = t_pending_endpoint_count t -> (forall t', emptied others X p t t' -> Q tt t') ->
  wp (remove_pending_endpoint p) Q E t1.
Proof.
  intros Hp Hc Hb Hnil Hs Ho Hn HQ. eapply (wp_remove_pending p _ _ _ _ _ Hp Hb (waiting_dec t p)). intros n e ps Hn' Hb'. apply HQ. split; simpl; try done.
  - destruct Hc. by split.
  - destruct Hb' as [Hix ? ? ? ? ?]. split; try done. eapply index_ext; [|exact Hix]. intros q _. unfold waiting. simpl. destruct (decide (q = p)) as [->|Hne].
    + rewrite Hnil. naive_solver.
    + rewrite Ho by done. naive_solver.
  - rewrite Hn', Hn. done.
Qed.
Lemma wp_release_pending p others X (Q : unit -> tstate -> Prop) E t :
  peer_ok p -> core_ok others t -> books_ok (waiting t) X t -> (forall t, E SPINS t) ->
  (forall t', emptied others X p t t' -> Q tt t') -> wp (release_pending_noexcept p) Q E t.
Proof.
  intros Hp Hc Hb HE HQ. unfold release_pending_noexcept. wp_step. apply wp_remote_at; [done|]. wp_step.
  eapply wp_release_all; [done|exact Hc|exact Hb|done|done|]. intros t1 Hc1 Hb1 Hnil Hs Ho Hn. by eapply wp_remove_emptied.
Qed.

(** [try_enqueue] at a remote endpoint with an inbox. *)
Lemma wp_send p d others (Q : bool -> tstate -> Prop) E t :
  peer_ok p -> core_ok others t -> re_inbox (t_remotes t p) <> None ->
  (forall ok pr k, rest_same (t_cx t) k ->
     let r := (t_remotes t p).{ re_producer := pr } in
     let t1 := t.{ t_cx := k }.{ t_remotes := fn_set (t_remotes t) p r } in
     Q ok (if ok : bool then t1.{ t_history := t_history t1 ++ [Published p d] } else t1)) ->
  wp (send_descriptor rpc_id_ p d) Q E t.
Proof.
  intros Hp Hc Hi HQ. unfold send_descriptor. wp_step. apply wp_remote_at; [done|]. destruct (re_inbox (t_remotes t p)) as [[b off]|] eqn:Ei; [|done].
  destruct (co_remotes _ _ Hc p Hp) as [Hm Hib _ _ _]. destruct (Hm b (Hib b off Ei)) as [Hlive _].
  wp_step. apply wp_cx. eapply (wp_at_span_with (fun _ => False) b); [exact Hlive| | |done].
  - intros m. unfold wp. by destruct (try_enqueue _ _ _ m) as [[ok pr] m'].
  - intros [ok pr] k Hs _ _. wp_step. apply wp_set_remote; [done|]. specialize (HQ ok pr k Hs). cbv zeta in HQ. wp_step. destruct ok.
    + apply wp_emit. wp_step. exact HQ.
    + repeat wp_step. exact HQ.
Qed.

(** A new producer state changes nothing that the invariant sees. *)
Lemma producer_same W X others t p pr k :
  peer_ok p -> core_ok others t -> books_ok W X t -> rest_same (t_cx t) k ->
  let t1 := t.{ t_cx := k }.{ t_remotes := fn_set (t_remotes t) p (t_remotes t p).{ re_producer := pr } } in core_ok others t1 /\ books_ok W X t1.
Proof.
  intros Hp Hc Hb Hs. split.
  - apply (core_ok_same _ _ _ Hs) in Hc. pose proof (core_ok_set_remote others t.{ t_cx := k } p ((t_remotes t p).{ re_producer := pr }) Hp) as Hset. apply Hset; [done| |done].
    destruct (co_remotes _ _ Hc p Hp). by split.
  - apply books_ok_remotes; [|done]. intros q _. unfold fn_set. by case_decide; subst.
Qed.

Record drained (others : list Z) (W : Z -> Prop) (X : Z -> list UBMessageDescriptor) (p : Z) (t t' : tstate) : Prop := {
  dr_core : core_ok others t';
  dr_books : books_ok W X t';
  dr_same : same_but_pending (t_remotes t p) (t_remotes t' p);
  dr_others : forall q, q <> p -> t_remotes t' q = t_remotes t q;
  dr_count : t_pending_endpoint_count t' = t_pending_endpoint_count t }.

Lemma wp_drain_loop p others W X (Q : bool -> tstate -> Prop) E l t :
  peer_ok p -> core_ok others t -> books_ok W X t -> re_pending_tx (t_remotes t p) = l ->
  (forall all t', drained others W X p t t' -> (all = true <-> re_pending_tx (t_remotes t' p) = []) -> Q all t') ->
  wp (drain_loop rpc_id_ p l) Q E t.
Proof.
  intros Hp. revert t. induction l as [|d l IH]; intros t Hc Hb Hl HQ; simpl.
  { wp_step. apply HQ; [by split|]. by rewrite Hl. }
  wp_step. eapply wp_send; [done|exact Hc|apply (ro_waiting _ _ (co_remotes _ _ Hc p Hp)); by rewrite Hl|].
  intros ok pr k Hs. cbv zeta. destruct (producer_same W X others t p pr k Hp Hc Hb Hs) as [Hc1 Hb1]. cbv zeta in *.
  set (t1 := t.{ t_cx := k }.{ t_remotes := fn_set (t_remotes t) p (t_remotes t p).{ re_producer := pr } }) in *.
  assert (Hl1 : re_pending_tx (t_remotes t1 p) = d :: l) by (simpl; by rewrite fn_set_eq).
  destruct ok; simpl.
  - wp_step. apply wp_set_remote; [done|]. do 4 wp_step. simpl.
    set (r := (fn_set (t_remotes t) p (t_remotes t p).{ re_producer := pr } p).{ re_pending_tx := tail (re_pending_tx (fn_set (t_remotes t) p (t_remotes t p).{ re_producer := pr } p)) }).
    assert (Hr : re_pending_tx r = l) by (simpl; by rewrite fn_set_eq; simpl; rewrite Hl).
    assert (Hsr : same_but_pending (t_remotes t p) r) by (unfold r; by rewrite fn_set_eq).
    match goal with |- wp _ _ _ ?u => set (t2 := u) end.
    assert (Hb2 : books_ok W X t2) by (apply (books_ok_pop W X t1 p d l r (Published p (pt_descriptor d))); [done|done|done|done|by left]).
    assert (Hc2 : core_ok others t2).
    { pose proof (core_ok_set_remote others t1 p r Hp) as Hset. destruct Hset as [? ? ? ? ? ? ? ?]; [| |done|by split].
      - simpl. rewrite fn_set_eq. unfold r. by rewrite fn_set_eq.
      - eapply remote_ok_pop; [by apply (co_remotes _ _ Hc1 p)| |exact Hl1|done]. simpl. rewrite fn_set_eq. unfold r. by rewrite fn_set_eq. }
    assert (H2 : t_remotes t2 p = r) by (simpl; by rewrite fn_set_eq).
    apply IH; [done|done|by rewrite H2|]. intros all t' [Hc' Hb' Hs' Ho' Hn'] Hall. apply HQ; [|done]. split; try done.
    + rewrite H2 in Hs'. destruct Hs' as (?&?&?&?), Hsr as (?&?&?&?). repeat split; congruence.
    + intros q Hq. rewrite Ho' by done. simpl. by rewrite !fn_set_ne.
  - wp_step. apply HQ; [|rewrite Hl1; naive_solver]. split; try done; simpl; [by rewrite fn_set_eq|]. intros q Hq. by rewrite fn_set_ne.
Qed.

(** [drain_pending] keeps the invariant; the peer leaves the index exactly if nothing waits. *)
Record tended (others : list Z) (p : Z) (t t' : tstate) : Prop := {
  te_inv : tinv others t';
  te_count : t_pending_endpoint_count t' = t_pending_endpoint_count t - (one_if t p - one_if t' p) }.
Lemma one_if_empty t p : re_pending_tx (t_remotes t p) = [] -> one_if t p = 0.
Proof. intros H. unfold one_if. rewrite decide_False; [done|]. unfold waiting. rewrite H. by intros Hn. Qed.
Lemma one_if_full t p : re_pending_tx (t_remotes t p) <> [] -> one_if t p = 1.
Proof. intros H. unfold one_if. by rewrite decide_True. Qed.

Lemma wp_drain_pending p others (Q : unit -> tstate -> Prop) E t :
  peer_ok p -> tinv others t -> (forall t, E SPINS t) -> (forall t', tended others p t t' -> Q tt t') ->
  wp (drain_pending cfg rpc_id_ p) Q E t.
Proof.
  intros Hp [Hc Hb] HE HQ. unfold drain_pending. wp_step. apply wp_remote_at; [done|]. wp_step.
  { wp_step. apply HQ. split; [by split|lia]. }
  bprop. repeat match goal with H : bool_decide _ = false |- _ => apply bool_decide_eq_false in H end.
  pose proof (co_remotes _ _ Hc p Hp) as Hr. destruct (re_inbox (t_remotes t p)) as [[b off]|] eqn:Ei; [|done].
  pose proof (ro_inbox _ _ Hr b off Ei) as Hbase. wp_step. apply wp_cx. rewrite Hbase. eapply wp_validate; [by apply (ro_maps _ _ Hr)|].
  intros valid k Hsame. set (t0 := t.{ t_cx := k }). assert (Hc0 : core_ok others t0) by by apply core_ok_same.
  assert (Hb0 : books_ok (waiting t0) nothing t0) by by apply (books_ok_cx (waiting t)).
  assert (HQ0 : forall t', tended others p t0 t' -> Q tt t') by (intros t' [? ?]; apply HQ; by split).
  change (t_remotes t p) with (t_remotes t0 p) in *. clearbody t0. clear t k Hc Hb HQ Hsame Hr. rename t0 into t, Hc0 into Hc, Hb0 into Hb, HQ0 into HQ.
  wp_step.
  - wp_step. eapply wp_release_pending; [done|exact Hc|exact Hb|done|]. intros t1 [Hc1 Hb1 Hnil Hs Ho Hn]. apply wp_set_remote; [done|]. apply HQ.
    set (r := (t_remotes t1 p).{ re_inbox := None }). assert (Hsub : forall q, re_pending_tx (fn_set (t_remotes t1) p r q) = re_pending_tx (t_remotes t1 q)).
    { intros q. unfold fn_set. by case_decide; subst. }
    split; [split|].
    + apply core_ok_set_remote; try done. destruct (co_remotes _ _ Hc1 p Hp). by split.
    + destruct (books_ok_remotes _ _ _ (t_cx t1) (fn_set (t_remotes t1) p r) (fun q _ => Hsub q) Hb1) as [Hix ? ? ? ? ?]. split; try done.
      eapply index_ext; [|exact Hix]. intros q _. unfold waiting. simpl. by rewrite Hsub.
    + rewrite (one_if_empty t1.{ t_remotes := fn_set (t_remotes t1) p r } p); [simpl; lia|]. simpl. by rewrite Hsub.
  - wp_step. eapply wp_drain_loop; [done|exact Hc|exact Hb|done|]. intros all t1 [Hc1 Hb1 Hs Ho Hn] Hall. destruct all.
    + eapply wp_remove_emptied; try done; [by apply Hall|]. intros t' [? ? Hnil' ? ? ?]. apply HQ. split; [by split|]. rewrite (one_if_empty t' p) by done. lia.
    + wp_step. apply HQ. assert (Hne : re_pending_tx (t_remotes t1 p) <> []) by (intros Heq; apply Hall in Heq; done). split; [split; [done|]|].
      * destruct Hb1 as [Hix ? ? ? ? ?]. split; try done. eapply index_ext; [|exact Hix]. intros q _. unfold waiting. destruct (decide (q = p)) as [->|]; [naive_solver|by rewrite Ho].
      * rewrite !one_if_full by done. lia.
Qed.

Lemma waiting_position others t p : tinv others t -> peer_ok p -> (t_pending_positions t p !=? kMaxRpcEndpoints) = bool_decide (waiting t p).
Proof.
  intros [_ Hb] Hp. destruct (ix_out _ _ _ _ (bo_index _ _ _ Hb) p Hp) as [(Hw&Hpos&_)|[Hw ->]].
  - rewrite bool_decide_eq_true_2 by done. pose proof (index_bound _ _ _ _ (bo_index _ _ _ Hb)). apply negb_true_iff, Z.eqb_neq. lia.
  - by rewrite bool_decide_eq_false_2.
Qed.
(** Each iteration ends with a peer that waits no more or a peer that was looked at. *)
Lemma wp_drain_from others (Q : unit -> tstate -> Prop) E fuel i t :
  tinv others t -> 0 <= i -> t_pending_endpoint_count t - i <= Z.of_nat fuel -> (forall t, E SPINS t) ->
  (forall t', tinv others t' -> Q tt t') -> wp (drain_from cfg rpc_id_ fuel i) Q E t.
Proof.
  revert i t. induction fuel as [|fuel IH]; intros i t Hinv Hi Hf HE HQ; cbn [drain_from]; do 3 wp_step.
  { wp_step. by apply HQ. } { bprop. lia. } { wp_step. by apply HQ. }
  bprop. destruct Hinv as [Hc Hb]. pose proof (index_bound _ _ _ _ (bo_index _ _ _ Hb)).
  destruct (ix_in _ _ _ _ (bo_index _ _ _ Hb) i ltac:(lia)) as [Hp HP].
  assert (Hw : waiting t (t_pending_endpoints t i)).
  { destruct (ix_out _ _ _ _ (bo_index _ _ _ Hb) _ Hp) as [[? _]|[_ Hbad]]; [done|]. lia. }
  wp_step. apply wp_check_index; [unfold peer_ok; lia|]. wp_step. eapply wp_drain_pending; [done|by split|done|]. intros t1 [Hinv1 Hn1].
  do 2 wp_step. rewrite (waiting_position others) by done. rewrite (one_if_full t) in Hn1 by done. destruct (decide (waiting t1 (t_pending_endpoints t i))) as [Hw1|Hw1].
  - rewrite bool_decide_eq_true_2 by done. rewrite one_if_full in Hn1 by done. apply IH; try done; lia.
  - rewrite bool_decide_eq_false_2 by done. unfold one_if in Hn1. rewrite decide_False in Hn1 by done. apply IH; try done; lia.
Qed.
Lemma wp_drain_all others (Q : unit -> tstate -> Prop) E t :
  tinv others t -> (forall t, E SPINS t) -> (forall t', tinv others t' -> Q tt t') -> wp (drain_all_pending cfg rpc_id_) Q E t.
Proof.
  intros Hinv HE HQ. unfold drain_all_pending. do 2 wp_step. wp_step; [wp_step; by apply HQ|]. eapply wp_drain_from; try done.
  pose proof (index_bound _ _ _ _ (bo_index _ _ _ (proj2 Hinv))). lia.
Qed.

(** A remote endpoint with other references: the context has the mappings it needs. *)
Lemma core_ok_remote others t p r k :
  peer_ok p -> core_ok others t -> ctx_ok (hold r ++ held_rest (t_remotes t) p ++ others) k -> frame (t_cx t) k ->
  (forall m b, m ∈ held_rest (t_remotes t) p \/ m = cc_machine_id cfg -> maps (t_cx t) m b -> maps k m b) -> remote_ok k r ->
  core_ok others t.{ t_cx := k }.{ t_remotes := fn_set (t_remotes t) p r }.
Proof.
  intros Hp [Hc Ho Hx Ha Hl He Hi Hrs] Hk (Hf&Hf1&Hf2) Hm Hr. split; simpl; try done.
  - eapply ctx_ok_perm; [|exact Hk]. by rewrite (held_set _ _ _ Hp), app_assoc.
  - by rewrite Hf.
  - by rewrite Hf1, Hf2.
  - intros q Hq. destruct (decide (q = p)) as [->|Hne]; [by rewrite fn_set_eq|]. rewrite fn_set_ne by done.
    eapply remote_ok_same; [|by apply Hrs]. intros m b' Hin Hmb. apply Hm; [left|done].
    assert (Hin' : m ∈ held (fn_set (t_remotes t) p no_remote)).
    { rewrite (held_at _ q Hq). rewrite fn_set_ne by done. apply elem_of_app. by left. }
    by rewrite (held_set _ _ _ Hp) in Hin'.
Qed.
Lemma held_split others t p : peer_ok p -> held (t_remotes t) ++ others ≡ₚ hold (t_remotes t p) ++ held_rest (t_remotes t) p ++ others.
Proof. intros Hp. by rewrite (held_at _ _ Hp), app_assoc. Qed.

Lemma waiting_set t k p r q :
  re_pending_tx r = re_pending_tx (t_remotes t p) -> waiting t.{ t_cx := k }.{ t_remotes := fn_set (t_remotes t) p r } q <-> waiting t q.
Proof. intros Hr. unfold waiting. simpl. unfold fn_set. case_decide; [subst; by rewrite Hr|done]. Qed.
Lemma tinv_set_remote others t k p r :
  re_pending_tx r = re_pending_tx (t_remotes t p) -> tinv others t ->
  core_ok others t.{ t_cx := k }.{ t_remotes := fn_set (t_remotes t) p r } -> tinv others t.{ t_cx := k }.{ t_remotes := fn_set (t_remotes t) p r }.
Proof.
  intros Hr [_ Hb] Hc. split; [done|].
  destruct (books_ok_remotes _ _ t k (fn_set (t_remotes t) p r) (fun q _ => ltac:(unfold fn_set; by case_decide; subst)) Hb) as [Hix ? ? ? ? ?].
  split; try done. eapply index_ext; [|exact Hix]. intros q _. by rewrite waiting_set.
Qed.

Lemma no_remote_ok k : remote_ok k no_remote.
Proof. by split. Qed.
Lemma wp_release_endpoint p others (Q : unit -> tstate -> Prop) E t :
  peer_ok p -> tinv others t -> (forall t, E SPINS t) ->
  (forall t', tinv others t' -> t_remotes t' p = no_remote -> (forall q, q <> p -> t_remotes t' q = t_remotes t q) -> Q tt t') ->
  wp (release_remote_endpoint_noexcept V cfg p) Q E t.
Proof.
  intros Hp [Hc Hb] HE HQ. unfold release_remote_endpoint_noexcept. wp_step. eapply wp_release_pending; [done|exact Hc|exact Hb|done|].
  intros t1 [Hc1 Hb1 Hnil Hs Ho _]. wp_step. apply wp_remote_at; [done|]. wp_step. apply wp_set_remote; [done|]. do 2 wp_step.
  pose proof (ctx_ok_perm _ _ _ _ (held_split others t1 p Hp) (co_ctx _ _ Hc1)) as Hctx.
  assert (Hdone : forall k, ctx_ok (held_rest (t_remotes t1) p ++ others) k -> frame (t_cx t1) k ->
    (forall m b, m ∈ held_rest (t_remotes t1) p ++ others \/ m = cc_machine_id cfg -> maps (t_cx t1) m b -> maps k m b) ->
    Q tt t1.{ t_cx := k }.{ t_remotes := fn_set (t_remotes t1) p no_remote }).
  { intros k Hk Hf Hm. apply HQ; simpl; [|by rewrite fn_set_eq|intros q Hq; rewrite fn_set_ne by done; by apply Ho].
    apply tinv_set_remote; [done|by split|]. apply core_ok_remote; try done. intros m b Hor. apply Hm. rewrite elem_of_app. tauto. }
  simpl. rewrite (co_context _ _ Hc1), andb_true_r. unfold hold in Hctx. destruct (re_machine_base (t_remotes t1 p)) as [b|]; simpl in Hctx |- *.
  - apply wp_cx. simpl. eapply wp_release_remote; [exact Hctx|]. intros k Hk Hf Hm. by apply Hdone.
  - wp_step. specialize (Hdone (t_cx t1) Hctx (frame_refl _) (fun _ _ _ H => H)). by destruct t1.
Qed.

(** ** Exceptions leave the invariant *)

Definition thrown (others : list Z) (e : Z) (t : tstate) : Prop := exception e /\ (e <> SPINS -> tinv others t).
Lemma thrown_spins others t : thrown others SPINS t.
Proof. by split. Qed.
Lemma tinv_thrown others e t : exception e -> tinv others t -> thrown others e t.
Proof. by split. Qed.
Lemma tinv_same others t k : rest_same (t_cx t) k -> tinv others t -> tinv others t.{ t_cx := k }.
Proof. intros Hs [Hc Hb]. split; [by apply core_ok_same|]. by apply books_ok_cx. Qed.
Lemma eta_cx t : t.{ t_cx := t_cx t } = t.
Proof. by destruct t. Qed.

Lemma references_bound others t : core_ok others t -> Z.of_nat (length (held (t_remotes t) ++ others)) < SIZE_MAX.
Proof. intros Hc. pose proof (co_others _ _ Hc). pose proof (held_length (t_remotes t)). rewrite length_app. unfold SIZE_MAX. lia. Qed.

(** The context made or dropped references of others. *)
Lemma tinv_ctx others others' t k :
  tinv others t -> Z.of_nat (length others') < 2 ^ 63 -> ctx_ok (held (t_remotes t) ++ others') k -> frame (t_cx t) k ->
  (forall m b, m ∈ held (t_remotes t) -> maps (t_cx t) m b -> maps k m b) -> tinv others' t.{ t_cx := k }.
Proof.
  intros [[? ? ? ? ? ? ? Hrs] Hb] Hlen Hk (Hl&Hl1&Hl2) Hm. split; [|by apply books_ok_cx]. split; simpl; try done.
  - by rewrite Hl.
  - by rewrite Hl1, Hl2.
  - intros q Hq. eapply remote_ok_same; [|by apply Hrs]. intros m b' Hin. apply Hm. rewrite (held_at _ q Hq). apply elem_of_app. by left.
Qed.

(** What acquiring a machine gave is still there after accesses to the regions. *)
Lemma acquired_same hs k0 m b k k' : rest_same k k' ->
  frame k0 k -> (forall m b, maps k0 m b -> maps k m b) -> ctx_ok (m :: hs) k -> maps k m b ->
  frame k0 k' /\ (forall m b, maps k0 m b -> maps k' m b) /\ ctx_ok (m :: hs) k' /\ maps k' m b.
Proof.
  intros Hs Hf Hm Hk Hmb. split; [eapply frame_trans; [exact Hf|by apply rest_same_frame]|]. split; [|split; [by eapply ctx_ok_same|by eapply maps_same]].
  intros m' b' Hmb'. eapply maps_same; [done|]. by apply Hm.
Qed.
Lemma wp_ensure others route (Q : bool -> tstate -> Prop) t :
  0 <= ri_rpc_id route -> tinv others t ->
  (forall ok t', tinv others t' -> (ok = true -> peer_ok (ri_rpc_id route) /\ re_inbox (t_remotes t' (ri_rpc_id route)) <> None) -> Q ok t') ->
  wp (ensure_remote_endpoint V cfg rpc_id_ route) Q (thrown others) t.
Proof.
  intros Hlo Hinv HQ. unfold ensure_remote_endpoint. wp_step; [wp_step; by apply HQ|]. bprop. set (p := ri_rpc_id route) in *.
  assert (Hp : peer_ok p) by (unfold peer_ok; lia). wp_step. apply wp_remote_at; [done|]. wp_step.
  { wp_step. bprop. apply HQ; [done|]. intros _. split; [done|]. match goal with H : bool_decide _ = true |- _ => apply bool_decide_eq_true in H as [? ->] end. done. }
  wp_step; [wp_step; by apply HQ|]. bprop. match goal with H : bool_decide (_ = []) = true |- _ => apply bool_decide_eq_true in H; rename H into Hpend end.
  pose proof Hinv as [Hc Hb]. wp_step. apply wp_cx. eapply wp_acquire_remote; [exact (co_ctx _ _ Hc)|by apply references_bound| |by rewrite eta_cx].
  intros base k (Hf&Hm&Hr). set (endpoint := endpoint_from_route route) in *. wp_step. destruct base as [b|].
  2:{ destruct Hr as (Hk&_&_). apply wp_cx. unfold context_validate_endpoint. wp_step. wp_step. apply HQ; [|done]. change (tinv others t.{ t_cx := k }).
      apply (tinv_ctx others); try done; [apply Hc|]. intros m b _. apply Hm. }
  destruct Hr as [Hk Hmb]. apply wp_cx. eapply wp_validate; [exact Hmb|]. intros valid k1 Hs1. change (t.{ t_cx := k }.{ t_cx := k1 }) with t.{ t_cx := k1 }.
  destruct (acquired_same _ _ _ _ _ _ Hs1 Hf Hm Hk Hmb) as (Hf1&Hm1&Hk1&Hmb1). clear Hf Hm Hk Hmb Hs1 k. rename k1 into k, Hf1 into Hf, Hm1 into Hm, Hk1 into Hk, Hmb1 into Hmb.
  pose proof (ctx_ok_perm _ _ _ _ (Permutation_middle _ _ _) Hk) as Hk'.
  destruct valid.
  - wp_step. apply wp_cx. eapply wp_read_span; [exact (proj1 Hmb)|]. intros k1 Hs1 _. wp_step. apply wp_cx.
    eapply wp_read_span; [destruct Hs1 as (E1&_); simpl; rewrite E1; exact (proj1 Hmb)|]. intros k2 Hs2 _.
    pose proof (rest_same_trans _ _ _ Hs1 Hs2) as Hs. destruct (acquired_same _ _ _ _ _ _ Hs Hf Hm Hk Hmb) as (Hf1&Hm1&Hk1&Hmb1). clear Hf.
    change (t.{ t_cx := k }.{ t_cx := k1 }.{ t_cx := k2 }) with t.{ t_cx := k2 }. repeat match goal with |- context [ld64 ?m ?a] => generalize (ld64 m a); intros ? end.
    clear Hm Hk Hk' Hmb Hs1 Hs2 Hs k k1. rename k2 into k, Hf1 into Hf, Hm1 into Hm, Hk1 into Hk, Hmb1 into Hmb.
    wp_step. apply wp_set_remote; [done|]. simpl.
    match goal with |- context [fn_set (t_remotes t) p ?r0] => set (r := r0) end.
    assert (Hctx : ctx_ok (hold (t_remotes t p) ++ hold r ++ held_rest (t_remotes t) p ++ others) k).
    { eapply ctx_ok_perm; [|exact Hk]. change (hold r) with [ri_machine_id route]. rewrite (held_split others t p Hp). simpl. by rewrite Permutation_middle. }
    assert (Hdone : forall k2, ctx_ok (hold r ++ held_rest (t_remotes t) p ++ others) k2 -> frame k k2 ->
      (forall m b, m ∈ hold r ++ held_rest (t_remotes t) p ++ others \/ m = cc_machine_id cfg -> maps k m b -> maps k2 m b) ->
      Q true t.{ t_cx := k2 }.{ t_remotes := fn_set (t_remotes t) p r }).
    { intros k2 Hk2 Hf2 Hm2. apply HQ; [|intros _; split; [done|]; simpl; by rewrite fn_set_eq].
      apply tinv_set_remote; [done|done|]. apply core_ok_remote; try done.
      - eapply frame_trans; [exact Hf|done].
      - intros m b' Hor Hmb'. apply Hm2; [|by apply Hm]. rewrite !elem_of_app. tauto.
      - split; simpl; rewrite ?Hpend; try done; [|by intros b' off' [= <- _]].
        intros b' [= <-]. apply Hm2; [left; apply elem_of_app; left; left|exact Hmb]. }
    wp_step. unfold hold at 1 in Hctx. destruct (re_machine_base (t_remotes t p)) as [b0|]; simpl in Hctx |- *.
    + apply wp_cx. simpl. eapply wp_release_remote; [exact Hctx|]. intros k2 Hk2 Hf2 Hm2. wp_step. by apply Hdone.
    + repeat wp_step. apply Hdone; [done|done|]. by intros.
  - wp_step. apply wp_cx. simpl. eapply wp_release_remote; [exact Hk|]. intros k2 Hk2 Hf2 Hm2. wp_step. apply HQ; [|done].
    change (tinv others t.{ t_cx := k2 }). apply (tinv_ctx others); try done; [apply Hc|by eapply frame_trans|].
    intros m b' Hin Hmb'. apply Hm2; [left; apply elem_of_app; by left|by apply Hm].
Qed.

(** ** Sending *)

Definition only (p : Z) (d : UBMessageDescriptor) (q : Z) : list UBMessageDescriptor := if decide (q = p) then [d] else [].

Lemma books_ok_accept t p d :
  peer_ok p -> books_ok (waiting t) nothing t -> books_ok (waiting t) (only p d) t.{ t_history := t_history t ++ [Accepted p d] }.
Proof.
  intros Hp [Hix Hc Ho Ha Hpo Hh]. split; simpl; try done. intros q Hq. unfold accepted_by, settled_by, only. rewrite !omap_snoc, app_nil_r.
  fold (accepted_by q (t_history t)) (settled_by q (t_history t)). rewrite Ho by done. unfold nothing. rewrite app_nil_r, <- app_assoc. f_equal. f_equal.
  destruct (decide (q = p)) as [->|Hne]; [by rewrite Z.eqb_refl|]. destruct (p =? q) eqn:E; bprop; [congruence|done].
Qed.

Lemma wp_add_pending p (Q : unit -> tstate -> Prop) E t W X :
  peer_ok p -> books_ok W X t -> ~ W p ->
  (forall n e ps, let t' := t.{ t_pending_positions := ps }.{ t_pending_endpoints := e }.{ t_pending_endpoint_count := n } in
     books_ok (fun q => W q \/ q = p) X t' -> Q tt t') -> wp (add_pending_endpoint p) Q E t.
Proof.
  intros Hp Hb Hw HQ. destruct (index_add _ _ _ _ p (bo_index _ _ _ Hb) Hp Hw) as [Hn Hix]. unfold add_pending_endpoint. wp_step. apply wp_check_index; [done|].
  do 2 wp_step. destruct (ix_out _ _ _ _ (bo_index _ _ _ Hb) p Hp) as [[? _]|[_ ->]]; [done|]. simpl. wp_step.
  apply wp_check_index; [split; [apply (ix_n _ _ _ _ (bo_index _ _ _ Hb))|done]|]. wp_step. apply HQ. destruct Hb. by split.
Qed.

Lemma wp_enqueue_pending p d b others (Q : unit -> tstate -> Prop) E t :
  peer_ok p -> core_ok others t -> books_ok (waiting t) (only p d) t -> re_inbox (t_remotes t p) <> None ->
  lengths (t_remotes t) p < kMaxPendingTxPerEndpoint -> local_buffer b ->
  (forall t', tinv others t' -> Q tt t') -> wp (enqueue_pending p d b) Q E t.
Proof.
  intros Hp Hc Hb Hi Hlen Hbuf HQ. unfold enqueue_pending. wp_step. apply wp_remote_at; [done|]. wp_step. apply wp_set_remote; [done|]. do 4 wp_step.
  set (r := (t_remotes t p).{ re_pending_tx := re_pending_tx (t_remotes t p) ++ [mk_pending d b] }).
  match goal with |- wp _ _ _ ?u => set (t1 := u) end.
  assert (Hr : re_pending_tx r <> []) by (simpl; by destruct (re_pending_tx (t_remotes t p))).
  assert (Hc1 : core_ok others t1).
  { pose proof (core_ok_set_remote others t p r Hp) as Hset. destruct Hset as [? ? ? ? ? ? ? ?]; [done| |done|by split].
    destruct (co_remotes _ _ Hc p Hp) as [? ? ? ? ?]. split; try done; simpl.
    - rewrite length_app. simpl. unfold lengths in Hlen. lia.
    - by apply Forall_app_2; [|apply Forall_singleton]. }
  assert (Hb1 : books_ok (waiting t) nothing t1).
  { destruct Hb as [Hix Hcnt Ho ? ? ?]. split; simpl; try done.
    - rewrite (total_ext _ (fn_set (lengths (t_remotes t)) p (lengths (t_remotes t) p + 1))).
      + rewrite total_set by done. lia.
      + intros q _. unfold lengths, fn_set. case_decide; [|done]. simpl. rewrite length_app. simpl. lia.
    - intros q Hq. rewrite Ho by done. unfold only, fn_set, nothing, descriptors. case_decide; [subst|done]. simpl. rewrite fmap_app. by rewrite app_nil_r. }
  assert (Hw1 : forall q, waiting t1 q <-> waiting t q \/ q = p).
  { intros q. unfold waiting. simpl. unfold fn_set. case_decide; [subst; naive_solver|naive_solver]. }
  wp_step.
  - match goal with H : bool_decide (_ = []) = true |- _ => apply bool_decide_eq_true in H; rename H into Hnil end.
    eapply wp_add_pending; [done|exact Hb1|unfold waiting; by rewrite Hnil; intros ?|]. intros n e ps. cbv zeta. intros [Hix ? ? ? ? ?]. apply HQ. split; [by destruct Hc1; split|].
    split; try done. eapply index_ext; [|exact Hix]. intros q _. by rewrite <- Hw1.
  - match goal with H : bool_decide (_ = []) = false |- _ => apply bool_decide_eq_false in H end. wp_step. apply HQ. split; [done|].
    destruct Hb1 as [Hix ? ? ? ? ?]. split; try done. eapply index_ext; [|exact Hix]. intros q _. rewrite Hw1. unfold waiting. naive_solver.
Qed.

(** Bytes of routing information, and a MsgBuffer whose backing buffer is in this machine's
    region, as its constructor leaves it. *)
Definition item_ok (item : tx_burst_item_t) : Prop :=
  (forall buf, ti_routing_info item = Some buf -> Forall (fun b => 0 <= b < 256) buf) /\
  (forall mb, ti_msg_buffer item = Some mb -> local_buffer (mb_buffer mb)).
Lemma route_rpc_id buf : Forall (fun b => 0 <= b < 256) buf -> 0 <= ri_rpc_id (decode_routing_info buf).
Proof.
  intros Hb. unfold decode_routing_info, route_of. cbn [ri_rpc_id route_widths dec_fields]. apply le_value_range. apply Forall_take. do 2 apply Forall_drop. done.
Qed.

Lemma wp_make_descriptor al local mb others (Q : UBMessageDescriptor * tbuffer -> tstate -> Prop) t :
  tinv others t -> local_buffer (mb_buffer mb) ->
  (forall d b k, rest_same (t_cx t) k -> local_buffer b -> Q (d, b) t.{ t_cx := k }) ->
  wp (make_descriptor cfg al local mb) Q (thrown others) t.
Proof.
  intros Hinv Hb HQ. pose proof Hinv as [Hc _]. unfold make_descriptor. wp_step.
  - wp_step. apply wp_cx. eapply wp_local_base; [eexists; apply Hc|]. intros base Hl Hlv. rewrite eta_cx. wp_step. apply wp_cx.
    eapply wp_touch_if; [exact Hlv|apply plain_generation_of| |].
    + intros g k Hs _ _. pose proof (tinv_same _ _ _ Hs Hinv) as Hinv1. wp_step. eapply wp_on_local_buffer; [exact (proj1 Hinv1)|done|apply plain_add_ref| |].
      * intros _ k2 Hs2. assert (Hs12 : rest_same (t_cx t) k2) by by eapply rest_same_trans.
        wp_step. wp_step; [wp_step; apply tinv_thrown; [done|]; by apply (tinv_same others t)|]. repeat wp_step. by apply HQ.
      * intros e k2 He Hs2. apply tinv_thrown; [by apply plain_not_fault|]. by apply (tinv_same _ _ _ Hs2 Hinv1).
    + intros e k He Hs _ _. apply tinv_thrown; [by apply plain_not_fault|]. by apply tinv_same.
  - wp_step. specialize (HQ (mk_descriptor (mb_pkthdr mb) (cc_machine_id cfg) 0 0 (h_msg_size (mb_pkthdr mb)) 0 0 0) (mk_tbuffer None 0) (t_cx t) (rest_same_refl _)).
    rewrite eta_cx in HQ. by apply HQ.
Qed.

Lemma wp_tx_one item others (Q : unit -> tstate -> Prop) t :
  tinv others t -> item_ok item -> (forall t', tinv others t' -> Q tt t') -> wp (tx_one V cfg rpc_id_ item) Q (thrown others) t.
Proof.
  intros Hinv [Hroute Hbuf] HQ. unfold tx_one. destruct (ti_routing_info item) as [buf|] eqn:Er; [|wp_step; by apply tinv_thrown].
  destruct (ti_msg_buffer item) as [mb|] eqn:Em; [|wp_step; by apply tinv_thrown]. wp_step. wp_step; [by apply tinv_thrown|]. wp_step.
  apply wp_ensure; [by apply route_rpc_id, Hroute|done|]. intros ok t1 Hinv1 Hok. wp_step. wp_step; [by apply tinv_thrown|]. bprop. subst ok.
  destruct (Hok eq_refl) as [Hp Hi]. set (p := ri_rpc_id (decode_routing_info buf)) in *. wp_step. apply wp_remote_at; [done|]. wp_step; [wp_step; by apply HQ|]. bprop.
  wp_step. unfold the_allocator. do 2 wp_step. destruct (t_allocator t1) as [al|] eqn:Ea; [|by destruct (co_alloc _ _ (proj1 Hinv1))]. wp_step. do 2 wp_step.
  wp_step. wp_step; [by apply tinv_thrown|]. wp_step. eapply wp_make_descriptor; [exact Hinv1|by apply Hbuf|]. intros d b k Hs Hlb.
  wp_step. apply wp_emit. destruct (tinv_same _ _ _ Hs Hinv1) as [Hc2 Hb2]. pose proof (books_ok_accept _ p d Hp Hb2) as Hb3. simpl.
  match goal with |- wp _ _ _ ?u => set (t3 := u) in * end. assert (Hc3 : core_ok others t3) by (destruct Hc2; by split).
  wp_step.
  - eapply wp_enqueue_pending; try done.
  - bprop. match goal with H : bool_decide (_ = []) = true |- _ => apply bool_decide_eq_true in H; rename H into Hnil end.
    wp_step. eapply wp_send; [done|exact Hc3|done|]. intros sent pr k2 Hs2. cbv zeta.
    destruct (producer_same (waiting t3) (only p d) others t3 p pr k2 Hp Hc3 Hb3 Hs2) as [Hc4 Hb4]. cbv zeta in *.
    set (t4 := t3.{ t_cx := k2 }.{ t_remotes := fn_set (t_remotes t3) p (t_remotes t3 p).{ re_producer := pr } }) in *.
    destruct sent.
    + wp_step. apply HQ. split; [by destruct Hc4; split|]. destruct Hb4 as [Hix ? Ho ? ? ?]. split; try done.
      * eapply index_ext; [|exact Hix]. intros q _. unfold waiting. simpl. unfold fn_set. by case_decide; subst.
      * intros q Hq. simpl. destruct (outcome_order p d (Published p d) (t_history t1 ++ [Accepted p d]) q ltac:(by left)) as [-> ->]. specialize (Ho q Hq). simpl in Ho. rewrite Ho.
        unfold only, nothing, descriptors, fn_set. destruct (decide (q = p)) as [->|Hne].
        -- rewrite Z.eqb_refl. simpl. by rewrite Hnil, !app_nil_r.
        -- destruct (p =? q) eqn:Epq; bprop; [congruence|]. by rewrite !app_nil_r.
    + eapply wp_enqueue_pending; try done.
      * destruct Hb4 as [Hix ? ? ? ? ?]. split; try done. eapply index_ext; [|exact Hix]. intros q _. unfold waiting. simpl. unfold fn_set. by case_decide; subst.
      * simpl. by rewrite fn_set_eq.
      * unfold lengths. simpl. rewrite fn_set_eq. simpl. by rewrite Hnil.
Qed.

Lemma wp_each_inv {S X} (I : S -> Prop) (F : X -> Prop) (f : X -> MS S unit) (l : list X) (Q : unit -> S -> Prop) E s :
  I s -> Forall F l -> (forall x s (Q : unit -> S -> Prop), F x -> I s -> (forall s', I s' -> Q tt s') -> wp (f x) Q E s) ->
  (forall s', I s' -> Q tt s') -> wp (each l f) Q E s.
Proof.
  intros Hs Hl Hf HQ. revert s Hs. induction Hl as [|x l Hx Hl IH]; intros s Hs; simpl; [wp_step; by apply HQ|].
  wp_step. apply Hf; [done|done|]. intros s' Hs'. by apply IH.
Qed.
Lemma wp_tx_burst items others (Q : unit -> tstate -> Prop) t :
  tinv others t -> Forall item_ok items -> (forall t', tinv others t' -> Q tt t') -> wp (tx_burst V cfg rpc_id_ items) Q (thrown others) t.
Proof.
  intros Hinv Hitems HQ. unfold tx_burst. wp_step. wp_step; [by apply tinv_thrown|]. wp_step. eapply wp_drain_all; [done|apply thrown_spins|].
  intros t1 Hinv1. eapply (wp_each_inv (tinv others) item_ok); try done. intros item t2 Q' Hi Ht2 HQ'. by apply wp_tx_one.
Qed.

(** ** Receiving *)

Lemma tinv_books others t t' :
  tinv others t -> t_cx t' = t_cx t -> t_context t' = t_context t -> t_allocator t' = t_allocator t -> t_local_inbox t' = t_local_inbox t ->
  t_remotes t' = t_remotes t -> t_pending_count t' = t_pending_count t -> t_pending_endpoint_count t' = t_pending_endpoint_count t ->
  t_pending_endpoints t' = t_pending_endpoints t -> t_pending_positions t' = t_pending_positions t -> t_history t' = t_history t ->
  active_ok (t_active_count t') (t_active t') (t_rx_refs t') -> 0 <= t_next_poll t' -> 0 <= t_rx_head t' < kNumRxRingEntries -> tinv others t'.
Proof.
  intros [[] [Hix Hc Ho Ha Hp Hh]] E1 E2 E3 E4 E5 E6 E7 E8 E9 E10 Ha' Hp' Hh'. split; split; rewrite ?E1, ?E2, ?E3, ?E4, ?E5, ?E6, ?E7, ?E8, ?E9, ?E10; try done.
  eapply index_ext; [|exact Hix]. intros p _. unfold waiting. by rewrite E5.
Qed.

Lemma wp_on_live_buffer {X} (b : tbuffer) (op : Buffer -> A X) x0 (Q : X -> tstate -> Prop) E t :
  (forall base off, tb_buf b = Some (base, off) -> exists m, c_live (t_cx t) !! base = Some m) -> (forall b, plain (op b)) ->
  (forall x k, rest_same (t_cx t) k -> Q x t.{ t_cx := k }) -> (forall e k, plain_error e -> rest_same (t_cx t) k -> E e t.{ t_cx := k }) ->
  wp (on_buffer b op x0) Q E t.
Proof.
  intros Hb Hop HQ HE. unfold on_buffer. destruct (tb_buf b) as [[base off]|] eqn:Eb.
  - apply wp_cx. destruct (Hb base off eq_refl) as [m Hm]. eapply wp_at_span; [exact Hm|apply Hop|by intros; apply HQ|by intros; apply HE].
  - wp_step. specialize (HQ x0 (t_cx t) (rest_same_refl _)). by rewrite eta_cx in HQ.
Qed.

Lemma wp_discard base d (Q : unit -> tstate -> Prop) E t m :
  c_live (t_cx t) !! base = Some m -> (forall k, rest_same (t_cx t) k -> Q tt t.{ t_cx := k }) -> (forall t, E SPINS t) ->
  wp (discard_descriptor_noexcept cfg base d) Q E t.
Proof.
  intros Hlive HQ HE. assert (Hsame : Q tt t) by (specialize (HQ (t_cx t) (rest_same_refl _)); by rewrite eta_cx in HQ).
  unfold discard_descriptor_noexcept. do 2 wp_step. wp_step; [by wp_step|]. wp_step; [by wp_step|].
  wp_step; [|by wp_step]. wp_step. apply wp_try. eapply wp_on_live_buffer; [|apply plain_free| |].
  - intros b off [= <- _]. by exists m.
  - intros _ k Hs. wp_step. by apply HQ.
  - intros e k He Hs. unfold caught. rewrite plain_not_fault by done. simpl. destruct (e =? SPINS) eqn:Ee; bprop; simpl; [subst; apply HE|].
    wp_step. by apply HQ.
Qed.

Lemma wp_receive source others (Q : option UBMessageDescriptor -> tstate -> Prop) t :
  peer_ok source -> tinv others t -> (forall d k heads, rest_same (t_cx t) k -> Q d t.{ t_cx := k }.{ t_consumer_heads := heads }) ->
  wp (receive_descriptor source) Q (thrown others) t.
Proof.
  intros Hp [Hc _] HQ. unfold receive_descriptor. wp_step. apply wp_check_index; [done|]. do 2 wp_step. destruct (co_local_inbox _ _ Hc) as [off ->].
  destruct (co_local _ _ _ (co_ctx _ _ Hc)) as (b0&Hl&Hlv). rewrite (co_base _ _ Hc) in Hl. injection Hl as <-.
  wp_step. apply wp_cx. eapply (wp_at_span_with (fun _ => False)); [exact Hlv| | |done].
  - intros m. unfold wp. by destruct (try_dequeue _ _ m) as [[d head] m'].
  - intros [d head] k Hs _ _. repeat wp_step. by apply HQ.
Qed.

Lemma wp_deliver index p d others (Q : bool -> tstate -> Prop) t :
  peer_ok p -> tinv others t -> 0 <= index -> 0 < t_active_count t ->
  (forall found t', tinv others t' -> t_active_count t' = t_active_count t -> Q found t') -> wp (deliver cfg index (t_remotes t p) d) Q (thrown others) t.
Proof.
  intros Hp Hinv Hix Hn HQ. pose proof (co_remotes _ _ (proj1 Hinv) p Hp) as Hr. unfold deliver. wp_step.
  - wp_step. destruct (re_machine_base (t_remotes t p)) as [b|] eqn:Eb; [|do 2 wp_step; by apply HQ]. wp_step; [|do 2 wp_step; by apply HQ].
    eapply wp_discard; [exact (proj1 (ro_maps _ _ Hr b Eb))| |apply thrown_spins]. intros k Hs. wp_step. apply HQ; [by apply tinv_same|done].
  - wp_step.
    assert (Hput : forall payload, wp (t <- get ;;
      fail_if (negb ((0 <=? t_rx_head t) && (t_rx_head t <? kNumRxRingEntries))) OUT_OF_BOUNDS ;;
      put t.{ t_rx_pkthdrs := fn_set (t_rx_pkthdrs t) (t_rx_head t) (d_pkthdr d) }
           .{ t_rx_payloads := fn_set (t_rx_payloads t) (t_rx_head t) payload }
           .{ t_rx_head := (t_rx_head t + 1) mod kNumRxRingEntries }
           .{ t_next_poll := (index + 1) mod t_active_count t } ;;
      ret true) Q (thrown others) t).
    { intros payload. do 3 wp_step. pose proof (bo_head _ _ _ (proj2 Hinv)) as Hh. wp_step; [bprop; naive_solver lia|]. repeat wp_step. apply HQ; [|done].
      eapply tinv_books; try done; simpl; [apply Hinv|apply Z.mod_pos_bound; lia|apply Z.mod_pos_bound; lia]. }
    wp_step; [|wp_step; apply Hput]. destruct (re_machine_base (t_remotes t p)) as [b|]; [|wp_step; by apply tinv_thrown].
    wp_step; [wp_step; apply Hput|wp_step; by apply tinv_thrown].
Qed.

Lemma wp_poll others (Q : bool -> tstate -> Prop) fuel n t :
  tinv others t -> 0 <= n -> (0 < t_active_count t \/ fuel = O) -> (forall found t', tinv others t' -> Q found t') ->
  wp (poll_sources cfg fuel n) Q (thrown others) t.
Proof.
  revert n t. induction fuel as [|fuel IH]; intros n t Hinv Hn Hc HQ; cbn [poll_sources]; [wp_step; by apply HQ|].
  destruct Hc as [Hc|]; [|done]. pose proof Hinv as [_ Hb]. pose proof (active_peer_bound _ _ _ (bo_active _ _ _ Hb)) as Hbound.
  assert (Hi : 0 <= (t_next_poll t + n) mod t_active_count t < t_active_count t) by (apply Z.mod_pos_bound; lia).
  set (i := (t_next_poll t + n) mod t_active_count t) in *. destruct (ac_in _ _ _ (bo_active _ _ _ Hb) i Hi) as [Hp _].
  do 2 wp_step. fold i. wp_step. apply wp_check_index; [unfold peer_ok; lia|]. wp_step. apply wp_remote_at; [done|]. wp_step.
  eapply wp_receive; [done|exact Hinv|]. intros d k heads Hs. set (t1 := t.{ t_cx := k }.{ t_consumer_heads := heads }).
  assert (Hinv1 : tinv others t1) by (eapply tinv_books; [by apply (tinv_same _ _ _ Hs Hinv)|..]; try done; apply Hb).
  destruct d as [d|]; [|apply IH; try done; [lia|by left]]. wp_step.
  change (t_remotes t (t_active t i)) with (t_remotes t1 (t_active t i)). eapply wp_deliver; try done; [lia|].
  intros found t2 Hinv2 Hn2. wp_step; [wp_step; by apply HQ|]. apply IH; try done; [lia|]. left. by rewrite Hn2.
Qed.
Lemma wp_rx_loop others (Q : Z -> tstate -> Prop) fuel n t :
  tinv others t -> (forall r t', tinv others t' -> n <= r <= n + Z.of_nat fuel -> Q r t') -> wp (rx_loop cfg fuel n) Q (thrown others) t.
Proof.
  revert n t. induction fuel as [|fuel IH]; intros n t Hinv HQ; cbn [rx_loop]; [wp_step; apply HQ; [done|lia]|]. do 3 wp_step.
  pose proof (ac_n _ _ _ (bo_active _ _ _ (proj2 Hinv))). apply wp_poll with (others := others); [done|lia|destruct (decide (t_active_count t = 0)) as [->|]; [by right|left; lia]|].
  intros found t1 Hinv1. wp_step; [apply IH; [done|]; intros r t2 ? ?; apply HQ; [done|lia]|]. wp_step. apply HQ; [done|lia].
Qed.
Lemma wp_rx_burst others (Q : Z -> tstate -> Prop) t :
  tinv others t -> (forall r t', tinv others t' -> 0 <= r <= kPostlist -> Q r t') -> wp (rx_burst cfg rpc_id_) Q (thrown others) t.
Proof.
  intros Hinv HQ. unfold rx_burst. do 3 wp_step. wp_step; [by apply tinv_thrown|]. wp_step. wp_step; [by apply tinv_thrown|]. wp_step.
  eapply wp_drain_all; [done|apply thrown_spins|]. intros t1 Hinv1. apply wp_rx_loop; [done|]. intros r t2 Hinv2 Hr. apply HQ; [done|]. exact Hr.
Qed.

(** ** Peers *)

Lemma wp_register_rx p others (Q : unit -> tstate -> Prop) t :
  0 <= p -> tinv others t -> (forall t', tinv others t' -> Q tt t') -> wp (register_rx_peer p) Q (thrown others) t.
Proof.
  intros Hlo Hinv HQ. unfold register_rx_peer. wp_step. wp_step; [by apply tinv_thrown|]. bprop. assert (Hp : peer_ok p) by (unfold peer_ok; lia).
  wp_step. apply wp_check_index; [done|]. do 3 wp_step. wp_step; [by apply tinv_thrown|]. bprop. do 2 wp_step.
  pose proof (bo_active _ _ _ (proj2 Hinv)) as Ha. pose proof (ac_refs _ _ _ Ha p Hp) as Hr. wp_step; bprop.
  - wp_step. apply HQ. eapply tinv_books; try done; simpl; [|apply Hinv|apply Hinv]. apply active_more; try done; lia.
  - destruct (active_add _ _ _ p Ha Hp ltac:(done)) as [Hn Ha']. do 3 wp_step. simpl. wp_step; [bprop; lia|]. wp_step.
    apply wp_check_index; [split; [apply (ac_n _ _ _ Ha)|done]|]. wp_step. apply HQ. eapply tinv_books; try done; simpl; [|apply Hinv|apply Hinv].
    match goal with H : t_rx_refs t p = 0 |- _ => rewrite H end. exact Ha'.
Qed.
Lemma wp_prepare_disconnect p others (Q : unit -> tstate -> Prop) t :
  0 <= p -> tinv others t -> (forall t', tinv others t' -> Q tt t') -> wp (prepare_disconnect V cfg p) Q (thrown others) t.
Proof.
  intros Hlo Hinv HQ. unfold prepare_disconnect. wp_step. wp_step; [by apply tinv_thrown|]. bprop. assert (Hp : peer_ok p) by (unfold peer_ok; lia).
  wp_step. apply wp_check_index; [done|]. do 3 wp_step. wp_step; [by apply tinv_thrown|]. wp_step; [wp_step; by apply HQ|].
  eapply wp_release_endpoint; [done|done|apply thrown_spins|]. intros t' ? _ _. by apply HQ.
Qed.
Lemma wp_unregister_rx p others (Q : unit -> tstate -> Prop) t :
  0 <= p -> tinv others t -> (forall t', tinv others t' -> Q tt t') -> wp (unregister_rx_peer V cfg p) Q (thrown others) t.
Proof.
  intros Hlo Hinv HQ. unfold unregister_rx_peer. wp_step. wp_step; [by apply tinv_thrown|]. bprop. assert (Hp : peer_ok p) by (unfold peer_ok; lia).
  wp_step. apply wp_check_index; [done|]. do 3 wp_step. wp_step; [by apply tinv_thrown|]. bprop. do 2 wp_step.
  pose proof (bo_active _ _ _ (proj2 Hinv)) as Ha. pose proof (ac_refs _ _ _ Ha p Hp) as Hr. wp_step; bprop.
  - wp_step. apply HQ. eapply tinv_books; try done; simpl; [|apply Hinv|apply Hinv]. apply active_more; try done; lia.
  - destruct (active_remove _ _ _ p Ha Hp ltac:(lia)) as [Hi Ha']. cbv zeta in *. pose proof (active_peer_bound _ _ _ Ha). do 3 wp_step. simpl. wp_step; [bprop; lia|].
    wp_step. apply wp_check_index; [unfold peer_ok; lia|]. wp_step. apply wp_check_index; [unfold peer_ok; lia|]. do 2 wp_step.
    eapply wp_release_endpoint; [done| |apply thrown_spins|intros t' ? _ _; by apply HQ]. eapply tinv_books; try done; simpl; [|case_if; [done|]|apply Hinv].
    + match goal with H : t_rx_refs t p - 1 = 0 |- _ => rewrite H end. exact Ha'.
    + bprop. apply Z.mod_pos_bound. lia.
Qed.

(** ** Objects and buffers *)

Definition live_buffer (t : tstate) (b : tbuffer) : Prop := forall base off, tb_buf b = Some (base, off) -> exists m, c_live (t_cx t) !! base = Some m.

Lemma wp_import_object h others (Q : UBImportedObject -> tstate -> Prop) t :
  tinv others t -> Z.of_nat (length others) + 1 < 2 ^ 63 ->
  (forall o t', tinv (io_machine_id o :: others) t' -> live_buffer t' (io_buffer o) -> Q o t') ->
  wp (import_shared_object V cfg h) Q (thrown others) t.
Proof.
  intros Hinv Hlen HQ. unfold import_shared_object. wp_step. wp_step; [by apply tinv_thrown|]. pose proof Hinv as [Hc _]. wp_step. apply wp_cx.
  eapply wp_acquire_remote; [exact (co_ctx _ _ Hc)|by apply references_bound| |rewrite eta_cx; by apply tinv_thrown].
  intros base k (Hf&Hm&Hr). destruct base as [b|]; simpl.
  - destruct Hr as [Hk Hmb]. case_match.
    + wp_step. apply HQ; simpl; [|intros base off [= <- _]; exists (oh_machine_id h); apply Hmb]. apply (tinv_ctx others); try done.
      * simpl length. lia.
      * eapply ctx_ok_perm; [|exact Hk]. apply Permutation_middle.
      * intros m b' _. apply Hm.
    + wp_step. apply wp_cx. simpl. eapply wp_release_remote; [exact Hk|]. intros k2 Hk2 Hf2 Hm2. wp_step. apply tinv_thrown; [done|].
      change (tinv others t.{ t_cx := k2 }). apply (tinv_ctx others); try done; [apply Hc|by eapply frame_trans|].
      intros m b' Hin Hmb'. apply Hm2; [left; apply elem_of_app; by left|by apply Hm].
  - destruct Hr as (Hk&Hne&Hfind). wp_step. apply wp_cx. simpl. eapply wp_release_unknown; [done|done|]. wp_step. apply tinv_thrown; [done|].
    change (tinv others t.{ t_cx := k }). apply (tinv_ctx others); try done; [apply Hc|]. intros m b' _. apply Hm.
Qed.

Lemma wp_run2 {S X} (m : MS S X) (P : S -> Prop) s : wp m (fun _ => P) (fun _ => P) s -> P (m s).2.
Proof. unfold wp. by destruct (m s) as [[] ?]. Qed.
Lemma wp_release_held m others (Q : unit -> tstate -> Prop) E t :
  tinv (m :: others) t -> (forall t', tinv others t' -> Q tt t') -> wp (cx (release_remote_machine V cfg m)) Q E t.
Proof.
  intros Hinv HQ. pose proof Hinv as [Hc _]. apply wp_cx. eapply wp_release_remote; [eapply ctx_ok_perm; [symmetry; apply Permutation_middle|exact (co_ctx _ _ Hc)]|].
  intros k Hk Hf Hm. apply HQ. apply (tinv_ctx (m :: others)); try done.
  - pose proof (co_others _ _ Hc). simpl length in *. lia.
  - intros m' b Hin. apply Hm. left. apply elem_of_app. by left.
Qed.
Lemma wp_release_object o others (Q : unit -> tstate -> Prop) t :
  tinv (io_machine_id o :: others) t -> live_buffer t (io_buffer o) -> (forall t', tinv others t' -> Q tt t') ->
  wp (release_imported_object V cfg o) Q (thrown others) t.
Proof.
  intros Hinv Hb HQ. unfold release_imported_object. wp_step. apply wp_on_fail. eapply wp_on_live_buffer; [done|apply plain_release_remote_ref| |].
  - intros _ k Hs. eapply wp_release_held; [by apply tinv_same|done].
  - intros e k He Hs. apply tinv_thrown; [by apply plain_not_fault|]. apply (wp_run2 (cx _)). eapply wp_release_held; [by apply tinv_same|done].
Qed.
Lemma wp_buffer_op (b : tbuffer) op others (Q : unit -> tstate -> Prop) t :
  tinv others t -> live_buffer t b -> (forall b, plain (op b)) -> (forall t', tinv others t' -> Q tt t') -> wp (on_buffer b op tt) Q (thrown others) t.
Proof.
  intros Hinv Hb Hop HQ. eapply wp_on_live_buffer; [done|done| |].
  - intros [] k Hs. apply HQ. by apply tinv_same.
  - intros e k He Hs. apply tinv_thrown; [by apply plain_not_fault|]. by apply tinv_same.
Qed.
Lemma wp_the_allocator others (Q : allocator -> tstate -> Prop) E t : tinv others t -> (forall al, Q al t) -> wp the_allocator Q E t.
Proof.
  intros [Hc _] HQ. unfold the_allocator. do 2 wp_step. destruct (t_allocator t) eqn:Ea; [wp_step; apply HQ|]. by destruct (co_alloc _ _ Hc).
Qed.
Lemma wp_alloc_shared n others (Q : tbuffer -> tstate -> Prop) t :
  tinv others t -> (forall b t', tinv others t' -> live_buffer t' b -> Q b t') -> wp (alloc_shared_buffer n) Q (thrown others) t.
Proof.
  intros Hinv HQ. unfold alloc_shared_buffer. wp_step. eapply wp_the_allocator; [done|]. intros al. wp_step. apply wp_cx.
  eapply wp_local_base; [eexists; apply Hinv|]. intros base Hl Hlv. rewrite eta_cx. wp_step. apply wp_cx. eapply wp_at_span; [exact Hlv|apply plain_alloc| |].
  - intros b k Hs _ _. wp_step. apply HQ; [by apply tinv_same|]. intros b' off. simpl. destruct (buf_ b); [|done]. intros [= <- _]. exists (cc_machine_id cfg).
    by destruct Hs as (->&_).
  - intros e k He Hs _ _. apply tinv_thrown; [by apply plain_not_fault|]. by apply tinv_same.
Qed.
Lemma wp_free_shared b others (Q : unit -> tstate -> Prop) t :
  tinv others t -> live_buffer t b -> (forall t', tinv others t' -> Q tt t') -> wp (free_shared_buffer b) Q (thrown others) t.
Proof.
  intros Hinv Hb HQ. unfold free_shared_buffer. wp_step. eapply wp_the_allocator; [done|]. intros al. do 3 wp_step.
  - eapply wp_buffer_op; [done|done|apply plain_free|done].
  - eapply wp_buffer_op; [done|done|apply plain_release_remote_ref|done].
Qed.

(** ** Construction and destruction *)

Lemma new_books k pkthdrs W : (forall p, ~ W p) -> books_ok W nothing (new_transport k pkthdrs).
Proof.
  intros HW. split; simpl; try done.
  - split; [done|lia|]. intros p _. right. by split; [apply HW|].
  - split; [done|lia|lia| |]; intros p _; [lia|]. by vm_compute.
Qed.

(** A process without context, or with one that others use. *)
Definition context_before (others : list Z) (k : cstate) : Prop :=
  (blank k /\ others = []) \/ (ctx_ok others k /\ c_context k = true /\ 0 < c_references k).

Lemma wp_construct others k pkthdrs port (Q : unit -> tstate -> Prop) E :
  context_before others k -> Z.of_nat (length others) < 2 ^ 63 ->
  (forall t' L', c_local (t_cx t') = Some L' -> (L' = L -> tinv others t') -> Q tt t') ->
  (forall e t', E e t') -> wp (UBTransport V cfg rpc_id_ port) Q E (new_transport k pkthdrs).
Proof.
  intros Hk Hlen HQ HE. assert (Hrefs : 0 <= c_references k) by (destruct Hk as [[[_ -> _ _ _ _] _]|(_&_&?)]; lia).
  assert (Hk' : (blank k /\ others = []) \/ (ctx_ok others k /\ c_context k = true)) by (destruct Hk as [?|(?&?&_)]; [by left|by right]).
  unfold UBTransport. wp_step. wp_step; [apply HE|]. apply wp_on_fail. eapply wp_mono with (E := fun _ _ => True); [|intros [] t' Ht'; exact Ht'|intros; apply HE].
  wp_step. apply wp_cx. eapply wp_context_acquire; [exact Hk'| |done]. intros k1 Hok1 Hx1 Hr1. simpl. do 5 wp_step. apply wp_cx. simpl.
  eapply wp_context_register; [by exists others| |done]. intros endpoint k2 Hs2. do 5 wp_step. apply wp_cx. simpl.
  pose proof (ctx_ok_same _ _ _ _ Hs2 Hok1) as Hok2. eapply wp_local_base; [by exists others|]. intros base Hl Hlv. do 5 wp_step. apply wp_cx. simpl.
  eapply wp_at_span; [exact Hlv|apply plain_allocator| |done]. intros al k3 Hs3 _ _. repeat wp_step.
  assert (Hs : rest_same k1 k3) by by eapply rest_same_trans.
  assert (Hl3 : c_local k3 = Some base) by (by destruct Hs3 as (_&->&_)).
  apply (HQ _ base); [done|]. intros ->. split.
  - split; simpl; try done; [by apply (ctx_ok_same _ _ k1)|destruct Hs as (_&_&_&->&->&_); rewrite Hr1; split; [done|simpl; lia]|by exists (eh_inbox_offset endpoint)].
  - destruct (new_books k pkthdrs (fun _ => False)) as [Hix ? ? ? ? ?]; [by intros p []|]. split; try done. eapply index_ext; [|exact Hix]. intros p _. by unfold waiting.
Qed.

(** After the destructor nothing of the transport is left in the context. *)
Record cleaned (others : list Z) (t : tstate) : Prop := {
  cl_context : context_before others (t_cx t) \/ blank (t_cx t);
  cl_remotes : forall p, peer_ok p -> t_remotes t p = no_remote;
  cl_transport : t_context t = false /\ t_allocator t = None /\ t_local_inbox t = None;
  cl_order : forall p, peer_ok p -> accepted_by p (t_history t) = settled_by p (t_history t) }.

Lemma held_none R : (forall p, peer_ok p -> R p = no_remote) -> held R = [].
Proof.
  intros HR. unfold held. assert (H : forall l : list Z, (forall p, p ∈ l -> peer_ok p) -> concat (hold ∘ R <$> l) = []).
  { induction l as [|p l IH]; intros Hl; [done|]. rewrite fmap_cons. cbn [concat]. rewrite IH by (intros q Hq; apply Hl; by right).
    simpl. unfold hold. by rewrite HR by (apply Hl; left). }
  apply H. intros p Hp%elem_of_seqZ. unfold peer_ok. lia.
Qed.
Lemma wp_release_endpoints others (Q : unit -> tstate -> Prop) t :
  tinv others t -> (forall t', tinv others t' -> (forall p, peer_ok p -> t_remotes t' p = no_remote) -> Q tt t') ->
  wp (each (seqZ 0 kMaxRpcEndpoints) (release_remote_endpoint_noexcept V cfg)) Q (fun e _ => e = SPINS) t.
Proof.
  intros Hinv HQ. eapply wp_mono; [apply (wp_each (fun i t => tinv others t /\ forall p, 0 <= p < i -> t_remotes t p = no_remote) _ (fun e _ => e = SPINS))| |done].
  - done.
  - split; [done|lia].
  - intros p t1 Hp [Hinv1 Hno]. eapply wp_release_endpoint; [unfold peer_ok; lia|done|done|]. intros t2 Hinv2 He Ho. split; [done|]. intros q Hq.
    destruct (decide (q = p)) as [->|]; [done|]. rewrite Ho by done. apply Hno. lia.
  - intros [] t' [? Hno]. apply HQ; [done|]. intros p Hp. by apply Hno.
Qed.
Lemma wp_cleanup others (Q : unit -> tstate -> Prop) t :
  tinv others t -> (forall t', cleaned others t' -> Q tt t') -> wp (cleanup_noexcept V cfg rpc_id_) Q (fun e _ => e = SPINS) t.
Proof.
  intros Hinv HQ. unfold cleanup_noexcept. wp_step. eapply wp_drain_all; [done|done|]. intros t1 Hinv1. wp_step. eapply wp_release_endpoints; [done|].
  intros t2 [Hc2 Hb2] Hno. do 4 wp_step. rewrite (co_context _ _ Hc2). pose proof (co_ctx _ _ Hc2) as Hctx. rewrite held_none in Hctx by done. simpl in Hctx.
  wp_step. apply wp_cx. simpl. eapply wp_context_unregister; [by exists others| |done]. intros k3 Hs3. do 5 wp_step. apply wp_cx. simpl.
  destruct (co_exists _ _ Hc2) as [Hx Hr]. assert (Hx3 : c_context k3 = true /\ 0 < c_references k3) by (by destruct Hs3 as (_&_&_&->&->&_)).
  assert (Horder : forall p, peer_ok p -> accepted_by p (t_history t2) = settled_by p (t_history t2)).
  { intros p Hp. rewrite (bo_order _ _ _ Hb2 p Hp), Hno by done. by rewrite app_nil_r. }
  eapply wp_context_release; [by eapply ctx_ok_same|apply Hx3|apply Hx3| |].
  - intros k4 Hok4 Hx4 _ Hr4. repeat wp_step. apply HQ. split; simpl; try done. left. by right.
  - intros k4 Hb4. repeat wp_step. apply HQ. split; simpl; try done. by right.
Qed.
End sound.
