(* ===== verification/TransportRun.v ===== *)
(** * What a transport guarantees in every run

    A process's transport from its construction on: the calls of eRPC, in any order and
    with any outcome the library gives them, among other users of the context and other
    processes that write to the regions. *)

From stdpp Require Import gmap strings.
From S2P Require Import Prelude Monad CMem ErpcUb ErpcConfig Spsc Arena Machine Context ContextSound Transport TransportSound.

Inductive tcall :=
  | CTxBurst (items : list tx_burst_item_t) | CTxFlush | CRxBurst
  | CRegisterPeer (peer : Z) | CPrepareDisconnect (peer : Z) | CUnregisterPeer (peer : Z) | CResolve (routing_info : option (list Z))
  | CInit | CAlloc (size : Z) | CFree (b : tbuffer) | CRetain (b : tbuffer)
  | CImport (h : UBSharedObjectHandle) | CReleaseObject (o : UBImportedObject).

Section run.
Context (V : sdk) (cfg : context_config) (rpc_id_ : Z).

Definition run (c : tcall) : T (option UBImportedObject) :=
  match c with
  | CTxBurst items => tx_burst V cfg rpc_id_ items ;; ret None
  | CTxFlush => tx_flush cfg rpc_id_ ;; ret None
  | CRxBurst => _ <- rx_burst cfg rpc_id_ ;; ret None
  | CRegisterPeer p => register_rx_peer p ;; ret None
  | CPrepareDisconnect p => prepare_disconnect V cfg p ;; ret None
  | CUnregisterPeer p => unregister_rx_peer V cfg p ;; ret None
  | CResolve r => _ <- resolve_remote_routing_info V cfg rpc_id_ r ;; ret None
  | CInit => init_hugepage_structures ;; ret None
  | CAlloc n => _ <- alloc_shared_buffer n ;; ret None
  | CFree b => free_shared_buffer b ;; ret None
  | CRetain b => retain_shared_buffer b ;; ret None
  | CImport h => o <- import_shared_object V cfg h ;; ret (Some o)
  | CReleaseObject o => release_imported_object V cfg o ;; ret None
  end.

(** What the callers keep to: peers are bytes, routing information is bytes, messages are in
    buffers of the endpoint, and buffers are used while they are mapped. *)
Definition allowed (L : Z) (others : list Z) (t : tstate) (c : tcall) : Prop :=
  match c with
  | CTxBurst items => Forall (item_ok L) items
  | CRegisterPeer p | CPrepareDisconnect p | CUnregisterPeer p => 0 <= p
  | CResolve r => forall buf, r = Some buf -> Forall (fun b => 0 <= b < 256) buf
  | CFree b | CRetain b => live_buffer t b
  | CImport _ => Z.of_nat (length others) + 1 < 2 ^ 63
  | CReleaseObject o => live_buffer t (io_buffer o) /\ io_machine_id o ∈ others
  | _ => True
  end.
(** The references outside the remote endpoints after the call. *)
Definition after_call (c : tcall) (r : option UBImportedObject + Z) (others others' : list Z) : Prop :=
  match c, r with
  | CImport _, inl (Some o) => others' = io_machine_id o :: others
  | CReleaseObject o, _ => others ≡ₚ io_machine_id o :: others'
  | _, _ => others' = others
  end.

Lemma tinv_perm L others others' t : others ≡ₚ others' -> tinv cfg L others t -> tinv cfg L others' t.
Proof.
  intros Hp [Hc Hb]. split; [|done]. destruct Hc. split; try done.
  - eapply ctx_ok_perm; [|done]. by rewrite Hp.
  - by rewrite <- (Permutation_length Hp).
Qed.

Lemma wp_call L others t c others' :
  tinv cfg L others t -> allowed L others t c ->
  wp (run c) (fun a t' => after_call c (inl a) others others' -> tinv cfg L others' t')
             (fun e t' => exception e /\ (e <> SPINS -> after_call c (inr e) others others' -> tinv cfg L others' t')) t.
Proof.
  intros Hinv Ha. assert (Hsame : forall e t', thrown cfg L others e t' -> exception e /\ (e <> SPINS -> others' = others -> tinv cfg L others' t')).
  { intros e t' [He Ht]. split; [done|]. intros Hs ->. by apply Ht. }
  assert (Hgo : forall X (m : T X), (forall (Q : X -> tstate -> Prop), (forall x t', tinv cfg L others t' -> Q x t') -> wp m Q (thrown cfg L others) t) ->
    wp (_ <- m ;; ret None) (fun (_ : option UBImportedObject) t' => others' = others -> tinv cfg L others' t')
      (fun e t' => exception e /\ (e <> SPINS -> others' = others -> tinv cfg L others' t')) t).
  { intros X m Hm. wp_step. eapply wp_mono; [apply (Hm (fun _ t' => tinv cfg L others t')); done| |exact Hsame]. intros x t' Ht'. wp_step. by intros ->. }
  destruct c; cbn [run after_call] in *.
  - apply Hgo. intros Q HQ. apply wp_tx_burst; auto.
  - apply Hgo. intros Q HQ. eapply wp_drain_all; [done|apply thrown_spins|auto].
  - apply Hgo. intros Q HQ. apply wp_rx_burst; [done|]. auto.
  - apply Hgo. intros Q HQ. apply wp_register_rx; auto.
  - apply Hgo. intros Q HQ. apply wp_prepare_disconnect; auto.
  - apply Hgo. intros Q HQ. apply wp_unregister_rx; auto.
  - apply Hgo. intros Q HQ. destruct routing_info as [buf|]; cbn [resolve_remote_routing_info]; [|wp_step; by apply HQ].
    apply wp_ensure; [by apply route_rpc_id, Ha|done|]. auto.
  - apply Hgo. intros Q HQ. unfold init_hugepage_structures. repeat wp_step. apply HQ. eapply tinv_books; try done; apply Hinv.
  - apply Hgo. intros Q HQ. apply wp_alloc_shared; [done|]. auto.
  - apply Hgo. intros Q HQ. apply wp_free_shared; auto.
  - apply Hgo. intros Q HQ. eapply wp_buffer_op; [done|done|apply plain_add_ref|auto].
  - wp_step. eapply wp_mono; [apply (wp_import_object V cfg L h others (fun o t' => tinv cfg L (io_machine_id o :: others) t')); done| |exact Hsame].
    intros o t' Ht'. wp_step. by intros ->.
  - destruct Ha as [Hb (rest&Hrest)%elem_of_Permutation]. wp_step. apply (tinv_perm _ _ _ _ Hrest) in Hinv.
    assert (Hsub : forall t', others ≡ₚ io_machine_id o :: others' -> tinv cfg L rest t' -> tinv cfg L others' t').
    { intros t' Hp. apply tinv_perm. apply (Permutation_cons_inv (a := io_machine_id o)). by rewrite <- Hp, Hrest. }
    eapply wp_mono; [apply (wp_release_object V cfg L o rest (fun _ t' => tinv cfg L rest t')); done|..].
    + intros [] t' Ht'. wp_step. intros Hp. by apply Hsub.
    + intros e t' [He Ht']. split; [done|]. intros Hs Hp. apply Hsub; [done|]. by apply Ht'.
Qed.

(** One step of the process: a call that returns or throws, another user of the context, or
    writes of other processes to the regions. *)
Inductive tstep (L : Z) : list Z * tstate -> list Z * tstate -> Prop :=
  | step_call others others' t t' c r :
      allowed L others t c -> run c t = (r, t') -> r <> inr SPINS -> after_call c r others others' -> tstep L (others, t) (others', t')
  | step_acquire others t k m b :
      Z.of_nat (length others) + 1 < 2 ^ 63 -> acquire_remote_machine V cfg m (t_cx t) = (inl (Some b), k) ->
      tstep L (others, t) (m :: others, t.{ t_cx := k })
  | step_release others others' t k m :
      others ≡ₚ m :: others' -> release_remote_machine V cfg m (t_cx t) = (inl tt, k) -> tstep L (others, t) (others', t.{ t_cx := k })
  | step_regions others t regions : tstep L (others, t) (others, t.{ t_cx := (t_cx t).{ c_regions := regions } }).

Lemma tstep_inv L s s' : tstep L s s' -> tinv cfg L s.1 s.2 -> tinv cfg L s'.1 s'.2.
Proof.
  intros Hst Hinv. destruct Hst as [others others' t t' c r Ha Hop Hs Haf|others t k m b Hlen Hop|others others' t k m Hp Hop|others t regions]; simpl in *.
  - pose proof (wp_run _ _ _ _ _ _ (wp_call L others t c others' Hinv Ha) Hop) as Hw. destruct r as [a|e]; [by apply Hw|]. apply Hw; [congruence|done].
  - pose proof (proj1 Hinv) as Hc.
    assert (Hw : wp (acquire_remote_machine V cfg m) (mapped_more cfg (held (t_remotes t) ++ others) (t_cx t) m) (fun _ _ => True) (t_cx t)).
    { eapply wp_acquire_remote; [apply Hc|by eapply references_bound|done|done]. }
    destruct (wp_run _ _ _ _ _ _ Hw Hop) as (Hf&Hm&Hk&_). apply (tinv_ctx _ _ others); try done.
    + simpl length. lia.
    + eapply ctx_ok_perm; [|exact Hk]. apply Permutation_middle.
    + intros m' b' _. apply Hm.
  - apply (tinv_perm _ _ _ _ Hp) in Hinv.
    assert (Hw : wp (cx (release_remote_machine V cfg m)) (fun _ t' => tinv cfg L others' t') (fun _ _ => True) t).
    { eapply wp_release_held; [exact Hinv|done]. }
    refine (wp_run _ _ _ _ (inl tt) _ Hw _). unfold cx. by rewrite Hop.
  - by apply tinv_same.
Qed.

(** The states a process reaches from the construction of the transport on. *)
Definition reached (L : Z) (others : list Z) (t : tstate) : Prop :=
  exists k pkthdrs port others0 t0, context_before cfg others0 k /\ Z.of_nat (length others0) < 2 ^ 63 /\
    UBTransport V cfg rpc_id_ port (new_transport k pkthdrs) = (inl tt, t0) /\ c_local (t_cx t0) = Some L /\
    rtc (tstep L) (others0, t0) (others, t).

Lemma reached_inv L others t : reached L others t -> tinv cfg L others t.
Proof.
  intros (k&pkthdrs&port&others0&t0&Hk&Hlen&Hcon&Hl&Hr).
  assert (Hinv0 : tinv cfg L others0 t0).
  { assert (Hw : wp (UBTransport V cfg rpc_id_ port) (fun _ t' => c_local (t_cx t') = Some L -> tinv cfg L others0 t') (fun _ _ => True) (new_transport k pkthdrs)).
    { apply (wp_construct V cfg rpc_id_ L others0); try done. intros t' L' Hl' Hi Hl''. apply Hi. congruence. }
    by apply (wp_run _ _ _ _ _ _ Hw Hcon). }
  refine (rtc_invariant (tstep L) (fun s => tinv cfg L s.1 s.2) _ _ _ Hr Hinv0). intros s s' Hi Hs. by apply (tstep_inv L s s').
Qed.

(** The compact arrays, the counters and the queues of a transport agree. *)
Record consistent (t : tstate) : Prop := {
  cs_waiting : forall p, peer_ok p ->
    re_pending_tx (t_remotes t p) <> [] <-> exists i, 0 <= i < t_pending_endpoint_count t /\ t_pending_endpoints t i = p;
  cs_waiting_once : forall i j, 0 <= i < t_pending_endpoint_count t -> 0 <= j < t_pending_endpoint_count t ->
    t_pending_endpoints t i = t_pending_endpoints t j -> i = j;
  cs_count : t_pending_count t = total (fun p => Z.of_nat (length (re_pending_tx (t_remotes t p))));
  cs_bounded : forall p, peer_ok p -> Z.of_nat (length (re_pending_tx (t_remotes t p))) <= kMaxPendingTxPerEndpoint;
  cs_active : forall p, peer_ok p -> 0 < t_rx_refs t p <-> exists i, 0 <= i < t_active_count t /\ t_active t i = p;
  cs_active_once : forall i j, 0 <= i < t_active_count t -> 0 <= j < t_active_count t -> t_active t i = t_active t j -> i = j }.

(** C17. After any sequence of calls, whatever they returned or threw, exactly the peers with waiting descriptors are in the list
    that is drained, exactly the peers with a session are in the list that is polled, each of them once, the number of
    waiting descriptors is counted correctly, and no peer has more than 64. *)
Theorem transport_is_consistent L others t : reached L others t -> consistent t.
Proof.
  intros Hr. destruct (reached_inv _ _ _ Hr) as [Hc Hb]. destruct (bo_index _ _ _ Hb) as [Hn Hi Ho]. destruct (bo_active _ _ _ Hb) as [Han Hai Haj Haa Har]. split.
  - intros p Hp. destruct (Ho p Hp) as [(Hw&?&?)|[Hw HP]].
    + split; [|done]. intros _. by exists (t_pending_positions t p).
    + split; [done|]. intros (i&Hi'&<-). destruct (Hi i Hi') as [_ HPi]. rewrite HPi in HP. pose proof (index_bound _ _ _ _ (bo_index _ _ _ Hb)). lia.
  - intros i j Hi' Hj' Heq. destruct (Hi i Hi') as [_ <-], (Hi j Hj') as [_ <-]. by rewrite Heq.
  - apply (bo_count _ _ _ Hb).
  - intros p Hp. apply (ro_length _ _ _ _ (co_remotes _ _ _ _ Hc p Hp)).
  - intros p Hp. split; [by apply Haa|]. intros (i&Hi'&<-). by apply Hai.
  - done.
Qed.

(** C7. Per destination nothing overtakes and nothing is lost: what was accepted for a peer is, in this order, what was
    published to its queue or released with the endpoint, followed by what still waits. *)
Theorem sends_keep_their_order L others t p :
  reached L others t -> peer_ok p ->
  accepted_by p (t_history t) = settled_by p (t_history t) ++ (pt_descriptor <$> re_pending_tx (t_remotes t p)).
Proof. intros Hr Hp. destruct (reached_inv _ _ _ Hr) as [_ Hb]. rewrite (bo_order _ _ _ Hb p Hp). unfold nothing. by rewrite app_nil_r. Qed.

(** Each call returns, throws one of its exceptions, or waits for an allocator lock. *)
Lemma never_faults L others t c e t' :
  reached L others t -> allowed L others t c -> run c t = (inr e, t') -> fault e = false.
Proof.
  intros Hr Ha Hop. destruct (wp_run _ _ _ _ _ _ (wp_call L others t c others (reached_inv _ _ _ Hr) Ha) Hop) as [He _]. exact He.
Qed.

(** C15. The mapping that a remote endpoint caches is a live mapping of its machine's region, every machine is mapped at most
    once, and the reference count of a mapping is the number of its users: no region is unmapped under an endpoint, and
    none is kept without one, except where the library refused to unmap it. *)
Theorem mappings_outlive_their_users L others t :
  reached L others t ->
  (forall p b, peer_ok p -> re_machine_base (t_remotes t p) = Some b -> c_live (t_cx t) !! b = Some (re_machine_id (t_remotes t p))) /\
  NoDup (rm_machine_id <$> c_mappings (t_cx t)) /\
  (forall r, r ∈ c_mappings (t_cx t) -> c_live (t_cx t) !! rm_base r = Some (rm_machine_id r) /\
     rm_references r = count (rm_machine_id r) (held (t_remotes t) ++ others)).
Proof.
  intros Hr. destruct (reached_inv _ _ _ Hr) as [Hc _]. split; [|split].
  - intros p b Hp Hb. apply (ro_maps _ _ _ _ (co_remotes _ _ _ _ Hc p Hp) b Hb).
  - apply (co_ctx _ _ _ _ Hc).
  - intros r Hin. destruct (co_map _ _ _ (co_ctx _ _ _ _ Hc) r Hin) as (?&_&?). done.
Qed.

(** More fuel does not change a drain that ended. *)
Lemma drain_from_more fuel i t :
  (drain_from cfg rpc_id_ fuel i t).1 <> inr OUT_OF_TIME -> drain_from cfg rpc_id_ (S fuel) i t = drain_from cfg rpc_id_ fuel i t.
Proof.
  revert i t. induction fuel as [|fuel IH]; intros i t Hne.
  - cbn [drain_from] in Hne |- *. unfold bind, get in *. by case_if.
  - change (drain_from cfg rpc_id_ (S (S fuel)) i t) with ((t <- get ;;
      if negb (i <? t_pending_endpoint_count t) then ret tt else
      check_index i ;; drain_pending cfg rpc_id_ (t_pending_endpoints t i) ;; t2 <- get ;;
      drain_from cfg rpc_id_ (S fuel) (if t_pending_positions t2 (t_pending_endpoints t i) !=? kMaxRpcEndpoints then i + 1 else i)) t).
    cbn [drain_from] in Hne. cbn [drain_from]. unfold bind, get in *. case_if; [done|].
    destruct (check_index i t) as [[[]|] t1]; [|done]. destruct (drain_pending _ _ _ t1) as [[[]|] t2]; [|done]. by apply IH.
Qed.

(** C25. The loop that drains the waiting peers ends after at most as many iterations as peers wait at its start. *)
Theorem draining_terminates L others t fuel :
  reached L others t -> (Z.to_nat (t_pending_endpoint_count t) <= fuel)%nat ->
  ((drain_from cfg rpc_id_ fuel 0 t).1 = inl tt \/ (drain_from cfg rpc_id_ fuel 0 t).1 = inr SPINS) /\
  drain_from cfg rpc_id_ fuel 0 t = drain_from cfg rpc_id_ (Z.to_nat (t_pending_endpoint_count t)) 0 t.
Proof.
  intros Hr Hf. pose proof (ix_n _ _ _ _ (bo_index _ _ _ (proj2 (reached_inv _ _ _ Hr)))) as Hn.
  assert (Hend : forall fuel, (Z.to_nat (t_pending_endpoint_count t) <= fuel)%nat ->
    (drain_from cfg rpc_id_ fuel 0 t).1 = inl tt \/ (drain_from cfg rpc_id_ fuel 0 t).1 = inr SPINS).
  { clear fuel Hf. intros fuel Hf. assert (Hw : wp (drain_from cfg rpc_id_ fuel 0) (fun _ _ => True) (fun e _ => e = SPINS) t).
    { apply wp_drain_from with (L := L) (others := others); try done; [by apply reached_inv|lia]. }
    unfold wp in Hw. destruct (drain_from cfg rpc_id_ fuel 0 t) as [[[]|e] t']; [by left|]. right. by rewrite Hw. }
  split; [by apply Hend|]. induction Hf as [|fuel Hf IH]; [done|]. rewrite <- IH. apply drain_from_more.
  destruct (Hend fuel Hf) as [->| ->]; done.
Qed.

(** C23. The destructor, whatever the library and the manager answer, throws nothing, leaves no remote endpoint and no waiting
    descriptor, has settled everything it accepted, and gives its references back: the context is as the other users know
    it, or it is gone.  It can only be held up at an allocator lock that another process keeps. *)
Theorem destructor_returns_everything L others t :
  reached L others t ->
  match cleanup_noexcept V cfg rpc_id_ t with
  | (inl tt, t') => cleaned cfg others t'
  | (inr e, _) => e = SPINS
  end.
Proof.
  intros Hr. pose proof (wp_cleanup V cfg rpc_id_ L others (fun _ t' => cleaned cfg others t') t (reached_inv _ _ _ Hr)) as Hw. unfold wp in Hw.
  destruct (cleanup_noexcept V cfg rpc_id_ t) as [[[]|e] t']; by apply Hw.
Qed.
End run.

(** ** A process that sends to itself through a full queue *)

Definition demo_sdk : sdk := mk_sdk 0 1 (fun _ => 0) (fun _ => 0) (fun _ => 0) (fun _ => 0) (fun _ => true) (fun _ => true) (fun _ => Answered).
Definition demo_cfg : context_config :=
  mk_context_config kSingle 8388608 1 0 1048576 (fun _ => None) 48 (Some "host"%string) 64 7 (mk_region_owner kMulti 8388608 1 0 1048576).
Definition demo_process : cstate := mk_cstate (fun _ _ => 0) ∅ 1 false false 0 None None [] [].
Definition demo_new : tstate := new_transport demo_process (fun _ => mk_pkthdr 0 0 0 0 0).
Definition demo_route : list Z := fill_local_routing_info 1 3 (mk_handle 0 3 1 4194304 4464640 1048576).
Definition demo_item : tx_burst_item_t := mk_item (Some demo_route) (Some (mk_msg None (mk_tbuffer None 0) (mk_pkthdr 0 5 0 0 0))) 0.
(** Another process has filled the queue. *)
Definition demo_full (t : tstate) : tstate :=
  t.{ t_cx := (t_cx t).{ c_regions := fn_set (c_regions (t_cx t)) 1
        (st64 (c_regions (t_cx t) 1) (queue_tail (inbox_queue 4194304 3)) 64) } }.
Local Notation demo_call := (run demo_sdk demo_cfg 3).

Lemma send_run : exists t0 t1 t2,
  UBTransport demo_sdk demo_cfg 3 31850 demo_new = (inl tt, t0) /\ c_local (t_cx t0) = Some 5 /\
  demo_call (CRegisterPeer 3) t0 = (inl None, t1) /\ demo_call (CTxBurst [demo_item]) (demo_full t1) = (inl None, t2) /\
  length (re_pending_tx (t_remotes t2 3)) = 1%nat /\ t_pending_endpoint_count t2 = 1 /\
  (re_machine_base (t_remotes t2 3), re_machine_id (t_remotes t2 3), t_rx_head t2) = (Some 5, 1, 0).
Proof.
  assert (H : match UBTransport demo_sdk demo_cfg 3 31850 demo_new with
    | (inl tt, t0) => c_local (t_cx t0) = Some 5 /\ match demo_call (CRegisterPeer 3) t0 with
      | (inl None, t1) => match demo_call (CTxBurst [demo_item]) (demo_full t1) with
        | (inl None, t2) => length (re_pending_tx (t_remotes t2 3)) = 1%nat /\ t_pending_endpoint_count t2 = 1 /\
            (re_machine_base (t_remotes t2 3), re_machine_id (t_remotes t2 3), t_rx_head t2) = (Some 5, 1, 0)
        | _ => False end
      | _ => False end
    | _ => False end) by (vm_compute; done).
  destruct (UBTransport demo_sdk demo_cfg 3 31850 demo_new) as [[[]|] t0]; [|done]. destruct H as [Hl H]. exists t0.
  destruct (demo_call (CRegisterPeer 3) t0) as [[[]|] t1]; try done. exists t1.
  destruct (demo_call (CTxBurst [demo_item]) (demo_full t1)) as [[[]|] t2]; try done. exists t2. by destruct H.
Qed.
Lemma run_reached t0 t1 t2 :
  UBTransport demo_sdk demo_cfg 3 31850 demo_new = (inl tt, t0) -> c_local (t_cx t0) = Some 5 ->
  demo_call (CRegisterPeer 3) t0 = (inl None, t1) -> demo_call (CTxBurst [demo_item]) (demo_full t1) = (inl None, t2) ->
  reached demo_sdk demo_cfg 3 5 [] t2.
Proof.
  intros H0 Hl H1 H2.
  exists demo_process, (fun _ => mk_pkthdr 0 0 0 0 0), 31850, [], t0. split; [left; split; [by split|done]|]. split; [clear; done|]. split; [exact H0|]. split; [exact Hl|].
  eapply rtc_l; [exact (step_call demo_sdk demo_cfg 3 5 [] [] t0 t1 (CRegisterPeer 3) _ ltac:(clear; done) H1 ltac:(clear; done) eq_refl)|].
  eapply rtc_l; [apply step_regions|].
  refine (rtc_once _ _ (step_call demo_sdk demo_cfg 3 5 [] [] _ t2 (CTxBurst [demo_item]) _ _ H2 ltac:(clear; done) eq_refl)).
  clear. constructor; [|constructor]. split; [|by intros mb [= <-]]. intros buf [= <-]. apply enc_fields_range.
Qed.
Lemma send_reached : exists t, reached demo_sdk demo_cfg 3 5 [] t /\ length (re_pending_tx (t_remotes t 3)) = 1%nat /\ t_pending_endpoint_count t = 1 /\
  (re_machine_base (t_remotes t 3), re_machine_id (t_remotes t 3), t_rx_head t) = (Some 5, 1, 0).
Proof.
  destruct send_run as (t0&t1&t2&H0&Hl&H1&H2&Hlen&Hn). exists t2. split; [exact (run_reached t0 t1 t2 H0 Hl H1 H2)|exact (conj Hlen Hn)].
Qed.

Lemma transport_is_consistent_witness : exists t, re_pending_tx (t_remotes t 3) <> [] /\ consistent t.
Proof.
  destruct send_reached as (t&Hr&Hlen&_). exists t. split; [intros Heq; by rewrite Heq in Hlen|].
  exact (transport_is_consistent demo_sdk demo_cfg 3 5 [] t Hr).
Defined.
Lemma sends_keep_their_order_witness : exists t, re_pending_tx (t_remotes t 3) <> [] /\
  accepted_by 3 (t_history t) = settled_by 3 (t_history t) ++ (pt_descriptor <$> re_pending_tx (t_remotes t 3)).
Proof.
  destruct send_reached as (t&Hr&Hlen&_). exists t. split; [intros Heq; by rewrite Heq in Hlen|].
  exact (sends_keep_their_order demo_sdk demo_cfg 3 5 [] t 3 Hr ltac:(clear; done)).
Defined.
Lemma mappings_outlive_their_users_witness : exists t, reached demo_sdk demo_cfg 3 5 [] t /\ NoDup (rm_machine_id <$> c_mappings (t_cx t)).
Proof.
  destruct send_reached as (t&Hr&_). exists t. split; [exact Hr|]. exact (proj1 (proj2 (mappings_outlive_their_users demo_sdk demo_cfg 3 5 [] t Hr))).
Defined.
Lemma draining_terminates_witness : exists t, t_pending_endpoint_count t = 1 /\
  drain_from demo_cfg 3 64 0 t = drain_from demo_cfg 3 1 0 t.
Proof.
  destruct send_reached as (t&Hr&_&Hn&_). exists t. split; [exact Hn|].
  pose proof (draining_terminates demo_sdk demo_cfg 3 5 [] t 64 Hr) as H. rewrite Hn in H. apply H. clear. lia.
Defined.
Lemma destructor_returns_everything_witness : exists t, reached demo_sdk demo_cfg 3 5 [] t /\
  match cleanup_noexcept demo_sdk demo_cfg 3 t with (inl tt, t') => cleaned demo_cfg [] t' | (inr e, _) => e = SPINS end.
Proof.
  destruct send_reached as (t&Hr&_). exists t. split; [exact Hr|]. exact (destructor_returns_everything demo_sdk demo_cfg 3 5 [] t Hr).
Defined.
