(* ===== verification/TransportBounds.v ===== *)
(** * The transport stays inside the regions

    [c_touched] records every access to shared memory whose place the process computes:
    the queues of its own and of remote inboxes, the header and the registry entry that
    [validate_endpoint] reads, the metadata of blocks, and its arena.  The places come
    from handles, routing information and descriptors that other processes write; the
    checks of the code keep every recorded span inside the region. *)

From stdpp Require Import gmap strings.
From S2P Require Import Prelude Monad CMem ErpcUb ErpcConfig Spsc Arena ArenaSound Machine MachineSound Context ContextSound Transport TransportSound TransportRun.

(** ** The spans are what the operations access *)

(** The outcome depends on the bytes of the span only, and no other byte is written. *)
Definition confined {X} (o n : Z) (op : mem -> X * mem) : Prop :=
  (forall m m', (forall x, o <= x < o + n -> m x = m' x) -> (op m).1 = (op m').1) /\
  (forall m x, bytes_ok m -> x < o \/ o + n <= x -> (op m).2 x = m x).
Lemma ld_agree w m m' a o n : o <= a -> a + Z.of_nat w <= o + n -> (forall x, o <= x < o + n -> m x = m' x) -> ld w m a = ld w m' a.
Proof. intros Ha Hn Hm. unfold ld. f_equal. apply load_bytes_ext. intros i Hi. apply Hm. lia. Qed.
Lemma enqueue_confined q (d : UBMessageDescriptor) p : struct_ok d ->
  confined q sizeof_queue (fun m => let '(ok, p, m') := try_enqueue q d p m in ((ok, p), m')).
Proof.
  intros Hd. change sizeof_queue with 4224. split.
  - intros m m' Hm. cbv beta. unfold try_enqueue. assert (Hh : ld64 m (queue_head q) = ld64 m' (queue_head q)) by (apply (ld_agree 8 m m' _ q 4224); [unfold queue_head; lia..|done]). rewrite Hh.
    by destruct (looks_full (if looks_full p then _ else p)).
  - intros m x _ Hx. cbv beta. unfold try_enqueue. set (p1 := if looks_full p then _ else p). destruct (looks_full p1); [done|]. cbn [snd].
    pose proof (slot_in_queue q (pr_tail p1)). rewrite st_out by (unfold queue_tail; simpl; lia). apply st_struct_out; [done|]. change (sizeof UBMessageDescriptor) with 64. lia.
Qed.
Lemma dequeue_confined q h : confined q sizeof_queue (fun m => let '(d, head, m') := try_dequeue q h m in ((d, head), m')).
Proof.
  change sizeof_queue with 4224. pose proof (slot_in_queue q h). split.
  - intros m m' Hm. cbv beta. unfold try_dequeue. assert (Ht : ld64 m (queue_tail q) = ld64 m' (queue_tail q)) by (apply (ld_agree 8 m m' _ q 4224); [unfold queue_tail; lia..|done]). rewrite Ht. destruct (h =? _); [done|]. cbn [fst].
    rewrite (ld_struct_ext m m' (slot_of q h) (slot_of q h)); [done|]. intros i Hi. change (sizeof UBMessageDescriptor) with 64 in Hi. apply Hm. lia.
  - intros m x _ Hx. cbv beta. unfold try_dequeue. destruct (h =? _); [done|]. cbn [snd]. apply st_out. unfold queue_head. simpl. lia.
Qed.
Lemma add_ref_confined b off : buf_ b = Some off -> confined (off - sizeof_block) sizeof_block (add_ref b).
Proof.
  intros Hb. unfold add_ref, metadata_from_buffer, block_at, set_block, sizeof_block. rewrite Hb. cbn [mbind option_bind]. split.
  - intros m m' Hm. unfold bind, get, ret, fail_if, raise, put. rewrite (ld_struct_ext m m' (off - 64) (off - 64)).
    + by destruct (_ || _).
    + intros i Hi. change (sizeof UBBlockMetadata) with 64 in Hi. apply Hm. lia.
  - intros m x Hm Hx. unfold bind, get, ret, fail_if, raise, put. destruct (_ || _); [done|]. cbn [snd]. pose proof (ld_plain_ok (A := UBBlockMetadata) m (off - 64) Hm) as Hok.
    apply upd_out; [|change (sizeof UBBlockMetadata) with 64; lia]. rewrite block_ok_spec in Hok |- *. destruct Hok as (?&?&?&?&?&?&?).
    repeat (split; [done|]). split; [by apply field_u32, u32_range|done].
Qed.

(** ** Every operation leaves bytes *)

Definition bkeeps {X} (op : A X) : Prop := forall m, bytes_ok m -> wp op (fun _ => bytes_ok) (fun _ => bytes_ok) m.
Lemma bkeeps_bind {X Y} (op : A X) (f : X -> A Y) : bkeeps op -> (forall x, bkeeps (f x)) -> bkeeps (bind op f).
Proof. intros Hm Hf m Hb. wp_step. eapply wp_mono; [by apply Hm| |done]. intros x m' Hb'. by apply Hf. Qed.
Lemma bkeeps_read {X} (f : mem -> X) : bkeeps (m <- get ;; ret (f m)).
Proof. intros m Hb. by repeat wp_step. Qed.
Lemma bkeeps_write (f : mem -> mem) : (forall m, bytes_ok m -> bytes_ok (f m)) -> bkeeps (m <- get ;; put (f m)).
Proof. intros Hf m Hb. repeat wp_step. by apply Hf. Qed.
Lemma bkeeps_ret {X} (x : X) : bkeeps (ret x).
Proof. intros m Hb. by wp_step. Qed.
Lemma bkeeps_fail_if b e : bkeeps (fail_if b e).
Proof. intros m Hb. by wp_step. Qed.
Lemma bkeeps_raise {X} e : bkeeps (raise (A := X) e).
Proof. intros m Hb. by wp_step. Qed.
Lemma bkeeps_set_block b f : bkeeps (set_block b f).
Proof. apply bkeeps_write. intros m Hm. by apply upd_bytes_ok. Qed.
Lemma bkeeps_set_arena a f : bkeeps (set_arena a f).
Proof. apply bkeeps_write. intros m Hm. by apply upd_bytes_ok. Qed.
Ltac bkeep := repeat lazymatch goal with
  | |- bkeeps (block_at _) => apply bkeeps_read
  | |- bkeeps (arena_at _) => apply bkeeps_read
  | |- bkeeps (set_block _ _) => apply bkeeps_set_block
  | |- bkeeps (set_arena _ _) => apply bkeeps_set_arena
  | |- bkeeps (bind _ _) => apply bkeeps_bind; [|intros ?]
  | |- bkeeps (ret _) => apply bkeeps_ret
  | |- bkeeps (raise _) => apply bkeeps_raise
  | |- bkeeps (fail_if _ _) => apply bkeeps_fail_if
  | |- bkeeps (if ?b then _ else _) => destruct b
  | |- bkeeps (match ?x with _ => _ end) => destruct x
  end.
Lemma bkeeps_release_metadata p : bkeeps (release_metadata p).
Proof. unfold release_metadata, lock_class, unlock_class. bkeep. Qed.
Lemma bkeeps_free b : bkeeps (free b).
Proof. unfold free. bkeep. apply bkeeps_release_metadata. Qed.
Lemma bkeeps_release_remote_ref b : bkeeps (release_remote_ref b).
Proof. unfold release_remote_ref. bkeep. apply bkeeps_release_metadata. Qed.
Lemma bkeeps_add_ref b : bkeeps (add_ref b).
Proof. unfold add_ref. bkeep. Qed.
Lemma bkeeps_generation_of al l p : bkeeps (generation_of al l p).
Proof. unfold generation_of. bkeep. Qed.
Lemma bkeeps_alloc al n : bkeeps (alloc al n).
Proof. unfold alloc, pop_free, bump, init_block, lock_class, unlock_class. bkeep. Qed.
Lemma bkeeps_validate_region rb fl mp i : bkeeps (validate_region rb fl mp i).
Proof. intros m Hb. unfold validate_region. by repeat wp_step. Qed.
Lemma bkeeps_enqueue q d p : bkeeps (fun m => let '(ok, p, m') := try_enqueue q d p m in (inl (ok, p), m')).
Proof.
  intros m Hb. unfold wp, try_enqueue. repeat (case_match; simplify_eq); try done; by apply st_ok, st_struct_bytes_ok.
Qed.
Lemma bkeeps_dequeue q h : bkeeps (fun m => let '(d, head, m') := try_dequeue q h m in (inl (d, head), m')).
Proof. intros m Hb. unfold wp, try_dequeue. repeat (case_match; simplify_eq); try done. by apply st_ok. Qed.
(** What is read from a queue has the ranges of its fields. *)
Lemma dequeued_ok q h m d : bytes_ok m -> (try_dequeue q h m).1.1 = Some d -> struct_ok d.
Proof. intros Hb. unfold try_dequeue. case_if; [done|]. cbn [fst]. intros <-%Some_inj. by apply ld_plain_ok. Qed.

Section bounds.
Context (V : sdk) (cfg : context_config) (rpc_id_ : Z).
Local Notation region := (cc_region_bytes cfg).

Definition inside (offset bytes : Z) : Prop := 0 <= offset /\ offset + bytes <= region.
Definition span_inside (s : span) : Prop := inside (sp_offset s) (sp_bytes s).
Definition inbox_inside (inbox : ptr) : Prop := kUBMachineDataOffset <= inbox.2 /\ inbox.2 + sizeof_inbox <= region.
Definition arena_inside (al : allocator) : Prop :=
  let e := al_endpoint al in kUBMachineDataOffset <= eh_arena_offset e /\ sizeof_arena <= eh_arena_size e /\ eh_arena_offset e + eh_arena_size e <= region.
(** The metadata of the buffer's block. *)
Definition buffer_inside (b : tbuffer) : Prop := forall base off, tb_buf b = Some (base, off) -> inside (off - sizeof_block) sizeof_block.
Definition waiting_inside (l : list PendingTx) : Prop := Forall (fun p => buffer_inside (pt_backing_buffer p)) l.

(** The region has its metadata area and a 64-bit size, and the identifier is in range. *)
Definition sized : Prop := kUBMachineDataOffset <= region /\ in_u64 region /\ peer_ok rpc_id_.
(** The regions hold bytes, the storage of the endpoint is inside the region, and so are the
    blocks it was given to send. *)
Record placed (t : tstate) : Prop := {
  pl_bytes : forall machine, bytes_ok (c_regions (t_cx t) machine);
  pl_inbox : forall inbox, t_local_inbox t = Some inbox -> inbox_inside inbox;
  pl_arena : forall al, t_allocator t = Some al -> arena_inside al;
  pl_waiting : forall p, peer_ok p -> waiting_inside (re_pending_tx (t_remotes t p)) }.
(** The buffers of a call are inside the region. *)
Definition call_placed (c : tcall) : Prop :=
  match c with
  | CTxBurst items => Forall (fun i => forall mb, ti_msg_buffer i = Some mb -> buffer_inside (mb_buffer mb)) items
  | CFree b | CRetain b => buffer_inside b
  | CReleaseObject o => buffer_inside (io_buffer o)
  | _ => True
  end.

(** ** The invariant *)

(** The cached inboxes are inside; under [w] also the blocks that wait and the accesses after [T0]. *)
Section invariant.
Context (w : Prop) (T0 : list span) (Hw : w -> sized).
Record remote_inside (r : RemoteEndpoint) : Prop := {
  ri_inbox : forall inbox, re_inbox r = Some inbox -> inbox_inside inbox;
  ri_slot : 0 <= eh_slot (re_endpoint r);
  ri_waiting : w -> waiting_inside (re_pending_tx r) }.
Definition touches (k : cstate) : Prop :=
  w -> (forall machine, bytes_ok (c_regions k machine)) /\ exists new, c_touched k = T0 ++ new /\ Forall span_inside new.
Definition storage_inside (t : tstate) : Prop :=
  (forall inbox, t_local_inbox t = Some inbox -> inbox_inside inbox) /\ (forall al, t_allocator t = Some al -> arena_inside al).
Definition bounded (t : tstate) : Prop :=
  (forall p, peer_ok p -> remote_inside (t_remotes t p)) /\ touches (t_cx t) /\ (w -> storage_inside t).

Definition ckeeps {X} (m : C X) : Prop := forall k, touches k -> wp m (fun _ => touches) (fun _ => touches) k.
Lemma ckeeps_bind {X Y} (m : C X) (f : X -> C Y) : ckeeps m -> (forall x, ckeeps (f x)) -> ckeeps (bind m f).
Proof. intros Hm Hf k Hk. wp_step. eapply wp_mono; [by apply Hm| |done]. intros x k' Hk'. by apply Hf. Qed.
Lemma ckeeps_get {X} (f : cstate -> C X) : (forall k0, ckeeps (f k0)) -> ckeeps (bind get f).
Proof. intros Hf k Hk. do 2 wp_step. by apply Hf. Qed.
Lemma ckeeps_update (f : cstate -> cstate) : (forall k, c_touched (f k) = c_touched k /\ c_regions (f k) = c_regions k) -> ckeeps (k <- get ;; put (f k)).
Proof. intros Hf k Hk. repeat wp_step. unfold touches. destruct (Hf k) as [-> ->]. done. Qed.
Lemma ckeeps_update_then (f : cstate -> cstate) {X} (g : cstate -> C X) :
  (forall k, c_touched (f k) = c_touched k /\ c_regions (f k) = c_regions k) -> (forall k0, ckeeps (g k0)) -> ckeeps (k <- get ;; put (f k) ;; g k).
Proof. intros Hf Hg k Hk. do 4 wp_step. apply Hg. unfold touches. destruct (Hf k) as [-> ->]. done. Qed.
Lemma ckeeps_ret {X} (x : X) : ckeeps (ret x).
Proof. intros k Hk. by wp_step. Qed.
Lemma ckeeps_raise {X} e : ckeeps (raise (A := X) e).
Proof. intros k Hk. by wp_step. Qed.
Lemma ckeeps_fail_if b e : ckeeps (fail_if b e).
Proof. intros k Hk. by wp_step. Qed.
Lemma ckeeps_try {X} (m : C X) : ckeeps m -> ckeeps (try_catch m).
Proof. intros Hm k Hk. apply wp_try. eapply wp_mono; [by apply Hm|done|]. intros e k' Hk'. by case_match. Qed.
Lemma ckeeps_in_region {X} base (op : A X) : bkeeps op -> ckeeps (in_region base op).
Proof.
  intros Hop k Hk. unfold in_region, region_of. do 3 wp_step. destruct (c_live k !! base) as [m|]; [|by wp_step]. do 3 wp_step.
  destruct (op (c_regions k m)) as [r m'] eqn:Eop. assert (touches k.{ c_regions := fn_set (c_regions k) m m' }).
  { intros H. destruct (Hk H) as [Hby Hnew]. split; [|exact Hnew]. intros machine. simpl. unfold fn_set. case_decide; [|apply Hby].
    specialize (Hop _ (Hby m)). unfold wp in Hop. rewrite Eop in Hop. by destruct r. }
  do 2 wp_step. destruct r; by wp_step.
Qed.
Lemma ckeeps_read_region {X} base (f : mem -> X) : ckeeps (read_region base f).
Proof. intros k Hk. unfold read_region, region_of. do 3 wp_step. destruct (c_live k !! base); by repeat wp_step. Qed.
Lemma ckeeps_touch base o n : (w -> inside o n) -> ckeeps (touch base o n).
Proof.
  intros Hi k Hk. unfold touch. repeat wp_step. intros Hw'. destruct (Hk Hw') as (Hby&new&Hn&Hf). split; [exact Hby|]. exists (new ++ [mk_span base o n]). simpl.
  rewrite Hn, app_assoc. split; [done|]. apply Forall_app_2; [done|]. constructor; [by apply Hi|constructor].
Qed.
Ltac ckeep_step :=
  lazymatch goal with
  | |- ckeeps (bind get (fun _ => put _)) => apply ckeeps_update; intros; split; reflexivity
  | |- ckeeps (bind get (fun _ => bind (put _) _)) => apply ckeeps_update_then; [intros; split; reflexivity|intros ?]
  | |- ckeeps (bind get _) => apply ckeeps_get; intros ?
  | |- ckeeps (bind _ _) => apply ckeeps_bind; [|intros ?]
  | |- ckeeps (ret _) => apply ckeeps_ret
  | |- ckeeps (raise _) => apply ckeeps_raise
  | |- ckeeps (fail_if _ _) => apply ckeeps_fail_if
  | |- ckeeps (in_region _ _) => apply ckeeps_in_region; first [apply bkeeps_validate_region|idtac]
  | |- ckeeps (read_region _ _) => apply ckeeps_read_region
  | |- ckeeps (try_catch _) => apply ckeeps_try
  | |- ckeeps (if ?b then _ else _) => destruct b eqn:?
  | |- ckeeps (match ?x with _ => _ end) => destruct x eqn:?
  | |- ckeeps (let _ := _ in _) => intros ?
  end.
Ltac ckeep := repeat ckeep_step.

Lemma metadata_inside : w -> inside 0 (sizeof UBMachineRegionHeader) /\ forall s, slot_ok s -> inside (registry_entry s) (sizeof UBEndpointRegistryEntry).
Proof.
  intros H%Hw. destruct H as (Hr&_&_). rewrite data_offset_val in Hr. unfold inside, registry_entry, slot_ok. rewrite header_size, entry_size.
  change kMaxRpcEndpoints with 64. split; [lia|]. intros s Hs. lia.
Qed.
Lemma ckeeps_acquire m : ckeeps (acquire_remote_machine V cfg m).
Proof.
  unfold acquire_remote_machine, set_mapping, region_name, ubsmem_shmem_map, ubsmem_shmem_unmap, sdk_call, validate_mapping, at_span. ckeep.
  apply ckeeps_touch. intros. by apply metadata_inside.
Qed.
Lemma ckeeps_release m : ckeeps (release_remote_machine V cfg m).
Proof. unfold release_remote_machine, set_mapping, ubsmem_shmem_unmap, sdk_call. ckeep. Qed.
Lemma ckeeps_validate base m h : 0 <= eh_slot h -> ckeeps (context_validate_endpoint cfg base m h).
Proof.
  intros Hs. unfold context_validate_endpoint, read_span. ckeep; apply ckeeps_touch; intros H; apply (metadata_inside H).
  unfold handle_valid, slot_ok in *. bprop. change kMaxRpcEndpoints with 64 in *. lia.
Qed.

(** ** The calls *)

Definition tkeeps {X} (m : T X) : Prop := forall t, bounded t -> wp m (fun _ => bounded) (fun _ => bounded) t.
Lemma wp_keeps {X} (m : T X) (Q : X -> tstate -> Prop) t :
  tkeeps m -> bounded t -> (forall x t', bounded t' -> Q x t') -> wp m Q (fun _ => bounded) t.
Proof. intros Hm Ht HQ. eapply wp_mono; [by apply Hm|exact HQ|done]. Qed.
Lemma tkeeps_bind {X Y} (m : T X) (f : X -> T Y) : tkeeps m -> (forall x, tkeeps (f x)) -> tkeeps (bind m f).
Proof. intros Hm Hf t Ht. wp_step. apply wp_keeps; [done|done|]. intros x t' Ht'. by apply Hf. Qed.
Lemma tkeeps_get {X} (f : tstate -> T X) : (forall t0, tkeeps (f t0)) -> tkeeps (bind get f).
Proof. intros Hf t Ht. do 2 wp_step. by apply Hf. Qed.
Lemma tkeeps_ret {X} (x : X) : tkeeps (ret x).
Proof. intros t Ht. by wp_step. Qed.
Lemma tkeeps_raise {X} e : tkeeps (raise (A := X) e).
Proof. intros t Ht. by wp_step. Qed.
Lemma tkeeps_fail_if b e : tkeeps (fail_if b e).
Proof. intros t Ht. by wp_step. Qed.
Lemma tkeeps_try {X} (m : T X) : tkeeps m -> tkeeps (try_catch m).
Proof. intros Hm t Ht. apply wp_try. eapply wp_mono; [by apply Hm|done|]. intros e t' Ht'. by case_match. Qed.
Lemma tkeeps_each {X} (l : list X) (f : X -> T unit) : Forall (fun x => tkeeps (f x)) l -> tkeeps (each l f).
Proof. induction 1 as [|x l Hx _ IH]; simpl; [apply tkeeps_ret|]. by apply tkeeps_bind. Qed.
Lemma wp_cx_keeps {X} (m : C X) (Q : X -> tstate -> Prop) t :
  ckeeps m -> bounded t -> (forall x t', bounded t' -> t_remotes t' = t_remotes t -> Q x t') -> wp (cx m) Q (fun _ => bounded) t.
Proof.
  intros Hm (Hr&Hk&Hs) HQ. apply wp_cx. eapply wp_mono; [by apply Hm|..].
  - intros x k Hk'. by apply HQ.
  - intros e k Hk'. by split.
Qed.
Lemma tkeeps_cx {X} (m : C X) : ckeeps m -> tkeeps (cx m).
Proof. intros Hm t Ht. by apply wp_cx_keeps. Qed.
Lemma bounded_same t t' :
  t_cx t' = t_cx t -> t_remotes t' = t_remotes t -> t_local_inbox t' = t_local_inbox t -> t_allocator t' = t_allocator t -> bounded t -> bounded t'.
Proof. intros Hk Hr Hi Ha. unfold bounded, storage_inside. by rewrite Hk, Hr, Hi, Ha. Qed.
Lemma tkeeps_update (f : tstate -> tstate) :
  (forall t, t_cx (f t) = t_cx t /\ t_remotes (f t) = t_remotes t /\ t_local_inbox (f t) = t_local_inbox t /\ t_allocator (f t) = t_allocator t) ->
  tkeeps (t <- get ;; put (f t)).
Proof. intros Hf t Ht. repeat wp_step. destruct (Hf t) as (?&?&?&?). by eapply bounded_same. Qed.
Lemma tkeeps_check_index i : tkeeps (check_index i).
Proof. apply tkeeps_fail_if. Qed.
Lemma tkeeps_emit e : tkeeps (emit e).
Proof. by apply tkeeps_update. Qed.
Lemma wp_remote_inside p (Q : RemoteEndpoint -> tstate -> Prop) t :
  bounded t -> (remote_inside (t_remotes t p) -> peer_ok p -> Q (t_remotes t p) t) -> wp (remote_at p) Q (fun _ => bounded) t.
Proof.
  intros Ht HQ. unfold remote_at, check_index. wp_step. wp_step; [done|]. bprop. do 2 wp_step. wp_step.
  assert (Hp : peer_ok p) by (unfold peer_ok; lia). apply HQ; [by apply Ht|done].
Qed.
Lemma wp_set_inside p f (Q : unit -> tstate -> Prop) t :
  bounded t -> (peer_ok p -> remote_inside (f (t_remotes t p))) ->
  (forall t', bounded t' -> Q tt t') -> wp (set_remote p f) Q (fun _ => bounded) t.
Proof.
  intros (Hr&Hk&Hs) Hf HQ. unfold set_remote, check_index. wp_step. wp_step; [by split|]. bprop. do 3 wp_step. apply HQ. split; [|by split].
  intros q Hq. simpl. unfold fn_set. case_decide; [subst; by apply Hf|by apply Hr].
Qed.
Lemma tkeeps_set_remote p f : (forall r, remote_inside r -> remote_inside (f r)) -> tkeeps (set_remote p f).
Proof. intros Hf t Ht. apply wp_set_inside; [done| |done]. intros Hp. apply Hf. by apply Ht. Qed.

Lemma tkeeps_on_buffer {X} b (op : Buffer -> A X) x0 : (w -> buffer_inside b) -> (forall b, bkeeps (op b)) -> tkeeps (on_buffer b op x0).
Proof.
  intros Hb Hop. unfold on_buffer. destruct (tb_buf b) as [[base off]|] eqn:Eb; [|apply tkeeps_ret]. apply tkeeps_cx. unfold at_span.
  apply ckeeps_bind; [|intros _; by apply ckeeps_in_region]. apply ckeeps_touch. intros H. by apply (Hb H base).
Qed.
Lemma queue_inside inbox source : inbox_inside inbox -> peer_ok source ->
  inside (inbox_queue inbox.2 source) sizeof_queue /\ inside (queue_tail (inbox_queue inbox.2 source)) 8 /\ inside (queue_head (inbox_queue inbox.2 source)) 8.
Proof.
  unfold inbox_inside, peer_ok, inside, inbox_queue, queue_tail, queue_head, sizeof_inbox. rewrite data_offset_val. change sizeof_queue with 4224.
  change kMaxRpcEndpoints with 64. lia.
Qed.

Lemma tkeeps_send p d : tkeeps (send_descriptor rpc_id_ p d).
Proof.
  intros t Ht. unfold send_descriptor. wp_step. apply wp_remote_inside; [done|]. intros [Hin _ _] Hp.
  destruct (re_inbox (t_remotes t p)) as [inbox|]; [|by wp_step]. specialize (Hin inbox eq_refl). wp_step. apply wp_cx_keeps; [|done|].
  { unfold at_span. apply ckeeps_bind; [|intros _; apply ckeeps_in_region, bkeeps_enqueue]. apply ckeeps_touch. intros H. by apply queue_inside, Hw. }
  intros [ok pr] t1 Ht1 _. apply tkeeps_bind; [|intros _; apply tkeeps_bind; [destruct ok; [apply tkeeps_emit|apply tkeeps_ret]|intros _; apply tkeeps_ret]|done].
  apply tkeeps_set_remote. intros r []. by split.
Qed.
Lemma tkeeps_pop p : tkeeps (set_remote p (fun r => r.{ re_pending_tx := tail (re_pending_tx r) })).
Proof. apply tkeeps_set_remote. intros r [? ? Hwt]. split; [done|done|]. intros H. specialize (Hwt H). unfold waiting_inside in *. simpl. by destruct Hwt. Qed.
Lemma tkeeps_release_one p x : (w -> buffer_inside (pt_backing_buffer x)) -> tkeeps (release_one p x).
Proof.
  intros Hx. unfold release_one, pop_pending. apply tkeeps_bind; [apply tkeeps_bind; [apply tkeeps_pop|intros _; by apply tkeeps_update]|intros _].
  apply tkeeps_bind; [apply tkeeps_emit|intros _]. apply tkeeps_get. intros t0. destruct (t_allocator t0); [|apply tkeeps_ret].
  apply tkeeps_bind; [|intros _; apply tkeeps_ret]. apply tkeeps_try, tkeeps_on_buffer; [done|]. intros. apply bkeeps_free.
Qed.
Lemma tkeeps_remove_pending p : tkeeps (remove_pending_endpoint p).
Proof. intros t Ht. unfold remove_pending_endpoint, check_index. repeat wp_step; done || by eapply bounded_same. Qed.
Lemma tkeeps_add_pending p : tkeeps (add_pending_endpoint p).
Proof. intros t Ht. unfold add_pending_endpoint, check_index. repeat wp_step; done || by eapply bounded_same. Qed.
Lemma tkeeps_release_pending p : tkeeps (release_pending_noexcept p).
Proof.
  intros t Ht. unfold release_pending_noexcept. wp_step. apply wp_remote_inside; [done|]. intros [_ _ Hwt] _.
  apply tkeeps_bind; [|intros _; apply tkeeps_remove_pending|done]. apply tkeeps_each. rewrite Forall_forall. intros x Hx. apply tkeeps_release_one.
  intros H. specialize (Hwt H). unfold waiting_inside in Hwt. rewrite Forall_forall in Hwt. by apply Hwt.
Qed.
Lemma tkeeps_drain_loop p l : tkeeps (drain_loop rpc_id_ p l).
Proof.
  induction l as [|x l IH]; cbn [drain_loop]; [apply tkeeps_ret|]. apply tkeeps_bind; [apply tkeeps_send|intros ok]. destruct (negb ok); [apply tkeeps_ret|].
  apply tkeeps_bind; [apply tkeeps_pop|intros _]. intros t Ht. do 4 wp_step. apply IH. by eapply bounded_same.
Qed.
Lemma tkeeps_drain_pending p : tkeeps (drain_pending cfg rpc_id_ p).
Proof.
  intros t Ht. unfold drain_pending. wp_step. apply wp_remote_inside; [done|]. intros [_ Hsl _] _. wp_step; [by wp_step|].
  apply tkeeps_bind; [by apply tkeeps_cx, ckeeps_validate|intros valid|done]. destruct (negb valid).
  - apply tkeeps_bind; [apply tkeeps_release_pending|intros _]. apply tkeeps_set_remote. intros r []. by split.
  - apply tkeeps_bind; [apply tkeeps_drain_loop|intros all]. destruct all; [apply tkeeps_remove_pending|apply tkeeps_ret].
Qed.
Lemma tkeeps_drain_from fuel i : tkeeps (drain_from cfg rpc_id_ fuel i).
Proof.
  revert i. induction fuel as [|fuel IH]; intros i; cbn [drain_from]; apply tkeeps_get; intros t0; (destruct (negb _); [apply tkeeps_ret|]); [apply tkeeps_raise|].
  apply tkeeps_bind; [apply tkeeps_check_index|intros _]. apply tkeeps_bind; [apply tkeeps_drain_pending|intros _]. apply tkeeps_get. intros t1. apply IH.
Qed.
Lemma tkeeps_drain_all : tkeeps (drain_all_pending cfg rpc_id_).
Proof. unfold drain_all_pending. apply tkeeps_get. intros t0. case_match; [apply tkeeps_ret|apply tkeeps_drain_from]. Qed.
Lemma tkeeps_release_endpoint p : tkeeps (release_remote_endpoint_noexcept V cfg p).
Proof.
  unfold release_remote_endpoint_noexcept. apply tkeeps_bind; [apply tkeeps_release_pending|intros _]. intros t Ht. wp_step. apply wp_remote_inside; [done|]. intros _ _.
  apply tkeeps_bind; [|intros _|done].
  - apply tkeeps_set_remote. intros r _. split; [done|done|]. intros _. constructor.
  - apply tkeeps_get. intros t0. destruct (_ && _); [apply tkeeps_cx, ckeeps_release|apply tkeeps_ret].
Qed.

(** An endpoint that the check accepts has its inbox in the region. *)
Lemma validate_endpoint_inside m h mm b : validate_endpoint region true m h mm = true -> inbox_inside (b, eh_inbox_offset h).
Proof. unfold validate_endpoint, inbox_inside. case_if; [done|]. case_if; [done|]. intros _. bprop. simpl. lia. Qed.
Lemma wp_validate_inside base m h (Q : bool -> tstate -> Prop) t :
  0 <= eh_slot h -> bounded t ->
  (forall v t', bounded t' -> (v = true -> forall b, inbox_inside (b, eh_inbox_offset h)) -> Q v t') ->
  wp (cx (context_validate_endpoint cfg base m h)) Q (fun _ => bounded) t.
Proof.
  intros Hs (Hr&Hk&Hst) HQ. apply wp_cx.
  eapply wp_mono; [apply wp_both with (Q' := fun v _ => v = true -> forall b, inbox_inside (b, eh_inbox_offset h)) (E' := fun _ _ => True);
    [by apply ckeeps_validate|]|..].
  - unfold context_validate_endpoint. destruct base as [b|]; [|by wp_step]. wp_step; [by wp_step|]. unfold read_span, touch, read_region, region_of. do 8 wp_step.
    do 3 wp_step. case_match; [|by wp_step]. repeat wp_step. intros Hv b'. by eapply validate_endpoint_inside.
  - intros v k' [Hk' Hv]. by apply HQ.
  - intros e k' [Hk' _]. by split.
Qed.
Lemma tkeeps_ensure route : 0 <= ri_endpoint_slot route -> tkeeps (ensure_remote_endpoint V cfg rpc_id_ route).
Proof.
  intros Hs t Ht. unfold ensure_remote_endpoint. wp_step; [by wp_step|]. wp_step. apply wp_remote_inside; [done|]. intros _ Hp. wp_step; [by wp_step|]. wp_step; [by wp_step|].
  wp_step. apply wp_keeps; [apply tkeeps_cx, ckeeps_acquire|done|]. intros base t1 Ht1. wp_step. apply wp_validate_inside; [done|done|]. intros valid t2 Ht2 Hv.
  destruct base as [b|]; [|by wp_step]. destruct valid.
  - specialize (Hv eq_refl b). wp_step. apply wp_keeps; [|done|].
    { apply tkeeps_cx. unfold read_span. ckeep. apply ckeeps_touch. intros H. by apply queue_inside, Hw. }
    intros tl t3 Ht3. wp_step. apply wp_keeps; [|done|].
    { apply tkeeps_cx. unfold read_span. ckeep. apply ckeeps_touch. intros H. by apply queue_inside, Hw. }
    intros hd t4 Ht4. wp_step. apply wp_set_inside; [done| |].
    + intros _. split; [by intros inbox [= <-]|done|]. by apply Ht4.
    + intros t5 Ht5. wp_step. apply wp_keeps; [|done|by intros; wp_step]. case_match; [apply tkeeps_cx, ckeeps_release|apply tkeeps_ret].
  - wp_step. apply wp_keeps; [apply tkeeps_cx, ckeeps_release|done|]. intros. by wp_step.
Qed.

Lemma tkeeps_enqueue_pending p d b : (w -> buffer_inside b) -> tkeeps (enqueue_pending p d b).
Proof.
  intros Hb t Ht. unfold enqueue_pending. wp_step. apply wp_remote_inside; [done|]. intros _ _. apply tkeeps_bind; [|intros _|done].
  - apply tkeeps_set_remote. intros r [? ? Hwt]. split; [done|done|]. intros H. unfold waiting_inside in *. simpl. apply Forall_app_2; [by apply Hwt|]. constructor; [by apply Hb|constructor].
  - intros t1 Ht1. do 4 wp_step. case_match; [apply tkeeps_add_pending|apply tkeeps_ret]; by eapply bounded_same.
Qed.
Lemma wp_make_inside al local mb (Q : UBMessageDescriptor * tbuffer -> tstate -> Prop) t :
  bounded t -> (w -> arena_inside al) -> (w -> buffer_inside (mb_buffer mb)) ->
  (forall d b t', bounded t' -> (w -> buffer_inside b) -> Q (d, b) t') -> wp (make_descriptor cfg al local mb) Q (fun _ => bounded) t.
Proof.
  intros Ht Har Hb HQ. unfold make_descriptor. wp_step.
  - wp_step. apply wp_keeps; [|done|].
    { apply tkeeps_cx. unfold local_base. ckeep. }
    intros base t1 Ht1. wp_step. apply wp_keeps; [|done|].
    { apply tkeeps_cx. apply ckeeps_bind; [|intros _; apply ckeeps_in_region, bkeeps_generation_of]. destruct (is_shared al local _) eqn:Hsh; [|apply ckeeps_ret].
      apply ckeeps_touch. intros H. destruct (Har H) as (Ha1&Ha2&Ha3), (Hw H) as (Hr1&Hr2&_). rewrite data_offset_val in *. unfold is_shared in Hsh.
      unfold offset_of. rewrite Hsh. destruct (snd <$> before (mb_buf mb) sizeof_pkthdr) as [v|]; [|done]. simpl in Hsh |- *. bprop.
      unfold inside, sizeof_block, in_u64 in *. rewrite u64_id by (unfold in_u64; lia). lia. }
    intros g t2 Ht2. wp_step. apply wp_keeps; [apply tkeeps_on_buffer; [done|intros; apply bkeeps_add_ref]|done|]. intros _ t3 Ht3. wp_step.
    wp_step; [by wp_step|]. wp_step. wp_step. by apply HQ.
  - wp_step. apply HQ; [done|]. by intros _ base off.
Qed.

Definition bytes_of (route : list Z) : Prop := Forall (fun b => 0 <= b < 256) route.
Lemma route_slot buf : bytes_of buf -> 0 <= ri_endpoint_slot (decode_routing_info buf).
Proof.
  intros Hb. unfold decode_routing_info, route_of. cbn [ri_endpoint_slot route_widths dec_fields]. apply le_value_range. apply Forall_take. do 3 apply Forall_drop. done.
Qed.
Lemma tkeeps_tx_one item :
  (forall buf, ti_routing_info item = Some buf -> bytes_of buf) -> (w -> forall mb, ti_msg_buffer item = Some mb -> buffer_inside (mb_buffer mb)) ->
  tkeeps (tx_one V cfg rpc_id_ item).
Proof.
  intros Hroute Hbuf t Ht. unfold tx_one. destruct (ti_routing_info item) as [buf|]; [|by wp_step]. destruct (ti_msg_buffer item) as [mb|]; [|by wp_step].
  wp_step. wp_step; [done|]. wp_step. apply wp_keeps; [by apply tkeeps_ensure, route_slot, Hroute|done|]. intros av t1 Ht1. wp_step. wp_step; [done|].
  wp_step. apply wp_remote_inside; [done|]. intros _ _. wp_step; [by wp_step|]. wp_step. unfold the_allocator. do 2 wp_step.
  destruct (t_allocator t1) as [al|] eqn:Eal; [|by wp_step]. wp_step. do 2 wp_step. wp_step. wp_step; [done|]. wp_step.
  apply wp_make_inside; [done|intros Hh; by apply Ht1|intros Hh; by apply Hbuf|]. intros d b t2 Ht2 Hb. wp_step. apply wp_keeps; [apply tkeeps_emit|done|]. intros _ t3 Ht3.
  wp_step; [by apply tkeeps_enqueue_pending|]. wp_step. apply wp_keeps; [apply tkeeps_send|done|]. intros sent t4 Ht4. wp_step; [by wp_step|by apply tkeeps_enqueue_pending].
Qed.
Lemma tkeeps_tx_burst items :
  Forall (fun i => (forall buf, ti_routing_info i = Some buf -> bytes_of buf) /\ (w -> forall mb, ti_msg_buffer i = Some mb -> buffer_inside (mb_buffer mb))) items ->
  tkeeps (tx_burst V cfg rpc_id_ items).
Proof.
  intros Hi. unfold tx_burst. apply tkeeps_bind; [apply tkeeps_fail_if|intros _]. apply tkeeps_bind; [apply tkeeps_drain_all|intros _]. apply tkeeps_each.
  eapply Forall_impl; [exact Hi|]. intros i [Hr Hb]. by apply tkeeps_tx_one.
Qed.

(** A descriptor that is discarded names a block inside the region. *)
Lemma resolved_block d payload :
  sized -> struct_ok d -> d_payload_offset d - d_block_offset d = sizeof_block + sizeof_pkthdr ->
  resolve_payload region true (d_block_offset d) (d_payload_offset d) 0 = Some payload -> inside (payload - sizeof_pkthdr - sizeof_block) sizeof_block.
Proof.
  intros (Hr1&Hr2&_) Hd Hco. rewrite data_offset_val in Hr1. unfold struct_ok in Hd. cbn [CStruct_descriptor] in Hd. unfold descriptor_widths, descriptor_fields in Hd.
  repeat (apply Forall2_cons_1 in Hd as [? Hd]). unfold field_in_range in *. unfold resolve_payload. case_if; [done|]. case_if; [done|]. intros [= <-]. bprop.
  unfold inside, sizeof_block, sizeof_pkthdr, in_u64, u64 in *. rewrite (Z.mod_small (region - 64)) in * by lia. lia.
Qed.
Lemma tkeeps_discard base d : (w -> struct_ok d) -> tkeeps (discard_descriptor_noexcept cfg base d).
Proof.
  intros Hd. unfold discard_descriptor_noexcept. apply tkeeps_get. intros t0. destruct (_ || _); [apply tkeeps_ret|]. destruct (_ || _) eqn:Eco; [apply tkeeps_ret|].
  destruct (resolve_payload _ _ _ _ _) as [payload|] eqn:Er; [|apply tkeeps_ret]. apply tkeeps_bind; [|intros _; apply tkeeps_ret]. apply tkeeps_try, tkeeps_on_buffer; [|intros; apply bkeeps_free].
  intros H b off [= <- <-]. bprop. apply (resolved_block d); [by apply Hw|by apply Hd|done|done].
Qed.
Lemma tkeeps_deliver i remote d : (w -> struct_ok d) -> tkeeps (deliver cfg i remote d).
Proof.
  intros Hd. unfold deliver. destruct (inconsistent d remote).
  - apply tkeeps_bind; [|intros _; apply tkeeps_ret]. destruct (re_machine_base remote); [|apply tkeeps_ret]. destruct (_ =? _); [by apply tkeeps_discard|apply tkeeps_ret].
  - apply tkeeps_bind; [repeat case_match; apply tkeeps_ret || apply tkeeps_raise|intros payload]. intros t Ht. do 2 wp_step. wp_step. wp_step; [done|]. do 3 wp_step. by eapply bounded_same.
Qed.
(** What is taken from a queue is a descriptor. *)
Lemma wp_receive_inside source (Q : option UBMessageDescriptor -> tstate -> Prop) t :
  bounded t -> (forall d t', bounded t' -> (w -> forall x, d = Some x -> struct_ok x) -> Q d t') -> wp (receive_descriptor source) Q (fun _ => bounded) t.
Proof.
  intros Ht HQ. unfold receive_descriptor, check_index. wp_step. wp_step; [done|]. bprop. do 2 wp_step. destruct (t_local_inbox t) as [inbox|] eqn:Ei; [|by wp_step].
  assert (Hso : peer_ok source) by (unfold peer_ok; lia). pose proof Ht as (Hr&Hk&Hst). wp_step. apply wp_cx.
  set (op := fun m : mem => _). eapply wp_mono; [apply wp_both with (Q' := fun x _ => w -> forall d, x.1 = Some d -> struct_ok d) (E' := fun _ _ => True)|..].
  - apply (ckeeps_bind (touch inbox.1 (inbox_queue inbox.2 source) sizeof_queue) (fun _ => in_region inbox.1 op)); [|intros _; apply ckeeps_in_region, bkeeps_dequeue|exact Hk].
    apply ckeeps_touch. intros Hh. apply queue_inside; [|done]. by apply (Hst Hh).
  - unfold at_span, touch, in_region, region_of. do 7 wp_step. cbn [c_live]. case_match; [|by wp_step]. do 3 wp_step.
    match goal with |- context [op ?m] => pose proof (dequeued_ok (inbox_queue inbox.2 source) (t_consumer_heads t source) m) as Hdq; unfold op; set (mm := m) in * end.
    destruct (try_dequeue _ _ mm) as [[d head] m']. do 3 wp_step. intros Hh x Hx. apply Hdq; [apply (proj1 (Hk Hh))|exact Hx].
  - intros [d head] k [Hk' Hd]. do 5 wp_step. apply HQ; [|by intros Hh x ->; apply (Hd Hh)]. by split.
  - intros e k [Hk' _]. by split.
Qed.
Lemma tkeeps_poll fuel n : tkeeps (poll_sources cfg fuel n).
Proof.
  revert n. induction fuel as [|fuel IH]; intros n; cbn [poll_sources]; [apply tkeeps_ret|]. apply tkeeps_get. intros t0. apply tkeeps_bind; [apply tkeeps_check_index|intros _].
  intros t Ht. wp_step. apply wp_remote_inside; [done|]. intros _ _. wp_step. apply wp_receive_inside; [done|]. intros [d|] t1 Ht1 Hd; [|by apply IH].
  apply tkeeps_bind; [apply tkeeps_deliver; intros H; by apply (Hd H)|intros found|done]. destruct found; [apply tkeeps_ret|apply IH].
Qed.
Lemma tkeeps_rx_loop fuel n : tkeeps (rx_loop cfg fuel n).
Proof.
  revert n. induction fuel as [|fuel IH]; intros n; cbn [rx_loop]; [apply tkeeps_ret|]. apply tkeeps_get. intros t0. apply tkeeps_bind; [apply tkeeps_poll|intros found].
  destruct found; [apply IH|apply tkeeps_ret].
Qed.
Lemma tkeeps_rx_burst : tkeeps (rx_burst cfg rpc_id_).
Proof.
  unfold rx_burst. apply tkeeps_get. intros t0. do 2 (apply tkeeps_bind; [apply tkeeps_fail_if|intros _]). apply tkeeps_bind; [apply tkeeps_drain_all|intros _]. apply tkeeps_rx_loop.
Qed.

Lemma tkeeps_register_rx p : tkeeps (register_rx_peer p).
Proof. intros t Ht. unfold register_rx_peer, check_index. repeat wp_step; done || by eapply bounded_same. Qed.
Lemma tkeeps_prepare_disconnect p : tkeeps (prepare_disconnect V cfg p).
Proof.
  unfold prepare_disconnect, check_index. do 2 (apply tkeeps_bind; [apply tkeeps_fail_if|intros _]). apply tkeeps_get. intros t0. apply tkeeps_bind; [apply tkeeps_fail_if|intros _].
  case_if; [apply tkeeps_ret|apply tkeeps_release_endpoint].
Qed.
Lemma tkeeps_unregister_rx p : tkeeps (unregister_rx_peer V cfg p).
Proof.
  intros t Ht. unfold unregister_rx_peer, check_index. wp_step. wp_step; [done|]. wp_step. wp_step; [done|]. do 2 wp_step. wp_step. wp_step; [done|]. do 2 wp_step.
  wp_step; [wp_step; by eapply bounded_same|]. do 2 wp_step. wp_step. wp_step; [by eapply bounded_same|]. wp_step. wp_step; [by eapply bounded_same|]. wp_step.
  wp_step; [by eapply bounded_same|]. do 2 wp_step. apply tkeeps_release_endpoint. by eapply bounded_same.
Qed.
Lemma tkeeps_alloc n : tkeeps (alloc_shared_buffer n).
Proof.
  intros t Ht. unfold alloc_shared_buffer, the_allocator. do 3 wp_step. destruct (t_allocator t) as [al|] eqn:Eal; [|by wp_step]. wp_step.
  apply tkeeps_bind; [apply tkeeps_cx; unfold local_base; ckeep|intros base|done]. apply tkeeps_bind; [|intros b; apply tkeeps_ret]. apply tkeeps_cx. unfold at_span.
  apply ckeeps_bind; [|intros _; apply ckeeps_in_region, bkeeps_alloc]. apply ckeeps_touch. intros Hh. destruct Ht as (_&_&Hst). destruct (Hst Hh) as [_ Har].
  destruct (Har al Eal) as (H1&H2&H3). unfold inside, sizeof_arena in *. rewrite data_offset_val in H1. lia.
Qed.
Lemma tkeeps_free_buffer b : (w -> buffer_inside b) -> tkeeps (free_shared_buffer b).
Proof.
  intros Hb. unfold free_shared_buffer, the_allocator. apply tkeeps_bind; [apply tkeeps_get; intros t0; destruct (t_allocator t0); [apply tkeeps_ret|apply tkeeps_raise]|intros al].
  apply tkeeps_get. intros t0. case_if; apply tkeeps_on_buffer; try done; intros; [apply bkeeps_free|apply bkeeps_release_remote_ref].
Qed.
Lemma tkeeps_import h : tkeeps (import_shared_object V cfg h).
Proof.
  unfold import_shared_object. apply tkeeps_bind; [apply tkeeps_fail_if|intros _]. apply tkeeps_bind; [apply tkeeps_cx, ckeeps_acquire|intros base].
  repeat case_match; first [apply tkeeps_ret|apply tkeeps_bind; [apply tkeeps_cx, ckeeps_release|intros _; apply tkeeps_raise]].
Qed.
Lemma tkeeps_release_object o : (w -> buffer_inside (io_buffer o)) -> tkeeps (release_imported_object V cfg o).
Proof.
  intros Hb. unfold release_imported_object. apply tkeeps_bind; [|intros _; apply tkeeps_cx, ckeeps_release]. intros t Ht. apply wp_on_fail.
  eapply wp_mono; [apply (tkeeps_on_buffer (io_buffer o) release_remote_ref tt Hb); [intros; apply bkeeps_release_remote_ref|done]|done|]. intros e t' Ht'.
  pose proof (tkeeps_cx _ (ckeeps_release (io_machine_id o)) t' Ht') as Hw'. unfold wp in Hw'. by destruct (cx _ t') as [[] ?].
Qed.

(** Routing information is bytes. *)
Definition call_routes (c : tcall) : Prop :=
  match c with
  | CTxBurst items => Forall (fun i => forall buf, ti_routing_info i = Some buf -> bytes_of buf) items
  | CResolve r => forall buf, r = Some buf -> bytes_of buf
  | _ => True
  end.
Lemma tkeeps_run c : call_routes c -> (w -> call_placed c) -> tkeeps (run V cfg rpc_id_ c).
Proof.
  intros Hr Hc. destruct c; cbn [run call_routes call_placed] in *; (apply tkeeps_bind; [|intros ?; apply tkeeps_ret]).
  - apply tkeeps_tx_burst. rewrite Forall_forall in Hr |- *. intros i Hi. split; [by apply Hr|]. intros Hh. specialize (Hc Hh). rewrite Forall_forall in Hc. by apply Hc.
  - apply tkeeps_drain_all.
  - apply tkeeps_rx_burst.
  - apply tkeeps_register_rx.
  - apply tkeeps_prepare_disconnect.
  - apply tkeeps_unregister_rx.
  - destruct routing_info as [buf|]; cbn [resolve_remote_routing_info]; [|apply tkeeps_ret]. by apply tkeeps_ensure, route_slot, Hr.
  - by apply tkeeps_update.
  - apply tkeeps_alloc.
  - by apply tkeeps_free_buffer.
  - apply tkeeps_on_buffer; [done|]. intros. apply bkeeps_add_ref.
  - apply tkeeps_import.
  - by apply tkeeps_release_object.
Qed.
End invariant.

(** ** Every run *)

(** The inboxes that a transport has cached are inside the region. *)
Lemma allowed_routes L others t c : allowed L others t c -> call_routes c.
Proof. destruct c; try done. simpl. intros Ha. eapply Forall_impl; [exact Ha|]. by intros i [Hr _]. Qed.
Definition remotes_inside (t : tstate) : Prop := forall p, peer_ok p -> remote_inside False (t_remotes t p).
Lemma tstep_inside L s s' : tstep V cfg rpc_id_ L s s' -> remotes_inside s.2 -> remotes_inside s'.2.
Proof.
  intros Hst Hin. destruct Hst as [others others' t t' c r Ha Hop _ _| | |]; simpl in *; try done.
  assert (Hb : bounded False [] t) by (by split; [|split]).
  pose proof (wp_run _ _ _ _ _ _ (tkeeps_run False [] (False_ind _) c (allowed_routes _ _ _ _ Ha) (False_ind _) t Hb) Hop) as Hw. destruct r; exact (proj1 Hw).
Qed.
Lemma reached_inside L others t : reached V cfg rpc_id_ L others t -> remotes_inside t.
Proof.
  intros (k&pkthdrs&port&others0&t0&_&_&Hcon&_&Hr). refine (rtc_invariant _ (fun s => remotes_inside s.2) _ _ _ Hr _).
  - intros s s' Hi Hs. by eapply tstep_inside.
  - assert (Hw : wp (UBTransport V cfg rpc_id_ port) (fun _ t' => t_remotes t' = fun _ => no_remote) (fun _ _ => True) (new_transport k pkthdrs)).
    { unfold UBTransport. wp_step. wp_step; [done|]. apply wp_on_fail.
      assert (Hcx : forall X (m : C X) (Q : X -> tstate -> Prop) t, t_remotes t = (fun _ => no_remote) ->
        (forall x t', t_remotes t' = (fun _ => no_remote) -> Q x t') -> wp (cx m) Q (fun _ _ => True) t).
      { clear. intros X m Q t Ht HQ. apply wp_cx. eapply wp_mono; [apply wp_any|by intros; apply HQ|done]. }
      wp_step. apply Hcx; [done|]. intros _ t1 H1. do 5 wp_step. apply Hcx; [done|]. intros e t2 H2. do 5 wp_step. apply Hcx; [done|]. intros b t3 H3.
      do 5 wp_step. apply Hcx; [done|]. intros al t4 H4. by repeat wp_step. }
    pose proof (wp_run _ _ _ _ _ _ Hw Hcon) as Ht0. simpl. intros p _. rewrite Ht0. split; done.
Qed.

(** The storage of an endpoint that importers accept is inside the region. *)
Lemma accepted_storage_inside m h mm b i :
  validate_endpoint region true m h mm = true -> inbox_inside (b, eh_inbox_offset h) /\ arena_inside (mk_allocator i h).
Proof.
  intros Hv. split; [by eapply validate_endpoint_inside|]. revert Hv. unfold validate_endpoint, arena_inside. case_if; [done|]. case_if; [done|]. intros _. bprop. simpl. lia.
Qed.

(** C12. No call faults or leaves the regions, whatever descriptors, handles and routing information other processes write: it
    returns, throws one of its exceptions or waits at an allocator lock, without an access through a pointer that is null
    or not mapped, an index outside an array or a loop of its own that does not end; and every access it makes to a queue,
    to the header and the registry entry of a region, to its arena's header or to the metadata of a block is inside the
    region.  The region is not empty, the endpoint's storage is inside it, as registration gives it, and the buffers that
    the application passes are.  What the allocator reaches from a block or from its arena through the offsets stored there
    is not bounded: another process that overwrites them can make it crash. *)
Theorem transport_stays_inside L others t c r t' :
  sized -> reached V cfg rpc_id_ L others t -> allowed L others t c -> placed t -> call_placed c -> run V cfg rpc_id_ c t = (r, t') ->
  (forall e, r = inr e -> fault e = false) /\
  exists new, c_touched (t_cx t') = c_touched (t_cx t) ++ new /\ Forall span_inside new.
Proof.
  intros Hsz Hr Ha Hpl Hc Hop. split; [intros e ->; by apply (never_faults V cfg rpc_id_ L others t c e t')|].
  assert (Hb : bounded True (c_touched (t_cx t)) t).
  { split; [|split].
    - intros p Hp. destruct (reached_inside L others t Hr p Hp) as [Hi Hs _]. split; [done|done|]. intros _. by apply Hpl.
    - intros _. split; [apply Hpl|]. exists []. by rewrite app_nil_r.
    - intros _. split; apply Hpl. }
  pose proof (wp_run _ _ _ _ _ _ (tkeeps_run True (c_touched (t_cx t)) (fun _ => Hsz) c (allowed_routes _ _ _ _ Ha) (fun _ => Hc) t Hb) Hop) as Hw.
  destruct r; destruct Hw as (_&Ht&_); by apply Ht.
Qed.
End bounds.

(** ** A descriptor that points out of the region *)

Definition stray : UBMessageDescriptor := mk_descriptor (mk_pkthdr 0 5 0 0 0) 1 (2 ^ 40) (2 ^ 40 + 80) 100 1 0 0.
Definition stray_queue : mem :=
  let q := inbox_queue 4194304 3 in st64 (st_struct (fun _ => 0) (slot_of q 0) stray) (queue_tail q) 1.
(** Another process has overwritten the region, and the queue holds the stray descriptor. *)
Definition overwritten (t : tstate) : tstate := t.{ t_cx := (t_cx t).{ c_regions := fn_set (fun _ _ => 0) 1 stray_queue } }.
Local Notation demo_call := (run demo_sdk demo_cfg 3).
Definition no_blocks (t : tstate) : bool :=
  forallb (fun p => forallb (fun x => bool_decide (tb_buf (pt_backing_buffer x) = None)) (re_pending_tx (t_remotes t p))) (seqZ 0 kMaxRpcEndpoints).

Lemma stray_run : exists t, reached demo_sdk demo_cfg 3 5 [] (overwritten t) /\ placed demo_cfg (overwritten t) /\
  (demo_call CRxBurst (overwritten t)).1 = inl None /\ length (c_touched (t_cx t)) <> length (c_touched (t_cx (demo_call CRxBurst (overwritten t)).2)).
Proof.
  destruct send_run as (t0&t1&t2&H0&Hl&H1&H2&_). exists (demo_call CInit t2).2.
  assert (Hfacts : match UBTransport demo_sdk demo_cfg 3 31850 demo_new with
    | (inl tt, t0) => match demo_call (CRegisterPeer 3) t0 with
      | (inl None, t1) => match demo_call (CTxBurst [demo_item]) (demo_full t1) with
        | (inl None, t2) => let t := (demo_call CInit t2).2 in
            t_local_inbox t = Some (5, 4194304) /\ (exists i, t_allocator t = Some (mk_allocator i (mk_handle 0 3 1 4194304 4464640 1048576))) /\ no_blocks t = true /\
            (demo_call CRxBurst (overwritten t)).1 = inl None /\ length (c_touched (t_cx t)) <> length (c_touched (t_cx (demo_call CRxBurst (overwritten t)).2))
        | _ => False end
      | _ => False end
    | _ => False end).
  { vm_compute. split; [reflexivity|]. split; [by eexists|]. split; [reflexivity|]. split; [reflexivity|discriminate]. }
  rewrite H0, H1, H2 in Hfacts. set (t := (demo_call CInit t2).2) in *. destruct Hfacts as (Hin&(i&Hal)&Hno&Hrx&Hlen).
  split; [|split; [|exact (conj Hrx Hlen)]].
  - pose proof (run_reached t0 t1 t2 H0 Hl H1 H2) as (k&pk&port&o0&t00&Hk&Hlen0&Hcon&Hl0&Hr). exists k, pk, port, o0, t00. do 4 (split; [done|]).
    eapply rtc_r; [|apply step_regions]. eapply rtc_r; [exact Hr|].
    exact (step_call demo_sdk demo_cfg 3 5 [] [] t2 t CInit (inl None) I eq_refl ltac:(clear; done) eq_refl).
  - clear Hrx Hlen. split.
    + clear. intros machine. simpl. unfold fn_set. case_decide; [|by intros ?]. apply st_ok, st_struct_bytes_ok. by intros ?.
    + intros inbox Hi. change (t_local_inbox t = Some inbox) in Hi. rewrite Hin in Hi. injection Hi as <-. clear. by vm_compute.
    + intros al Ha. change (t_allocator t = Some al) in Ha. rewrite Hal in Ha. injection Ha as <-. clear. by vm_compute.
    + intros p Hp. change (t_remotes (overwritten t) p) with (t_remotes t p). unfold no_blocks in Hno. rewrite forallb_forall in Hno.
      specialize (Hno p). rewrite forallb_forall in Hno. unfold waiting_inside. rewrite Forall_forall. intros x Hx base off Hb.
      assert (Hpin : List.In p (seqZ 0 kMaxRpcEndpoints)) by (apply list_elem_of_In, elem_of_seqZ; unfold peer_ok in Hp; lia).
      specialize (Hno Hpin x (proj1 (list_elem_of_In _ _) Hx)). apply bool_decide_eq_true in Hno. by rewrite Hno in Hb.
Qed.
Lemma transport_stays_inside_witness : exists t t' new,
  demo_call CRxBurst (overwritten t) = (inl None, t') /\ new <> [] /\ c_touched (t_cx t') = c_touched (t_cx t) ++ new /\ Forall (span_inside demo_cfg) new.
Proof.
  destruct stray_run as (t&Hr&Hpl&Hrx&Hlen). destruct (demo_call CRxBurst (overwritten t)) as [r t'] eqn:Hop. cbn [fst snd] in *. subst r.
  destruct (transport_stays_inside demo_sdk demo_cfg 3 5 [] (overwritten t) CRxBurst (inl None) t') as (_&new&Hnew&Hin).
  - clear. split; [by vm_compute|]. split; by vm_compute.
  - exact Hr.
  - exact I.
  - exact Hpl.
  - exact I.
  - exact Hop.
  - exists t, t', new. split; [exact Hop|]. split; [|exact (conj Hnew Hin)]. intros ->. rewrite app_nil_r in Hnew. rewrite Hnew in Hlen. by apply Hlen.
Defined.
