(* ===== verification/Wire.v ===== *)
(** * What crosses from one machine to another

    Routing information, shared-object handles and descriptors leave one process as
    numbers and are turned into pointers by another.  The endpoint that was
    registered is the endpoint a peer finds, an object is imported at the bytes it was
    described at, and a delivered descriptor points into the sender's region. *)

From stdpp Require Import gmap.
From S2P Require Import Prelude Monad CMem ErpcUb Spsc Arena ArenaSound Machine MachineSound Context ContextSound Transport TransportSound TransportRun.

(** ** Routing information *)

Lemma decode_fill machine rpc_id e :
  in_u64 machine -> 0 <= rpc_id < 256 -> 0 <= eh_slot e < 256 -> in_u32 (eh_generation e) -> in_u64 (eh_inbox_offset e) ->
  in_u64 (eh_arena_offset e) -> in_u64 (eh_arena_size e) ->
  decode_routing_info (fill_local_routing_info machine rpc_id e) = local_route machine rpc_id e.
Proof.
  intros ???????. unfold decode_routing_info, fill_local_routing_info. rewrite dec_enc_fields; [done|].
  unfold route_fields, local_route, route_widths. cbn [ri_magic ri_version ri_rpc_id ri_endpoint_slot ri_endpoint_generation ri_reserved ri_machine_id ri_inbox_offset ri_arena_offset ri_arena_size].
  repeat (apply List.Forall2_cons; [first [by apply field_u64|by apply field_u32|by vm_compute|done]|]). apply List.Forall2_nil.
Qed.

(** A handle that the importers' check accepts is inside the region. *)
Lemma valid_handle_range o e m :
  configured o -> validate_endpoint (ro_region_bytes o) true (ro_machine_id o) e m = true ->
  eh_slot e < 64 /\ eh_rpc_id e < 64 /\ in_u64 (eh_inbox_offset e) /\ in_u64 (eh_arena_offset e) /\ in_u64 (eh_arena_size e).
Proof.
  intros Hcf. pose proof (cf_region o Hcf). rewrite data_offset_val in *. unfold validate_endpoint. case_if; [done|]. case_if; [done|]. intros _.
  bprop. unfold handle_valid in *. bprop. rewrite ?data_offset_val in *. change kMaxRpcEndpoints with 64 in *. unfold in_u64, sizeof_arena in *. lia.
Qed.

(** C34. The routing information of a registered endpoint fits its 48 bytes; a peer that decodes it gets the endpoint, its machine
    and its identifier back, and the check before the first send accepts it in the region as the registration left it. *)
Theorem routes_round_trip o m pid port rpc_id e m' :
  configured o -> region_reached o m -> in_u32 pid -> 0 <= port < 65536 -> 0 <= rpc_id ->
  register_endpoint o pid port rpc_id m = (inl e, m') ->
  let buf := fill_local_routing_info (ro_machine_id o) rpc_id e in
  let route := decode_routing_info buf in
  Z.of_nat (length buf) = kMaxRoutingInfoSize /\
  ri_magic route = kRegionMagic /\ ri_version route = kRegionVersion /\ ri_rpc_id route = rpc_id /\ ri_machine_id route = ro_machine_id o /\
  endpoint_from_route route = e /\
  validate_endpoint (ro_region_bytes o) true (ri_machine_id route) (endpoint_from_route route) m' = true.
Proof.
  intros Hcf Hr Hp Hpo Hrpc Hreg. pose proof (wp_run _ _ _ _ _ _ (wp_register o m pid port rpc_id Hcf (reached_ok o m Hcf Hr) Hp Hpo Hrpc) Hreg) as Hrd.
  cbv beta iota in Hrd. pose proof (rd_valid _ _ _ _ _ Hrd) as Hv. destruct (valid_handle_range o e m' Hcf Hv) as (Hs&Hri&Hin&Har&Hsz).
  destruct (rd_slot _ _ _ _ _ Hrd) as [[Hslot _] _]. pose proof (rd_rpc_id _ _ _ _ _ Hrd) as Hid. cbv zeta.
  rewrite decode_fill; [|apply Hcf|lia|lia|rewrite (rd_generation _ _ _ _ _ Hrd); apply (next_generation_range _)|done|done|done].
  assert (He : endpoint_from_route (local_route (ro_machine_id o) rpc_id e) = e) by (rewrite <- Hid; by destruct e).
  split; [unfold fill_local_routing_info; by rewrite enc_fields_length|]. repeat (split; [done|]). by rewrite He.
Qed.
Lemma routes_round_trip_witness : exists m,
  register_endpoint demo_owner 7 31850 3 demo_region = (inl demo_handle, m) /\
  endpoint_from_route (decode_routing_info (fill_local_routing_info 1 3 demo_handle)) = demo_handle.
Proof.
  destruct demo_run as (m&_&_&Hm&_). exists m. split; [exact Hm|].
  exact (proj1 (proj2 (proj2 (proj2 (proj2 (proj2 (routes_round_trip demo_owner demo_region 7 31850 3 demo_handle m demo_configured demo_initialized
    ltac:(clear; done) ltac:(clear; done) ltac:(clear; done) Hm))))))).
Defined.

(** ** Shared objects *)

(** C35. An object described on one machine and imported on another is at the same offset of the same machine's region, with the
    length that was given: the importing process reads the bytes that the describing one wrote. *)
Theorem shared_objects_round_trip V cfgA cfgB tA b n h tA' tB base k baseA off :
  (forall al, t_allocator tA = Some al -> kUBMachineDataOffset <= eh_arena_offset (al_endpoint al)) ->
  cc_machine_id cfgA <> 0 -> in_u64 (cc_region_bytes cfgB) -> tb_buf b = Some (baseA, off) -> 0 <= n -> off + n <= cc_region_bytes cfgB ->
  describe_shared_object cfgA b n tA = (inl h, tA') ->
  acquire_remote_machine V cfgB (cc_machine_id cfgA) (t_cx tB) = (inl (Some base), k) ->
  import_shared_object V cfgB h tB = (inl (mk_imported (mk_tbuffer (Some (base, off)) n) (cc_machine_id cfgA)), tB.{ t_cx := k }).
Proof.
  intros Hal Hm Hrg Hb Hn Hfit Hd Hacq.
  assert (Hh : kUBMachineDataOffset <= off /\ n <> 0 /\ h = mk_object (cc_machine_id cfgA) (off - sizeof_block) off n).
  { assert (Hw : wp (describe_shared_object cfgA b n) (fun h _ => kUBMachineDataOffset <= off /\ n <> 0 /\
      h = mk_object (cc_machine_id cfgA) (off - sizeof_block) off n) (fun _ _ => True) tA); [|exact (wp_run _ _ _ _ _ _ Hw Hd)].
    unfold describe_shared_object, the_allocator. do 3 wp_step. destruct (t_allocator tA) as [al|]; [|by wp_step]. do 4 wp_step. wp_step; [done|].
    bprop. rewrite Hb in *. cbn [fmap option_fmap option_map snd] in *. wp_step. wp_step; [done|]. wp_step. unfold offset_of, is_shared in *. specialize (Hal al eq_refl).
    destruct (is_shared_ptr al _ _) eqn:Hsh; [|done]. unfold is_shared_ptr in Hsh. simpl in Hsh. bprop. split; [lia|]. done. }
  destruct Hh as (Hoff&Hn0&->). rewrite data_offset_val in Hoff. unfold in_u64 in Hrg.
  assert (Hguard : (cc_machine_id cfgA =? 0) || (off - sizeof_block =? 0) || (off =? 0) || (n =? 0) || (n >? SIZE_MAX) || (off <? off - sizeof_block) ||
    (off - (off - sizeof_block) !=? sizeof_block) = false).
  { rewrite (proj2 (Z.eqb_neq _ _) Hm), (proj2 (Z.eqb_neq _ _) Hn0). unfold sizeof_block, SIZE_MAX in *. lia. }
  assert (Hres : resolve_payload (cc_region_bytes cfgB) true (off - sizeof_block) off n = Some off).
  { unfold resolve_payload, sizeof_block, u64 in *. rewrite !Z.mod_small by lia. case_if; [lia|]. case_if; [lia|done]. }
  unfold import_shared_object, bind, fail_if. cbn [oh_machine_id oh_block_offset oh_payload_offset oh_payload_length]. rewrite Hguard.
  unfold ret at 1. cbv beta iota. unfold cx. rewrite Hacq. cbv beta iota. rewrite bool_decide_eq_true_2 by done. by rewrite Hres.
Qed.
Definition object_owner : tstate :=
  (new_transport (mk_cstate (fun _ _ => 0) ∅ 6 true true 1 None (Some 5) [] []) (fun _ => mk_pkthdr 0 0 0 0 0))
    .{ t_allocator := Some (mk_allocator 1 demo_handle) }.
Definition object_buffer : tbuffer := mk_tbuffer (Some (5, 4465088)) 128.
Lemma shared_objects_round_trip_witness : exists h,
  describe_shared_object demo_cfg object_buffer 100 object_owner = (inl h, object_owner) /\
  import_shared_object demo_sdk demo_cfg h object_owner = (inl (mk_imported (mk_tbuffer (Some (5, 4465088)) 100) 1), object_owner).
Proof.
  exists (mk_object 1 4465024 4465088 100). split; [reflexivity|].
  exact (shared_objects_round_trip demo_sdk demo_cfg demo_cfg object_owner object_buffer 100 (mk_object 1 4465024 4465088 100) object_owner object_owner 5
    (t_cx object_owner) 5 4465088 ltac:(intros al [= <-]; vm_compute; discriminate) ltac:(discriminate) ltac:(split; vm_compute; congruence) eq_refl
    ltac:(vm_compute; discriminate) ltac:(vm_compute; discriminate) eq_refl eq_refl).
Defined.

(** ** Descriptors *)

(** A resolved payload is inside the region. *)
Lemma resolve_spec region_size mapped block_offset payload_offset length off :
  in_u64 region_size -> resolve_payload region_size mapped block_offset payload_offset length = Some off ->
  0 <= payload_offset -> 0 <= length -> off = payload_offset /\ payload_offset + length <= region_size.
Proof.
  intros Hr. unfold resolve_payload. case_if; [done|]. case_if; [done|]. intros [= <-] Hp Hl. split; [done|]. bprop.
  unfold in_u64, u64 in *. rewrite (Z.mod_small (region_size - payload_offset)) in * by lia. lia.
Qed.

Section delivery.
Context (V : sdk) (cfg : context_config) (rpc_id_ : Z).

(** A header and a payload pointer that belong to a descriptor. *)
Record entry_of_descriptor (d : UBMessageDescriptor) (live : gmap Z Z) (h : pkthdr_t) (payload : option ptr) : Prop := {
  en_header : h = d_pkthdr d;
  en_length : d_payload_length d = h_msg_size (d_pkthdr d);
  en_empty : payload = None -> d_payload_length d = 0;
  en_payload : forall b off, payload = Some (b, off) ->
    live !! b = Some (d_machine_id d) /\ off = d_payload_offset d /\ off = d_block_offset d + sizeof_block + sizeof_pkthdr /\
    off + d_payload_length d <= cc_region_bytes cfg }.

(** C24. What rx_burst puts into the RX ring for a descriptor is its header and, if it has a payload, a pointer into a live
    mapping of the sender's region, at the payload of the descriptor's block and with all its bytes inside the region,
    whatever is written in the descriptor. *)
Theorem delivered_payload_is_the_senders L others t p index d t' :
  reached V cfg rpc_id_ L others t -> peer_ok p -> struct_ok d -> in_u64 (cc_region_bytes cfg) ->
  deliver cfg index (t_remotes t p) d t = (inl true, t') ->
  entry_of_descriptor d (c_live (t_cx t')) (t_rx_pkthdrs t' (t_rx_head t)) (t_rx_payloads t' (t_rx_head t)).
Proof.
  intros Hr Hp Hok Hrg Hdel. destruct (reached_inv V cfg rpc_id_ L others t Hr) as [Hc Hb]. pose proof (co_remotes _ _ _ _ Hc p Hp) as Hrem.
  unfold struct_ok in Hok. cbn [CStruct_descriptor] in Hok. unfold descriptor_widths, descriptor_fields in Hok.
  repeat (apply Forall2_cons_1 in Hok as [? Hok]). unfold field_in_range in *.
  set (Q := fun (found : bool) t' => found = true -> entry_of_descriptor d (c_live (t_cx t')) (t_rx_pkthdrs t' (t_rx_head t)) (t_rx_payloads t' (t_rx_head t))).
  enough (Hw : wp (deliver cfg index (t_remotes t p) d) Q (fun _ _ => True) t) by exact (wp_run _ _ _ _ _ _ Hw Hdel eq_refl).
  unfold deliver. destruct (inconsistent d (t_remotes t p)) eqn:Ei.
  { wp_step. eapply wp_mono; [apply wp_any| |done]. intros [] t1 _. by wp_step. }
  unfold inconsistent in Ei. bprop. wp_step.
  assert (Hput : forall payload, entry_of_descriptor d (c_live (t_cx t)) (d_pkthdr d) payload -> wp (t <- get ;;
      fail_if (negb ((0 <=? t_rx_head t) && (t_rx_head t <? kNumRxRingEntries))) OUT_OF_BOUNDS ;;
      put t.{ t_rx_pkthdrs := fn_set (t_rx_pkthdrs t) (t_rx_head t) (d_pkthdr d) }
           .{ t_rx_payloads := fn_set (t_rx_payloads t) (t_rx_head t) payload }
           .{ t_rx_head := (t_rx_head t + 1) mod kNumRxRingEntries }
           .{ t_next_poll := (index + 1) mod t_active_count t } ;;
      ret true) Q (fun _ _ => True) t).
  { intros payload Hpay. do 3 wp_step. wp_step; [done|]. repeat wp_step. intros _. simpl. by rewrite !fn_set_eq. }
  destruct (d_payload_length d >? 0) eqn:El; bprop; [|wp_step; apply Hput; split; [done|done|lia|done]].
  destruct (re_machine_base (t_remotes t p)) as [b|] eqn:Eb; [|by wp_step].
  destruct (resolve_payload _ _ _ _ _) as [off|] eqn:Er; [|by wp_step]. wp_step. apply Hput.
  destruct (resolve_spec _ _ _ _ _ _ Hrg Er) as [-> Hfit]; [lia|lia|]. split; [done|done|done|]. intros b' off' [= <- <-].
  split; [|split; [done|split; [|done]]].
  - match goal with H : d_machine_id d = _ |- _ => rewrite H end. exact (proj1 (ro_maps _ _ _ _ Hrem b Eb)).
  - naive_solver lia.
Qed.

(** The block generation of a descriptor with a payload is not looked at when it is delivered. *)
Lemma delivery_ignores_generation index remote d g t :
  0 < d_payload_length d -> inconsistent d remote = false ->
  let d' := mk_descriptor (d_pkthdr d) (d_machine_id d) (d_block_offset d) (d_payload_offset d) (d_payload_length d) g (d_entry_type d) (d_reserved d) in
  deliver cfg index remote d' t = deliver cfg index remote d t.
Proof.
  intros Hl Hi. cbv zeta. set (d' := mk_descriptor _ _ _ _ _ _ _ _).
  assert (Hi' : inconsistent d' remote = false).
  { rewrite <- Hi. unfold inconsistent. subst d'. cbn [d_pkthdr d_machine_id d_block_offset d_payload_offset d_payload_length d_block_generation].
    by rewrite (proj2 (Z.eqb_neq (d_payload_length d) 0)) by lia. }
  unfold deliver. by rewrite Hi, Hi'.
Qed.
End delivery.

Definition delivered_descriptor : UBMessageDescriptor := mk_descriptor (mk_pkthdr 0 5 100 0 0) 1 4465024 4465104 100 1 0 0.
Lemma delivered_payload_is_the_senders_witness : exists t t',
  entry_of_descriptor demo_cfg delivered_descriptor (c_live (t_cx t')) (t_rx_pkthdrs t' (t_rx_head t)) (t_rx_payloads t' (t_rx_head t)).
Proof.
  destruct send_reached as (t&Hr&_&_&Hfacts). injection Hfacts as Hb Hid Hh.
  destruct (result_of (deliver demo_cfg 0 (t_remotes t 3) delivered_descriptor) t (inl true)) as [t' Hdel].
  { clear Hr. generalize dependent (t_remotes t 3). intros remote Hb Hid. destruct remote, t. simpl in *. subst. by vm_compute. }
  exists t, t'. refine (delivered_payload_is_the_senders demo_sdk demo_cfg 3 5 [] t 3 0 delivered_descriptor t' Hr _ _ _ Hdel); clear; [done| |done].
  unfold struct_ok. cbn [CStruct_descriptor]. unfold descriptor_widths, descriptor_fields. cbn. repeat (apply List.Forall2_cons; [by vm_compute|]). apply List.Forall2_nil.
Defined.
