(* ===== verification/Delivery.v ===== *)
(** * A message from one process to another

    The transports of two processes over the same shared memory: a message with a
    payload that one of them sends through an empty queue is the next one the other
    receives, with the header and the payload bytes of the sender. *)

From stdpp Require Import gmap strings.
From S2P Require Import Prelude Monad CMem ErpcUb Spsc Arena ArenaSound Machine Context ContextSound Transport TransportSound TransportRun Wire.

Lemma wp_in_region_at {X} base machine (op : A X) (Q : X -> cstate -> Prop) E k :
  c_live k !! base = Some machine ->
  wp op (fun x m => Q x k.{ c_regions := fn_set (c_regions k) machine m })
        (fun e m => E e k.{ c_regions := fn_set (c_regions k) machine m }) (c_regions k machine) ->
  wp (in_region base op) Q E k.
Proof.
  intros Hb Hop. unfold in_region, region_of. do 3 wp_step. rewrite Hb. do 3 wp_step. unfold wp in Hop.
  destruct (op (c_regions k machine)) as [[x|e] m]; by repeat wp_step.
Qed.

Definition touched (base o n : Z) (k : cstate) : cstate := k.{ c_touched := c_touched k ++ [mk_span base o n] }.
Lemma wp_at_span_at {X} base machine o n (op : A X) (Q : X -> cstate -> Prop) E k :
  c_live k !! base = Some machine ->
  wp op (fun x m => Q x (touched base o n k).{ c_regions := fn_set (c_regions k) machine m })
        (fun e m => E e (touched base o n k).{ c_regions := fn_set (c_regions k) machine m }) (c_regions k machine) ->
  wp (at_span base o n op) Q E k.
Proof. intros Hb Hop. unfold at_span, touch. do 3 wp_step. by apply (wp_in_region_at _ machine). Qed.

Lemma wp_local_base_t bl (Q : Z -> tstate -> Prop) E t : c_local (t_cx t) = Some bl -> Q bl t -> wp local_base_t Q E t.
Proof. intros Hl HQ. apply wp_cx. unfold local_base. do 2 wp_step. rewrite Hl. wp_step. by destruct t. Qed.

(** The queue holds the descriptor at the counter [tail], and nothing behind it. *)
Definition published_in (q tail : Z) (d : UBMessageDescriptor) (m : mem) : Prop :=
  exists m0, m = st64 (st_struct m0 (slot_of q tail) d) (queue_tail q) (u64 (tail + 1)).

(** What is published is what [try_dequeue] returns. *)
Lemma dequeue_published q tail d m :
  in_u64 tail -> struct_ok d -> published_in q tail d m ->
  try_dequeue q tail m = (Some d, u64 (tail + 1), st64 m (queue_head q) (u64 (tail + 1))).
Proof.
  intros Ht Hd [m0 ->]. unfold try_dequeue. pose proof (slot_in_queue q tail) as Hs.
  assert (Htail : forall m, ld64 (st64 m (queue_tail q) (u64 (tail + 1))) (queue_tail q) = u64 (tail + 1)).
  { intros m. rewrite ld_st_same. apply Z.mod_small, u64_range. }
  rewrite Htail. destruct (tail =? u64 (tail + 1)) eqn:E; bprop.
  { exfalso. unfold u64, in_u64 in *. destruct (decide (tail + 1 = 2 ^ 64)) as [Hm|]; [rewrite Hm in E; rewrite Z.mod_same in E by lia; lia|].
    rewrite Z.mod_small in E by lia. lia. }
  assert (Hd' : ld_struct UBMessageDescriptor (st64 (st_struct m0 (slot_of q tail) d) (queue_tail q) (u64 (tail + 1))) (slot_of q tail) = d); [|by rewrite Hd'].
  rewrite <- (ld_st_struct m0 (slot_of q tail) d Hd) at 2. apply ld_struct_ext. intros i Hi. apply st_out. unfold queue_tail. lia.
Qed.

Lemma enqueue_published q d p m :
  looks_full p = false ->
  try_enqueue q d p m = (true, p.{ pr_tail := u64 (pr_tail p + 1) }, st64 (st_struct m (slot_of q (pr_tail p)) d) (queue_tail q) (u64 (pr_tail p + 1))).
Proof. intros Hf. unfold try_enqueue. by rewrite !Hf. Qed.

Section delivery.
#[local] Arguments ld_struct : simpl never.
#[local] Arguments upd_struct : simpl never.
Context (V : sdk) (cfgA cfgB : context_config) (ra rb : Z).
Local Notation mA := (cc_machine_id cfgA).

(** A message of [n] bytes at the offset [off] of the sender's region, behind the header and the metadata of a live block. *)
Record message (al : allocator) (bl off n : Z) (tA : tstate) (mb : msg_buffer) : Prop := {
  ms_local : c_local (t_cx tA) = Some bl;
  ms_live : c_live (t_cx tA) !! bl = Some mA;
  ms_allocator : t_allocator tA = Some al;
  ms_buf : mb_buf mb = Some (bl, off);
  ms_buffer : tb_buf (mb_buffer mb) = Some (bl, off - sizeof_pkthdr);
  ms_arena : eh_arena_offset (al_endpoint al) <= off - sizeof_pkthdr /\ off < eh_arena_offset (al_endpoint al) + eh_arena_size (al_endpoint al);
  ms_data : sizeof_block + sizeof_pkthdr <= off /\ off + n <= 2 ^ 63;
  ms_bytes : bytes_ok (c_regions (t_cx tA) mA);
  ms_magic : bm_magic (ld_struct UBBlockMetadata (c_regions (t_cx tA) mA) (off - sizeof_pkthdr - sizeof_block)) = kUBBlockMagic;
  ms_state : bm_state (ld_struct UBBlockMetadata (c_regions (t_cx tA) mA) (off - sizeof_pkthdr - sizeof_block)) = kBlockAllocated;
  ms_size : h_msg_size (mb_pkthdr mb) = n /\ 0 < n;
  ms_header : Forall2 field_in_range [2; 1; 3; 2; 8]%nat
    [h_headroom (mb_pkthdr mb); h_req_type (mb_pkthdr mb); n; h_dest_session_num (mb_pkthdr mb); h_bits (mb_pkthdr mb)];
  ms_machine : in_u64 mA }.

(** The descriptor of the message. *)
Definition describes (off n : Z) (h : pkthdr_t) (d : UBMessageDescriptor) : Prop :=
  struct_ok d /\ d_pkthdr d = set_zerocopy h /\ d_machine_id d = mA /\ d_payload_offset d = off /\
  d_block_offset d = off - sizeof_pkthdr - sizeof_block /\ d_payload_length d = n.

(** Only shared memory changed, and no byte of the payload. *)
Definition kept_payload (off n : Z) (k k' : cstate) : Prop :=
  c_live k' = c_live k /\ c_local k' = c_local k /\ forall i, 0 <= i < n -> c_regions k' mA (off + i) = c_regions k mA (off + i).

Lemma kept_payload_trans off n k1 k2 k3 : kept_payload off n k1 k2 -> kept_payload off n k2 k3 -> kept_payload off n k1 k3.
Proof. intros (Hl&Hc&H) (Hl'&Hc'&H'). split; [congruence|]. split; [congruence|]. intros i Hi. by rewrite H', H. Qed.
Lemma kept_payload_set off n k machine m :
  (machine = mA -> forall i, 0 <= i < n -> m (off + i) = c_regions k mA (off + i)) ->
  forall base o l, kept_payload off n k (touched base o l k).{ c_regions := fn_set (c_regions k) machine m }.
Proof.
  intros H base o l. split; [done|]. split; [done|]. intros i Hi. simpl. destruct (decide (machine = mA)) as [->|Hne]; [rewrite fn_set_eq; by apply H|].
  by rewrite fn_set_ne.
Qed.

Lemma message_shared al bl off n tA mb :
  message al bl off n tA mb -> forall o, o = 0 \/ o = sizeof_pkthdr -> is_shared_ptr al (is_local (Some bl) (Some (bl, off - o))) (Some (off - o)) = true.
Proof.
  intros [] o Ho. unfold is_shared_ptr, is_local. rewrite Z.eqb_refl. unfold sizeof_pkthdr in *. destruct Ho as [-> | ->]; simpl; lia.
Qed.

Lemma descriptor_describes off n h g :
  sizeof_block + sizeof_pkthdr <= off /\ off + n <= 2 ^ 63 -> 0 < n -> h_msg_size h = n -> in_u64 mA -> field_in_range 4 g ->
  Forall2 field_in_range [2; 1; 3; 2; 8]%nat [h_headroom h; h_req_type h; n; h_dest_session_num h; h_bits h] ->
  describes off n h (mk_descriptor (set_zerocopy h) mA (u64 (off - sizeof_pkthdr - sizeof_block)) off n g 0 0).
Proof.
  intros Hoff Hpos Hn Hm Hg Hh. unfold sizeof_block, sizeof_pkthdr in *. repeat (apply Forall2_cons_1 in Hh as [? Hh]). unfold field_in_range in *.
  assert (Hu : u64 (off - 16 - 64) = off - 16 - 64) by (apply u64_id; unfold in_u64; lia). repeat split; try done. unfold in_u64 in *.
  unfold struct_ok. cbn [CStruct_descriptor]. unfold descriptor_widths, descriptor_fields. simpl. rewrite Hu, Hn.
  assert (Hb : 0 <= h_bits h .| (1 .<< 63) < 2 ^ 64) by (apply lor_bound; [lia|lia|vm_compute; split; congruence]).
  repeat (apply List.Forall2_cons; [unfold field_in_range; simpl; lia|]). apply List.Forall2_nil.
Qed.

(** The reference that the descriptor carries is counted below the payload. *)
Lemma wp_descriptor al bl off n tA mb (Q : UBMessageDescriptor * tbuffer -> tstate -> Prop) :
  message al bl off n tA mb ->
  (forall d k, describes off n (mb_pkthdr mb) d -> kept_payload off n (t_cx tA) k -> Q (d, mb_buffer mb) tA.{ t_cx := k }) ->
  wp (make_descriptor cfgA al (Some bl) mb) Q (fun _ _ => False) tA.
Proof.
  intros Hms HQ. pose proof (message_shared _ _ _ _ _ _ Hms) as Hsh. destruct Hms. destruct ms_size0 as [Hn Hpos].
  unfold make_descriptor. cbv zeta. rewrite Hn, ms_buf0. destruct (n >? 0) eqn:En; bprop; [|lia].
  unfold before. cbn [fmap option_fmap option_map snd]. unfold offset_of, generation_of.
  pose proof (Hsh 0 ltac:(auto)) as Hs0. rewrite Z.sub_0_r in Hs0. rewrite Hs0, (Hsh sizeof_pkthdr ltac:(auto)). cbn [default from_option id].
  set (b := off - sizeof_pkthdr - sizeof_block) in *. set (md := ld_struct UBBlockMetadata (c_regions (t_cx tA) mA) b) in *.
  assert (Hmd : struct_ok md) by (by apply ld_plain_ok).
  wp_step. apply (wp_local_base_t bl); [done|]. wp_step. apply wp_cx. unfold is_shared. cbn [fmap option_fmap option_map snd].
  rewrite (Hsh sizeof_pkthdr ltac:(auto)). apply (wp_at_span_at _ mA); [done|]. wp_step. unfold block_at. do 4 wp_step. fold md.
  assert (Hg : field_in_range 4 (bm_generation md)) by (apply block_ok_spec in Hmd; naive_solver). generalize dependent (bm_generation md). intros g Hg.
  wp_step. unfold on_buffer. rewrite ms_buffer0. apply wp_cx. simpl. apply (wp_at_span_at _ mA); [done|]. simpl. rewrite fn_set_eq.
  unfold add_ref, metadata_from_buffer. cbn [buf_ mbind option_bind]. wp_step. unfold block_at. do 3 wp_step. fold b. fold md. wp_step.
  wp_step; [bprop; destruct_or!; bprop; done|].
  unfold set_block. do 3 wp_step. do 3 wp_step.
  apply HQ; [by apply descriptor_describes|]. set (f := fun _ => _) in *.
  eapply kept_payload_trans; [apply (kept_payload_set off n _ mA (c_regions (t_cx tA) mA)); done|]. apply kept_payload_set. intros _ i Hi. simpl. rewrite fn_set_eq.
  unfold upd_struct. apply st_struct_out; [|unfold b, sizeof_block, sizeof_pkthdr in *; change (sizeof UBBlockMetadata) with 64; lia].
  fold md. unfold f. rewrite block_ok_spec in Hmd |- *. destruct Hmd as (?&?&?&?&?&?&?). repeat (split; [done|]). split; [by apply field_u32, u32_range|done].
Qed.

(** The sender has cached the receiver's inbox, nothing waits for it, and its queue has room. *)
Record sender_ready (mB bA io : Z) (tA : tstate) (buf : list Z) : Prop := {
  sr_peer : peer_ok rb;
  sr_route : ri_magic (decode_routing_info buf) = kRegionMagic /\ ri_version (decode_routing_info buf) = kRegionVersion /\
    ri_rpc_id (decode_routing_info buf) = rb;
  sr_cached : re_machine_id (t_remotes tA rb) = ri_machine_id (decode_routing_info buf) /\
    re_endpoint (t_remotes tA rb) = endpoint_from_route (decode_routing_info buf);
  sr_inbox : re_inbox (t_remotes tA rb) = Some (bA, io);
  sr_live : c_live (t_cx tA) !! bA = Some mB;
  sr_idle : re_pending_tx (t_remotes tA rb) = [];
  sr_room : looks_full (re_producer (t_remotes tA rb)) = false }.

Lemma wp_ensure_cached mB bA io tA buf (Q : bool -> tstate -> Prop) E :
  sender_ready mB bA io tA buf -> Q true tA -> wp (ensure_remote_endpoint V cfgA ra (decode_routing_info buf)) Q E tA.
Proof.
  intros [Hp (Hm&Hv&Hr) [Hi He] Hin _ _ _] HQ. unfold ensure_remote_endpoint. rewrite Hm, Hv, Hr, !Z.eqb_refl. unfold peer_ok in Hp.
  destruct (rb >=? kMaxRpcEndpoints) eqn:Er; bprop; [lia|]. simpl. wp_step. apply wp_remote_at; [done|].
  rewrite Hin, Hi, He. unfold same_endpoint. rewrite !Z.eqb_refl. simpl. by wp_step.
Qed.

Local Notation queue io := (inbox_queue io ra).
(** The payload is not in the queue that carries its descriptor. *)
Definition apart (mB io off n : Z) : Prop := mB = mA -> off + n <= queue io \/ queue io + sizeof_queue <= off.

Lemma published_outside q tail (d : UBMessageDescriptor) m x :
  struct_ok d -> x < q \/ q + sizeof_queue <= x -> st64 (st_struct m (slot_of q tail) d) (queue_tail q) (u64 (tail + 1)) x = m x.
Proof.
  intros Hd Hx. pose proof (slot_in_queue q tail). change sizeof_queue with 4224 in Hx.
  rewrite st_out by (unfold queue_tail; simpl; lia). apply st_struct_out; [done|]. change (sizeof UBMessageDescriptor) with 64. lia.
Qed.

Lemma wp_send_message mB bA io al bl off n tA buf mb (Q : unit -> tstate -> Prop) :
  sender_ready mB bA io tA buf -> message al bl off n tA mb -> apart mB io off n ->
  (forall d t', describes off n (mb_pkthdr mb) d -> published_in (queue io) (pr_tail (re_producer (t_remotes tA rb))) d (c_regions (t_cx t') mB) ->
     kept_payload off n (t_cx tA) (t_cx t') -> Q tt t') ->
  wp (tx_one V cfgA ra (mk_item (Some buf) (Some mb) 0)) Q (fun _ _ => False) tA.
Proof.
  intros Hs Hms Hap HQ. pose proof (message_shared _ _ _ _ _ _ Hms 0 ltac:(auto)) as Hsh. rewrite Z.sub_0_r in Hsh.
  unfold tx_one. cbn [ti_routing_info ti_msg_buffer ti_pkt_idx]. wp_step. wp_step; [done|]. wp_step. apply (wp_ensure_cached mB bA io); [done|].
  wp_step. wp_step; [done|]. pose proof Hs as [Hp (_&_&->) _ Hin Hlv Hidle Hroom]. wp_step. apply wp_remote_at; [done|]. rewrite Hidle. cbn [length Z.of_nat].
  wp_step; [done|]. wp_step. unfold the_allocator. do 2 wp_step. rewrite (ms_allocator _ _ _ _ _ _ Hms). wp_step. do 2 wp_step.
  rewrite (ms_local _ _ _ _ _ _ Hms). unfold is_shared. rewrite (ms_buf _ _ _ _ _ _ Hms). cbn [fmap option_fmap option_map snd]. rewrite Hsh, orb_true_r. wp_step.
  wp_step; [done|]. wp_step. eapply wp_descriptor; [exact Hms|]. intros d k Hd Hk. wp_step. apply wp_emit.
  rewrite bool_decide_eq_true_2 by done. cbn [negb]. wp_step. unfold send_descriptor. wp_step. apply wp_remote_at; [done|]. simpl. rewrite Hin.
  wp_step. apply wp_cx. simpl. apply (wp_at_span_at _ mB); [simpl; by rewrite (proj1 Hk)|].
  unfold own_queue. simpl. unfold wp at 1. rewrite enqueue_published by done. wp_step. apply wp_set_remote; [done|]. wp_step. apply wp_emit. wp_step. wp_step.
  apply (HQ d); [done| |].
  - simpl. rewrite fn_set_eq. by eexists.
  - eapply kept_payload_trans; [exact Hk|]. apply kept_payload_set. intros Heq i Hi. rewrite <- Heq. destruct Hd as [Hd _]. apply published_outside; [done|]. destruct (Hap Heq); lia.
Qed.

(** The receiver polls the sender's queue next and knows the sender's region. *)
Record receiver_ready (mB bB io base : Z) (tB : tstate) : Prop := {
  rr_peer : peer_ok ra;
  rr_inbox : t_local_inbox tB = Some (bB, io);
  rr_live : c_live (t_cx tB) !! bB = Some mB;
  rr_turn : 0 < t_active_count tB <= kMaxRpcEndpoints /\ t_active tB (t_next_poll tB mod t_active_count tB) = ra;
  rr_sender : re_machine_base (t_remotes tB ra) = Some base /\ re_machine_id (t_remotes tB ra) = mA;
  rr_mapped : c_live (t_cx tB) !! base = Some mA;
  rr_ring : 0 <= t_rx_head tB < kNumRxRingEntries }.

(** What the receiver finds in its ring: the sender's header, and a pointer to the sender's payload. *)
Record arrived (base off n : Z) (h : pkthdr_t) (tB tB' : tstate) : Prop := {
  ar_header : t_rx_pkthdrs tB' (t_rx_head tB) = set_zerocopy h;
  ar_payload : t_rx_payloads tB' (t_rx_head tB) = Some (base, off);
  ar_next : t_rx_head tB' = (t_rx_head tB + 1) mod kNumRxRingEntries;
  ar_kept : kept_payload off n (t_cx tB) (t_cx tB') }.

Lemma descriptor_accepted off n h d remote base :
  describes off n h d -> h_msg_size h = n -> 0 < n -> sizeof_block + sizeof_pkthdr <= off -> off + n <= cc_region_bytes cfgB -> in_u64 (cc_region_bytes cfgB) ->
  re_machine_base remote = Some base -> re_machine_id remote = mA ->
  inconsistent d remote = false /\ resolve_payload (cc_region_bytes cfgB) true (d_block_offset d) (d_payload_offset d) (d_payload_length d) = Some off.
Proof.
  intros (_&Hh&Hm&Hp&Hb&Hl) Hn Hpos Hoff Hfit Hrg Hbase Hid. unfold in_u64, sizeof_block, sizeof_pkthdr in *.
  assert (Hs : h_msg_size (d_pkthdr d) = n) by (rewrite Hh; exact Hn). split.
  - unfold inconsistent. rewrite Hs, Hm, Hid, Hbase, Hp, Hb, Hl, !Z.eqb_refl. rewrite bool_decide_eq_false_2 by done. unfold sizeof_block, sizeof_pkthdr.
    replace (n =? 0) with false by lia. replace (n >? 0) with true by lia. simpl. lia.
  - rewrite Hp, Hb, Hl. unfold resolve_payload, u64, sizeof_block, sizeof_pkthdr. rewrite !Z.mod_small by lia. case_if; [lia|]. case_if; [lia|done].
Qed.

Lemma wp_receive_message mB bB io base off n h d tB fuel (Q : bool -> tstate -> Prop) :
  receiver_ready mB bB io base tB -> describes off n h d -> in_u64 (t_consumer_heads tB ra) ->
  published_in (queue io) (t_consumer_heads tB ra) d (c_regions (t_cx tB) mB) -> apart mB io off n ->
  h_msg_size h = n -> 0 < n -> sizeof_block + sizeof_pkthdr <= off -> off + n <= cc_region_bytes cfgB -> in_u64 (cc_region_bytes cfgB) ->
  (forall t', arrived base off n h tB t' -> Q true t') -> wp (poll_sources cfgB (S fuel) 0) Q (fun _ _ => False) tB.
Proof.
  intros [Hp Hin Hlv [Hcnt Hsrc] [Hbase Hid] Hmap Hring] Hd Hh Hpub Hap Hn Hpos Hoff Hfit Hrg HQ.
  destruct (descriptor_accepted off n h d (t_remotes tB ra) base Hd Hn Hpos Hoff Hfit Hrg Hbase Hid) as [Hok Hres]. pose proof Hd as (Hdok&Hhd&_&_&_&Hl).
  cbn [poll_sources]. do 2 wp_step. rewrite Z.add_0_r. wp_step.
  apply wp_check_index; [pose proof (Z.mod_pos_bound (t_next_poll tB) (t_active_count tB)); unfold peer_ok; lia|]. rewrite Hsrc. wp_step. apply wp_remote_at; [done|].
  wp_step. unfold receive_descriptor. wp_step. apply wp_check_index; [done|]. do 2 wp_step. rewrite Hin. wp_step. apply wp_cx. apply (wp_at_span_at _ mB); [done|].
  unfold wp at 1. cbn [snd]. rewrite (dequeue_published _ _ _ _ Hh Hdok Hpub). do 4 wp_step. wp_step. simpl.
  wp_step. unfold deliver. rewrite Hok, Hl. replace (n >? 0) with true by lia. rewrite Hbase. rewrite bool_decide_eq_true_2 by done.
  rewrite <- Hl at 1. rewrite Hres. wp_step. wp_step. do 2 wp_step. wp_step. wp_step; [unfold kNumRxRingEntries in *; simpl in *; bprop; destruct_or!; bprop; lia|].
  do 3 wp_step. wp_step. apply HQ. split; simpl; [by rewrite fn_set_eq|by rewrite fn_set_eq|done|].
  apply kept_payload_set. intros Heq i Hi. rewrite <- Heq. apply st_out. unfold queue_head. destruct (Hap Heq); change sizeof_queue with 4224 in *; simpl; lia.
Qed.

(** C6. A message that is sent is received.  Let the sender's transport have the receiver's inbox cached, with nothing waiting
    and room in the queue, let the receiver have taken everything that was sent before and poll this queue next.  Then
    [tx_burst] hands a message with a payload over, and in the memory that leaves, the next pass of [rx_burst] delivers
    it: the ring entry is the sender's header with the zero-copy bit, and the payload pointer is the receiver's mapping of
    the sender's region at the sender's offset, where all bytes are the ones the sender wrote. *)
Theorem sent_message_arrives mB bA bB io al bl base off n tA tB buf mb :
  sender_ready mB bA io tA buf -> message al bl off n tA mb -> receiver_ready mB bB io base tB -> apart mB io off n ->
  in_u64 (t_consumer_heads tB ra) -> pr_tail (re_producer (t_remotes tA rb)) = t_consumer_heads tB ra ->
  off + n <= cc_region_bytes cfgB -> in_u64 (cc_region_bytes cfgB) ->
  exists tA' tB',
    tx_one V cfgA ra (mk_item (Some buf) (Some mb) 0) tA = (inl tt, tA') /\
    poll_sources cfgB (Z.to_nat (t_active_count tB)) 0 tB.{ t_cx := (t_cx tB).{ c_regions := c_regions (t_cx tA') } } = (inl true, tB') /\
    t_rx_pkthdrs tB' (t_rx_head tB) = set_zerocopy (mb_pkthdr mb) /\ t_rx_payloads tB' (t_rx_head tB) = Some (base, off) /\
    c_live (t_cx tB') !! base = Some mA /\ forall i, 0 <= i < n -> c_regions (t_cx tB') mA (off + i) = c_regions (t_cx tA) mA (off + i).
Proof.
  intros Hs Hms Hr Hap Hh Htail Hfit Hrg. destruct (wp_total _ (fun _ t' => exists d, describes off n (mb_pkthdr mb) d /\
    published_in (queue io) (t_consumer_heads tB ra) d (c_regions (t_cx t') mB) /\ kept_payload off n (t_cx tA) (t_cx t')) tA
    ltac:(apply (wp_send_message mB bA io al bl off n); [done..|]; intros d t' ? Hp ?; rewrite Htail in Hp; by exists d)) as ([]&tA'&Htx&d&Hd&Hpub&Hkept).
  exists tA'. set (tB1 := tB.{ t_cx := (t_cx tB).{ c_regions := c_regions (t_cx tA') } }).
  assert (Hr1 : receiver_ready mB bB io base tB1) by (by destruct Hr). destruct (ms_size _ _ _ _ _ _ Hms) as [Hn Hpos].
  destruct (ms_data _ _ _ _ _ _ Hms) as [Hoff _]. destruct (rr_turn _ _ _ _ _ Hr) as [Hcnt _].
  destruct (wp_total _ (fun found t' => found = true /\ arrived base off n (mb_pkthdr mb) tB1 t') tB1
    (wp_receive_message mB bB io base off n (mb_pkthdr mb) d tB1 (Z.to_nat (t_active_count tB) - 1) _ Hr1 Hd Hh Hpub Hap Hn Hpos Hoff Hfit Hrg (fun _ H => conj eq_refl H)))
    as (found&tB'&Hrx&->&[Hhd Hpl _ (Hlv&_&Hby)]).
  exists tB'. split; [done|]. split; [by replace (Z.to_nat (t_active_count tB)) with (S (Z.to_nat (t_active_count tB) - 1)) by lia|].
  split; [done|]. split; [done|]. split; [rewrite Hlv; apply (rr_mapped _ _ _ _ _ Hr)|]. intros i Hi. rewrite Hby by done. simpl. by apply Hkept.
Qed.
End delivery.

(** ** A message from machine 1 to machine 2 *)

Definition block_of_message : UBBlockMetadata := mk_block kUBBlockMagic 1 1 kBlockAllocated 1 1 0 1 4464640 4465024 128 0.
Definition shared_regions : Z -> mem := fn_set (fun _ _ => 0) 1 (st_struct (fun _ => 0) 4465024 block_of_message).
Definition config_of (machine : Z) : context_config :=
  mk_context_config kSingle 8388608 machine 0 1048576 (fun _ => None) 48 (Some "host"%string) 64 7 (mk_region_owner kMulti 8388608 machine 0 1048576).
Definition view_of (own other : Z) : cstate :=
  mk_cstate shared_regions (<[5 := own]> (<[6 := other]> ∅)) 7 true true 1 None (Some 5) [mk_mapping other 6 1] [].
Definition endpoint_of (rpc_id : Z) : UBEndpointHandle := mk_handle 0 rpc_id 1 4194304 4464640 1048576.
Definition process_of (own other peer : Z) : tstate :=
  (new_transport (view_of own other) (fun _ => mk_pkthdr 0 0 0 0 0))
    .{ t_allocator := Some (mk_allocator own (endpoint_of 0)) }.{ t_local_inbox := Some (5, 4194304) }
    .{ t_remotes := fn_set (fun _ => no_remote) peer (mk_remote (Some 6) (endpoint_of peer) (Some (6, 4194304)) other (mk_producer 0 0) []) }
    .{ t_active := fun _ => peer }.{ t_active_count := 1 }.
Definition sample_message : msg_buffer := mk_msg (Some (5, 4465104)) (mk_tbuffer (Some (5, 4465088)) 128) (mk_pkthdr 0 5 100 0 0).

Lemma sent_message_arrives_witness : exists tA' tB',
  tx_one demo_sdk (config_of 1) 3 (mk_item (Some (fill_local_routing_info 2 5 (endpoint_of 5))) (Some sample_message) 0) (process_of 1 2 5) = (inl tt, tA') /\
  t_rx_payloads tB' 0 = Some (6, 4465104).
Proof.
  destruct (sent_message_arrives demo_sdk (config_of 1) (config_of 2) 3 5 2 6 5 4194304 (mk_allocator 1 (endpoint_of 0)) 5 6 4465104 100
    (process_of 1 2 5) (process_of 2 1 3) (fill_local_routing_info 2 5 (endpoint_of 5)) sample_message) as (tA'&tB'&H1&_&_&H2&_).
  - split; [by vm_compute|by vm_compute|by vm_compute|reflexivity|reflexivity|reflexivity|reflexivity].
  - split; [reflexivity|reflexivity|reflexivity|reflexivity|reflexivity|by vm_compute|by vm_compute|by apply st_struct_bytes_ok|by vm_compute|by vm_compute|by vm_compute| |by vm_compute].
    repeat (apply List.Forall2_cons; [by vm_compute|]). apply List.Forall2_nil.
  - split; [by vm_compute|reflexivity|reflexivity|by vm_compute|by vm_compute|reflexivity|by vm_compute].
  - intros [=].
  - by vm_compute.
  - reflexivity.
  - by vm_compute.
  - by vm_compute.
  - exists tA', tB'. exact (conj H1 H2).
Defined.
