(* ===== verification/Client.v ===== *)
(** * The client library: lib/ub_domain_client.c, lib/ub_domain_api.c, ub_nested_path.h

    Binding to the owner's region through the SDK and the kernel module, calls
    through the mapped A-stack pages, and closing.  The library runs against the
    models of the region library ([Ubsm]) and of the module ([Run]).  Before each
    access to shared memory and each system call other processes may have run:
    [w_others] says what they leave.  A function that returns -1 raises [errno]. *)

From Stdlib Require Import String.
From S2P Require Import Prelude Monad CMem Abi Layout PoolSlots RemoteCode Social Pool Kernel Session Gate Run Sessions Ubsm.

(** ** include/lrpc/ub_nested_path.h *)

Definition UD_NESTED_DEFAULT_NAME : string := "fused".
Definition ud_nested_path_parse (name : option string) : option Z :=
  let name := match name with Some n => n | None => UD_NESTED_DEFAULT_NAME end in
  if String.eqb name "legacy" then Some UD_NESTED_LEGACY
  else if String.eqb name "fused" then Some UD_NESTED_FUSED else None.
Definition ud_nested_path_parse_profile (name : option string) (profile : Z) : option Z :=
  ud_nested_path_parse match name with Some n => Some n | None => if nz profile then Some "legacy"%string else None end.
(** Without LRPC_UB_NESTED_PATH a social profile takes the legacy path. *)
Lemma social_path_defaults_to_legacy profile : nz profile = true -> ud_nested_path_parse_profile None profile = Some UD_NESTED_LEGACY.
Proof. intros Hp. unfold ud_nested_path_parse_profile. by rewrite Hp. Qed.
Definition ud_nested_path_name (path : Z) : string := if path =? UD_NESTED_FUSED then "fused" else "legacy".
Definition ud_nested_transitions (path : Z) : Z := if path =? UD_NESTED_FUSED then 4 else 6.

(** ** Handles *)

Definition UD_HANDLE_MARKER := 2 ^ 64 - 2.
Definition LRPC_ASTACK_ABI := 1.

Record ud_client := mk_client {
  cl_region : lrpc_ubsm_region; cl_local_args : option (list Z); cl_page_size : Z; cl_map_size : Z;
  cl_invoking : bool; cl_nested_path : Z; cl_profile : Z; cl_owner : Z; cl_info : ud_connection_info }.
Record lrpc_handle := mk_handle {
  h_fd : Z; h_shadow_cpu : Z; h_astack_map : option ud_client; h_epoch : Z; h_astack_offset : Z }.
Record lrpc_astack := mk_astack {
  la_abi : Z; la_procedure_id : Z; la_request_size : Z; la_response_size : Z; la_status : Z;
  la_caller_cpu_before : Z; la_caller_cpu_in_service : Z; la_caller_cpu_after : Z; la_service_data : Z;
  la_shadow_pid : Z; la_caller_pid : Z; la_reserved : Z; la_payload : list Z;
  la_call_enter_ns : Z; la_shadow_dispatch_ns : Z; la_shadow_return_ns : Z; la_caller_resume_ns : Z }.

#[export] Instance eta_client : Eta ud_client := fun r =>
  mk_client (cl_region r) (cl_local_args r) (cl_page_size r) (cl_map_size r) (cl_invoking r) (cl_nested_path r)
    (cl_profile r) (cl_owner r) (cl_info r).
#[export] Instance eta_handle : Eta lrpc_handle := fun r =>
  mk_handle (h_fd r) (h_shadow_cpu r) (h_astack_map r) (h_epoch r) (h_astack_offset r).
#[export] Instance eta_info : Eta ud_connection_info := fun r =>
  mk_connection_info (i_identity r) (i_generation r) (i_abi r) (i_multi r) (i_slot r) (i_capacity r).
#[export] Instance eta_astack : Eta lrpc_astack := fun r =>
  mk_astack (la_abi r) (la_procedure_id r) (la_request_size r) (la_response_size r) (la_status r)
    (la_caller_cpu_before r) (la_caller_cpu_in_service r) (la_caller_cpu_after r) (la_service_data r)
    (la_shadow_pid r) (la_caller_pid r) (la_reserved r) (la_payload r) (la_call_enter_ns r)
    (la_shadow_dispatch_ns r) (la_shadow_return_ns r) (la_caller_resume_ns r).

(** A zeroed handle with [fd] -1. *)
Definition closed_handle : lrpc_handle := mk_handle (-1) 0 None 0 0.
Definition no_info : ud_connection_info := mk_connection_info 0 0 0 0 0 0.

(** ** The process *)

(** The handle, the SDK of the process, and the module with the session of this
    handle; [x_step] counts the accesses to what is shared. *)
Record client_state := mk_cs { x_h : lrpc_handle; x_lib : ubsm; x_k : kstate; x_step : Z }.
#[export] Instance eta_cs : Eta client_state := fun r => mk_cs (x_h r) (x_lib r) (x_k r) (x_step r).

(** What the environment of the process answers. *)
Record client_world := mk_world {
  w_name : option string; w_code_mode : option string; w_social_read : option string; w_nested_path : option string;
  w_calloc : bool; w_affinity : option Z; w_cpu : Z; w_cpu_after : Z; w_thread : Z; w_pid : Z;
  w_fd : Z; w_session : bool; w_page_size : Z; w_inserted : Z -> Z; w_munmap : bool; w_close : bool; w_clock : bool;
  w_polls : nat;                    (* passes of the waiting loop before 30 seconds are over *)
  w_errno : Z;                      (* errno of a failing libc call *)
  w_arg : Z;                        (* address of the structure handed to ioctl *)
  w_sdk : sdk_answers;
  w_elapsed : Z;
  w_others : Z -> kstate -> device * mem * answers }.

Definition C : Type -> Type := MS client_state.

Definition handle : C lrpc_handle := x <- get ;; ret (x_h x).
Definition set_handle (f : lrpc_handle -> lrpc_handle) : C unit := x <- get ;; put x.{ x_h := f (x_h x) }.
Definition no_client : ud_client := mk_client empty_region None 0 0 false 0 0 0 no_info.
(** [h->astack_map], which the callers have checked. *)
Definition client : C ud_client := h <- handle ;; ret match h_astack_map h with Some c => c | None => no_client end.
Definition set_client (f : ud_client -> ud_client) : C unit :=
  set_handle (fun h => h.{ h_astack_map := option_map f (h_astack_map h) }).

(** [errno = rc < 0 ? -rc : EIO; return -1] *)
Definition ud_error {A} (rc : Z) : C A := raise (if rc <? 0 then - rc else EIO).

Section client.
(** Constants of the SDK headers and its functions. *)
Context (UBSM_ERR_PARAM_INVALID UBSM_ERR_MEMORY MAX_SHM_NAME_LENGTH MAX_MEMID_NUM name_bytes : Z).
Context (obmm_query_pa_by_memid : Z -> Z -> Z + Z) (obmm_query_memid_by_pa : Z -> (Z * Z) + Z).
Context (ubsmem_shmem_lookup : string -> shmem_info + Z).
Context (fuel : nat) (L : linux) (W : client_world).

(** ** System calls and shared memory *)

Definition others : C unit :=
  x <- get ;;
  let '(d, m, a) := w_others W (x_step x) (x_k x) in
  put x.{ x_k := enter d (x_k x) m a }.{ x_step := x_step x + 1 }.

(** Work on the module's state; on the SDK and the region of the handle. *)
Definition in_kernel {A} (m : M A) : C (A + Z) := fun x =>
  let '(r, k) := m (x_k x) in (inl r, x.{ x_k := k }).
Definition in_ubsm {A} (m : U A) : C (A + Z) := fun x =>
  match h_astack_map (x_h x) with
  | None => (inr EFAULT, x)
  | Some c =>
      let '(r, u) := m (mk_ubsm_state (x_lib x) (cl_region c)) in
      (inl r, x.{ x_lib := b_lib u }.{ x_h := (x_h x).{ h_astack_map := Some c.{ cl_region := b_region u } } })
  end.

(** A domain that has not come back after [fuel] instructions raises [EL0_RUNNING]. *)
Definition ioctl (cmd arg : Z) : C (option reply) :=
  others ;;
  r <- in_kernel (ud_ioctl fuel L cmd arg) ;;
  match r with
  | inl (rc, out) => fail_if (nz rc) (- rc) ;; ret out
  | inr e => raise e
  end.

Definition region_base : C Z := c <- client ;; ret (g_base (cl_region c)).
Definition region_mem : C mem := others ;; x <- get ;; ret (user_view L (k_mem (x_k x))).
Definition region_struct (A : Type) `{CStruct A} (off : Z) : C A :=
  base <- region_base ;; m <- region_mem ;; ret (ld_struct A m (base + off)).
Definition region_u64 (off : Z) : C Z := base <- region_base ;; m <- region_mem ;; ret (ld64 m (base + off)).

(** Stores through the mapping of the process. *)
Fixpoint user_store (m : mem) (va : Z) (bs : list Z) : mem :=
  match bs with
  | [] => m
  | b :: bs =>
      user_store (match l_user L va with Some pa => fun a => if a =? pa then b else m a | None => m end) (va + 1) bs
  end.
Definition store_user (va : Z) (bs : list Z) : C unit :=
  x <- get ;; put x.{ x_k := (x_k x).{ k_mem := user_store (k_mem (x_k x)) va bs } }.
Definition region_store (off : Z) (bs : list Z) : C unit := others ;; base <- region_base ;; store_user (base + off) bs.
Definition bytes_of {A} `{CStruct A} (v : A) : list Z := enc_fields (widths A) (fields v).

(** ** Closing *)

Definition ud_lrpc_close_checked : C unit :=
  h <- handle ;;
  match h_astack_map h with
  | Some c => (if w_thread W !=? cl_owner c then ud_error (- EPERM) else ret tt) ;;
      match cl_local_args c with
      | Some _ => fail_if (negb (w_munmap W)) (w_errno W) ;; set_client (fun c => c.{ cl_local_args := None })
      | None => ret tt
      end
  | None => ret tt
  end ;;
  (if h_fd h >=? 0 then
     others ;; in_kernel ud_release ;; set_handle (fun h => h.{ h_fd := -1 }) ;; fail_if (negb (w_close W)) (w_errno W)
   else ret tt) ;;
  match h_astack_map h with
  | Some _ =>
      r <- in_ubsm (lrpc_ubsm_close UBSM_ERR_PARAM_INVALID (w_sdk W) false) ;;
      match r with inl _ => ret tt | inr rc => ud_error rc end
  | None => ret tt
  end ;;
  set_handle (fun _ => closed_handle).

Definition ud_lrpc_close : C unit := fun x => (inl tt, (ud_lrpc_close_checked x).2).

(** ** Binding *)

(** [None]: -EINVAL. *)
Definition client_code_mode (profile : Z) : option Z :=
  let usual := if profile =? UD_PROFILE_SOCIAL then UD_CODE_REMOTE_SOCIAL else UD_CODE_LEGACY in
  match w_code_mode W with
  | Some n =>
      if String.eqb n "" then Some usual
      else if String.eqb n "legacy" && (profile !=? UD_PROFILE_SOCIAL) then Some UD_CODE_LEGACY
      else if String.eqb n "remote" && (profile =? UD_PROFILE_MICRO) then Some UD_CODE_REMOTE_VERIFIED
      else if String.eqb n "remote-social" && (profile =? UD_PROFILE_SOCIAL) then Some UD_CODE_REMOTE_SOCIAL
      else None
  | None => Some usual
  end.

(** The manifest B published fits what the caller asked for. *)
Definition client_manifest (code_mode social_count : Z) : C unit :=
  if code_mode =? UD_CODE_LEGACY then ret tt
  else
    remote <- region_struct ud_remote_manifest UD_REMOTE_META_OFFSET ;;
    fail_if ((r_magic remote !=? UD_REMOTE_MAGIC) || (r_abi remote !=? UD_REMOTE_ABI) || (r_mode remote !=? code_mode))
      EPROTONOSUPPORT ;;
    if code_mode =? UD_CODE_REMOTE_SOCIAL then
      let kind := r_reserved remote .& UD_SOCIAL_CODE_KIND_MASK in
      fail_if (match w_social_read W with
        | None => true
        | Some n =>
            (negb (String.eqb n "user") && negb (String.eqb n "home")) ||
            (kind !=? (if String.eqb n "home" then UD_SOCIAL_CODE_HOME else UD_SOCIAL_CODE_USER)) ||
            (ud_remote_social_count (r_reserved remote) !=? social_count)
        end) EPROTONOSUPPORT
    else fail_if (nz (r_reserved remote)) EPROTONOSUPPORT.

(** Is it a pool, and of this profile?  Sets [info.multi] and gives the generation. *)
Definition client_header (profile code_mode : Z) : C Z :=
  magic <- region_u64 0 ;;
  generation <-
    (if magic =? UD_POOL_MAGIC then
       header <- region_struct ud_pool_header 0 ;;
       fail_if (negb (ud_pool_header_valid header)) EPROTO ;;
       set_client (fun c => c.{ cl_info := (cl_info c).{ i_multi := 1 } }) ;;
       ret (h_generation header)
     else ret 0) ;;
  c <- client ;;
  let multi := nz (i_multi (cl_info c)) in
  fail_if (nz profile && negb multi) EPROTONOSUPPORT ;;
  (if multi then
     tag <- region_struct ud_profile_header UD_PROFILE_OFFSET ;;
     fail_if (((t_magic tag =? UD_PROFILE_MAGIC) && ((t_abi tag !=? UD_POOL_ABI) || (t_profile tag !=? profile))) ||
              ((t_magic tag !=? UD_PROFILE_MAGIC) && nz profile)) EPROTONOSUPPORT
   else ret tt) ;;
  fail_if (((code_mode =? UD_CODE_REMOTE_VERIFIED) && multi) || ((code_mode =? UD_CODE_REMOTE_SOCIAL) && negb multi))
    EPROTONOSUPPORT ;;
  ret generation.

Definition client_open : C unit :=
  others ;;
  match ud_open L (w_session W) with
  | inr e => raise (- e)
  | inl s =>
      x <- get ;;
      put x.{ x_k := (open_state s).{ k_banks := k_banks (x_k x) }.{ k_mem := k_mem (x_k x) } } ;;
      set_handle (fun h => h.{ h_fd := w_fd W })
  end.

(** One word by reference. *)
Definition ioctl_u32 (cmd v : Z) : C unit := store_user (w_arg W) (le_bytes 4 v) ;; ioctl cmd (w_arg W) ;; ret tt.

(** Configure the session and prepare it; the contract and the slot. *)
Definition client_prepare (profile code_mode nested_path generation : Z) : C (ud_prepare * Z) :=
  (if nz profile then ioctl_u32 UD_SET_PROFILE profile else ret tt) ;;
  (if code_mode !=? UD_CODE_LEGACY then ioctl_u32 UD_SET_CODE_MODE code_mode else ret tt) ;;
  (if nested_path =? UD_NESTED_FUSED then ioctl_u32 UD_SET_NESTED_PATH nested_path else ret tt) ;;
  c <- client ;;
  let p := mk_prepare (g_base (cl_region c)) zero_contract in
  '(p, slot) <-
    (if nz (i_multi (cl_info c)) then
       let pool := mk_pool_prepare p generation UD_POOL_ABI 0 in
       store_user (w_arg W) (bytes_of pool) ;;
       out <- ioctl UD_POOL_PREPARE (w_arg W) ;;
       let pool := match out with Some (RPool q) => q | _ => pool end in
       fail_if ((q_slot pool >=? UD_CLIENTS) || (q_generation pool !=? generation) || (q_abi pool !=? UD_POOL_ABI)) EPROTO ;;
       set_client (fun c => c.{ cl_info := (cl_info c).{ i_slot := q_slot pool }.{ i_generation := q_generation pool } }) ;;
       ret (q_domain pool, q_slot pool)
     else
       store_user (w_arg W) (bytes_of p) ;;
       out <- ioctl UD_PREPARE (w_arg W) ;;
       ret (match out with Some (RPrepare q) => q | _ => p end, 0)) ;;
  set_client (fun c => c.{ cl_info := (cl_info c).{ i_abi := UD_POOL_ABI }.{ i_identity := c_nonce (p_contract p) }
    .{ i_capacity := if nz (i_multi (cl_info c)) then UD_CLIENTS else 1 } }) ;;
  ret (p, slot).

(** The SDK's translation of an offset is the address [pa] of the module. *)
Definition client_address (info : shmem_info) (offset pa : Z) : C unit :=
  c <- client ;;
  match lrpc_ubsm_query_pa MAX_MEMID_NUM name_bytes obmm_query_pa_by_memid obmm_query_memid_by_pa (cl_region c) info offset with
  | inr rc => ud_error rc
  | inl address => fail_if (pa_pa address !=? pa) ESTALE
  end.

Definition client_extra (info : shmem_info) (profile social_count slot : Z) (p : ud_prepare) : C unit :=
  if (profile =? UD_PROFILE_SOCIAL) && (social_count =? 3) then
    out <- ioctl UD_SOCIAL_EXTRA_INFO (w_arg W) ;;
    let extra := match out with Some (RExtra e) => e | _ => zero_extra end in
    for_m UD_SOCIAL_EXTRA_DOMAINS (fun d =>
      fail_if (match ud_social_extra_contract (p_contract p) extra d with Some _ => false | None => true end) EPROTO ;;
      for_m 4 (fun l => client_address info (UD_SOCIAL_EXTRA_TABLE slot d l) (x_table_pa (e_dom extra d)).[l])) ;;
    region_store (UD_SOCIAL_EXTRA_SLOT slot) (bytes_of extra)
  else ret tt.

Definition client_addresses (info : shmem_info) (profile slot : Z) (p : ud_prepare) : C unit :=
  c <- client ;;
  let multi := nz (i_multi (cl_info c)) in
  for_m UD_DOMAINS (fun d => for_m 4 (fun l =>
    client_address info (if multi then UD_POOL_TABLE slot d l else UD_TABLE d l) (c_table_pa (p_contract p) d l))) ;;
  client_address info UD_HEAP (c_heap_pa (p_contract p)) ;;
  if (profile =? UD_PROFILE_SOCIAL_WRITE) || (profile =? UD_PROFILE_SOCIAL_SHARED) then
    client_address info (if profile =? UD_PROFILE_SOCIAL_SHARED then UD_SHARED_HEAP else UD_WRITE_HEAP slot)
      (c_write_pa (p_contract p))
  else fail_if (nz (c_write_pa (p_contract p))) EPROTO.

(** Wait for the owner to complete [nonce]. *)
Fixpoint client_wait (polls : nat) (pub nonce : Z) : C unit :=
  complete <- region_u64 (pub + PUB_COMPLETE) ;;
  if complete =? nonce then ret tt
  else
    fail_if (negb (w_clock W)) (w_errno W) ;;
    match polls with
    | O => raise ETIMEDOUT
    | S polls => client_wait polls pub nonce
    end.

(** Publish the request and wait for the answer. *)
Definition client_request (slot : Z) (p : ud_prepare) : C unit :=
  c <- client ;;
  let multi := nz (i_multi (cl_info c)) in
  let pub := if multi then UD_POOL_SLOT slot else 0 in
  let nonce := c_nonce (p_contract p) in
  request <- region_u64 (pub + PUB_REQUEST) ;;
  complete <- region_u64 (pub + PUB_COMPLETE) ;;
  (if multi then
     fail_if (request !=? complete) EBUSY ;;
     again <- region_u64 (pub + PUB_REQUEST) ;;
     fail_if (again =? nonce) ESTALE
   else fail_if (nz request || nz complete) EBUSY) ;;
  region_store pub (bytes_of (p_contract p)) ;;
  region_store (pub + PUB_REQUEST) (le_bytes 8 nonce) ;;
  fail_if (negb (w_clock W)) (w_errno W) ;;
  client_wait (w_polls W) pub nonce ;;
  if multi then
    published <- region_struct ud_pool_publication pub ;;
    fail_if (nz (pp_error published) || nz (pp_reserved published)) EPROTO
  else ret tt.

(** Commit, compare what the module knows of the connection, map the A-stacks. *)
Definition client_commit : C unit :=
  ioctl UD_COMMIT 0 ;;
  c <- client ;;
  (if nz (i_multi (cl_info c)) then
     out <- ioctl UD_CONNECTION_INFO (w_arg W) ;;
     let confirmed := match out with Some (RInfo i) => i | _ => no_info end in
     fail_if (negb (bool_decide (confirmed = cl_info c))) ESTALE
   else ret tt) ;;
  fail_if (w_page_size W <? UD_PAGE) EINVAL ;;
  set_client (fun c => c.{ cl_page_size := w_page_size W }.{ cl_map_size := UD_DOMAINS * w_page_size W }) ;;
  others ;;
  r <- in_kernel (ud_mmap L 0 (UD_DOMAINS * w_page_size W) true true false (w_inserted W)) ;;
  match r with
  | inr e => raise (- e)
  | inl pages => set_client (fun c => c.{ cl_local_args := Some pages })
  end ;;
  set_handle (fun h => h.{ h_epoch := 1 }).

(** Everything after the handle has its client: each failure closes it again. *)
Definition client_connect (profile social_count code_mode nested_path : Z) : C unit :=
  match w_affinity W with
  | None => raise (w_errno W)
  | Some n => fail_if (n !=? 1) EXDEV
  end ;;
  set_handle (fun h => h.{ h_shadow_cpu := w_cpu W }) ;;
  fail_if (w_cpu W <? 0) (w_errno W) ;;
  let name := match w_name W with Some n => if String.eqb n "" then "lrpc_ub_domain"%string else n | None => "lrpc_ub_domain"%string end in
  r <- in_ubsm (lrpc_ubsm_remote_open UBSM_ERR_PARAM_INVALID UBSM_ERR_MEMORY MAX_SHM_NAME_LENGTH (w_sdk W) name UD_BYTES) ;;
  match r with inl _ => ret tt | inr rc => ud_error rc end ;;
  c <- client ;;
  info <- match lrpc_ubsm_import_info MAX_MEMID_NUM name_bytes ubsmem_shmem_lookup (cl_region c) with
          | inl info => ret info
          | inr rc => ud_error rc
          end ;;
  client_manifest code_mode social_count ;;
  generation <- client_header profile code_mode ;;
  client_open ;;
  '(p, slot) <- client_prepare profile code_mode nested_path generation ;;
  fail_if (negb (ud_contract_valid (p_contract p))) EPROTO ;;
  client_extra info profile social_count slot p ;;
  client_addresses info profile slot p ;;
  client_request slot p ;;
  client_commit.

Definition ud_bind_profile (procedure epoch profile social_count : Z) : C unit :=
  (if (procedure <? 1) || (procedure >? 3) || (epoch !=? 1) then ud_error (- EINVAL) else ret tt) ;;
  match client_code_mode profile with
  | None => ud_error (- EINVAL)
  | Some code_mode =>
      match ud_nested_path_parse_profile (w_nested_path W) profile with
      | None => raise EINVAL
      | Some nested_path =>
          set_handle (fun _ => closed_handle.{ h_astack_offset := UD_HANDLE_MARKER }) ;;
          fail_if (negb (w_calloc W)) (w_errno W) ;;
          set_handle (fun h => h.{ h_astack_map := Some no_client.{ cl_nested_path := nested_path }.{ cl_profile := profile }
            .{ cl_owner := w_thread W } }) ;;
          on_fail (client_connect profile social_count code_mode nested_path) ud_lrpc_close
      end
  end.

Definition ud_lrpc_bind (procedure epoch : Z) : C unit := ud_bind_profile procedure epoch UD_PROFILE_MICRO 0.
Definition us_client_open : C unit := ud_bind_profile 1 1 UD_PROFILE_SOCIAL 1.
Definition us_client_open_count (nginx_count : Z) : C unit :=
  if (nginx_count !=? 1) && (nginx_count !=? 3) then ud_error (- EINVAL) else ud_bind_profile 1 1 UD_PROFILE_SOCIAL nginx_count.
Definition us_client_open_write : C unit := ud_bind_profile 1 1 UD_PROFILE_SOCIAL_WRITE 0.
Definition us_client_open_shared : C unit := ud_bind_profile 1 1 UD_PROFILE_SOCIAL_SHARED 0.

(** ** Calls *)

Definition page_struct (A : Type) `{CStruct A} (a : Z) : C A := others ;; x <- get ;; ret (ld_struct A (k_mem (x_k x)) a).
Definition page_store (a : Z) (bs : list Z) : C unit :=
  others ;; x <- get ;; put x.{ x_k := (x_k x).{ k_mem := store_bytes (k_mem (x_k x)) a bs } }.

(** Run [m] with the invoking flag taken; the flag is dropped on every exit. *)
Definition invoking {A} (m : C A) : C A :=
  c <- client ;;
  (if cl_invoking c then ud_error (- EBUSY) else ret tt) ;;
  set_client (fun c => c.{ cl_invoking := true }) ;;
  fun x => let '(r, x) := m x in (r, (set_client (fun c => c.{ cl_invoking := false }) x).2).

(** Only the thread that bound, on the CPU it bound on, with mapped A-stacks. *)
Definition client_ready (h : lrpc_handle) (c : ud_client) : C (list Z) :=
  match cl_local_args c with
  | None => ud_error (- ENOTCONN)
  | Some pages =>
      (if w_thread W !=? cl_owner c then ud_error (- EPERM) else ret tt) ;;
      (if w_cpu W !=? h_shadow_cpu h then ud_error (- EXDEV) else ret tt) ;;
      ret pages
  end.

(** [rc = ioctl(...); saved = errno]: errno, or 0; the call must have come back. *)
Definition try_ioctl (cmd arg : Z) : C Z := fun x =>
  match ioctl cmd arg x with
  | (inl _, x) => (inl 0, x)
  | (inr e, x) => (if e =? EL0_RUNNING then inr e else inl e, x)
  end.

(** errno (0 for success) and the call as the domains left it. *)
Definition us_client_call (call : us_call) : C (Z * us_call) :=
  h <- handle ;;
  match h_astack_map h with
  | None => ud_error (- EINVAL)
  | Some c =>
      (if (h_fd h <? 0) || (h_astack_offset h !=? UD_HANDLE_MARKER) || (ul_abi call !=? US_ABI) ||
          (ul_direction call >? US_REVERSE) then ud_error (- EINVAL) else ret tt) ;;
      (if (cl_profile c !=? UD_PROFILE_SOCIAL) && (cl_profile c !=? UD_PROFILE_SOCIAL_WRITE) &&
          (cl_profile c !=? UD_PROFILE_SOCIAL_SHARED) then ud_error (- ENOTCONN) else ret tt) ;;
      pages <- client_ready h c ;;
      invoking (
        let m := pages.[0] in
        before <- page_struct ud_mapped m ;;
        page_store (m + US_MAPPED_OFFSET) (bytes_of call) ;;
        saved <- try_ioctl UD_SOCIAL_CALL 0 ;;
        after <- page_struct ud_mapped m ;;
        mapped <- page_struct us_call (m + US_MAPPED_OFFSET) ;;
        let wrong :=
          (mp_completion after =? mp_completion before) || nz (mp_status after) || nz (mp_esr after) ||
          nz (ul_fault_vector mapped) || (ul_entries mapped !=? 2) ||
          (ul_transitions mapped !=? (if cl_nested_path c =? UD_NESTED_FUSED then 3 else 4)) ||
          (ul_cpu mapped !=? u32 (h_shadow_cpu h)) || (w_cpu_after W !=? h_shadow_cpu h) in
        ret (if z0 saved && wrong then EPROTO else saved, mapped))
  end.

Definition ud_lrpc_invoke (call : lrpc_astack) : C lrpc_astack :=
  h <- handle ;;
  match h_astack_map h with
  | None => ud_error (- EINVAL)
  | Some c =>
      let procedure := la_procedure_id call in
      (if (h_fd h <? 0) || (la_abi call !=? LRPC_ASTACK_ABI) || (procedure <? 1) || (procedure >? 3) ||
          (la_request_size call !=? (if procedure =? 2 then 8 else 16)) then ud_error (- EINVAL) else ret tt) ;;
      (if cl_profile c !=? UD_PROFILE_MICRO then ud_error (- EOPNOTSUPP) else ret tt) ;;
      pages <- client_ready h c ;;
      invoking (
        let d := if procedure =? 1 then UD_DIRECT else if procedure =? 2 then UD_MIDDLE else UD_QUERY in
        let m := pages.[d] in
        before <- page_struct ud_mapped m ;;
        page_store m (take 8 (la_payload call)) ;;
        page_store (m + 8) (if procedure !=? 2 then take 8 (drop 8 (la_payload call)) else le_bytes 8 0) ;;
        ioctl UD_MAPPED_CALL procedure ;;
        after <- page_struct ud_mapped m ;;
        fail_if (z0 (mp_completion after) || (mp_completion after =? mp_completion before) || nz (mp_status after) ||
                 nz (mp_esr after) || (mp_procedure after !=? procedure) || (mp_cpu after !=? u32 (h_shadow_cpu h)) ||
                 (mp_transitions after !=? (if procedure =? 2 then ud_nested_transitions (cl_nested_path c) else 2))) EPROTO ;;
        ret (call.{ la_payload := le_bytes 8 (mp_result after) ++ drop 8 (la_payload call) }
               .{ la_response_size := 8 }.{ la_status := 0 }.{ la_shadow_pid := 0 }.{ la_caller_pid := w_pid W }
               .{ la_caller_cpu_before := mp_cpu after }.{ la_caller_cpu_in_service := mp_cpu after }
               .{ la_caller_cpu_after := u64 (w_cpu_after W) }
               .{ la_call_enter_ns := 0 }.{ la_shadow_dispatch_ns := 0 }
               .{ la_shadow_return_ns := 0 }.{ la_caller_resume_ns := 0 }))
  end.

(** The value of the heap's first word and the time the read took. *)
Definition ud_lrpc_sample_remote_heap : C (Z * Z) :=
  h <- handle ;;
  match h_astack_map h with
  | None => ud_error (- EINVAL)
  | Some c =>
      (if (h_fd h <? 0) || (h_astack_offset h !=? UD_HANDLE_MARKER) then ud_error (- EINVAL) else ret tt) ;;
      (if negb (g_mapped (cl_region c)) || z0 (g_base (cl_region c)) then ud_error (- ENOTCONN) else ret tt) ;;
      fail_if (negb (w_clock W)) (w_errno W) ;;
      value <- region_u64 UD_HEAP ;;
      ret (value, w_elapsed W)
  end.

Definition ud_lrpc_connection_info : C ud_connection_info :=
  h <- handle ;;
  match h_astack_map h with
  | None => ud_error (- EINVAL)
  | Some c =>
      (if (h_fd h <? 0) || (h_astack_offset h !=? UD_HANDLE_MARKER) then ud_error (- EINVAL) else ret tt) ;;
      ret (cl_info c)
  end.
Definition us_client_info : C ud_connection_info := ud_lrpc_connection_info.
Definition us_client_close : C unit := ud_lrpc_close_checked.

(** ** lib/ub_domain_api.c *)

Definition lrpc_bind (backend : option string) (device : string) (procedure_id expected_epoch : Z) : C unit :=
  fail_if (negb (String.eqb device "/dev/ub_lrpc_domain") ||
           match backend with Some b => negb (String.eqb b "ub-remote-domain") | None => true end) EINVAL ;;
  ud_lrpc_bind procedure_id expected_epoch.

Definition lrpc_invoke (call : lrpc_astack) : C lrpc_astack :=
  h <- handle ;;
  fail_if ((h_fd h <? 0) || (h_astack_offset h !=? UD_HANDLE_MARKER)) EINVAL ;;
  ud_lrpc_invoke call.

Definition lrpc_close : C unit :=
  h <- handle ;;
  if ((h_fd h >=? 0) || match h_astack_map h with Some _ => true | None => false end) &&
     (h_astack_offset h =? UD_HANDLE_MARKER) then ud_lrpc_close else ret tt.
End client.
