(* ===== verification/ClientSound.v ===== *)
(** * Binding holds everything or nothing

    [ud_bind_profile] takes resources of three components: the region of the SDK
    ([Ubsm]), the session of the module ([Sessions]) and the handle.  Whatever the
    other processes do in between, a bind that fails has given all of them back, and
    a bind that succeeds leaves a committed session whose A-stacks are mapped. *)

From Stdlib Require Import String.
From S2P Require Import Prelude Monad CMem Abi Layout PoolSlots RemoteCode Social Pool Kernel KernelLogic Session Ledger Device Commit Gate Run Lifecycle Sessions Demo Ubsm Client.

Create HintDb keeps.

Section sound.
Context (UBSM_ERR_PARAM_INVALID UBSM_ERR_MEMORY MAX_SHM_NAME_LENGTH MAX_MEMID_NUM name_bytes : Z).
Context (obmm_query_pa_by_memid : Z -> Z -> Z + Z) (obmm_query_memid_by_pa : Z -> (Z * Z) + Z).
Context (ubsmem_shmem_lookup : string -> shmem_info + Z).
Context (fuel : nat) (L : linux) (W : client_world).
(** The other regions of the process. *)
Context (o : list lrpc_ubsm_region).

(** Linux behaves, and its allocators hand out what is free. *)
Record platform_ok : Prop := {
  pf_linux : linux_ok L;
  pf_fresh : forall n k, session_inv k -> fresh k (w_others W n k).2 }.
Hypothesis Hpf : platform_ok.

(** No session: the module holds nothing for this handle. *)
Definition vacant (k : kstate) : Prop := holds_nothing k /\ k_fault k = false.

(** The handle has descriptor [fd] and a client with region [r]. *)
Record binding (r : lrpc_ubsm_region) (fd : Z) (x : client_state) : Prop := {
  bi_fd : h_fd (x_h x) = fd;
  bi_client : exists c, h_astack_map (x_h x) = Some c /\ cl_region c = r /\ cl_owner c = w_thread W;
  bi_region : ubsm_inv (x_lib x) (r :: o);
  bi_module : if fd <? 0 then vacant (x_k x) else session_inv (x_k x) }.

Definition keeps (r : lrpc_ubsm_region) (fd : Z) {A} (m : C A) : Prop :=
  forall x, binding r fd x -> wp m (fun _ => binding r fd) (fun _ => binding r fd) x.

(** ** Rules *)

Section rules.
Context (r : lrpc_ubsm_region) (fd : Z).
Local Notation keeps := (keeps r fd).

Lemma keeps_ret {A} (a : A) : keeps (ret a).
Proof using Type. intros x Hx. exact Hx. Qed.
Lemma keeps_raise {A} e : keeps (raise (A := A) e).
Proof using Type. intros x Hx. exact Hx. Qed.
Lemma keeps_bind {A B} (m : C A) (f : A -> C B) : keeps m -> (forall a, keeps (f a)) -> keeps (bind m f).
Proof using Type. intros Hm Hf x Hx. apply wp_bind. eapply wp_mono; [by apply Hm|intros a x' Hx'; by apply Hf|done]. Qed.
Lemma keeps_if {A} (b : bool) (m n : C A) : keeps m -> keeps n -> keeps (if b then m else n).
Proof using Type. by destruct b. Qed.
Lemma keeps_fail_if b e : keeps (fail_if b e).
Proof using Type. unfold fail_if. destruct b; [apply keeps_raise|apply keeps_ret]. Qed.
Lemma keeps_error {A} rc : keeps (ud_error (A := A) rc).
Proof using Type. apply keeps_raise. Qed.
Lemma keeps_get : keeps get.
Proof using Type. intros x Hx. exact Hx. Qed.
Lemma keeps_handle : keeps handle.
Proof using Type. intros x Hx. exact Hx. Qed.
Lemma keeps_client : keeps client.
Proof using Type. intros x Hx. exact Hx. Qed.
Lemma keeps_for n f : (forall i, keeps (f i)) -> keeps (for_m n f).
Proof using Type.
  intros Hf. unfold for_m. induction (seqZ 0 n) as [|i l IH]; [apply keeps_ret|]. by apply keeps_bind.
Qed.

(** A change of the client that leaves its region and owner. *)
Lemma keeps_set_client f :
  (forall c, cl_region (f c) = cl_region c /\ cl_owner (f c) = cl_owner c) -> keeps (set_client f).
Proof using Type.
  intros Hf x [Hfd (c & Hc & Hr & Ho) Hu Hk]. unfold set_client, set_handle. apply wp_bind, wp_get, wp_put.
  destruct (Hf c) as [E1 E2]. constructor; simpl; [done| |done|done]. exists (f c). rewrite Hc. simpl. split_and!; congruence.
Qed.

Lemma vacant_enter d k m a : vacant k -> vacant (enter d k m a).
Proof using Type. intros [[] Hf]. split; [by constructor|done]. Qed.

Lemma keeps_others : keeps (others W).
Proof using Hpf.
  intros x [Hfd Hc Hu Hk]. unfold others. apply wp_bind, wp_get.
  pose proof (pf_fresh Hpf (x_step x) (x_k x)) as Hfr.
  destruct (w_others W (x_step x) (x_k x)) as [[d m] a]. apply wp_put. constructor; [done|done|done|]. simpl in *.
  destruct (fd <? 0); [by apply vacant_enter|]. by apply enter_inv; [|apply Hfr].
Qed.

Lemma keeps_put_mem f :
  keeps (x <- get ;; put x.{ x_k := (x_k x).{ k_mem := f x } }).
Proof using Type.
  intros x [Hfd Hc Hu Hk]. apply wp_bind, wp_get, wp_put. constructor; [done|done|done|]. simpl.
  destruct (fd <? 0); [destruct Hk as [[] ?]; by split|].
  destruct Hk as [Hl ? ? ? ? ? ? ?]. constructor; try done. by ledger_keep Hl.
Qed.
End rules.

Lemma keeps_ioctl r fd cmd arg : 0 <= fd -> keeps r fd (ioctl fuel L W cmd arg).
Proof using Hpf.
  intros Hfd. unfold ioctl. apply keeps_bind; [apply keeps_others|]. intros _ x [Hf Hc Hu Hk].
  apply wp_bind. unfold wp at 1, in_kernel. simpl.
  destruct (fd <? 0) eqn:E; [lia|].
  pose proof (wp_ud_ioctl fuel L (x_k x) (pf_linux Hpf) Hk cmd arg) as Hw. unfold wp in Hw.
  destruct (ud_ioctl fuel L cmd arg (x_k x)) as [r' k'].
  assert (Hk' : session_inv k') by (destruct r'; apply Hw).
  assert (Hx : binding r fd x.{ x_k := k' }) by (constructor; [done|done|done|]; simpl; by rewrite E).
  destruct r' as [[rc out]|e]; [|exact Hx]. apply wp_bind, wp_fail_if; intros _; exact Hx.
Qed.
End sound.
#[export] Hint Resolve keeps_ret keeps_raise keeps_fail_if keeps_error keeps_get keeps_handle keeps_client : keeps.
#[export] Hint Resolve keeps_bind keeps_if keeps_for keeps_others keeps_put_mem keeps_ioctl : keeps.
#[export] Hint Extern 5 (keeps _ _ _ _ (set_client _)) => apply keeps_set_client; by intros [] : keeps.

(** Walk through a function that only keeps. *)
Ltac keeps_go :=
  intros; repeat first
    [ progress (intros; cbv beta zeta)
    | solve [eauto 3 with keeps]
    | lazymatch goal with
      | |- keeps _ _ _ _ (bind _ _) => apply keeps_bind
      | |- keeps _ _ _ _ (if _ then _ else _) => apply keeps_if
      | |- keeps _ _ _ _ (for_m _ _) => apply keeps_for
      | |- keeps _ _ _ _ (match ?x with _ => _ end) => destruct x
      end ].

(** ** The functions of a bind *)

Section functions.
Context (UBSM_ERR_PARAM_INVALID UBSM_ERR_MEMORY MAX_SHM_NAME_LENGTH MAX_MEMID_NUM name_bytes : Z).
Context (obmm_query_pa_by_memid : Z -> Z -> Z + Z) (obmm_query_memid_by_pa : Z -> (Z * Z) + Z).
Context (ubsmem_shmem_lookup : string -> shmem_info + Z).
Context (fuel : nat) (L : linux) (W : client_world) (o : list lrpc_ubsm_region).
Hypothesis Hpf : platform_ok L W.
Local Notation keeps := (keeps W o).
Local Notation binding := (binding W o).

Lemma keeps_region_mem r fd : keeps r fd (region_mem L W).
Proof using Hpf. unfold region_mem. keeps_go. Qed.
Lemma keeps_region_base r fd : keeps r fd region_base.
Proof using Type. unfold region_base. keeps_go. Qed.
Lemma keeps_region_struct r fd A `{CStruct A} off : keeps r fd (region_struct L W A off).
Proof using Hpf. unfold region_struct. pose proof keeps_region_mem. pose proof keeps_region_base. keeps_go. Qed.
Lemma keeps_region_u64 r fd off : keeps r fd (region_u64 L W off).
Proof using Hpf. unfold region_u64. pose proof keeps_region_mem. pose proof keeps_region_base. keeps_go. Qed.
Lemma keeps_store_user r fd va bs : keeps r fd (store_user L va bs).
Proof using Type. unfold store_user. apply keeps_put_mem. Qed.
Lemma keeps_region_store r fd off bs : keeps r fd (region_store L W off bs).
Proof using Hpf. unfold region_store. pose proof keeps_region_base. pose proof keeps_store_user. keeps_go. Qed.
Lemma keeps_manifest r fd mode count : keeps r fd (client_manifest L W mode count).
Proof using Hpf. unfold client_manifest. pose proof keeps_region_struct. keeps_go. Qed.
Lemma keeps_header r fd profile mode : keeps r fd (client_header L W profile mode).
Proof using Hpf. unfold client_header. pose proof keeps_region_struct. pose proof keeps_region_u64. keeps_go. Qed.
Lemma keeps_ioctl_u32 r fd cmd v : 0 <= fd -> keeps r fd (ioctl_u32 fuel L W cmd v).
Proof using Hpf. unfold ioctl_u32. pose proof keeps_store_user. keeps_go. Qed.
Lemma keeps_prepare r fd profile mode path generation :
  0 <= fd -> keeps r fd (client_prepare fuel L W profile mode path generation).
Proof using Hpf. unfold client_prepare. pose proof keeps_ioctl_u32. pose proof keeps_store_user. keeps_go. Qed.
Lemma keeps_address r fd info off pa :
  keeps r fd (client_address MAX_MEMID_NUM name_bytes obmm_query_pa_by_memid obmm_query_memid_by_pa info off pa).
Proof using Type. unfold client_address. keeps_go. Qed.
Lemma keeps_extra_address r fd info profile count slot p :
  0 <= fd ->
  keeps r fd (client_extra MAX_MEMID_NUM name_bytes obmm_query_pa_by_memid obmm_query_memid_by_pa fuel L W info profile count slot p).
Proof using Hpf. unfold client_extra. pose proof keeps_address. pose proof keeps_region_store. keeps_go. Qed.
Lemma keeps_addresses r fd info profile slot p :
  keeps r fd (client_addresses MAX_MEMID_NUM name_bytes obmm_query_pa_by_memid obmm_query_memid_by_pa info profile slot p).
Proof using Type. unfold client_addresses. pose proof keeps_address. keeps_go. Qed.
Lemma keeps_wait r fd polls pub nonce : keeps r fd (client_wait L W polls pub nonce).
Proof using Hpf.
  pose proof keeps_region_u64. induction polls as [|polls IH]; unfold client_wait; fold client_wait; keeps_go.
Qed.
Lemma keeps_request r fd slot p : keeps r fd (client_request L W slot p).
Proof using Hpf.
  unfold client_request. pose proof keeps_region_u64. pose proof keeps_region_store. pose proof keeps_region_struct.
  pose proof keeps_wait. keeps_go.
Qed.

(** ** Opening, committing, closing *)

Lemma wp_client_open r x (Q : unit -> client_state -> Prop) (E : Z -> client_state -> Prop) :
  0 <= w_fd W -> binding r (-1) x -> (forall e x', binding r (-1) x' -> E e x') ->
  (forall x', binding r (w_fd W) x' -> Q tt x') -> wp (client_open L W) Q E x.
Proof using Hpf.
  intros Hfd Hx HE HQ. unfold client_open. apply wp_bind. eapply wp_mono; [by apply (keeps_others L)| |done].
  intros _ x' [Hf (c & Hc & Hr & Ho) Hu Hk]. destruct (ud_open L (w_session W)) as [s|e] eqn:Hop.
  - apply wp_bind, wp_get, wp_bind, wp_put. unfold set_handle. apply wp_bind, wp_get, wp_put. apply HQ.
    constructor; simpl; [done|by exists c|done|]. destruct (w_fd W <? 0) eqn:E0; [lia|].
    pose proof (open_inv _ _ _ Hop) as [Hl ? ? ? ? ? ? ?]. constructor; try done. by ledger_keep Hl.
  - apply wp_raise, HE. constructor; [done|by exists c|done|done].
Qed.

(** The connection a successful bind leaves. *)
Record connected (x : client_state) : Prop := {
  cn_binding : exists r, binding r (w_fd W) x /\ g_mapped r = true;
  cn_committed : s_committed (k_s (x_k x)) = true;
  cn_args : exists c, h_astack_map (x_h x) = Some c /\ cl_local_args c = Some (s_args (k_s (x_k x)));
  cn_epoch : h_epoch (x_h x) = 1 }.

Lemma wp_ud_mmap pgoff len shared write exec inserted k :
  wp (ud_mmap L pgoff len shared write exec inserted)
    (fun pages k' => k' = k /\ s_committed (k_s k) = true /\ pages = s_args (k_s k)) (fun _ k' => k' = k) k.
Proof using Type.
  unfold ud_mmap. apply wp_bind, wp_session. repeat (apply wp_bind, wp_fail_if; intros ?; [done|]).
  apply wp_ret. bprop. done.
Qed.

Lemma wp_client_commit r x :
  0 <= w_fd W -> g_mapped r = true -> binding r (w_fd W) x ->
  wp (client_commit fuel L W) (fun _ => connected) (fun _ => binding r (w_fd W)) x.
Proof using Hpf.
  intros Hfd Hm Hx. unfold client_commit.
  assert (Hdo : forall A B (m : C A) (f : A -> C B) Q, keeps r (w_fd W) m ->
    (forall a x, binding r (w_fd W) x -> wp (f a) Q (fun _ => binding r (w_fd W)) x) ->
    forall x, binding r (w_fd W) x -> wp (bind m f) Q (fun _ => binding r (w_fd W)) x).
  { intros A B m f Q Hmk Hf x0 Hx0. apply wp_bind. eapply wp_mono; [by apply Hmk|done|done]. }
  revert x Hx. apply Hdo; [by apply (keeps_ioctl fuel L)|]. intros _. apply Hdo; [keeps_go|]. intros c.
  apply Hdo; [keeps_go|]. intros _. apply Hdo; [keeps_go|]. intros _. apply Hdo; [keeps_go|]. intros _.
  apply Hdo; [keeps_go|]. intros _ x [Hf (c' & Hc & Hr & Ho) Hu Hk]. apply wp_bind. unfold wp at 1, in_kernel.
  pose proof (wp_ud_mmap 0 (UD_DOMAINS * w_page_size W) true true false (w_inserted W) (x_k x)) as Hw. unfold wp in Hw.
  destruct (ud_mmap _ _ _ _ _ _ _ (x_k x)) as [[pages|e] k'].
  - destruct Hw as (-> & Hcm & ->). unfold set_client, set_handle. apply wp_bind, wp_bind, wp_get, wp_put.
    apply wp_bind, wp_get, wp_put. simpl. constructor; simpl; try done.
    + exists r. split; [|done]. constructor; simpl; [done| |done|done]. rewrite Hc. simpl. eexists. split; [done|]. done.
    + rewrite Hc. simpl. eexists. split; [done|]. done.
  - subst k'. apply wp_bind, wp_raise. constructor; [done|by exists c'|done|done].
Qed.

Lemma drop_idle u r : idle r -> ubsm_inv u (r :: o) -> ubsm_inv u o.
Proof using Type.
  intros (Hi & Hm & Hs) Hu. constructor; try apply Hu.
  - rewrite (ui_refs _ _ Hu). simpl. unfold uses at 1. by rewrite Hi.
  - intros m Hmi. destruct (ui_imports _ _ Hu m Hmi) as [E ?]. split; [|done]. rewrite E. simpl. unfold refers at 1. rewrite Hs.
    by destruct (decide _).
  - intros x Hx. apply (ui_regions _ _ Hu). by right.
  - rewrite (ui_live _ _ Hu). simpl. unfold own_mapping at 1. by rewrite Hm.
Qed.

(** Nothing is left of the bind. *)
Record released (x : client_state) : Prop := {
  rl_handle : h_fd (x_h x) < 0 /\ h_astack_map (x_h x) = None;
  rl_region : ubsm_inv (x_lib x) o;
  rl_module : vacant (x_k x) }.

Definition close_failed : Prop :=
  w_munmap W = false \/ w_close W = false \/ v_unmap (w_sdk W) <> 0 \/ v_finalize (w_sdk W) <> 0.

(** Closing gives everything back, or a system call failed and what is left can be
    closed again. *)
Definition retained (x : client_state) : Prop := close_failed /\ exists r fd, binding r fd x.

Lemma wp_close_args r fd c x :
  binding r fd x -> h_astack_map (x_h x) = Some c ->
  wp ((if w_thread W !=? cl_owner c then ud_error (- EPERM) else ret tt) ;;
      match cl_local_args c with
      | Some _ => fail_if (negb (w_munmap W)) (w_errno W) ;; set_client (fun c => c.{ cl_local_args := None })
      | None => ret tt
      end) (fun _ => binding r fd) (fun _ => retained) x.
Proof using Type.
  intros Hx Hc. destruct (bi_client _ _ _ _ _ Hx) as (c' & Hc' & Hr & Ho). rewrite Hc in Hc'. injection Hc' as <-.
  rewrite Ho, Z.eqb_refl. apply wp_bind, wp_ret. destruct (cl_local_args c); [|done].
  apply wp_bind, wp_fail_if; intros Hmu; [split; [left; by destruct (w_munmap W)|by eauto]|].
  pose proof (keeps_set_client W o r fd (fun c => c.{ cl_local_args := None }) ltac:(by intros []) x Hx) as Hw.
  exact Hw.
Qed.

Lemma wp_close_fd r fd x :
  binding r fd x ->
  wp (if fd >=? 0 then
        others W ;; in_kernel ud_release ;; set_handle (fun h => h.{ h_fd := -1 }) ;; fail_if (negb (w_close W)) (w_errno W)
      else ret tt) (fun _ x' => exists fd, fd < 0 /\ binding r fd x') (fun _ => retained) x.
Proof using Hpf.
  intros Hx. destruct (fd >=? 0) eqn:Hfd; [|apply wp_ret; exists fd; split; [lia|done]]. apply wp_bind.
  pose proof (keeps_others L W o Hpf r fd x Hx) as Hw. unfold others, bind, get, put, wp in Hw |- *.
  destruct (w_others W (x_step x) (x_k x)) as [[d m] a]. set (x1 := x.{ x_k := _ }.{ x_step := _ }) in *.
  destruct Hw as [Hf (c & Hc & Hr & Ho) Hu Hk]. destruct (fd <? 0) eqn:E; [lia|].
  destruct (release_spec _ (si_ledger _ Hk)) as (k' & Hrel & _ & _ & Hn & Hfl). unfold in_kernel. rewrite Hrel.
  assert (Hb : binding r (-1) x1.{ x_k := k' }.{ x_h := (x_h x1).{ h_fd := -1 } }).
  { constructor; [done|by exists c|done|]. by split. }
  unfold set_handle, bind, get, put. simpl. destruct (w_close W) eqn:Hcl; simpl.
  - exists (-1). split; [lia|exact Hb].
  - split; [right; by left|]. eauto.
Qed.

Lemma wp_close_region r fd x :
  fd < 0 -> binding r fd x ->
  wp (r <- in_ubsm (lrpc_ubsm_close UBSM_ERR_PARAM_INVALID (w_sdk W) false) ;;
      match r with inl _ => ret tt | inr rc => ud_error rc end)
    (fun _ x' => ubsm_inv (x_lib x') o /\ vacant (x_k x')) (fun _ => retained) x.
Proof using Type.
  intros Hfd [Hf (c & Hc & Hr & Ho) Hu Hk]. apply wp_bind. unfold wp at 1, in_ubsm. rewrite Hc.
  pose proof (wp_close UBSM_ERR_PARAM_INVALID (w_sdk W) o (mk_ubsm_state (x_lib x) (cl_region c)) false ltac:(by subst r)) as Hw.
  unfold wp in Hw. destruct (lrpc_ubsm_close _ _ _ _) as [[[]|e] k'].
  - destruct Hw as (Hf' & Hm & Hi & Hs). apply wp_ret. simpl. destruct (fd <? 0) eqn:E; [|lia]. split; [|done].
    by eapply drop_idle; [|exact Hf'].
  - destruct Hw as [Hf' [He Hw]]. apply wp_raise. split.
    + unfold close_failed. destruct Hw as [-> |[[? _]| ->]]; [auto|done|auto].
    + exists (b_region k'), fd. constructor; simpl; [done| |done|by destruct (fd <? 0)]. eexists. split; [done|]. done.
Qed.

Lemma wp_close_checked r fd x :
  binding r fd x ->
  wp (ud_lrpc_close_checked UBSM_ERR_PARAM_INVALID W) (fun _ => released) (fun _ => retained) x.
Proof using Hpf.
  intros Hx. unfold ud_lrpc_close_checked. apply wp_bind. unfold handle. apply wp_bind, wp_get, wp_ret.
  destruct (bi_client _ _ _ _ _ Hx) as (c & Hc & Hr & Ho). rewrite Hc. apply wp_bind.
  eapply wp_mono; [by apply (wp_close_args r fd)| |done]. intros [] x1 Hx1. apply wp_bind. rewrite (bi_fd _ _ _ _ _ Hx).
  eapply wp_mono; [by apply (wp_close_fd r fd)| |done]. intros [] x2 (fd2 & Hfd2 & Hx2). apply wp_bind.
  eapply wp_mono; [by apply (wp_close_region r fd2)| |done]. intros [] x3 (Hu & Hk).
  unfold set_handle. apply wp_bind, wp_get, wp_put. constructor; simpl; [split; [lia|done]|done|done].
Qed.

(** ** The whole bind *)

Lemma wp_client_connect profile count mode path x :
  0 <= w_fd W -> sdk_fresh (w_sdk W) (x_lib x) -> binding empty_region (-1) x ->
  wp (client_connect UBSM_ERR_PARAM_INVALID UBSM_ERR_MEMORY MAX_SHM_NAME_LENGTH MAX_MEMID_NUM name_bytes
        obmm_query_pa_by_memid obmm_query_memid_by_pa ubsmem_shmem_lookup fuel L W profile count mode path)
    (fun _ => connected) (fun _ x' => exists r fd, binding r fd x') x.
Proof using Hpf.
  intros Hfd Hfr Hx. unfold client_connect.
  assert (Hdo : forall r fd A B (m : C A) (f : A -> C B) Q, keeps r fd m ->
    (forall a x, binding r fd x -> wp (f a) Q (fun _ x' => exists r fd, binding r fd x') x) ->
    forall x, binding r fd x -> wp (bind m f) Q (fun _ x' => exists r fd, binding r fd x') x).
  { intros r fd A B m f Q Hmk Hf x0 Hx0. apply wp_bind. eapply wp_mono; [by apply Hmk|by intros; apply Hf|intros e x' ?; by exists r, fd]. }
  apply wp_bind. apply (wp_mono _ (fun _ x' => x' = x) _ (fun _ x' => x' = x)); [by destruct (w_affinity W) as [n|]; [apply wp_fail_if|]| |intros e ? ->; by exists empty_region, (-1)].
  intros _ ? ->. unfold set_handle at 1. apply wp_bind, wp_bind, wp_get, wp_put.
  set (x1 := x.{ x_h := (x_h x).{ h_shadow_cpu := w_cpu W } }).
  assert (Hx1 : binding empty_region (-1) x1) by (by destruct Hx).
  apply wp_bind, wp_fail_if; intros _; [by exists empty_region, (-1)|]. cbv zeta.
  set (name := match w_name W with Some n => _ | None => _ end). apply wp_bind. unfold wp at 1, in_ubsm.
  destruct Hx1 as [Hf1 (c & Hc & Hr & Ho) Hu Hk]. rewrite Hc.
  pose proof (wp_remote_open UBSM_ERR_PARAM_INVALID UBSM_ERR_MEMORY MAX_SHM_NAME_LENGTH (w_sdk W) o
    (mk_ubsm_state (x_lib x1) (cl_region c)) name UD_BYTES ltac:(by rewrite Hr) ltac:(by rewrite Hr) Hfr) as Hw.
  unfold wp in Hw. destruct (lrpc_ubsm_remote_open _ _ _ _ _ _ _) as [[[]|e] u].
  2: { apply wp_bind, wp_raise. exists (b_region u), (-1). constructor; [done|by eexists|done|done]. }
  destruct Hw as [Hu' (id & Hid & _)]. apply wp_bind, wp_ret. set (r := b_region u).
  assert (Hmap : g_mapped r = true) by (apply (ro_shared _ _ (ui_regions _ _ Hu' r ltac:(left)) id Hid)).
  match goal with |- wp _ _ _ ?y => set (x2 := y); assert (Hx2 : binding r (-1) x2) by (constructor; [done|by eexists|done|done]); clearbody x2 end.
  revert x2 Hx2. apply Hdo; [keeps_go|]. intros c2. apply Hdo; [keeps_go|]. intros info.
  apply Hdo; [apply keeps_manifest|]. intros _. apply Hdo; [apply keeps_header|]. intros generation x3 Hx3.
  apply wp_bind, (wp_client_open r); [done|done|intros e x' ?; by exists r, (-1)|]. apply Hdo; [by apply keeps_prepare|]. intros [p slot].
  apply Hdo; [keeps_go|]. intros _. apply Hdo; [by apply keeps_extra_address|]. intros _. apply Hdo; [apply keeps_addresses|]. intros _.
  apply Hdo; [apply keeps_request|]. intros _ x4 Hx4. eapply wp_mono; [by apply (wp_client_commit r)|done|intros e x' ?; by exists r, (w_fd W)].
Qed.
End functions.

Section bind.
Context (UBSM_ERR_PARAM_INVALID UBSM_ERR_MEMORY MAX_SHM_NAME_LENGTH MAX_MEMID_NUM name_bytes : Z).
Context (obmm_query_pa_by_memid : Z -> Z -> Z + Z) (obmm_query_memid_by_pa : Z -> (Z * Z) + Z).
Context (ubsmem_shmem_lookup : string -> shmem_info + Z).
Local Notation bind_profile := (ud_bind_profile UBSM_ERR_PARAM_INVALID UBSM_ERR_MEMORY MAX_SHM_NAME_LENGTH MAX_MEMID_NUM
  name_bytes obmm_query_pa_by_memid obmm_query_memid_by_pa ubsmem_shmem_lookup).

(** C14. A bind through a handle that is not in use ends in one of three ways, whatever
    other processes do to the region and to the slot table meanwhile.  It returns 0
    with a session that is committed, its argument pages mapped and the region
    imported.  It fails, the region and the descriptor are closed, and the module
    holds no page, ASID, file or slot for it.  Or it fails, munmap, close or the SDK
    fails in its cleanup too, and the handle keeps what is left so that closing can
    be tried again. *)
Theorem bind_is_all_or_nothing fuel L W o procedure epoch profile count x :
  platform_ok L W -> 0 <= w_fd W -> sdk_fresh (w_sdk W) (x_lib x) ->
  h_fd (x_h x) < 0 -> h_astack_map (x_h x) = None -> ubsm_inv (x_lib x) o -> vacant (x_k x) ->
  match bind_profile fuel L W procedure epoch profile count x with
  | (inl _, x') => connected W o x'
  | (inr _, x') => released o x' \/ retained W o x'
  end.
Proof using Type.
  intros Hpf Hfd Hfr Hh Hm Hu Hk. change (wp (bind_profile fuel L W procedure epoch profile count)
    (fun _ => connected W o) (fun _ x' => released o x' \/ retained W o x') x).
  assert (Hx : released o x) by by constructor. unfold ud_bind_profile. apply wp_bind.
  apply (wp_mono _ (fun _ x' => x' = x) _ (fun _ x' => x' = x)); [by case_if| |intros e ? ->; by left].
  intros [] ? ->. destruct (client_code_mode W profile) as [mode|]; [|by left].
  destruct (ud_nested_path_parse_profile _ _) as [path|]; [|by left].
  unfold set_handle. apply wp_bind, wp_bind, wp_get, wp_put. apply wp_bind, wp_fail_if; intros _; [left; by constructor|].
  apply wp_bind, wp_bind, wp_get, wp_put. apply wp_on_fail.
  eapply wp_mono; [apply (wp_client_connect UBSM_ERR_PARAM_INVALID UBSM_ERR_MEMORY MAX_SHM_NAME_LENGTH MAX_MEMID_NUM name_bytes
    obmm_query_pa_by_memid obmm_query_memid_by_pa ubsmem_shmem_lookup fuel L W o Hpf profile count mode path); [done|done|]|done|].
  - constructor; simpl; [done|by eexists|by apply add_empty|done].
  - intros e x' (r & fd & Hb). pose proof (wp_close_checked UBSM_ERR_PARAM_INVALID L W o Hpf r fd x' Hb) as Hw.
    unfold wp in Hw. unfold ud_lrpc_close. simpl. destruct (ud_lrpc_close_checked _ _ x') as [[]]; auto.
Qed.
End bind.

(** ** Witness: an owner that does not answer in time *)

Definition free_of (used l : list Z) : list Z := filter (fun p => p ∉ used) l.
Definition demo_free (k : kstate) : answers :=
  mk_answers (free_of (k_pages k) (a_pages demo_answers)) (free_of (k_tokens k) (a_tokens demo_answers))
    (a_asids demo_answers) (a_random demo_answers).
Definition demo_world : client_world :=
  mk_world None None None None true (Some 1) 3 3 100 200 5 true 4096 (fun _ => 0) true true true 0 EIO ARGBUF
    (mk_sdk None 0 0 0 0 0 0 USER 0 0 7) 1000 (fun _ k => (mk_device (k_banks k) [], k_mem k, demo_free k)).
Definition demo_lookup (name : string) : shmem_info + Z := inl (mk_info name UD_BYTES 2 (UD_BYTES / 2) [5; 6]).
Definition demo_query (id within : Z) : Z + Z := inl (REGION + (id - 5) * (UD_BYTES / 2) + within).
Definition demo_reverse (pa : Z) : (Z * Z) + Z :=
  inl (5 + (pa - REGION) / (UD_BYTES / 2), (pa - REGION) mod (UD_BYTES / 2)).
Definition demo_before : client_state :=
  mk_cs closed_handle (pr_lib process_start)
    ((open_state demo_session).{ k_banks := dv_banks device_start }.{ k_mem := demo_mem }) 0.
Definition demo_bind : (unit + Z) * client_state :=
  ud_bind_profile 1 2 64 8 64 demo_query demo_reverse demo_lookup 0 demo_linux demo_world 1 1 UD_PROFILE_MICRO 0 demo_before.

Lemma free_of_fresh used l :
  NoDup used -> NoDup l -> Forall (fun p => p <> 0) l -> NoDup (claims one (free_of used l) ++ used).
Proof.
  intros Hu Hl Hz. assert (Hc : claims one (free_of used l) = free_of used l).
  { unfold free_of. clear Hl. induction Hz as [|p l Hp Hl IH]; [done|]. rewrite filter_cons. case_decide; [|done].
    unfold claims in *. rewrite fmap_cons. cbn [concat]. rewrite IH. unfold one, z0. destruct (Z.eqb_spec p 0); [done|reflexivity]. }
  rewrite Hc. apply list.NoDup_app. split_and!; [by apply list.NoDup_filter| |done].
  intros p Hp. by apply list_elem_of_filter in Hp as [? _].
Qed.

Lemma demo_platform_ok : platform_ok demo_linux demo_world.
Proof.
  constructor; [apply demo_linux_ok|]. intros n k Hk. destruct (proj2 (si_ledger _ Hk)). constructor.
  - apply free_of_fresh; [by apply NoDup_app in ac_fresh as (_ & _ & ?)|apply (bool_decide_eq_true_1 _); vm_compute; reflexivity..].
  - apply free_of_fresh; [by apply NoDup_app in ac_store as (_ & _ & ?)|apply (bool_decide_eq_true_1 _); vm_compute; reflexivity..].
  - apply List.Forall_forall. intros p [_ Hp]%list_elem_of_In%list_elem_of_filter.
    pose proof (fr_aligned _ _ (demo_fresh (open_state demo_session) eq_refl eq_refl)) as Ha. rewrite List.Forall_forall in Ha.
    by apply Ha, list_elem_of_In.
Qed.

Lemma bind_is_all_or_nothing_witness : demo_bind.1 = inr ETIMEDOUT /\ released [] demo_bind.2.
Proof.
  assert (He : demo_bind.1 = inr ETIMEDOUT) by (vm_compute; reflexivity). split; [exact He|].
  assert (H : match demo_bind with
    | (inl _, x') => connected demo_world [] x'
    | (inr _, x') => released [] x' \/ retained demo_world [] x'
    end).
  { unfold demo_bind. apply bind_is_all_or_nothing; [apply demo_platform_ok|simpl; lia| |simpl; lia|reflexivity| |].
    - constructor; apply not_elem_of_nil.
    - apply (process_inv_reachable 1 2 64), rtc_refl.
    - split; [constructor|]; reflexivity. }
  revert He H. generalize demo_bind. intros [[]]; simpl; [discriminate|]. intros _ [Hr|[Hc _]]; [exact Hr|].
  exfalso. destruct Hc as [H|[H|[H|H]]]; [discriminate H|discriminate H|apply H; reflexivity..].
Defined.
